(* ===== verification/_CoqProject ===== *)
-Q . S2P
Prelude.v
RustStr.v
NetAddr.v
Models.v
Errors.v
Platform.v
World.v
Pagination.v
Scopes.v
Crypto.v
AuditTrail.v
MailService.v
Auth.v
Schema.v
AuthProofs.v
Threads.v
Orgs.v
ApiKeys.v
Jwks.v
Oauth.v
Disk.v
StorageBackend.v
BackendLaws.v
Storage.v
StorageProofs.v
JobQueue.v
Webhooks.v
Realtime.v
Worker.v
Http.v
Extractors.v
Idempotency.v
Middleware.v
Config.v
Boot.v
Validation.v
Routes.v
FileRoutes.v
Gates.v
Api.v
OpenApi.v
Documented.v
Invariants.v
OneShot.v
Transfers.v
