(* ===== verification/Prelude.v ===== *)
(** * Verification of the Axum production scaffold

    The program ([src/src], Rust) is an HTTP API over PostgreSQL: accounts with
    server-side sessions, API keys with scopes, apps and organizations, stored
    files with signed URLs, notifications pushed over Server-Sent Events, an audit
    trail, signed webhooks delivered by a background worker, and the middleware
    around it. This library models it handler by handler and statement by
    statement, and proves what each part promises.

    ** How the program is modelled

    - A handler is a function [World -> outcome * World] ([World.M]): the result
      is [Ok], [Err] of an [AppError], or [Panic]. The world holds the database
      ([Models.Db], one list of rows per table of the migrations), the clock, a
      counter of random draws, the object store, what was sent out (mail,
      notifications, metric increments), and two schedules of failures to come,
      one for database calls and one for disk and bucket calls. A theorem that does
      not ask for [w_faults w = []] holds whatever fails.
    - An SQL statement is a function on the database ([World.Sql]) read off its
      text and the migrations: the rows it selects, the rows it writes, and the
      constraint it may violate ([23505], a foreign key, a column's width or
      range). [World.transaction] is [begin]...[commit]: an error or a panic
      inside, or a failed commit, restores the database.
    - A request runs at one instant, and handlers are atomic with respect to each
      other, except where a property is about their overlapping: sign-in, refresh,
      address verification, password reset, the callbacks of a social sign-in and
      the two requests of a presigned upload are also threads of actions, one
      statement or transaction each, run in every interleaving ([Threads],
      [OneShot], [Transfers], with the proof that a thread alone is the handler),
      and the job queue is a step relation over several workers. A claim of the
      idempotency guard is a thread too ([Idempotency.claim_thread]), for the run in which
      another request comes between its two statements.
    - Integers are [Z]; widths are written out where the source can wrap, refuse
      or panic ([i64] durations, [u64] offsets, [u32] and [u16] settings).
    - Third-party code is the fields of [Platform.Platform] (hashing, encryption,
      JWT, base64, time conversion, validators), [Platform.Remote] (providers,
      key endpoints, webhook receivers), [Disk.S3Api] (the bucket),
      [MailService.Lettre] (SMTP), [Api.Wire] (axum's path matching and extractors,
      serde) and [Boot.Startup] (the recorder, the pool, the migrations, the
      listener). Nothing is assumed of them but by a named hypothesis of a theorem; [Platform.toy] is
      the concrete instance the examples run on.

    ** Files, in dependency order

    - [Prelude], [RustStr], [NetAddr]: outcomes, options and table operations;
      strings as UTF-8 bytes with the standard library's methods on them, and its
      parser of socket addresses.
    - [Models], [Errors], [Platform], [World]: [models/*.rs] and the tables;
      [error/mod.rs]; the outside; the handler monad with its reasoning rules
      ([respects], [steady], [atomic], [raises]).
    - [Pagination], [Scopes], [Crypto]: [models/pagination.rs],
      [models/api_key.rs], [crypto/mod.rs].
    - [AuditTrail], [MailService], [Auth], [Schema], [AuthProofs], [Threads]:
      [services/audit.rs, mail.rs, auth.rs]; the keys and the foreign keys of the
      tables as invariants ([Schema.db_wf], [Schema.db_refs]); handlers as
      threads of actions, and guessing in parallel.
    - [Orgs], [ApiKeys], [Jwks], [Oauth]: [services/org.rs, api_key.rs],
      [crypto/jwks.rs], [services/oauth.rs].
    - [Disk], [StorageBackend], [BackendLaws], [Storage], [StorageProofs]: the
      storage trait as a class of operations, its contract as a second class that
      the local and the S3 backend are both proved to meet, and
      [services/storage.rs] verified against the contract.
    - [JobQueue], [Webhooks], [Realtime], [Worker]: [services/job_queue.rs,
      webhook.rs, notification.rs, realtime.rs] and the background loops of
      [main.rs]; the queue as a step relation ([JobQueue.queue_step]) and the
      worker loop as a refinement of it.
    - [Http], [Extractors], [Idempotency], [Middleware]: requests and responses;
      [middleware/*.rs] and the layer stack of [lib.rs].
    - [Config], [Boot], [Validation]: [config/mod.rs]; [main] from the environment
      to the listener, as a monad that leaves a trace; the request validators.
    - [Routes], [FileRoutes], [Gates], [Api]: every handler of
      [routes/], the credential each one takes, the route table with the endpoint
      behind each row (extractors in order, body, rendering). A definition
      [<fn>_handler] is the body of the handler [<fn>], [<fn>_route] its row.
    - [OpenApi], [Documented]: the description beside each handler ([<fn>_op], the
      attribute of [<fn>]), the document of [lib.rs] and [bin/export_openapi.rs];
      the document against the application.
    - [Invariants]: what the whole application together with the background loops
      preserves.
    - [OneShot], [Transfers]: credentials that are good for one use, under requests
      that overlap, by a logic of threads ([OneShot.shot]); uploads that overlap
      their completion.

    ** What the theorems show

    - Sessions and credentials ([AuthProofs]): which sessions authenticate, refresh
      rotation and the detection of a replayed token, single-use recovery tokens,
      that a failed recovery leaves no trace, that a 401 of sign-in tells nothing;
      with overlapping requests, how many guesses a lockout period allows
      ([Threads]) and that a recovery token, a refresh token and the state of a
      social sign-in work once ([OneShot]).
    - The whole service ([Invariants]): through any sequence of requests to the
      application, worker iterations, clean-ups and failures every key of the schema
      stays unique, every reference points to a row that exists, the audit trail
      only grows, nobody becomes an administrator, no ban or deletion is undone,
      and no revoked session comes back.
    - Authorization ([Extractors], [Gates], [Api], [Orgs], [Scopes], [FileRoutes]):
      the authenticator against an inductive specification of a caller, the
      administrator gate, the gate of every route for whatever request the
      application receives, a route table in which no row hides another, no
      escalation through membership, scopes that fail closed, who may download.
    - The description ([Documented]): the published document lists what is served
      and nothing else, a success is answered with a documented status and the JSON
      of the documented type, and what is marked as secured is refused without
      credentials.
    - Files ([StorageProofs], [BackendLaws]): what is stored is what was sent, an upload
      refused for its bytes leaves nothing, presigned uploads, signed URLs, keys that
      cannot leave the storage root; two races of uploads as runs ([Transfers]).
    - Asynchrony ([JobQueue], [Worker], [Webhooks], [Realtime]): exclusive
      execution, bounded attempts, refinement of the step relation by the worker
      loop, deliveries that end while their worker lives, a fan-out that matches the
      subscriptions, events that reach their owner only, a clean-up that removes only
      what is past its retention.
    - The edge ([Idempotency], [Middleware], [Config], [Validation]): what the
      idempotency guard does on the table the migrations make, which lacks the columns it
      names (it refuses what it must and lets everything else through, retries
      included); what a scope binds and does not; headers no handler can
      remove, metric labels bounded by the routes, configurations that are
      well-formed.
    - Start-up ([Boot]): how the log is set up; the server serves exactly when all it needs is there, in
      one order of steps, and in production hardened, with mail over TLS.
    - Data ([Pagination], [Crypto], [Routes]): round trips of cursors, scopes and
      sealed values; a feed read to its end by following its cursors.

    ** Bounds and fuel

    The loops of the source that end are structural recursions here (over a list of
    chunks, parts, digits or rows). [Pagination.traverse] and [Routes.crawl] follow
    cursors with fuel; more fuel than there are rows is enough, and the theorems
    prove it, since every page but the last advances. [Worker.rounds] iterates the
    body of an endless loop a given number of times; [delivery_terminates] says how
    many are needed.

    ** Not modelled

    - The log lines, the Prometheus recorder's rendering, utoipa's JSON of the
      document and the page that shows it: output without logic. How the server
      drains its connections after the shutdown signal is axum's.
    - What axum does inside its matching and its extraction of queries, JSON and
      multipart, and the CORS, timeout, body-limit, tracing and request-identifier
      layers of [tower_http]: third-party. [Api.Wire] and [Middleware.create_app]
      take them as parameters; [Api.lawful_match], [Api.lawful_rejections] and
      [Middleware.Layered] state what is documented of them (which requests a layer
      answers itself, and that it hands on every other).
    - The rate limiter's bucket arithmetic (the governor crate); the key it limits
      by and the settings it is built with are modelled.
    - Cancellation of a handler by the request timeout, in the middle of its
      statements, and dropped connections, other than as a thread that takes no
      further action and through the fault schedules.
    - PostgreSQL's isolation inside a transaction: where handlers overlap, a
      transaction is one action (the refresh locks its row with [FOR UPDATE], the
      recovery transactions begin with their [UPDATE]). The claim of an idempotency key
      holds no lock between its INSERT and its SELECT, and is two.
    - [chrono]'s overflow panics on configured lifetimes (a refresh lifetime of 10^12
      days): time is [Z] there; where a request sets the lifetime they are modelled
      ([ApiKeys.key_expiry]). The 8000 bytes PostgreSQL allows a NOTIFY: the program's
      own limit, below it, is.
    - The [last_used_at] of an API key is written by a detached task; here it is written
      before the request goes on. *)
From Stdlib Require Export ZArith NArith Lia Bool.
From Stdlib Require Export String Ascii.
From stdpp Require Export base tactics option numbers strings sets list.

#[global] Set Default Goal Selector "!".
#[export] Set Warnings "-clear-no-such-hyp,-register-all".

(** ** Outcomes

    A request handler in the source returns [Result<T, AppError>]; the third
    constructor is an unwinding panic, which is neither. *)
Inductive outcome (A E : Type) : Type :=
| Ok (a : A)
| Err (e : E)
| Panic.
Arguments Ok {A E} a.
Arguments Err {A E} e.
Arguments Panic {A E}.

Definition is_ok {A E} (r : outcome A E) : bool :=
  match r with Ok _ => true | _ => false end.

(** ** Options as the source's [Option] methods *)

Definition is_none {A} (o : option A) : bool :=
  match o with None => true | Some _ => false end.

Definition is_some {A} (o : option A) : bool :=
  match o with None => false | Some _ => true end.

Definition unwrap_or {A} (d : A) (o : option A) : A :=
  match o with Some a => a | None => d end.

Definition or_else {A} (o1 o2 : option A) : option A :=
  match o1 with Some _ => o1 | None => o2 end.

(** [Option::is_some_and] *)
Definition is_some_and {A} (p : A -> bool) (o : option A) : bool :=
  match o with Some a => p a | None => false end.

Definition opt_eqb {A} (eqb : A -> A -> bool) (x y : option A) : bool :=
  match x, y with
  | Some a, Some b => eqb a b
  | None, None => true
  | _, _ => false
  end.

(** ** Rows and tables

    A table is the list of its rows in storage order; the statements of the
    source are the usual relational operations on it. *)
Section Tables.
Context {A : Type}.
Implicit Types (p : A -> bool) (f : A -> A) (t : list A).

(** [SELECT ... WHERE p] *)
Definition select p t : list A := List.filter p t.

(** [fetch_optional]: the first row the query yields. *)
Definition fetch_optional p t : option A := List.find p t.

(** [SELECT EXISTS(... WHERE p)] *)
Definition exists_row p t : bool := List.existsb p t.

(** [UPDATE ... SET f WHERE p] *)
Definition update_where p f t : list A := List.map (fun r => if p r then f r else r) t.

(** [rows_affected] of an [UPDATE] or [DELETE] with that predicate *)
Definition rows_affected p t : nat := length (select p t).

(** [DELETE ... WHERE p] *)
Definition delete_where p t : list A := List.filter (fun r => negb (p r)) t.

(** [INSERT]: new rows go to the end. *)
Definition insert_row (r : A) t : list A := t ++ [r].
End Tables.

(** Uniqueness of a partial key: rows in scope of the index have distinct keys. *)
Definition unique_on {A K} (key : A -> option K) (t : list A) : Prop :=
  NoDup (omap key t).

(** ** Tactics *)

(** Break the innermost scrutinee of a [match] or [if] in the goal. *)
Ltac break_match_goal :=
  match goal with
  | |- context [match ?x with _ => _ end] =>
      lazymatch x with
      | context [match _ with _ => _ end] => fail
      | _ => let E := fresh "E" in destruct x eqn:E
      end
  end.

Ltac break_match_hyp :=
  match goal with
  | H : context [match ?x with _ => _ end] |- _ =>
      lazymatch x with
      | context [match _ with _ => _ end] => fail
      | _ => let E := fresh "E" in destruct x eqn:E
      end
  end.

(** Boolean facts in the context, turned into propositions. *)
Ltac bool_facts :=
  repeat match goal with
  | H : (_ && _)%bool = true |- _ => apply andb_true_iff in H as [? ?]
  | H : (_ || _)%bool = false |- _ => apply orb_false_iff in H as [? ?]
  | H : negb _ = true |- _ => apply negb_true_iff in H
  | H : negb _ = false |- _ => apply negb_false_iff in H
  | H : (_ =? _)%N = true |- _ => apply N.eqb_eq in H
  | H : (_ =? _)%N = false |- _ => apply N.eqb_neq in H
  | H : (_ =? _)%Z = true |- _ => apply Z.eqb_eq in H
  | H : (_ =? _)%Z = false |- _ => apply Z.eqb_neq in H
  | H : (_ <=? _)%Z = true |- _ => apply Z.leb_le in H
  | H : (_ <=? _)%Z = false |- _ => apply Z.leb_gt in H
  | H : (_ <? _)%Z = true |- _ => apply Z.ltb_lt in H
  | H : (_ <? _)%Z = false |- _ => apply Z.ltb_ge in H
  | H : String.eqb _ _ = true |- _ => apply String.eqb_eq in H
  | H : String.eqb _ _ = false |- _ => apply String.eqb_neq in H
  | H : is_none ?o = true |- _ => destruct o eqn:?; [discriminate H | clear H]
  | H : is_none ?o = false |- _ => destruct o eqn:?; [clear H | discriminate H]
  | H : is_some ?o = true |- _ => destruct o eqn:?; [clear H | discriminate H]
  | H : is_some ?o = false |- _ => destruct o eqn:?; [discriminate H | clear H]
  end.

(** ** Lemmas about tables *)

Create HintDb table.

Section TableLemmas.
Context {A : Type}.
Implicit Types (p q : A -> bool) (f : A -> A) (t : list A).

Lemma elem_of_select p t r : r ∈ select p t ↔ p r = true ∧ r ∈ t.
Proof.
  unfold select. rewrite !list_elem_of_In, filter_In. naive_solver.
Qed.

Lemma elem_of_delete_where p t r : r ∈ delete_where p t ↔ p r = false ∧ r ∈ t.
Proof.
  unfold delete_where. rewrite !list_elem_of_In, filter_In, negb_true_iff. naive_solver.
Qed.

Lemma elem_of_update_where p f t r :
  r ∈ update_where p f t ↔ ∃ r0, r0 ∈ t ∧ r = if p r0 then f r0 else r0.
Proof.
  unfold update_where. rewrite list_elem_of_In, in_map_iff.
  setoid_rewrite list_elem_of_In. naive_solver.
Qed.

Lemma elem_of_insert_row r0 t r : r ∈ insert_row r0 t ↔ r ∈ t ∨ r = r0.
Proof. unfold insert_row. set_solver. Qed.

Lemma fetch_optional_Some p t r :
  fetch_optional p t = Some r → p r = true ∧ r ∈ t.
Proof.
  intros H. apply find_some in H as [? ?]. by rewrite list_elem_of_In.
Qed.

Lemma fetch_optional_None p t :
  fetch_optional p t = None ↔ ∀ r, r ∈ t → p r = false.
Proof.
  unfold fetch_optional. induction t as [|r t IH]; simpl.
  - split; [intros _ r Hr; set_solver | done].
  - destruct (p r) eqn:E.
    + split; [done | intros H]. specialize (H r). rewrite H in E; [done | set_solver].
    + rewrite IH. set_solver.
Qed.

Lemma fetch_optional_is_Some p t r :
  r ∈ t → p r = true → is_Some (fetch_optional p t).
Proof.
  intros Hr Hp. destruct (fetch_optional p t) eqn:E; [by eexists |].
  rewrite fetch_optional_None in E. rewrite (E r Hr) in Hp. done.
Qed.

Lemma exists_row_true p t : exists_row p t = true ↔ ∃ r, r ∈ t ∧ p r = true.
Proof.
  unfold exists_row. rewrite existsb_exists. setoid_rewrite list_elem_of_In. done.
Qed.

Lemma exists_row_false p t : exists_row p t = false ↔ ∀ r, r ∈ t → p r = false.
Proof.
  rewrite <- not_true_iff_false, exists_row_true. split.
  - intros H r Hr. destruct (p r) eqn:E; [|done]. exfalso. eauto.
  - intros H [r [Hr Hp]]. rewrite H in Hp; done.
Qed.

(** A query whose predicate selects at most one row finds that row. *)
Lemma fetch_optional_unique p t r :
  r ∈ t → p r = true → (∀ r', r' ∈ t → p r' = true → r' = r) →
  fetch_optional p t = Some r.
Proof.
  intros Hr Hp Hu. destruct (fetch_optional_is_Some p t r Hr Hp) as [r' Hr'].
  rewrite Hr'. apply fetch_optional_Some in Hr' as [? ?]. f_equal. auto.
Qed.

Lemma update_where_id p f t :
  (∀ r, r ∈ t → p r = true → f r = r) → update_where p f t = t.
Proof.
  intros H. unfold update_where. rewrite <- (List.map_id t) at 2.
  apply List.map_ext_in. intros r Hr. destruct (p r) eqn:E; [|done].
  apply H; [by rewrite list_elem_of_In | done].
Qed.

Lemma update_where_false p f t :
  (∀ r, r ∈ t → p r = false) → update_where p f t = t.
Proof. intros H. apply update_where_id. intros r Hr Hp. rewrite H in Hp; done. Qed.

Lemma length_update_where p f t : length (update_where p f t) = length t.
Proof. apply length_map. Qed.

Lemma update_where_twice p f t :
  (∀ r, p r = true → p (f r) = false) →
  update_where p f (update_where p f t) = update_where p f t.
Proof.
  intros Hpf. unfold update_where. rewrite List.map_map. apply List.map_ext.
  intros r. destruct (p r) eqn:E; [by rewrite Hpf | by rewrite E].
Qed.

Lemma fetch_optional_update_where p q f t :
  (∀ r, r ∈ t → p (if q r then f r else r) = p r) →
  fetch_optional p (update_where q f t)
  = (λ r, if q r then f r else r) <$> fetch_optional p t.
Proof.
  unfold fetch_optional, update_where. induction t as [|r t IH]; simpl; intros H; [done|].
  rewrite H by set_solver. destruct (p r); [done|].
  apply IH. intros r' Hr'. apply H. set_solver.
Qed.

Lemma select_none p t : (∀ r, r ∈ t → p r = false) → select p t = [].
Proof.
  unfold select. induction t as [|r t IH]; simpl; intros H; [done|].
  rewrite H by set_solver. apply IH. set_solver.
Qed.

(** A deletion that affected no row is no deletion. *)
Lemma delete_where_none p t : rows_affected p t = 0%nat → delete_where p t = t.
Proof.
  unfold rows_affected, select, delete_where. induction t as [|r t IH]; simpl; [done|].
  destruct (p r); simpl; [done|]. intros H. by rewrite IH.
Qed.

Lemma select_app p t1 t2 : select p (t1 ++ t2) = select p t1 ++ select p t2.
Proof. apply List.filter_app. Qed.

Lemma fetch_optional_app p t1 t2 :
  fetch_optional p (t1 ++ t2) =
  match fetch_optional p t1 with Some r => Some r | None => fetch_optional p t2 end.
Proof.
  unfold fetch_optional. induction t1 as [|r t1 IH]; simpl; [done|].
  by destruct (p r).
Qed.

Lemma fetch_optional_insert_new p t r :
  (∀ r', r' ∈ t → p r' = false) → p r = true →
  fetch_optional p (insert_row r t) = Some r.
Proof.
  intros Ht Hr. unfold insert_row. rewrite fetch_optional_app.
  apply fetch_optional_None in Ht. rewrite Ht. simpl. by rewrite Hr.
Qed.
End TableLemmas.

Section UniqueLemmas.
Context {A K : Type}.
Implicit Types (key : A -> option K) (t : list A).

Lemma omap_update_where key (p : A -> bool) (f : A -> A) t :
  (∀ r, r ∈ t → p r = true → key (f r) = key r) →
  omap key (update_where p f t) = omap key t.
Proof.
  induction t as [|r t IH]; csimpl; intros H; [done|].
  rewrite IH by (intros r' Hr'; apply H; set_solver).
  destruct (p r) eqn:E; [|done]. rewrite H; [done | set_solver | done].
Qed.

Lemma unique_on_update key (p : A -> bool) (f : A -> A) t :
  (∀ r, r ∈ t → p r = true → key (f r) = key r) →
  unique_on key t → unique_on key (update_where p f t).
Proof. intros H. unfold unique_on. by rewrite omap_update_where. Qed.

(** An update that only takes rows out of a partial index keeps it unique. *)
Lemma unique_on_update_drop key (p : A -> bool) (f : A -> A) t :
  (∀ r, r ∈ t → p r = true → key (f r) = key r ∨ key (f r) = None) →
  unique_on key t → unique_on key (update_where p f t).
Proof.
  unfold unique_on. intros H Hu.
  assert (Hs : sublist (omap key (update_where p f t)) (omap key t)).
  { clear Hu. induction t as [|r t IH]; [done|]. csimpl.
    assert (Hrest : sublist (omap key (update_where p f t)) (omap key t))
      by (apply IH; intros r' Hr'; apply H; set_solver).
    destruct (p r) eqn:E.
    - destruct (H r) as [-> | ->]; [set_solver | done | |].
      + destruct (key r); [by apply sublist_skip | done].
      + destruct (key r); [by apply sublist_cons | done].
    - destruct (key r); [by apply sublist_skip | done]. }
  eapply sublist_NoDup; eauto.
Qed.

Lemma unique_on_delete key (p : A -> bool) t :
  unique_on key t → unique_on key (delete_where p t).
Proof.
  unfold unique_on. intros Hu. eapply sublist_NoDup; [exact Hu|].
  clear Hu. unfold delete_where. induction t as [|r t IH]; [done|]. csimpl.
  destruct (p r); csimpl; destruct (key r);
    [by apply sublist_cons | done | by apply sublist_skip | done].
Qed.

Lemma unique_on_insert key r t :
  unique_on key t →
  (∀ k r', key r = Some k → r' ∈ t → key r' ≠ Some k) →
  unique_on key (insert_row r t).
Proof.
  unfold unique_on, insert_row. intros Hu Hn. rewrite omap_app. csimpl.
  destruct (key r) as [k|] eqn:E; [|by rewrite app_nil_r].
  apply NoDup_app. split; [done|]. split; [|by apply NoDup_singleton].
  intros k' Hk' ->%list_elem_of_singleton. apply list_elem_of_omap in Hk' as (r' & Hr' & Hk).
  by eapply Hn.
Qed.

Lemma unique_on_inj key t k r1 r2 :
  unique_on key t → r1 ∈ t → r2 ∈ t → key r1 = Some k → key r2 = Some k → r1 = r2.
Proof.
  unfold unique_on. induction t as [|r t IH]; csimpl; [set_solver|].
  intros Hu H1 H2 K1 K2.
  assert (Hin : ∀ r', r' ∈ t → key r' = Some k → k ∈ omap key t)
    by (intros; apply list_elem_of_omap; eauto).
  rewrite !elem_of_cons in *. destruct H1 as [->|H1], H2 as [->|H2]; [done | | |].
  - rewrite K1 in Hu. apply NoDup_cons in Hu as [Hn _]. exfalso. eauto.
  - rewrite K2 in Hu. apply NoDup_cons in Hu as [Hn _]. exfalso. eauto.
  - apply IH; try done. destruct (key r); [by apply NoDup_cons in Hu as [_ ?] | done].
Qed.
End UniqueLemmas.

#[export] Hint Resolve unique_on_update unique_on_delete unique_on_insert : table.
