(* ===== verification/RustStr.v ===== *)
(** * Rust strings and integers

    A [String]/[&str] of the source is the byte sequence of its UTF-8 form; the
    methods that speak of [char]s decode it. This file gives the standard
    library operations the scaffold uses: decoding, [trim], ASCII lower-casing,
    prefix and split operations, and the decimal form of integers. *)
From S2P Require Import Prelude.

Declare Scope rust_scope.
Delimit Scope rust_scope with rust.
#[global] Open Scope rust_scope.
Notation "a =s b" := (String.eqb a b) (at level 70) : rust_scope.

(** ** Bytes *)

Definition byte_val (a : ascii) : Z := Z.of_N (N_of_ascii a).
Definition byte_of (z : Z) : ascii := ascii_of_N (Z.to_N z).
Definition bytes_of (s : string) : list Z := List.map byte_val (list_ascii_of_string s).
Definition string_of_bytes (l : list Z) : string := string_of_list_ascii (List.map byte_of l).

(** [str::len] counts bytes. *)
Definition str_len (s : string) : Z := Z.of_nat (String.length s).

(** ** UTF-8 *)

(** The scalar values a [char] may hold. *)
Definition is_scalar (c : Z) : bool :=
  ((0 <=? c) && (c <? 55296) || (57344 <=? c) && (c <? 1114112))%Z%bool.

Definition utf8_encode_char (c : Z) : list Z :=
  (if c <? 128 then [c]
   else if c <? 2048 then [192 + c / 64; 128 + c mod 64]
   else if c <? 65536 then [224 + c / 4096; 128 + (c / 64) mod 64; 128 + c mod 64]
   else [240 + c / 262144; 128 + (c / 4096) mod 64; 128 + (c / 64) mod 64; 128 + c mod 64])%Z.

Definition utf8_encode (cs : list Z) : list Z := flat_map utf8_encode_char cs.

Definition is_cont (b : Z) : bool := ((128 <=? b) && (b <? 192))%Z%bool.

(** [str::from_utf8]: the shortest-form, surrogate-free decoding. *)
Fixpoint utf8_decode (l : list Z) : option (list Z) :=
  match l with
  | [] => Some []
  | b0 :: t =>
      if (b0 <? 128)%Z then cons b0 <$> utf8_decode t
      else if ((194 <=? b0) && (b0 <? 224))%Z%bool then
        match t with
        | b1 :: t1 =>
            if is_cont b1 then
              cons ((b0 - 192) * 64 + (b1 - 128))%Z <$> utf8_decode t1
            else None
        | [] => None
        end
      else if ((224 <=? b0) && (b0 <? 240))%Z%bool then
        match t with
        | b1 :: b2 :: t2 =>
            let c := ((b0 - 224) * 4096 + (b1 - 128) * 64 + (b2 - 128))%Z in
            if (is_cont b1 && is_cont b2 && (2048 <=? c)%Z && is_scalar c)%bool then
              cons c <$> utf8_decode t2
            else None
        | _ => None
        end
      else if ((240 <=? b0) && (b0 <? 245))%Z%bool then
        match t with
        | b1 :: b2 :: b3 :: t3 =>
            let c := ((b0 - 240) * 262144 + (b1 - 128) * 4096
                      + (b2 - 128) * 64 + (b3 - 128))%Z in
            if (is_cont b1 && is_cont b2 && is_cont b3 && (65536 <=? c)%Z && is_scalar c)%bool then
              cons c <$> utf8_decode t3
            else None
        | _ => None
        end
      else None
  end.

(** [String::from_utf8_lossy] on bytes: every maximal ill-formed piece becomes one
    replacement character. *)
Definition REPLACEMENT : list Z := [239; 191; 189]%Z.
Definition second_of_three (b0 b1 : Z) : bool :=
  (if b0 =? 224 then (160 <=? b1) && (b1 <? 192)
   else if b0 =? 237 then (128 <=? b1) && (b1 <? 160)
   else is_cont b1)%Z%bool.
Definition second_of_four (b0 b1 : Z) : bool :=
  (if b0 =? 240 then (144 <=? b1) && (b1 <? 192)
   else if b0 =? 244 then (128 <=? b1) && (b1 <? 144)
   else is_cont b1)%Z%bool.
Fixpoint utf8_lossy (l : list Z) : list Z :=
  match l with
  | [] => []
  | b0 :: t =>
      if (b0 <? 128)%Z then b0 :: utf8_lossy t
      else if ((194 <=? b0) && (b0 <? 224))%Z%bool then
        match t with
        | b1 :: t1 => if is_cont b1 then b0 :: b1 :: utf8_lossy t1 else REPLACEMENT ++ utf8_lossy t
        | [] => REPLACEMENT
        end
      else if ((224 <=? b0) && (b0 <? 240))%Z%bool then
        match t with
        | b1 :: t1 =>
            if second_of_three b0 b1 then
              match t1 with
              | b2 :: t2 => if is_cont b2 then b0 :: b1 :: b2 :: utf8_lossy t2
                            else REPLACEMENT ++ utf8_lossy t1
              | [] => REPLACEMENT
              end
            else REPLACEMENT ++ utf8_lossy t
        | [] => REPLACEMENT
        end
      else if ((240 <=? b0) && (b0 <? 245))%Z%bool then
        match t with
        | b1 :: t1 =>
            if second_of_four b0 b1 then
              match t1 with
              | b2 :: t2 =>
                  if is_cont b2 then
                    match t2 with
                    | b3 :: t3 => if is_cont b3 then b0 :: b1 :: b2 :: b3 :: utf8_lossy t3
                                  else REPLACEMENT ++ utf8_lossy t2
                    | [] => REPLACEMENT
                    end
                  else REPLACEMENT ++ utf8_lossy t1
              | [] => REPLACEMENT
              end
            else REPLACEMENT ++ utf8_lossy t
        | [] => REPLACEMENT
        end
      else REPLACEMENT ++ utf8_lossy t
  end.
Definition from_utf8_lossy (s : string) : string := string_of_bytes (utf8_lossy (bytes_of s)).

(** [s.chars()]; a Rust string is always valid UTF-8, so the default is unused. *)
Definition chars (s : string) : list Z := unwrap_or [] (utf8_decode (bytes_of s)).

(** [collect::<String>()] *)
Definition of_chars (cs : list Z) : string := string_of_bytes (utf8_encode cs).

(** ** Character classes *)

(** [char::is_whitespace] (the Unicode [White_Space] property) *)
Definition is_whitespace (c : Z) : bool :=
  ((9 <=? c) && (c <=? 13) || (c =? 32) || (c =? 133) || (c =? 160) || (c =? 5760)
   || (8192 <=? c) && (c <=? 8202) || (c =? 8232) || (c =? 8233) || (c =? 8239)
   || (c =? 8287) || (c =? 12288))%Z%bool.

(** [char::is_control] (general category [Cc]) *)
Definition is_control (c : Z) : bool :=
  ((0 <=? c) && (c <? 32) || (127 <=? c) && (c <? 160))%Z%bool.

(** [char::is_ascii_alphanumeric] *)
Definition is_ascii_alphanumeric (c : Z) : bool :=
  ((48 <=? c) && (c <=? 57) || (65 <=? c) && (c <=? 90) || (97 <=? c) && (c <=? 122))%Z%bool.

(** [char::is_ascii_hexdigit] *)
Definition is_ascii_hexdigit (c : Z) : bool :=
  ((48 <=? c) && (c <=? 57) || (65 <=? c) && (c <=? 70) || (97 <=? c) && (c <=? 102))%Z%bool.

(** ** [str] methods *)

Fixpoint drop_while (p : Z -> bool) (l : list Z) : list Z :=
  match l with
  | [] => []
  | c :: t => if p c then drop_while p t else l
  end.

Definition trim_list (p : Z -> bool) (l : list Z) : list Z :=
  rev (drop_while p (rev (drop_while p l))).

(** [str::trim] *)
Definition trim (s : string) : string := of_chars (trim_list is_whitespace (chars s)).

(** [str::trim_end_matches] and [str::trim_matches] on an ASCII character *)
Definition trim_end_matches (c : Z) (s : string) : string :=
  string_of_bytes (rev (drop_while (Z.eqb c) (rev (bytes_of s)))).
Definition trim_matches (c : Z) (s : string) : string :=
  string_of_bytes (trim_list (Z.eqb c) (bytes_of s)).

Definition lower_byte (b : Z) : Z := if ((65 <=? b) && (b <=? 90))%Z%bool then (b + 32)%Z else b.

(** [str::to_ascii_lowercase] *)
Definition to_ascii_lowercase (s : string) : string :=
  string_of_bytes (List.map lower_byte (bytes_of s)).

(** [str::strip_prefix]; [starts_with] is its success. *)
Fixpoint strip_prefix (p s : string) : option string :=
  match p, s with
  | EmptyString, _ => Some s
  | String a p', String b s' => if Ascii.eqb a b then strip_prefix p' s' else None
  | _, _ => None
  end.
Definition starts_with (p s : string) : bool := is_some (strip_prefix p s).

(** [str::split_once] on an ASCII character *)
Fixpoint split_once (c : ascii) (s : string) : option (string * string) :=
  match s with
  | EmptyString => None
  | String a s' =>
      if Ascii.eqb a c then Some (EmptyString, s')
      else match split_once c s' with
           | Some (l, r) => Some (String a l, r)
           | None => None
           end
  end.

(** [str::split] on an ASCII character: never empty. *)
Fixpoint split (c : ascii) (s : string) : list string :=
  match s with
  | EmptyString => [EmptyString]
  | String a s' =>
      if Ascii.eqb a c then EmptyString :: split c s'
      else match split c s' with
           | w :: ws => String a w :: ws
           | [] => [String a EmptyString]
           end
  end.

(** [str::contains] *)
Fixpoint contains (p s : string) : bool :=
  starts_with p s || match s with EmptyString => false | String _ s' => contains p s' end.

(** [s.replace(c, "")] for an ASCII character *)
Definition remove_char (c : Z) (s : string) : string :=
  string_of_bytes (List.filter (fun b => negb (b =? c)%Z) (bytes_of s)).

(** [slice.join(sep)] *)
Definition join (sep : string) (l : list string) : string := String.concat sep l.

(** A double quote, kept out of string literals. *)
Definition dquote : string := String (ascii_of_nat 34) EmptyString.
Definition newline : string := String (ascii_of_nat 10) EmptyString.

(** ** Integers as text *)

Definition digit_char (d : Z) : ascii := byte_of (48 + d).
Definition digit_val (a : ascii) : option Z :=
  let b := byte_val a in if ((48 <=? b) && (b <=? 57))%Z%bool then Some (b - 48)%Z else None.

Fixpoint show_digits (fuel : nat) (n : Z) (acc : string) : string :=
  match fuel with
  | O => acc
  | S fuel' =>
      let acc' := String (digit_char (n mod 10)) acc in
      if (n / 10 =? 0)%Z then acc' else show_digits fuel' (n / 10) acc'
  end.

(** [Display] of an integer. A number has at most as many decimal digits as
    binary ones, which is the fuel. *)
Definition show_nat_Z (n : Z) : string := show_digits (S (Z.to_nat (Z.log2 n))) n EmptyString.
Definition show_Z (n : Z) : string :=
  if (n <? 0)%Z then String (ascii_of_nat 45) (show_nat_Z (- n)) else show_nat_Z n.

Fixpoint parse_digits (s : string) (acc : Z) : option Z :=
  match s with
  | EmptyString => Some acc
  | String a s' => match digit_val a with
                   | Some d => parse_digits s' (acc * 10 + d)%Z
                   | None => None
                   end
  end.

Definition parse_nonempty (s : string) : option Z :=
  match s with EmptyString => None | _ => parse_digits s 0 end.

Definition in_range (lo hi : Z) (o : option Z) : option Z :=
  match o with
  | Some z => if ((lo <=? z) && (z <=? hi))%Z%bool then Some z else None
  | None => None
  end.

(** [FromStr] for a signed [w]-bit integer: an optional sign, then digits. *)
Definition parse_int (w : Z) (s : string) : option Z :=
  in_range (- 2 ^ (w - 1)) (2 ^ (w - 1) - 1)
    (match s with
     | String a s' =>
         if (byte_val a =? 45)%Z then Z.opp <$> parse_nonempty s'
         else if (byte_val a =? 43)%Z then parse_nonempty s'
         else parse_nonempty s
     | EmptyString => None
     end).

(** [FromStr] for an unsigned [w]-bit integer: no minus sign. *)
Definition parse_uint (w : Z) (s : string) : option Z :=
  in_range 0 (2 ^ w - 1)
    (match s with
     | String a s' => if (byte_val a =? 43)%Z then parse_nonempty s' else parse_nonempty s
     | EmptyString => None
     end).

(** [FromStr] for [bool] *)
Definition parse_bool (s : string) : option bool :=
  if s =s "true" then Some true else if s =s "false" then Some false else None.

(** The [{byte:02x}] format, and [u8::from_str_radix(_, 16)] on one digit *)
Definition hex_digit (d : Z) : ascii := byte_of (if (d <? 10)%Z then 48 + d else 87 + d).
Definition hex_byte (b : Z) : string :=
  String (hex_digit (b / 16)) (String (hex_digit (b mod 16)) EmptyString).
Definition hex_val (b : Z) : option Z :=
  (if (48 <=? b) && (b <=? 57) then Some (b - 48)
   else if (97 <=? b) && (b <=? 102) then Some (b - 87)
   else if (65 <=? b) && (b <=? 70) then Some (b - 55)
   else None)%Z%bool.
Definition hex_encode (l : list Z) : string :=
  fold_right (fun b acc => hex_byte b +:+ acc) EmptyString l.

(** ** Machine arithmetic *)

(** Unsigned 64-bit wrap-around, and the [as i64] reinterpretation of a [u64]. *)
Definition wrap_u64 (z : Z) : Z := z mod 2 ^ 64.
Definition u64_as_i64 (z : Z) : Z := if (z <? 2 ^ 63)%Z then z else (z - 2 ^ 64)%Z.
Definition i64_as_i32 (z : Z) : Z :=
  let m := (z mod 2 ^ 32)%Z in if (m <? 2 ^ 31)%Z then m else (m - 2 ^ 32)%Z.
Definition i32_as_u16 (z : Z) : Z := (z mod 2 ^ 16)%Z.
Definition i64_max : Z := 2 ^ 63 - 1.
Definition u64_max : Z := 2 ^ 64 - 1.

(** ** Lemmas: bytes *)

Definition is_byte (z : Z) : Prop := (0 <= z < 256)%Z.

Lemma byte_val_range a : is_byte (byte_val a).
Proof.
  unfold is_byte, byte_val. pose proof (N_ascii_bounded a). lia.
Qed.

Lemma byte_of_val a : byte_of (byte_val a) = a.
Proof. unfold byte_of, byte_val. rewrite N2Z.id. apply ascii_N_embedding. Qed.

Lemma byte_val_of z : is_byte z → byte_val (byte_of z) = z.
Proof.
  unfold is_byte, byte_of, byte_val. intros H. rewrite N_ascii_embedding; lia.
Qed.

Lemma string_of_bytes_of s : string_of_bytes (bytes_of s) = s.
Proof.
  unfold string_of_bytes, bytes_of. rewrite List.map_map.
  rewrite (List.map_ext _ (fun a => a)), List.map_id by apply byte_of_val.
  apply string_of_list_ascii_of_string.
Qed.

Lemma bytes_of_string l : Forall is_byte l → bytes_of (string_of_bytes l) = l.
Proof.
  unfold string_of_bytes, bytes_of. intros H.
  rewrite list_ascii_of_string_of_list_ascii, List.map_map.
  induction H as [|z l Hz _ IH]; simpl; [done|]. by rewrite byte_val_of, IH.
Qed.

Lemma bytes_of_range s : Forall is_byte (bytes_of s).
Proof.
  unfold bytes_of. apply Forall_forall. intros z Hz.
  apply list_elem_of_In, in_map_iff in Hz as (a & <- & _). apply byte_val_range.
Qed.

Lemma bytes_of_inj s1 s2 : bytes_of s1 = bytes_of s2 → s1 = s2.
Proof. intros H. by rewrite <- (string_of_bytes_of s1), H, string_of_bytes_of. Qed.

Lemma bytes_of_app s1 s2 : bytes_of (s1 +:+ s2) = bytes_of s1 ++ bytes_of s2.
Proof.
  unfold bytes_of. induction s1 as [|a s1 IH]; simpl; [done|]. by rewrite IH.
Qed.

Lemma length_bytes_of s : length (bytes_of s) = String.length s.
Proof. unfold bytes_of. rewrite length_map. induction s; simpl; auto. Qed.

(** ** Lemmas: UTF-8 *)

#[local] Ltac Zify.zify_post_hook ::= Z.to_euclidean_division_equations.

Ltac z_cases :=
  repeat (case_match; bool_facts);
  unfold is_cont, is_scalar in *;
  repeat match goal with
  | H : (_ && _)%bool = false |- _ => apply andb_false_iff in H
  | H : (_ || _)%bool = true |- _ => apply orb_true_iff in H
  | H : _ ∨ _ |- _ => destruct H
  | H : _ ∧ _ |- _ => destruct H
  end; bool_facts; try lia.

Lemma is_scalar_iff c :
  is_scalar c = true ↔ (0 <= c < 55296 ∨ 57344 <= c < 1114112)%Z.
Proof. unfold is_scalar. lia. Qed.

Lemma utf8_encode_char_bytes c :
  is_scalar c = true → Forall is_byte (utf8_encode_char c).
Proof.
  rewrite is_scalar_iff. intros H. unfold utf8_encode_char.
  repeat case_match; bool_facts;
    repeat first [apply Forall_nil_2 | apply Forall_cons_2]; unfold is_byte; lia.
Qed.

Lemma utf8_decode_encode_char c l :
  is_scalar c = true → utf8_decode (utf8_encode_char c ++ l) = cons c <$> utf8_decode l.
Proof.
  intros Hs. pose proof Hs as H. rewrite is_scalar_iff in H. unfold utf8_encode_char.
  destruct (c <? 128)%Z eqn:E1; [simpl; by rewrite E1|].
  destruct (c <? 2048)%Z eqn:E2; [|destruct (c <? 65536)%Z eqn:E3]; bool_facts; cbn [app utf8_decode].
  - replace (192 + c / 64 <? 128)%Z with false by lia.
    replace ((194 <=? 192 + c / 64) && (192 + c / 64 <? 224))%Z%bool with true by lia.
    replace (is_cont (128 + c mod 64)) with true by (unfold is_cont; lia).
    do 2 f_equal. lia.
  - replace (224 + c / 4096 <? 128)%Z with false by lia.
    replace ((194 <=? 224 + c / 4096) && (224 + c / 4096 <? 224))%Z%bool with false by lia.
    replace ((224 <=? 224 + c / 4096) && (224 + c / 4096 <? 240))%Z%bool with true by lia.
    replace ((224 + c / 4096 - 224) * 4096 + (128 + (c / 64) mod 64 - 128) * 64
             + (128 + c mod 64 - 128))%Z with c by lia.
    rewrite Hs. replace (is_cont _) with true by (unfold is_cont; lia).
    replace (is_cont _) with true by (unfold is_cont; lia).
    by replace (2048 <=? c)%Z with true by lia.
  - replace (240 + c / 262144 <? 128)%Z with false by lia.
    replace ((194 <=? 240 + c / 262144) && (240 + c / 262144 <? 224))%Z%bool with false by lia.
    replace ((224 <=? 240 + c / 262144) && (240 + c / 262144 <? 240))%Z%bool with false by lia.
    replace ((240 <=? 240 + c / 262144) && (240 + c / 262144 <? 245))%Z%bool with true by lia.
    replace ((240 + c / 262144 - 240) * 262144 + (128 + (c / 4096) mod 64 - 128) * 4096
             + (128 + (c / 64) mod 64 - 128) * 64 + (128 + c mod 64 - 128))%Z with c by lia.
    rewrite Hs. do 3 replace (is_cont _) with true by (unfold is_cont; lia).
    by replace (65536 <=? c)%Z with true by lia.
Qed.

Lemma utf8_decode_encode cs :
  Forall (λ c, is_scalar c = true) cs → utf8_decode (utf8_encode cs) = Some cs.
Proof.
  induction 1 as [|c cs Hc _ IH]; [done|].
  change (utf8_encode (c :: cs)) with (utf8_encode_char c ++ utf8_encode cs).
  by rewrite utf8_decode_encode_char, IH.
Qed.

Lemma utf8_encode_bytes cs :
  Forall (λ c, is_scalar c = true) cs → Forall is_byte (utf8_encode cs).
Proof.
  induction 1 as [|c cs Hc _ IH]; [constructor|].
  apply Forall_app. split; [by apply utf8_encode_char_bytes | done].
Qed.

(** Peel the bytes already read off a [Forall is_byte] hypothesis. *)
Ltac peel_bytes :=
  repeat match goal with
  | H : Forall is_byte (_ :: _) |- _ => apply list.Forall_cons in H as [? H]
  | H : is_byte _ |- _ => unfold is_byte in H
  end.

Lemma utf8_decode_scalars_aux n l cs :
  length l <= n → Forall is_byte l → utf8_decode l = Some cs →
  Forall (λ c, is_scalar c = true) cs.
Proof.
  revert l cs. induction n as [|n IH]; intros l cs Hn Hl.
  { destruct l; [|simpl in Hn; lia]. intros [= <-]. constructor. }
  destruct l as [|b0 t]; [intros [= <-]; constructor|]. cbn [utf8_decode].
  simpl in Hn. peel_bytes.
  repeat case_match; subst; try discriminate; intros (cs' & Hd & ->)%fmap_Some_1;
    peel_bytes; bool_facts; unfold is_cont in *; bool_facts;
    (apply Forall_cons_2; [try done; rewrite is_scalar_iff; lia|]);
    (eapply IH; [|exact Hl|exact Hd]); simpl in *; lia.
Qed.

Lemma utf8_decode_scalars l cs :
  Forall is_byte l → utf8_decode l = Some cs → Forall (λ c, is_scalar c = true) cs.
Proof. by apply utf8_decode_scalars_aux with (n := length l). Qed.

(** A well-formed text is kept as it is. *)
Lemma utf8_lossy_valid_aux n l cs :
  (length l <= n)%nat → Forall is_byte l → utf8_decode l = Some cs → utf8_lossy l = l.
Proof.
  revert l cs. induction n as [|n IH]; intros [|b0 t] cs Hn Hb H; try done; [simpl in Hn; lia|].
  inversion_clear Hb as [|? ? Hb0 Hbt]. unfold is_byte in Hb0. cbn [utf8_decode utf8_lossy length] in *.
  destruct (b0 <? 128)%Z eqn:E0.
  { apply fmap_Some in H as (r & H & _). f_equal. eapply IH; eauto; lia. }
  destruct ((194 <=? b0) && (b0 <? 224))%Z%bool eqn:E1.
  { destruct t as [|b1 t1]; [done|]. destruct (is_cont b1) eqn:Ec; [|done].
    apply fmap_Some in H as (r & H & _). inversion_clear Hbt. do 2 f_equal.
    eapply IH; eauto; simpl in *; lia. }
  destruct ((224 <=? b0) && (b0 <? 240))%Z%bool eqn:E2.
  { destruct t as [|b1 [|b2 t2]]; [done|done|].
    destruct (_ && _)%bool eqn:Ec in H; [|done]. apply fmap_Some in H as (r & H & _).
    inversion_clear Hbt as [|? ? Hb1 Hbt']. inversion_clear Hbt'.
    assert (second_of_three b0 b1 = true ∧ is_cont b2 = true) as [-> ->].
    { unfold second_of_three, is_cont, is_scalar in *. repeat case_match; lia. }
    do 3 f_equal. eapply IH; eauto; simpl in *; lia. }
  destruct ((240 <=? b0) && (b0 <? 245))%Z%bool eqn:E3; [|done].
  destruct t as [|b1 [|b2 [|b3 t3]]]; [done|done|done|].
  destruct (_ && _)%bool eqn:Ec in H; [|done]. apply fmap_Some in H as (r & H & _).
  inversion_clear Hbt as [|? ? Hb1 Hbt']. inversion_clear Hbt' as [|? ? Hb2 Hbt''].
  inversion_clear Hbt''.
  assert (second_of_four b0 b1 = true ∧ is_cont b2 = true ∧ is_cont b3 = true) as (-> & -> & ->).
  { unfold second_of_four, is_cont, is_scalar in *. repeat case_match; lia. }
  do 4 f_equal. eapply IH; eauto; simpl in *; lia.
Qed.

Lemma from_utf8_lossy_valid s cs : utf8_decode (bytes_of s) = Some cs → from_utf8_lossy s = s.
Proof.
  intros H. unfold from_utf8_lossy.
  rewrite (utf8_lossy_valid_aux (length (bytes_of s)) (bytes_of s) cs); [|lia|apply bytes_of_range|done].
  apply string_of_bytes_of.
Qed.

Lemma chars_scalar s : Forall (λ c, is_scalar c = true) (chars s).
Proof.
  unfold chars. destruct (utf8_decode (bytes_of s)) eqn:E; simpl; [|constructor].
  eapply utf8_decode_scalars; eauto using bytes_of_range.
Qed.

Lemma chars_of_chars cs : Forall (λ c, is_scalar c = true) cs → chars (of_chars cs) = cs.
Proof.
  intros H. unfold chars, of_chars.
  by rewrite bytes_of_string, utf8_decode_encode by eauto using utf8_encode_bytes.
Qed.

(** ** Lemmas: trimming *)

Section Trim.
Context (p : Z -> bool).

Lemma drop_while_suffix l : ∃ k, l = k ++ drop_while p l ∧ Forall (λ c, p c = true) k.
Proof.
  induction l as [|c l (k & IH & Hk)]; simpl; [by exists []|].
  destruct (p c) eqn:E.
  - exists (c :: k). simpl. split; [by rewrite <- IH | by constructor].
  - by exists [].
Qed.

Lemma drop_while_head l :
  match drop_while p l with [] => True | c :: _ => p c = false end.
Proof. induction l as [|c l IH]; simpl; [done|]. by destruct (p c) eqn:E. Qed.

Lemma drop_while_id l :
  match l with [] => True | c :: _ => p c = false end → drop_while p l = l.
Proof. destruct l as [|c l]; simpl; [done|]. by intros ->. Qed.

Lemma trim_list_Forall (P : Z -> Prop) l : Forall P l → Forall P (trim_list p l).
Proof.
  intros H. unfold trim_list.
  destruct (drop_while_suffix l) as (k1 & E1 & _).
  rewrite E1, Forall_app in H. destruct H as [_ H].
  set (m := drop_while p l) in *. apply Forall_rev in H.
  destruct (drop_while_suffix (rev m)) as (k2 & E2 & _).
  rewrite E2, Forall_app in H. apply Forall_rev. tauto.
Qed.

Lemma trim_list_idemp l : trim_list p (trim_list p l) = trim_list p l.
Proof.
  unfold trim_list. set (m := drop_while p l). set (r := drop_while p (rev m)).
  assert (Hr : drop_while p r = r) by (apply drop_while_id, drop_while_head).
  assert (Hm : drop_while p (rev r) = rev r).
  { apply drop_while_id. destruct (drop_while_suffix (rev m)) as (k & E & _). fold r in E.
    pose proof (drop_while_head l) as Hh. fold m in Hh.
    assert (Em : m = rev r ++ rev k) by (rewrite <- rev_app_distr, <- E; by rewrite rev_involutive).
    rewrite Em in Hh. by destruct (rev r). }
  rewrite Hm, rev_involutive, Hr. done.
Qed.
End Trim.

Lemma chars_trim s : chars (trim s) = trim_list is_whitespace (chars s).
Proof. apply chars_of_chars, trim_list_Forall, chars_scalar. Qed.

Lemma trim_idemp s : trim (trim s) = trim s.
Proof.
  unfold trim at 1. rewrite chars_trim, trim_list_idemp. done.
Qed.

(** ** Lemmas: integers as text *)

Lemma digit_val_char d : (0 <= d < 10)%Z → digit_val (digit_char d) = Some d.
Proof.
  intros H. unfold digit_val, digit_char. rewrite byte_val_of by (unfold is_byte; lia).
  replace ((48 <=? 48 + d) && (48 + d <=? 57))%Z%bool with true by lia. f_equal. lia.
Qed.

Lemma parse_show_digits fuel n acc :
  (0 <= n < 10 ^ Z.of_nat (S fuel))%Z →
  parse_digits (show_digits (S fuel) n acc) 0 = parse_digits acc n.
Proof.
  revert n acc. induction fuel as [|fuel IH]; intros n acc Hn.
  - cbn [show_digits]. change (10 ^ Z.of_nat 1)%Z with 10%Z in Hn.
    replace (n / 10 =? 0)%Z with true by lia. cbn [parse_digits].
    rewrite digit_val_char by lia. f_equal. lia.
  - remember (S fuel) as f eqn:Ef. cbn [show_digits].
    destruct (n / 10 =? 0)%Z eqn:E; bool_facts.
    + cbn [parse_digits]. rewrite digit_val_char by lia. f_equal. lia.
    + subst f. rewrite IH.
      * cbn [parse_digits]. rewrite digit_val_char by lia. f_equal. lia.
      * replace (Z.of_nat (S (S fuel))) with (Z.of_nat (S fuel) + 1)%Z in Hn by lia.
        rewrite Z.pow_add_r in Hn by lia. lia.
Qed.

Lemma show_fuel_enough n : (0 <= n)%Z → (n < 10 ^ Z.of_nat (S (Z.to_nat (Z.log2 n))))%Z.
Proof.
  intros Hn. destruct (Z.eq_dec n 0%Z) as [->|Hz]; [done|].
  pose proof (Z.log2_spec n ltac:(lia)) as [_ Hlt].
  replace (Z.of_nat (S (Z.to_nat (Z.log2 n)))) with (Z.succ (Z.log2 n))
    by (pose proof (Z.log2_nonneg n); lia).
  eapply Z.lt_le_trans; [exact Hlt|]. apply Z.pow_le_mono_l. lia.
Qed.

Lemma show_digits_cons fuel n acc :
  ∃ d s, (0 <= d < 10)%Z ∧ show_digits (S fuel) n acc = String (digit_char d) s.
Proof.
  revert n acc. induction fuel as [|fuel IH]; intros n acc; cbn [show_digits].
  - destruct (n / 10 =? 0)%Z; exists (n mod 10)%Z, acc; split; auto; lia.
  - destruct (n / 10 =? 0)%Z; [exists (n mod 10)%Z, acc; split; auto; lia|].
    apply (IH (n / 10)%Z).
Qed.

Lemma parse_show_nat n : (0 <= n)%Z →
  parse_nonempty (show_nat_Z n) = Some n ∧
  ∃ d s, (0 <= d < 10)%Z ∧ show_nat_Z n = String (digit_char d) s.
Proof.
  intros Hn. destruct (show_digits_cons (Z.to_nat (Z.log2 n)) n EmptyString) as (d & s & Hd & Hs).
  split; [|by exists d, s]. unfold show_nat_Z. unfold parse_nonempty. rewrite Hs, <- Hs.
  rewrite parse_show_digits; [done|]. split; [done|]. by apply show_fuel_enough.
Qed.

Lemma parse_int_show w z :
  (- 2 ^ (w - 1) <= z <= 2 ^ (w - 1) - 1)%Z → parse_int w (show_Z z) = Some z.
Proof.
  intros Hz. unfold parse_int, show_Z.
  assert (Hr : in_range (- 2 ^ (w - 1)) (2 ^ (w - 1) - 1) (Some z) = Some z).
  { simpl. by replace (_ && _)%bool with true by lia. }
  destruct (z <? 0)%Z eqn:E; bool_facts.
  - destruct (parse_show_nat (- z)) as [Hp _]; [lia|].
    replace (byte_val (ascii_of_nat 45) =? 45)%Z with true by done.
    rewrite Hp. simpl fmap. by rewrite Z.opp_involutive.
  - destruct (parse_show_nat z) as [Hp (d & s & Hd & Hs)]; [lia|]. rewrite Hs, <- Hs.
    unfold digit_char. rewrite byte_val_of by (unfold is_byte; lia).
    replace (48 + d =? 45)%Z with false by lia. replace (48 + d =? 43)%Z with false by lia.
    by rewrite Hp.
Qed.

(** Everything [show_Z] prints is a digit or the minus sign. *)
Definition int_char (a : ascii) : bool :=
  let b := byte_val a in ((48 <=? b) && (b <=? 57) || (b =? 45))%Z%bool.

Fixpoint all_ascii (p : ascii -> bool) (s : string) : bool :=
  match s with EmptyString => true | String a s' => p a && all_ascii p s' end.

Lemma show_digits_ascii fuel n acc :
  all_ascii int_char acc = true → all_ascii int_char (show_digits fuel n acc) = true.
Proof.
  revert n acc. induction fuel as [|fuel IH]; intros n acc Ha; cbn [show_digits]; [done|].
  assert (H : all_ascii int_char (String (digit_char (n mod 10)) acc) = true).
  { cbn [all_ascii]. rewrite Ha, andb_true_r. unfold int_char, digit_char.
    rewrite byte_val_of by (unfold is_byte; lia). lia. }
  destruct (n / 10 =? 0)%Z; auto.
Qed.

Lemma show_Z_ascii z : all_ascii int_char (show_Z z) = true.
Proof.
  unfold show_Z, show_nat_Z. destruct (z <? 0)%Z; [cbn [all_ascii]; rewrite andb_true_iff; split; [done|]|];
    by apply show_digits_ascii.
Qed.

(** ** Lemmas: splitting *)

Lemma str_app_assoc (a b c : string) : (a +:+ b) +:+ c = a +:+ (b +:+ c).
Proof. induction a as [|x a IH]; [done|]. change (String x ((a +:+ b) +:+ c) = String x (a +:+ (b +:+ c))). by rewrite IH. Qed.

Lemma split_once_app c l r :
  all_ascii (λ a, negb (Ascii.eqb a c)) l = true →
  split_once c (l +:+ String c r) = Some (l, r).
Proof.
  induction l as [|a l IH]; simpl.
  - by rewrite Ascii.eqb_refl.
  - intros H. bool_facts. rewrite H. by rewrite IH.
Qed.

Definition without (c : ascii) : string -> bool := all_ascii (λ a, negb (Ascii.eqb a c)).

Lemma split_nonempty c s : split c s ≠ [].
Proof. destruct s as [|a s]; cbn; [done|]. destruct (Ascii.eqb a c); [done|]. by destruct (split c s). Qed.

Lemma split_without c s : Forall (without c) (split c s).
Proof.
  induction s as [|a s IH]; cbn; [by repeat constructor|].
  destruct (Ascii.eqb a c) eqn:E; [by constructor|].
  destruct (split c s) as [|w ws]; inversion IH as [|? ? Hw Hws]; subst; repeat constructor; try done; cbn; rewrite E; done.
Qed.

Lemma join_cons c x y l : join (String c "") (x :: y :: l) = x +:+ String c (join (String c "") (y :: l)).
Proof. done. Qed.

Lemma split_app c l r : without c l = true → split c (l +:+ String c r) = l :: split c r.
Proof.
  unfold without. induction l as [|a l IH]; simpl; [by rewrite Ascii.eqb_refl|].
  intros H. bool_facts. rewrite H. by rewrite IH.
Qed.
Lemma split_word c s : without c s = true → split c s = [s].
Proof. unfold without. induction s as [|a s IH]; simpl; [done|]. intros H. bool_facts. rewrite H. by rewrite IH. Qed.

(** Splitting undoes joining, and joining splitting. *)
Lemma split_join c l : l ≠ [] → Forall (without c) l → split c (join (String c "") l) = l.
Proof.
  intros Hl H. destruct l as [|x l]; [done|]. clear Hl. revert x H.
  induction l as [|y l IH]; intros x H; inversion H as [|? ? Hx Hr]; subst; [by apply split_word, Is_true_true|].
  rewrite join_cons, split_app, IH by (done || by apply Is_true_true). done.
Qed.
Lemma join_split c s : join (String c "") (split c s) = s.
Proof.
  induction s as [|a s IH]; simpl; [done|]. pose proof (split_nonempty c s) as Hne.
  destruct (split c s) as [|w ws]; [done|]. destruct (Ascii.eqb_spec a c) as [->|]; [by rewrite join_cons, IH|].
  destruct ws as [|x ws]; [by rewrite <- IH|]. by rewrite <- IH, !join_cons.
Qed.

Lemma all_ascii_impl (p q : ascii -> bool) s :
  (∀ a, p a = true → q a = true) → all_ascii p s = true → all_ascii q s = true.
Proof.
  intros Hpq. induction s as [|a s IH]; simpl; [done|]. intros H. bool_facts.
  by rewrite Hpq, IH.
Qed.

Lemma all_ascii_app p s1 s2 :
  all_ascii p (s1 +:+ s2) = (all_ascii p s1 && all_ascii p s2)%bool.
Proof.
  induction s1 as [|a s1 IH]; simpl; [done|]. by rewrite IH, andb_assoc.
Qed.

Lemma strip_prefix_app p s : strip_prefix p (p +:+ s) = Some s.
Proof. induction p as [|a p IH]; simpl; [done|]. by rewrite Ascii.eqb_refl. Qed.

Lemma strip_prefix_Some p s r : strip_prefix p s = Some r ↔ s = p +:+ r.
Proof.
  split; [|intros ->; apply strip_prefix_app].
  revert s. induction p as [|a p IH]; intros s; simpl; [by intros [= ->]|].
  destruct s as [|b s]; [done|]. destruct (Ascii.eqb a b) eqn:E; [|done].
  apply Ascii.eqb_eq in E as ->. intros H. by rewrite (IH _ H).
Qed.
