(* ===== verification/NetAddr.v ===== *)
(** * Socket addresses as text

    [SocketAddr::from_str] of the standard library ([core::net::parser]), which
    [main] applies to the host and port it is configured with: an IPv4 address
    and a port, or an IPv6 address in brackets and a port, and nothing after. *)
From S2P Require Import Prelude RustStr.

Inductive IpAddr := V4 (octets : list Z) | V6 (groups : list Z).
Record SocketAddr := { sa_ip : IpAddr; sa_port : Z }.

(** A reader takes a prefix, or nothing. *)
Abbreviation Reader A := (string -> option (A * string)) (only parsing).

Definition read_given_char (c : Z) : Reader unit := fun s =>
  match s with
  | String a r => if (byte_val a =? c)%Z then Some (tt, r) else None
  | EmptyString => None
  end.

(** [char::to_digit] *)
Definition to_digit (radix : Z) (a : ascii) : option Z :=
  let b := byte_val a in
  let d := if ((48 <=? b) && (b <=? 57))%Z%bool then (b - 48)%Z
           else if ((97 <=? b) && (b <=? 122))%Z%bool then (b - 87)%Z
           else if ((65 <=? b) && (b <=? 90))%Z%bool then (b - 55)%Z else 36%Z in
  if (d <? radix)%Z then Some d else None.

Fixpoint take_digits (radix : Z) (s : string) : list Z * string :=
  match s with
  | String a r => match to_digit radix a with
                  | Some d => let '(ds, rest) := take_digits radix r in (d :: ds, rest)
                  | None => ([], s)
                  end
  | EmptyString => ([], s)
  end.

Definition digits_value (radix : Z) (ds : list Z) (acc : Z) : Z :=
  fold_left (fun acc d => acc * radix + d)%Z ds acc.

(** A number of [bits] bits: all the digits there are, not more than [max_digits],
    and no needless zero in front unless allowed. *)
Definition read_number (radix : Z) (max_digits : option nat) (allow_zero_prefix : bool) (bits : Z) : Reader Z :=
  fun s =>
  let '(ds, rest) := take_digits radix s in
  let few := match max_digits with Some m => length ds <=? m | None => true end in
  let fits := (digits_value radix ds 0 <? 2 ^ bits)%Z in
  let zero := match ds with 0%Z :: _ :: _ => allow_zero_prefix | _ => true end in
  match ds with
  | [] => None
  | _ => if (few && fits && zero)%bool then Some (digits_value radix ds 0, rest) else None
  end.

(** [inner], after the separator unless at the first index. *)
Definition read_separator {A} (sep : Z) (index : nat) (inner : Reader A) : Reader A := fun s =>
  match index with
  | O => inner s
  | S _ => match read_given_char sep s with Some (_, r) => inner r | None => None end
  end.

Fixpoint read_octets (n index : nat) : Reader (list Z) := fun s =>
  match n with
  | O => Some ([], s)
  | S n' =>
      match read_separator 46 index (read_number 10 (Some 3) false 8) s with
      | Some (o, r) => match read_octets n' (S index) r with
                       | Some (os, r') => Some (o :: os, r')
                       | None => None
                       end
      | None => None
      end
  end.
Definition read_ipv4_addr : Reader (list Z) := read_octets 4 0.

(** [read_groups]: the groups read, at most [n] more, and whether they end in an
    IPv4 address. *)
Fixpoint read_groups (n index : nat) (s : string) : list Z * bool * string :=
  match n with
  | O => ([], false, s)
  | S n' =>
      let ipv4 := if 1 <=? n' then read_separator 58 index read_ipv4_addr s else None in
      match ipv4 with
      | Some ([a; b; c; d], r) => ([a * 256 + b; c * 256 + d]%Z, true, r)
      | _ =>
          match read_separator 58 index (read_number 16 (Some 4) true 16) s with
          | Some (g, r) => let '(gs, v4, r') := read_groups n' (S index) r in (g :: gs, v4, r')
          | None => ([], false, s)
          end
      end
  end.

Definition read_ipv6_addr : Reader (list Z) := fun s =>
  let '(head, head_ipv4, r) := read_groups 8 0 s in
  if length head =? 8 then Some (head, r)
  else if head_ipv4 then None
  else
    match read_given_char 58 r with
    | Some (_, r1) =>
        match read_given_char 58 r1 with
        | Some (_, r2) =>
            let '(tail, _, r3) := read_groups (8 - (length head + 1)) 0 r2 in
            Some (head ++ replicate (8 - length head - length tail) 0%Z ++ tail, r3)
        | None => None
        end
    | None => None
    end.

Definition read_port : Reader Z := fun s =>
  match read_given_char 58 s with Some (_, r) => read_number 10 None true 16 r | None => None end.

(** [unwrap_or(0)]: a malformed scope is left for the bracket to refuse. *)
Definition skip_scope_id (s : string) : string :=
  match read_given_char 37 s with
  | Some (_, r) => match read_number 10 None true 32 r with Some (_, r') => r' | None => s end
  | None => s
  end.

Definition read_socket_addr_v4 : Reader SocketAddr := fun s =>
  match read_ipv4_addr s with
  | Some (ip, r) => match read_port r with
                    | Some (port, r') => Some ({| sa_ip := V4 ip; sa_port := port |}, r')
                    | None => None
                    end
  | None => None
  end.

Definition read_socket_addr_v6 : Reader SocketAddr := fun s =>
  match read_given_char 91 s with
  | Some (_, r) =>
      match read_ipv6_addr r with
      | Some (ip, r1) =>
          match read_given_char 93 (skip_scope_id r1) with
          | Some (_, r2) =>
              match read_port r2 with
              | Some (port, r3) => Some ({| sa_ip := V6 ip; sa_port := port |}, r3)
              | None => None
              end
          | None => None
          end
      | None => None
      end
  | None => None
  end.

Definition parse_socket_addr (s : string) : option SocketAddr :=
  match (match read_socket_addr_v4 s with Some r => Some r | None => read_socket_addr_v6 s end) with
  | Some (addr, EmptyString) => Some addr
  | _ => None
  end.

Example parse_socket_addr_examples :
  parse_socket_addr "127.0.0.1:3000" = Some {| sa_ip := V4 [127; 0; 0; 1]; sa_port := 3000 |}%Z ∧
  parse_socket_addr "[::1]:80" = Some {| sa_ip := V6 [0; 0; 0; 0; 0; 0; 0; 1]; sa_port := 80 |}%Z ∧
  parse_socket_addr "[fe80::1:0:192.168.0.1%3]:80"
    = Some {| sa_ip := V6 [65152; 0; 0; 0; 1; 0; 49320; 1]; sa_port := 80 |}%Z ∧
  List.map parse_socket_addr ["localhost:3000"; "::1:3000"; ":::3000"; "127.0.0.01:80"; "127.0.0.256:80";
    "127.0.0.1:65536"; "127.0.0.1"; "127.0.0.1:80 "; "[1:2:3:4:5:6:7:8:9]:80"] = replicate 9 None.
Proof. vm_compute. repeat split. Qed.

(** ** Every IPv4 address is read back *)

Lemma to_digit_decimal a d : digit_val a = Some d → to_digit 10 a = Some d.
Proof.
  unfold digit_val, to_digit. destruct (_ && _)%bool eqn:E; [|done]. intros [= <-]. bool_facts.
  by replace (byte_val a - 48 <? 10)%Z with true by lia.
Qed.

Lemma take_digits_parse s acc n a r : to_digit 10 a = None → parse_digits s acc = Some n →
  ∃ ds, take_digits 10 (s +:+ String a r) = (ds, String a r) ∧ digits_value 10 ds acc = n ∧
    length ds = String.length s ∧ (∀ x t, ds = x :: t → ∃ b s', s = String b s' ∧ digit_val b = Some x).
Proof.
  intros Ha. revert acc. induction s as [|b s IH]; intros acc; cbn [parse_digits].
  - intros [= <-]. exists []. change (EmptyString +:+ String a r) with (String a r). cbn [take_digits]. rewrite Ha. by split_and!.
  - destruct (digit_val b) as [d|] eqn:Ed; [|done]. intros H. destruct (IH _ H) as (ds & Ht & Hv & Hl & _).
    exists (d :: ds). change (String b s +:+ String a r) with (String b (s +:+ String a r)).
    cbn [take_digits]. rewrite (to_digit_decimal b d Ed), Ht. cbn. split_and!; [done.. | lia |].
    intros x t [= <- <-]. eauto.
Qed.

Lemma take_digits_parse_end s acc n : parse_digits s acc = Some n →
  ∃ ds, take_digits 10 s = (ds, EmptyString) ∧ digits_value 10 ds acc = n ∧ length ds = String.length s.
Proof.
  revert acc. induction s as [|b s IH]; intros acc; cbn [parse_digits]; [intros [= <-]; by exists []|].
  destruct (digit_val b) as [d|] eqn:Ed; [|done]. intros H. destruct (IH _ H) as (ds & Ht & Hv & Hl).
  exists (d :: ds). cbn [take_digits]. rewrite (to_digit_decimal b d Ed), Ht. cbn. split_and!; [done.. | lia].
Qed.

Definition octet_text (n : Z) : bool :=
  match show_Z n with
  | String b (String _ _ as s) => negb (byte_val b =? 48)%Z && (String.length s <=? 2)
  | s => String.length s <=? 3
  end.
Lemma octet_text_ok n : (0 <= n < 256)%Z → octet_text n = true.
Proof.
  intros H. assert (Hall : forallb (fun k => octet_text (Z.of_nat k)) (seq 0 256) = true) by (vm_compute; reflexivity).
  rewrite forallb_forall in Hall. specialize (Hall (Z.to_nat n)). rewrite Z2Nat.id in Hall by lia.
  apply Hall, in_seq. lia.
Qed.

Lemma show_Z_digits n : (0 <= n)%Z → parse_digits (show_Z n) 0 = Some n ∧ String.length (show_Z n) ≠ 0.
Proof.
  intros Hn. unfold show_Z. replace (n <? 0)%Z with false by lia.
  destruct (parse_show_nat n Hn) as (Hp & d & s & _ & Hs). unfold parse_nonempty in Hp. rewrite Hs in *. done.
Qed.

Lemma read_octet n a r : (0 <= n < 256)%Z → to_digit 10 a = None →
  read_number 10 (Some 3) false 8 (show_Z n +:+ String a r) = Some (n, String a r).
Proof.
  intros Hn Ha. destruct (show_Z_digits n) as [Hp Hl]; [lia|].
  destruct (take_digits_parse _ 0 n a r Ha Hp) as (ds & Ht & Hv & Hlen & Hhd).
  unfold read_number. rewrite Ht, Hv. pose proof (octet_text_ok n Hn) as Ho. unfold octet_text in Ho.
  destruct ds as [|x ds]; [by rewrite <- Hlen in Hl|]. destruct (Hhd x ds eq_refl) as (b & s' & Es & Hb).
  rewrite Es in Hlen, Ho. replace (n <? 2 ^ 8)%Z with true by lia. cbn in Hlen.
  destruct s' as [|b2 s']; cbn in Hlen; destruct ds as [|y ds]; cbn in Hlen; try lia.
  - by destruct x.
  - apply andb_true_iff in Ho as [Hz Hs2]. apply Nat.leb_le in Hs2.
    replace (length (x :: y :: ds) <=? 3) with true by (symmetry; apply Nat.leb_le; cbn in *; lia).
    destruct x; [|done..]. exfalso. unfold digit_val in Hb. destruct (_ && _)%bool; [|done].
    injection Hb as Hb. bool_facts. lia.
Qed.

Definition show_ipv4 (a b c d : Z) : string :=
  show_Z a +:+ "." +:+ show_Z b +:+ "." +:+ show_Z c +:+ "." +:+ show_Z d.

Lemma read_octet_dot n r : (0 <= n < 256)%Z →
  read_number 10 (Some 3) false 8 (show_Z n +:+ "." +:+ r) = Some (n, "." +:+ r).
Proof. intros H. by apply read_octet. Qed.
Lemma read_octet_colon n r : (0 <= n < 256)%Z →
  read_number 10 (Some 3) false 8 (show_Z n +:+ ":" +:+ r) = Some (n, ":" +:+ r).
Proof. intros H. by apply read_octet. Qed.
Lemma read_dot r : read_given_char 46 ("." +:+ r) = Some (tt, r).
Proof. done. Qed.

Lemma read_port_show port : (0 <= port < 65536)%Z → read_port (":" +:+ show_Z port) = Some (port, "").
Proof.
  intros H. destruct (show_Z_digits port) as [Hp Hl]; [lia|].
  destruct (take_digits_parse_end _ _ _ Hp) as (ds & Ht & Hv & Hlen).
  change (read_port (":" +:+ show_Z port)) with (read_number 10 None true 16 (show_Z port)).
  unfold read_number. rewrite Ht, Hv. destruct ds as [|x ds]; [by rewrite <- Hlen in Hl|].
  replace (port <? 2 ^ 16)%Z with true by lia. by destruct x, ds.
Qed.

(** Whatever IPv4 address and port are configured, the address built of their text is
    that address and port. *)
Lemma parse_socket_addr_ipv4 a b c d port :
  (0 <= a < 256)%Z → (0 <= b < 256)%Z → (0 <= c < 256)%Z → (0 <= d < 256)%Z → (0 <= port < 65536)%Z →
  parse_socket_addr (show_ipv4 a b c d +:+ ":" +:+ show_Z port)
  = Some {| sa_ip := V4 [a; b; c; d]; sa_port := port |}.
Proof.
  intros Ha Hb Hc Hd Hp. unfold parse_socket_addr, read_socket_addr_v4, read_ipv4_addr, show_ipv4.
  rewrite !str_app_assoc. cbn [read_octets read_separator].
  rewrite read_octet_dot, read_dot, read_octet_dot, read_dot, read_octet_dot, read_dot, read_octet_colon by done.
  by rewrite read_port_show.
Qed.
