(* ===== verification/Models.v ===== *)
(** * Data model

    The structures of [src/src/models], the claims and request context of the
    services, and the rows of the tables the migrations create. A table whose
    columns are exactly the fields of its model uses the model as its row; the
    others wrap the model with the columns no query returns.

    Identifiers ([Uuid]) are their 128-bit value, timestamps are microseconds
    since the epoch (the precision of [TIMESTAMPTZ]). *)
From S2P Require Import Prelude.

Abbreviation Uuid := N (only parsing).
Abbreviation Timestamp := Z (only parsing).

(** The value type of [serde_json]. *)
Inductive Json : Type :=
| JNull
| JBool (b : bool)
| JNum (z : Z)
| JStr (s : string)
| JArr (l : list Json)
| JObj (l : list (string * Json)).

(** [v.as_array()] and [v.as_str()] *)
Definition as_array (v : Json) : option (list Json) :=
  match v with JArr l => Some l | _ => None end.
Definition as_str (v : Json) : option string :=
  match v with JStr s => Some s | _ => None end.
(** [v[key]]: [Null] where the key is missing *)
Definition json_index (v : Json) (key : string) : Json :=
  match v with
  | JObj l => match List.find (fun kv => String.eqb (fst kv) key) l with
              | Some kv => snd kv
              | None => JNull
              end
  | _ => JNull
  end.

(** ** Users, accounts, sessions ([models/user.rs]) *)

Record User := {
  u_id : Uuid; u_name : string; u_email : string; u_email_verified : bool;
  u_image : option string; u_role : string; u_banned : bool;
  u_created_at : Timestamp; u_updated_at : Timestamp }.

(** A row of [users]: the model plus the lockout and soft-delete columns. *)
Record UserRow := {
  ur_user : User;
  ur_failed_login_attempts : Z;
  ur_locked_until : option Timestamp;
  ur_deleted_at : option Timestamp }.

Record SessionUserRow := {
  sur_user : User; sur_revoked_at : option Timestamp; sur_session_expires_at : Timestamp }.

Record CredentialRow := {
  cr_user : User; cr_password : option string; cr_locked_until : option Timestamp }.

Record Session := {
  s_id : Uuid; s_user_id : Uuid; s_expires_at : Timestamp; s_revoked_at : option Timestamp }.

(** A row of [sessions]. *)
Record SessionRow := {
  sr_session : Session;
  sr_refresh_token_hash : string;
  sr_previous_token_hash : option string;
  sr_rotated_at : option Timestamp;
  sr_last_used_at : Timestamp;
  sr_ip_address : option string;
  sr_user_agent : option string }.

Inductive TokenPurpose := EmailVerify | PasswordReset.

Definition TokenPurpose_as_str (p : TokenPurpose) : string :=
  match p with EmailVerify => "email_verify" | PasswordReset => "password_reset" end.

Record Account := {
  a_id : Uuid; a_user_id : Uuid; a_account_id : string; a_provider_id : string;
  a_password : option string; a_access_token : option string;
  a_refresh_token : option string; a_access_token_expires_at : option Timestamp;
  a_created_at : Timestamp; a_updated_at : Timestamp }.

(** A row of [verifications]. *)
Record VerificationRow := {
  v_id : Uuid; v_identifier : string; v_purpose : string; v_token_hash : string;
  v_expires_at : Timestamp; v_consumed_at : option Timestamp }.

(** A row of [oauth_auth_requests]. *)
Record OAuthRequestRow := {
  oa_state_hash : string; oa_provider : string; oa_pkce_verifier : string;
  oa_expires_at : Timestamp; oa_consumed_at : option Timestamp }.

Record SignUpEmailRequest := {
  su_name : string; su_email : string; su_password : string; su_image : option string }.
Record SignInEmailRequest := { si_email : string; si_password : string }.
Record VerifyEmailRequest := { ve_token : string }.
Record ForgetPasswordRequest := { fp_email : string }.
Record ResetPasswordRequest := { rp_token : string; rp_new_password : string }.
Record UpdateUserRequest := { uu_name : option string; uu_image : option string }.
Record ChangePasswordRequest := { cp_current_password : string; cp_new_password : string }.
Record RefreshTokenRequest := { rt_refresh_token : string }.

Record UserResponse := {
  uresp_id : Uuid; uresp_name : string; uresp_email : string; uresp_email_verified : bool;
  uresp_image : option string; uresp_role : string; uresp_created_at : Timestamp }.

Definition UserResponse_from (u : User) : UserResponse :=
  {| uresp_id := u_id u; uresp_name := u_name u; uresp_email := u_email u;
     uresp_email_verified := u_email_verified u; uresp_image := u_image u;
     uresp_role := u_role u; uresp_created_at := u_created_at u |}.

Record AuthResponse := {
  ar_access_token : string; ar_refresh_token : string; ar_token_type : string;
  ar_expires_in : Z; ar_session_id : Uuid; ar_user : UserResponse }.

(** JWT claims and request metadata ([services/auth.rs]). *)
Record Claims := {
  c_sub : string; c_sid : string; c_email : string; c_role : string; c_exp : Z; c_iat : Z }.

Record RequestContext := { ctx_ip_address : option string; ctx_user_agent : option string }.

(** Claims of an external identity provider ([crypto/jwks.rs]). *)
Record RemoteClaims := {
  rc_sub : string; rc_email : option string; rc_name : option string; rc_role : option string;
  rc_org_id : option string; rc_email_verified : option bool; rc_exp : Z;
  rc_iat : option Z; rc_iss : option string; rc_aud : option Json }.

(** ** Apps, organizations, members ([models/org.rs]) *)

Inductive OrgRole := Member | Admin | Owner.

(** The discriminants the derived [Ord] compares. *)
Definition OrgRole_val (r : OrgRole) : Z :=
  match r with Member => 1 | Admin => 2 | Owner => 3 end%Z.
Definition OrgRole_ltb (a b : OrgRole) : bool := (OrgRole_val a <? OrgRole_val b)%Z.

Definition OrgRole_show (r : OrgRole) : string :=
  match r with Owner => "owner" | Admin => "admin" | Member => "member" end.

#[export] Instance OrgRole_eq_dec : EqDecision OrgRole.
Proof. solve_decision. Defined.

Record App := {
  app_id : Uuid; app_owner_id : Uuid; app_name : string; app_slug : string;
  app_description : option string; app_created_at : Timestamp; app_updated_at : Timestamp }.
Record CreateAppRequest := { ca_name : string; ca_slug : string; ca_description : option string }.

Record Organization := {
  org_id : Uuid; org_app_id : Uuid; org_name : string; org_slug : string;
  org_logo_url : option string; org_created_at : Timestamp; org_updated_at : Timestamp }.
Record CreateOrgRequest := { co_name : string; co_slug : string; co_logo_url : option string }.

Record OrgMember := {
  om_id : Uuid; om_org_id : Uuid; om_user_id : Uuid; om_role : string;
  om_created_at : Timestamp; om_updated_at : Timestamp }.
Record AddOrgMemberRequest := { am_user_id : Uuid; am_role : OrgRole }.

(** ** API keys ([models/api_key.rs]) *)

Record ApiKeyRecord := {
  k_id : Uuid; k_user_id : Uuid; k_org_id : option Uuid; k_name : string; k_key_start : string;
  k_scopes : option Json; k_expires_at : option Timestamp; k_last_used_at : option Timestamp;
  k_created_at : Timestamp; k_updated_at : Timestamp }.

(** A row of [api_keys]. *)
Record ApiKeyRow := { kr_record : ApiKeyRecord; kr_key_hash : string }.

Record CreateApiKeyRequest := {
  ck_name : string; ck_org_id : option Uuid; ck_scopes : option (list string);
  ck_expires_in_days : option Z }.
Record CreateApiKeyResponse := {
  ckr_id : Uuid; ckr_name : string; ckr_key : string; ckr_key_start : string;
  ckr_scopes : list string; ckr_expires_at : option Timestamp; ckr_created_at : Timestamp }.

(** ** Files ([models/upload.rs]) *)

Record FileRecord := {
  f_id : Uuid; f_owner_id : option Uuid; f_org_id : option Uuid; f_bucket : string;
  f_storage_key : string; f_original_name : string; f_mime_type : string; f_size_bytes : Z;
  f_checksum_sha256 : option string; f_visibility : string; f_status : string;
  f_created_at : Timestamp }.

(** A row of [files]. *)
Record FileRow := { fr_record : FileRecord; fr_deleted_at : option Timestamp }.

Record UploadResponse := {
  up_id : Uuid; up_org_id : option Uuid; up_storage_key : string; up_original_name : string;
  up_size_bytes : Z; up_mime_type : string; up_visibility : string; up_url : string }.
Record PresignedUploadRequest := {
  pu_filename : string; pu_content_type : string; pu_size_bytes : option Z;
  pu_visibility : option string; pu_org_id : option Uuid }.
Record PresignedUploadResponse := {
  pr_file_id : Uuid; pr_storage_key : string; pr_upload_url : string; pr_file_url : string;
  pr_complete_url : string; pr_method : string; pr_expires_at : Timestamp;
  pr_expires_in_seconds : Z; pr_max_bytes : Z }.
Record SignedUrlResponse := {
  su_url : string; su_expires_at : Timestamp; su_expires_in_seconds : Z }.

(** ** Notifications, audit, realtime ([models/events.rs]) *)

Record Notification := {
  n_id : Uuid; n_user_id : Uuid; n_org_id : option Uuid; n_title : string; n_body : string;
  n_read : bool; n_data : option Json; n_created_at : Timestamp }.
Record AuditLog := {
  al_id : Uuid; al_user_id : option Uuid; al_action : string; al_resource : string;
  al_resource_id : option string; al_ip_address : option string; al_user_agent : option string;
  al_metadata : option Json; al_created_at : Timestamp }.
Record RealtimeEvent := {
  re_id : Uuid; re_event_type : string; re_target_user_id : option Uuid; re_payload : Json;
  re_timestamp : Timestamp }.

(** ** Jobs and webhooks ([models/job.rs], [models/webhook.rs]) *)

Inductive JobStatus := Queued | Running | Completed | Failed | Cancelled.

Definition JobStatus_as_str (s : JobStatus) : string :=
  match s with
  | Queued => "queued" | Running => "running" | Completed => "completed"
  | Failed => "failed" | Cancelled => "cancelled"
  end.

Record BackgroundJobRecord := {
  j_id : Uuid; j_queue : string; j_job_type : string; j_payload : Json; j_status : string;
  j_attempts : Z; j_max_attempts : Z; j_last_error : option string; j_run_at : Timestamp;
  j_locked_at : option Timestamp; j_locked_by : option string; j_created_at : Timestamp;
  j_updated_at : Timestamp }.

Record WebhookRecord := {
  wh_id : Uuid; wh_app_id : option Uuid; wh_owner_id : Uuid; wh_org_id : option Uuid;
  wh_target_url : string; wh_secret : string; wh_events : list string; wh_is_active : bool;
  wh_created_at : Timestamp; wh_updated_at : Timestamp }.
Record CreateWebhookRequest := {
  cw_target_url : string; cw_app_id : option Uuid; cw_org_id : option Uuid;
  cw_events : list string }.
Record CreateWebhookResponse := {
  cwr_id : Uuid; cwr_app_id : option Uuid; cwr_target_url : string; cwr_org_id : option Uuid;
  cwr_events : list string; cwr_secret : string; cwr_created_at : Timestamp }.
Record WebhookDeliveryRecord := {
  wd_id : Uuid; wd_webhook_id : Uuid; wd_event_type : string; wd_payload : Json;
  wd_status : string; wd_status_code : option Z; wd_response_body : option string;
  wd_attempts : Z; wd_created_at : Timestamp; wd_updated_at : Timestamp }.

(** ** Settings ([config/mod.rs]) *)

Inductive Environment := Development | Production.
Definition is_production (e : Environment) : bool :=
  match e with Production => true | Development => false end.

(** [crypto::Secret]: the wrapped string is reachable only by [expose]. *)
Record Secret := MkSecret { expose : string }.
Definition Secret_is_empty (s : Secret) : bool := String.eqb (expose s) "".

Record Argon2Params := { memory_kib : Z; iterations : Z; parallelism : Z }.
Record SmtpConfig := {
  smtp_host : string; smtp_port : Z; smtp_from : string; smtp_username : option string;
  smtp_password : option Secret; smtp_use_tls : bool }.
Inductive StorageBackendKind := Local | S3.
Record S3Config := {
  s3_bucket : string; s3_region : string; s3_endpoint : option string;
  s3_access_key_id : string; s3_secret_access_key : Secret; s3_force_path_style : bool;
  s3_prefix : string }.
Record OAuthProviderConfig := {
  oc_client_id : string; oc_client_secret : Secret; oc_redirect_url : string }.
Record OidcProviderConfig := {
  oidc_jwks_url : string; oidc_expected_issuer : option string;
  oidc_expected_audience : option string }.

Record AppConfig := {
  environment : Environment; server_host : string; server_port : Z; public_base_url : string;
  database_url : Secret; database_max_connections : Z;
  jwt_secret : Secret; access_token_ttl_minutes : Z; refresh_token_ttl_days : Z;
  argon2 : Argon2Params; encryption_key : string; url_signing_key : string;
  email_verify_ttl_hours : Z; password_reset_ttl_minutes : Z;
  lockout_threshold : Z; lockout_minutes : Z;
  rate_limit_per_second : Z; rate_limit_burst_size : Z;
  auth_rate_limit_per_second : Z; auth_rate_limit_burst_size : Z; trust_proxy_headers : bool;
  cors_allowed_origins : list string; metrics_token : option Secret;
  idempotency_ttl_seconds : Z; request_timeout_seconds : Z; body_limit_bytes : Z;
  storage_backend : StorageBackendKind; s3 : option S3Config; upload_dir : string;
  max_upload_bytes : Z; allowed_upload_mime : list string; signed_url_ttl_seconds : Z;
  smtp : option SmtpConfig; google : option OAuthProviderConfig;
  github : option OAuthProviderConfig; oidc : option OidcProviderConfig }.

(** A row of [idempotency_keys], by the columns the middleware names. *)
Record IdempotencyRow := {
  ik_scope_hash : string; ik_status_code : option Z; ik_content_type : option string;
  ik_response_body : option string; ik_expires_at : Timestamp }.

(** ** The database *)

Record Db := {
  users : list UserRow;
  accounts : list Account;
  sessions : list SessionRow;
  verifications : list VerificationRow;
  oauth_auth_requests : list OAuthRequestRow;
  apps : list App;
  organizations : list Organization;
  org_members : list OrgMember;
  api_keys : list ApiKeyRow;
  notifications : list Notification;
  files : list FileRow;
  audit_logs : list AuditLog;
  background_jobs : list BackgroundJobRecord;
  webhooks : list WebhookRecord;
  webhook_deliveries : list WebhookDeliveryRecord;
  idempotency_keys : list IdempotencyRow }.

Definition empty_db : Db :=
  {| users := []; accounts := []; sessions := []; verifications := [];
     oauth_auth_requests := []; apps := []; organizations := []; org_members := [];
     api_keys := []; notifications := []; files := []; audit_logs := [];
     background_jobs := []; webhooks := []; webhook_deliveries := []; idempotency_keys := [] |}.

(** Table replacement, one setter per table. *)
Definition set_users t (d : Db) : Db :=
  {| users := t; accounts := accounts d; sessions := sessions d;
     verifications := verifications d; oauth_auth_requests := oauth_auth_requests d;
     apps := apps d; organizations := organizations d; org_members := org_members d;
     api_keys := api_keys d; notifications := notifications d; files := files d;
     audit_logs := audit_logs d; background_jobs := background_jobs d; webhooks := webhooks d;
     webhook_deliveries := webhook_deliveries d;
     idempotency_keys := idempotency_keys d |}.
Definition set_accounts t (d : Db) : Db :=
  {| users := users d; accounts := t; sessions := sessions d; verifications := verifications d;
     oauth_auth_requests := oauth_auth_requests d; apps := apps d;
     organizations := organizations d; org_members := org_members d; api_keys := api_keys d;
     notifications := notifications d; files := files d; audit_logs := audit_logs d;
     background_jobs := background_jobs d; webhooks := webhooks d;
     webhook_deliveries := webhook_deliveries d;
     idempotency_keys := idempotency_keys d |}.
Definition set_sessions t (d : Db) : Db :=
  {| users := users d; accounts := accounts d; sessions := t; verifications := verifications d;
     oauth_auth_requests := oauth_auth_requests d; apps := apps d;
     organizations := organizations d; org_members := org_members d; api_keys := api_keys d;
     notifications := notifications d; files := files d; audit_logs := audit_logs d;
     background_jobs := background_jobs d; webhooks := webhooks d;
     webhook_deliveries := webhook_deliveries d;
     idempotency_keys := idempotency_keys d |}.
Definition set_verifications t (d : Db) : Db :=
  {| users := users d; accounts := accounts d; sessions := sessions d; verifications := t;
     oauth_auth_requests := oauth_auth_requests d; apps := apps d;
     organizations := organizations d; org_members := org_members d; api_keys := api_keys d;
     notifications := notifications d; files := files d; audit_logs := audit_logs d;
     background_jobs := background_jobs d; webhooks := webhooks d;
     webhook_deliveries := webhook_deliveries d;
     idempotency_keys := idempotency_keys d |}.
Definition set_oauth_auth_requests t (d : Db) : Db :=
  {| users := users d; accounts := accounts d; sessions := sessions d;
     verifications := verifications d; oauth_auth_requests := t; apps := apps d;
     organizations := organizations d; org_members := org_members d; api_keys := api_keys d;
     notifications := notifications d; files := files d; audit_logs := audit_logs d;
     background_jobs := background_jobs d; webhooks := webhooks d;
     webhook_deliveries := webhook_deliveries d;
     idempotency_keys := idempotency_keys d |}.
Definition set_apps t (d : Db) : Db :=
  {| users := users d; accounts := accounts d; sessions := sessions d;
     verifications := verifications d; oauth_auth_requests := oauth_auth_requests d; apps := t;
     organizations := organizations d; org_members := org_members d; api_keys := api_keys d;
     notifications := notifications d; files := files d; audit_logs := audit_logs d;
     background_jobs := background_jobs d; webhooks := webhooks d;
     webhook_deliveries := webhook_deliveries d;
     idempotency_keys := idempotency_keys d |}.
Definition set_organizations t (d : Db) : Db :=
  {| users := users d; accounts := accounts d; sessions := sessions d;
     verifications := verifications d; oauth_auth_requests := oauth_auth_requests d;
     apps := apps d; organizations := t; org_members := org_members d; api_keys := api_keys d;
     notifications := notifications d; files := files d; audit_logs := audit_logs d;
     background_jobs := background_jobs d; webhooks := webhooks d;
     webhook_deliveries := webhook_deliveries d;
     idempotency_keys := idempotency_keys d |}.
Definition set_org_members t (d : Db) : Db :=
  {| users := users d; accounts := accounts d; sessions := sessions d;
     verifications := verifications d; oauth_auth_requests := oauth_auth_requests d;
     apps := apps d; organizations := organizations d; org_members := t; api_keys := api_keys d;
     notifications := notifications d; files := files d; audit_logs := audit_logs d;
     background_jobs := background_jobs d; webhooks := webhooks d;
     webhook_deliveries := webhook_deliveries d;
     idempotency_keys := idempotency_keys d |}.
Definition set_api_keys t (d : Db) : Db :=
  {| users := users d; accounts := accounts d; sessions := sessions d;
     verifications := verifications d; oauth_auth_requests := oauth_auth_requests d;
     apps := apps d; organizations := organizations d; org_members := org_members d;
     api_keys := t; notifications := notifications d; files := files d;
     audit_logs := audit_logs d; background_jobs := background_jobs d; webhooks := webhooks d;
     webhook_deliveries := webhook_deliveries d;
     idempotency_keys := idempotency_keys d |}.
Definition set_notifications t (d : Db) : Db :=
  {| users := users d; accounts := accounts d; sessions := sessions d;
     verifications := verifications d; oauth_auth_requests := oauth_auth_requests d;
     apps := apps d; organizations := organizations d; org_members := org_members d;
     api_keys := api_keys d; notifications := t; files := files d; audit_logs := audit_logs d;
     background_jobs := background_jobs d; webhooks := webhooks d;
     webhook_deliveries := webhook_deliveries d;
     idempotency_keys := idempotency_keys d |}.
Definition set_files t (d : Db) : Db :=
  {| users := users d; accounts := accounts d; sessions := sessions d;
     verifications := verifications d; oauth_auth_requests := oauth_auth_requests d;
     apps := apps d; organizations := organizations d; org_members := org_members d;
     api_keys := api_keys d; notifications := notifications d; files := t;
     audit_logs := audit_logs d; background_jobs := background_jobs d; webhooks := webhooks d;
     webhook_deliveries := webhook_deliveries d;
     idempotency_keys := idempotency_keys d |}.
Definition set_audit_logs t (d : Db) : Db :=
  {| users := users d; accounts := accounts d; sessions := sessions d;
     verifications := verifications d; oauth_auth_requests := oauth_auth_requests d;
     apps := apps d; organizations := organizations d; org_members := org_members d;
     api_keys := api_keys d; notifications := notifications d; files := files d; audit_logs := t;
     background_jobs := background_jobs d; webhooks := webhooks d;
     webhook_deliveries := webhook_deliveries d;
     idempotency_keys := idempotency_keys d |}.
Definition set_background_jobs t (d : Db) : Db :=
  {| users := users d; accounts := accounts d; sessions := sessions d;
     verifications := verifications d; oauth_auth_requests := oauth_auth_requests d;
     apps := apps d; organizations := organizations d; org_members := org_members d;
     api_keys := api_keys d; notifications := notifications d; files := files d;
     audit_logs := audit_logs d; background_jobs := t; webhooks := webhooks d;
     webhook_deliveries := webhook_deliveries d;
     idempotency_keys := idempotency_keys d |}.
Definition set_webhooks t (d : Db) : Db :=
  {| users := users d; accounts := accounts d; sessions := sessions d;
     verifications := verifications d; oauth_auth_requests := oauth_auth_requests d;
     apps := apps d; organizations := organizations d; org_members := org_members d;
     api_keys := api_keys d; notifications := notifications d; files := files d;
     audit_logs := audit_logs d; background_jobs := background_jobs d; webhooks := t;
     webhook_deliveries := webhook_deliveries d;
     idempotency_keys := idempotency_keys d |}.
Definition set_webhook_deliveries t (d : Db) : Db :=
  {| users := users d; accounts := accounts d; sessions := sessions d;
     verifications := verifications d; oauth_auth_requests := oauth_auth_requests d;
     apps := apps d; organizations := organizations d; org_members := org_members d;
     api_keys := api_keys d; notifications := notifications d; files := files d;
     audit_logs := audit_logs d; background_jobs := background_jobs d; webhooks := webhooks d;
     webhook_deliveries := t; idempotency_keys := idempotency_keys d |}.
Definition set_idempotency_keys t (d : Db) : Db :=
  {| users := users d; accounts := accounts d; sessions := sessions d;
     verifications := verifications d; oauth_auth_requests := oauth_auth_requests d;
     apps := apps d; organizations := organizations d; org_members := org_members d;
     api_keys := api_keys d; notifications := notifications d; files := files d;
     audit_logs := audit_logs d; background_jobs := background_jobs d; webhooks := webhooks d;
     webhook_deliveries := webhook_deliveries d; idempotency_keys := t |}.
