(* ===== verification/Errors.v ===== *)
(** * Errors and response envelopes ([error/mod.rs])

    [AppError] is the only error type a handler returns; [into_response] is its
    rendering. A database error keeps the one distinction the source makes: a
    unique violation reported by the server, any other server error, or an
    error of the client library (a lost connection, a missing row). *)
From S2P Require Import Prelude RustStr Models.

Inductive SqlxError :=
| UniqueViolation (constraint : string)
| OtherDatabase (code : string)
| NonDatabase (kind : string).

Inductive AppError :=
| BadRequest (msg : string)
| ValidationError (msg : string)
| Unauthorized (msg : string)
| Forbidden (msg : string)
| NotFound (msg : string)
| Conflict (msg : string)
| PayloadTooLarge (msg : string)
| TooManyRequests (msg : string)
| ServiceUnavailable (msg : string)
| DatabaseError (e : SqlxError)
| Internal (msg : string).

#[export] Instance SqlxError_eq_dec : EqDecision SqlxError.
Proof. solve_decision. Defined.
#[export] Instance AppError_eq_dec : EqDecision AppError.
Proof. solve_decision. Defined.

(** [db_err.is_unique_violation()] *)
Definition is_unique_violation (e : SqlxError) : bool :=
  match e with UniqueViolation _ => true | _ => false end.

(** [Display] of the error; sqlx's own message is its code here. *)
Definition SqlxError_show (e : SqlxError) : string :=
  match e with UniqueViolation c => c | OtherDatabase c => c | NonDatabase k => k end.
Definition AppError_show (e : AppError) : string :=
  match e with
  | BadRequest m => "Bad request: " +:+ m
  | ValidationError m => "Validation error: " +:+ m
  | Unauthorized m => "Unauthorized: " +:+ m
  | Forbidden m => "Forbidden: " +:+ m
  | NotFound m => "Resource not found: " +:+ m
  | Conflict m => "Conflict: " +:+ m
  | PayloadTooLarge m => "Payload too large: " +:+ m
  | TooManyRequests m => "Too many requests: " +:+ m
  | ServiceUnavailable m => "Service unavailable: " +:+ m
  | DatabaseError x => "Database error: " +:+ SqlxError_show x
  | Internal m => "Internal server error: " +:+ m
  end.

Record ApiErrorPayload := { ep_code : string; ep_message : string; ep_details : option Json }.
Record ApiErrorResponse := { er_success : bool; er_error : ApiErrorPayload }.
Record ApiResponse (T : Type) := MkApiResponse {
  resp_success : bool; resp_data : T; resp_meta : option Json }.
Arguments MkApiResponse {T} _ _ _.
Arguments resp_success {T} _.
Arguments resp_data {T} _.
Arguments resp_meta {T} _.

(** [ApiResponse::success] and [ApiResponse::with_meta] *)
Definition api_success {T} (data : T) : ApiResponse T := MkApiResponse true data None.
Definition api_with_meta {T} (data : T) (meta : Json) : ApiResponse T :=
  MkApiResponse true data (Some meta).

(** The status code, machine-readable code and message of each variant. *)
Definition error_parts (e : AppError) : Z * string * string :=
  match e with
  | BadRequest msg => (400%Z, "BAD_REQUEST", msg)
  | ValidationError msg => (422%Z, "VALIDATION_ERROR", msg)
  | Unauthorized msg => (401%Z, "UNAUTHORIZED", msg)
  | Forbidden msg => (403%Z, "FORBIDDEN", msg)
  | NotFound msg => (404%Z, "NOT_FOUND", msg)
  | Conflict msg => (409%Z, "CONFLICT", msg)
  | PayloadTooLarge msg => (413%Z, "PAYLOAD_TOO_LARGE", msg)
  | TooManyRequests msg => (429%Z, "TOO_MANY_REQUESTS", msg)
  | ServiceUnavailable msg => (503%Z, "SERVICE_UNAVAILABLE", msg)
  | DatabaseError err =>
      if is_unique_violation err then (409%Z, "CONFLICT", "That resource already exists")
      else (500%Z, "DATABASE_ERROR", "A database error occurred")
  | Internal _ => (500%Z, "INTERNAL_SERVER_ERROR", "Internal server error")
  end.

(** [impl IntoResponse for AppError]: status and JSON body. *)
Definition into_response (e : AppError) : Z * ApiErrorResponse :=
  let '(status, code, message) := error_parts e in
  (status,
   {| er_success := false;
      er_error := {| ep_code := code; ep_message := message; ep_details := None |} |}).

(** [StatusCode::is_success], [is_client_error], [is_server_error] *)
Definition status_is_success (s : Z) : bool := ((200 <=? s) && (s <? 300))%Z%bool.
Definition status_is_client_error (s : Z) : bool := ((400 <=? s) && (s <? 500))%Z%bool.
Definition status_is_server_error (s : Z) : bool := ((500 <=? s) && (s <? 600))%Z%bool.

(** ** Properties *)

(** Every error renders with a 4xx or 5xx status and a failure envelope, and
    a server-side fault (a database error other than a unique violation, or an
    internal error) renders to a body that is the same whatever the fault was, so
    no driver or internal message reaches a client. *)
Theorem into_response_sound (e : AppError) :
  let '(status, body) := into_response e in
  (status_is_client_error status || status_is_server_error status = true)%bool ∧
  er_success body = false ∧
  match e with
  | Internal _ => body = snd (into_response (Internal "")) ∧ status = 500%Z
  | DatabaseError err =>
      if is_unique_violation err then status = 409%Z
      else ∀ err', is_unique_violation err' = false →
             into_response (DatabaseError err') = (status, body)
  | _ => True
  end.
Proof.
  destruct e as [| | | | | | | | |err|]; try done.
  unfold into_response, error_parts. destruct (is_unique_violation err) eqn:E; [done|].
  repeat split; auto. intros err' ->. done.
Qed.
