(* ===== verification/Platform.v ===== *)
(** * The code outside the repository

    Every third-party function the services call is a field of [Platform]: the
    random generators, the hash, MAC, cipher and encoding crates, password
    hashing, token signing, JSON rendering and the request validators. Nothing
    is assumed of them here; a theorem that needs a documented law of one of
    them names it as a hypothesis. *)
From S2P Require Import Prelude RustStr Models.

(** What [jsonwebtoken] is asked to check of a remote token
    ([crypto/jwks.rs]); [None] is an unchecked claim. *)
Record RemoteValidation := {
  rv_alg : string; rv_issuer : option string; rv_validate_nbf : bool;
  rv_audience : option string; rv_validate_aud : bool }.

Class Platform := {
  (* uuid: Display and parse_str *)
  uuid_show : Uuid -> string;
  uuid_parse : string -> option Uuid;
  (* Uuid::now_v7 and rand: the n-th draw *)
  draw_uuid : nat -> Uuid;
  draw_alphanumeric : nat -> nat -> string;
  draw_bytes : nat -> nat -> string;
  (* sha2, hmac, base64, chacha20poly1305; digests as byte strings *)
  sha256 : string -> string;
  hmac_sha256 : string -> string -> string;
  b64url_encode : string -> string;
  b64url_decode : string -> option string;
  b64std_decode : string -> option string;
  aead_encrypt : string -> string -> string -> option string;
  aead_decrypt : string -> string -> string -> option string;
  (* argon2: parameters, salt, password; verify is None for a malformed hash *)
  (* argon2: why a set of parameters is refused, if it is *)
  argon2_params_error : Argon2Params -> option string;
  argon2_hash : Argon2Params -> string -> string -> option string;
  argon2_verify : string -> string -> option bool;
  (* jsonwebtoken: decode checks signature and expiry against the clock *)
  jwt_encode : Claims -> string -> option string;
  jwt_decode : Timestamp -> string -> string -> option Claims;
  jwt_decode_header : string -> option (option string * string);
  rsa_key : string -> string -> option string;
  jwt_decode_remote : Timestamp -> string -> string -> RemoteValidation -> option RemoteClaims;
  (* serde_json::to_string *)
  json_to_string : Json -> string;
  (* chrono: DateTime + Duration::days, None where it panics; from_timestamp *)
  chrono_add_days : Timestamp -> Z -> option Timestamp;
  chrono_from_timestamp : Z -> option Timestamp;
  chrono_from_timestamp_micros : Z -> option Timestamp;
  (* chrono's serde format of a date and time *)
  show_timestamp : Timestamp -> string;
  (* validator: the email and url rules, and Display of the collected errors *)
  valid_email : string -> bool;
  valid_url : string -> bool;
  validation_errors_show : list (string * string) -> string;
  (* std::net::IpAddr parse and Display (addresses by their value) *)
  parse_ip : string -> option N;
  show_ip : N -> string }.

(** ** A concrete platform

    Simple functions in place of the cryptography, so that the theorems can be
    evaluated on concrete inputs. [toy] satisfies every law the theorems name. *)
Definition toy_hex (s : string) : string := hex_encode (bytes_of s).

Definition hex_pairs : list Z -> option (list Z) :=
  fix go l := match l with
  | [] => Some []
  | a :: b :: t =>
      match hex_val a, hex_val b, go t with
      | Some x, Some y, Some r => Some ((16 * x + y)%Z :: r)
      | _, _, _ => None
      end
  | _ => None
  end.

Definition toy_unhex (s : string) : option string := string_of_bytes <$> hex_pairs (bytes_of s).

Definition toy_show_uuid (u : Uuid) : string := show_Z (Z.of_N u).
Definition toy_parse_uuid (s : string) : option Uuid := Z.to_N <$> parse_uint 128 s.

(** A self-delimiting rendering of the claims; the secret is the prefix. *)
Definition toy_jwt (c : Claims) (secret : string) : string :=
  join "|" [secret; c_sub c; c_sid c; c_email c; c_role c; show_Z (c_exp c); show_Z (c_iat c)].
Definition toy_jwt_decode (now : Timestamp) (token secret : string) : option Claims :=
  match split (ascii_of_nat 124) token with
  | [k; sub; sid; em; ro; ex; ia] =>
      match parse_int 64 ex, parse_int 64 ia with
      | Some e, Some i =>
          if ((k =s secret) && (now / 1000000 <=? e + 60)%Z)%bool then
            Some {| c_sub := sub; c_sid := sid; c_email := em; c_role := ro;
                    c_exp := e; c_iat := i |}
          else None
      | _, _ => None
      end
  | _ => None
  end.

Fixpoint toy_json (v : Json) : string :=
  match v with
  | JNull => "null"
  | JBool b => if b then "true" else "false"
  | JNum z => show_Z z
  | JStr s => dquote +:+ s +:+ dquote
  | JArr l => "[" +:+ join "," (List.map toy_json l) +:+ "]"
  | JObj l => "{" +:+ join "," (List.map (fun kv => dquote +:+ fst kv +:+ dquote +:+ ":" +:+ toy_json (snd kv)) l) +:+ "}"
  end.

Definition toy : Platform := {|
  uuid_show := toy_show_uuid;
  uuid_parse := toy_parse_uuid;
  draw_uuid n := (1000 + N.of_nat n)%N;
  draw_alphanumeric n len := String.substring 0 len ("tok" +:+ show_Z (Z.of_nat n)
    +:+ "ABCDEFGHIJKLMNOPQRSTUVWXYZABCDEFGHIJKLMNOPQRSTUVWXYZ");
  draw_bytes n len := String.substring 0 len (show_Z (Z.of_nat n) +:+ "............................");
  sha256 s := s;
  hmac_sha256 k m := k +:+ "/" +:+ m;
  b64url_encode := toy_hex;
  b64url_decode := toy_unhex;
  b64std_decode := toy_unhex;
  aead_encrypt k n p := Some (k +:+ n +:+ p);
  aead_decrypt k n c := strip_prefix (k +:+ n) c;
  argon2_params_error a := if ((parallelism a <? 1) || (memory_kib a <? 8 * parallelism a))%Z%bool
                           then Some "invalid cost parameter" else None;
  argon2_hash _ salt pw := Some ("h:" +:+ pw);
  argon2_verify h pw := match strip_prefix "h:" h with
                        | Some p => Some (p =s pw)
                        | None => if starts_with "$argon2" h then Some false else None
                        end;
  jwt_encode c k := Some (toy_jwt c k);
  jwt_decode := toy_jwt_decode;
  jwt_decode_header t := match split (ascii_of_nat 126) t with
                         | [k; _; _; _] => Some (Some k, "RS256") | _ => None end;
  rsa_key n e := Some (n +:+ e);
  jwt_decode_remote _ t k _ :=
    match split (ascii_of_nat 126) t with
    | [_; k'; sub; role] =>
        if k =s k' then Some {| rc_sub := sub; rc_email := None; rc_name := None;
          rc_role := Some role; rc_org_id := None; rc_email_verified := None; rc_exp := 0%Z;
          rc_iat := None; rc_iss := None; rc_aud := None |} else None
    | _ => None
    end;
  json_to_string := toy_json;
  chrono_add_days t d :=
    if ((-95000000 <=? d) && (d <=? 95000000))%Z%bool then Some (t + d * 86400000000)%Z else None;
  chrono_from_timestamp s := Some (s * 1000000)%Z;
  show_timestamp := show_Z;
  chrono_from_timestamp_micros m := Some m;
  valid_email s := contains "@" s;
  valid_url s := starts_with "http" s;
  validation_errors_show l := join "; " (List.map (fun fm => fst fm +:+ ": " +:+ snd fm) l);
  parse_ip s := Z.to_N <$> parse_uint 32 s;
  show_ip n := show_Z (Z.of_N n) |}.

(** ** Laws of the concrete platform *)

Lemma hex_val_digit d : (0 <= d < 16)%Z → hex_val (byte_val (hex_digit d)) = Some d.
Proof.
  intros H. unfold hex_digit, hex_val.
  destruct (d <? 10)%Z eqn:E; bool_facts; rewrite byte_val_of by (unfold is_byte; lia).
  - replace ((48 <=? 48 + d) && (48 + d <=? 57))%Z%bool with true by lia. f_equal. lia.
  - replace ((48 <=? 87 + d) && (87 + d <=? 57))%Z%bool with false by lia.
    replace ((97 <=? 87 + d) && (87 + d <=? 102))%Z%bool with true by lia. f_equal. lia.
Qed.

Lemma hex_pairs_encode l : Forall is_byte l → hex_pairs (bytes_of (hex_encode l)) = Some l.
Proof.
  induction 1 as [|b l Hb _ IH]; [done|]. unfold is_byte in Hb.
  change (bytes_of (hex_encode (b :: l)))
    with (byte_val (hex_digit (b / 16)) :: byte_val (hex_digit (b mod 16)) :: bytes_of (hex_encode l)).
  cbn [hex_pairs]. rewrite !hex_val_digit by
    (try (pose proof (Z.mod_pos_bound b 16 ltac:(lia)); lia);
     pose proof (Z.div_le_lower_bound b 16 0 ltac:(lia)); pose proof (Z.div_lt_upper_bound b 16 16); lia).
  rewrite IH. do 2 f_equal. symmetry. apply Z.div_mod. lia.
Qed.

Lemma hex_encode_inj l1 l2 : Forall is_byte l1 → Forall is_byte l2 → hex_encode l1 = hex_encode l2 → l1 = l2.
Proof.
  intros H1 H2 E. apply (f_equal (λ s, hex_pairs (bytes_of s))) in E.
  rewrite !hex_pairs_encode in E by done. by injection E.
Qed.

Lemma toy_b64_roundtrip s : @b64url_decode toy (@b64url_encode toy s) = Some s.
Proof.
  change (string_of_bytes <$> hex_pairs (bytes_of (hex_encode (bytes_of s))) = Some s).
  rewrite hex_pairs_encode by apply bytes_of_range. simpl. by rewrite string_of_bytes_of.
Qed.

Lemma toy_argon2 pw : @argon2_verify toy ("h:" +:+ pw) pw = Some true.
Proof.
  cbn [argon2_verify toy]. rewrite (proj2 (strip_prefix_Some "h:" ("h:" +:+ pw) pw)) by done.
  by rewrite String.eqb_refl.
Qed.

(** ** Remote services

    What an HTTP exchange through [reqwest] comes to: the request failed, the
    server refused it, the body did not parse, or a value. *)
Inductive fetched (A : Type) : Type :=
| SendFailed (e : string)
| Refused (status : string)
| Unparsable (e : string)
| Fetched (a : A).
Arguments SendFailed {A} e.
Arguments Refused {A} status.
Arguments Unparsable {A} e.
Arguments Fetched {A} a.

(** A key of a JSON Web Key Set. *)
Record JwksKey := {
  jk_kty : string; jk_alg : option string; jk_use : option string; jk_kid : option string;
  jk_n : option string; jk_e : option string; jk_x : option string; jk_y : option string;
  jk_crv : option string }.
Record JwksResponse := { jwks_keys : list JwksKey }.

(** User records of the social providers ([services/oauth.rs]). *)
Record GoogleUserInfo := {
  g_id : string; g_email : string; g_verified_email : bool; g_name : option string;
  g_picture : option string }.
Record GithubUserInfo := {
  gh_id : Z; gh_email : option string; gh_name : option string; gh_avatar_url : option string;
  gh_login : string }.
Record GithubEmail := { ge_email : string; ge_primary : bool; ge_verified : bool }.

(** The OAuth client of the [oauth2] crate and the providers behind it. *)
Record OAuthClient := {
  cl_id : string; cl_secret : string; cl_auth_url : string; cl_token_url : string;
  cl_redirect_url : string }.

Class Remote := {
  jwks_endpoint : string -> Timestamp -> fetched JwksResponse;
  redirect_url_error : string -> option string;
  draw_csrf : nat -> string;
  draw_pkce : nat -> string * string;
  authorize_url : OAuthClient -> list string -> string -> string -> string;
  exchange_code : OAuthClient -> string -> string -> string + string;
  google_userinfo : string -> fetched GoogleUserInfo;
  github_user : string -> fetched GithubUserInfo;
  github_emails : string -> fetched (list GithubEmail);
  (* the receiver of a webhook: url, headers and body to a status and the body's
     text ([None] if it cannot be read), or the transport's error *)
  webhook_post : string -> list (string * string) -> string -> (Z * option string) + string }.

(** A concrete remote world: one key, one Google account, one GitHub account. *)
Definition toy_remote : Remote := {|
  jwks_endpoint _ _ := Fetched {| jwks_keys := [{| jk_kty := "RSA"; jk_alg := Some "RS256";
    jk_use := None; jk_kid := Some "kid"; jk_n := Some "n"; jk_e := Some "e"; jk_x := None;
    jk_y := None; jk_crv := None |}] |};
  redirect_url_error _ := None;
  draw_csrf n := "csrf" +:+ show_Z (Z.of_nat n);
  draw_pkce n := ("verifier" +:+ show_Z (Z.of_nat n), "challenge" +:+ show_Z (Z.of_nat n));
  authorize_url c scopes state challenge := cl_auth_url c +:+ "?state=" +:+ state;
  exchange_code _ code verifier := inl ("token-for-" +:+ code);
  google_userinfo _ := Fetched {| g_id := "g-1"; g_email := "Ada@Example.com";
    g_verified_email := true; g_name := None; g_picture := Some "pic" |};
  github_user _ := Fetched {| gh_id := 5%Z; gh_email := Some "shown@example.com"; gh_name := None;
    gh_avatar_url := None; gh_login := "octo" |};
  github_emails _ := Fetched [{| ge_email := "old@example.com"; ge_primary := false; ge_verified := true |};
    {| ge_email := "octo@example.com"; ge_primary := true; ge_verified := true |}];
  webhook_post url _ _ := if url =s "https://down.example.com" then inr "connection refused"
                          else inl (200%Z, Some "ok") |}.
