(* ===== verification/World.v ===== *)
(** * Handlers as state transformers

    A handler runs against a [World]: the database, the clock, the source of
    randomness, the object store, and what was sent out of the process. It
    returns an outcome and the world it leaves behind.

    A request executes at one instant: [Utc::now()] and SQL's [now()] read the
    same [w_now]; time passes between requests. A database call can fail at any
    point: [w_faults] is the schedule of the failures to come, one entry per
    call, and an empty schedule is a healthy database. [w_io_faults] does the same
    for the file system and the bucket. [w_argon2] counts the password
    verifications done, the dominant cost of a sign-in. *)
From stdpp Require Import gmap.
From S2P Require Import Prelude RustStr Models Errors Platform.

(** A message handed to the detached mail task. *)
Record Mail := { m_recipient : string; m_subject : string; m_body : string; m_kind : string }.

(** An object in the bucket. *)
Record BucketObject := { bo_bytes : string; bo_type : string }.

(** The verification keys of the external identity provider, by key identifier,
    and when they were fetched ([crypto/jwks.rs]). *)
Record CachedKeys := { ck_keys : gmap string string; ck_fetched_at : Timestamp }.

(** One increment of a counter of the metrics recorder: its name and its labels,
    newest first in [w_metrics]. *)
Record Sample := { sm_name : string; sm_labels : list (string * string) }.

Record World := MkWorld {
  w_db : Db;
  w_now : Timestamp;
  w_draws : nat;
  w_faults : list (option SqlxError);
  w_io_faults : list bool;
  w_disk : gmap string string;
  w_bucket : gmap string BucketObject;
  w_mail : list Mail;
  w_notify : list (string * string);
  w_argon2 : nat;
  w_jwks : option CachedKeys;
  w_metrics : list Sample }.

Definition set_db (d : Db) (w : World) : World :=
  MkWorld d (w_now w) (w_draws w) (w_faults w) (w_io_faults w) (w_disk w) (w_bucket w)
    (w_mail w) (w_notify w) (w_argon2 w) (w_jwks w) (w_metrics w).
Definition set_draws (n : nat) (w : World) : World :=
  MkWorld (w_db w) (w_now w) n (w_faults w) (w_io_faults w) (w_disk w) (w_bucket w)
    (w_mail w) (w_notify w) (w_argon2 w) (w_jwks w) (w_metrics w).
Definition set_faults (f : list (option SqlxError)) (w : World) : World :=
  MkWorld (w_db w) (w_now w) (w_draws w) f (w_io_faults w) (w_disk w) (w_bucket w)
    (w_mail w) (w_notify w) (w_argon2 w) (w_jwks w) (w_metrics w).
Definition set_io_faults (f : list bool) (w : World) : World :=
  MkWorld (w_db w) (w_now w) (w_draws w) (w_faults w) f (w_disk w) (w_bucket w)
    (w_mail w) (w_notify w) (w_argon2 w) (w_jwks w) (w_metrics w).
Definition set_disk (o : gmap string string) (w : World) : World :=
  MkWorld (w_db w) (w_now w) (w_draws w) (w_faults w) (w_io_faults w) o (w_bucket w)
    (w_mail w) (w_notify w) (w_argon2 w) (w_jwks w) (w_metrics w).
Definition set_bucket (o : gmap string BucketObject) (w : World) : World :=
  MkWorld (w_db w) (w_now w) (w_draws w) (w_faults w) (w_io_faults w) (w_disk w) o
    (w_mail w) (w_notify w) (w_argon2 w) (w_jwks w) (w_metrics w).
Definition set_mail (m : list Mail) (w : World) : World :=
  MkWorld (w_db w) (w_now w) (w_draws w) (w_faults w) (w_io_faults w) (w_disk w) (w_bucket w)
    m (w_notify w) (w_argon2 w) (w_jwks w) (w_metrics w).
Definition set_notify (n : list (string * string)) (w : World) : World :=
  MkWorld (w_db w) (w_now w) (w_draws w) (w_faults w) (w_io_faults w) (w_disk w) (w_bucket w)
    (w_mail w) n (w_argon2 w) (w_jwks w) (w_metrics w).
Definition set_now (t : Timestamp) (w : World) : World :=
  MkWorld (w_db w) t (w_draws w) (w_faults w) (w_io_faults w) (w_disk w) (w_bucket w)
    (w_mail w) (w_notify w) (w_argon2 w) (w_jwks w) (w_metrics w).

Definition set_argon2 (n : nat) (w : World) : World :=
  MkWorld (w_db w) (w_now w) (w_draws w) (w_faults w) (w_io_faults w) (w_disk w) (w_bucket w)
    (w_mail w) (w_notify w) n (w_jwks w) (w_metrics w).

Definition set_jwks (c : option CachedKeys) (w : World) : World :=
  MkWorld (w_db w) (w_now w) (w_draws w) (w_faults w) (w_io_faults w) (w_disk w) (w_bucket w)
    (w_mail w) (w_notify w) (w_argon2 w) c (w_metrics w).

Definition set_metrics (m : list Sample) (w : World) : World :=
  MkWorld (w_db w) (w_now w) (w_draws w) (w_faults w) (w_io_faults w) (w_disk w) (w_bucket w)
    (w_mail w) (w_notify w) (w_argon2 w) (w_jwks w) m.

(** A healthy world over a database. *)
Definition world_of (d : Db) (now : Timestamp) : World :=
  MkWorld d now 0 [] [] ∅ ∅ [] [] 0 None [].

(** ** The handler monad *)

Definition M (A : Type) : Type := World -> outcome A AppError * World.

Definition ret {A} (a : A) : M A := fun w => (Ok a, w).
Definition fail {A} (e : AppError) : M A := fun w => (Err e, w).
Definition panic {A} : M A := fun w => (Panic, w).
Definition bind {A B} (m : M A) (k : A -> M B) : M B := fun w =>
  match m w with
  | (Ok a, w') => k a w'
  | (Err e, w') => (Err e, w')
  | (Panic, w') => (Panic, w')
  end.

Declare Scope m_scope.
Delimit Scope m_scope with M.
#[global] Open Scope m_scope.
Notation "'let!' x := m 'in' k" := (bind m (fun x => k))
  (at level 10, x binder, m at level 100, k at level 200,
   format "'[v' 'let!'  x  :=  m  'in' '/' k ']'") : m_scope.
Notation "'do!' m 'in' k" := (bind m (fun _ => k))
  (at level 10, m at level 100, k at level 200,
   format "'[v' 'do!'  m  'in' '/' k ']'") : m_scope.

(** [o.ok_or_else(|| e)?] *)
Definition ok_or {A} (e : AppError) (o : option A) : M A :=
  match o with Some a => ret a | None => fail e end.
(** [if b { return Err(e) }] *)
Definition guard (b : bool) (e : AppError) : M unit := if b then ret tt else fail e.
(** A call whose error the caller inspects instead of propagating. *)
Definition attempt {A} (m : M A) : M (A + AppError) := fun w =>
  match m w with
  | (Ok a, w') => (Ok (inl a), w')
  | (Err e, w') => (Ok (inr e), w')
  | (Panic, w') => (Panic, w')
  end.

Definition now : M Timestamp := fun w => (Ok (w_now w), w).
Definition seconds (n : Z) : Z := (n * 1000000)%Z.
Definition minutes (n : Z) : Z := seconds (n * 60).
Definition hours (n : Z) : Z := seconds (n * 3600).
Definition days (n : Z) : Z := seconds (n * 86400).
(** [DateTime::timestamp]: whole seconds, rounding down. *)
Definition timestamp (t : Timestamp) : Z := (t / 1000000)%Z.

(** ** Database calls *)

(** What a statement does: a value and the new database, or the server's error. *)
Definition Sql (A : Type) : Type := Timestamp -> Db -> (A * Db) + SqlxError.

Definition sql_read {A} (f : Timestamp -> Db -> A) : Sql A := fun t d => inl (f t d, d).
Definition sql_write (f : Timestamp -> Db -> Db) : Sql unit := fun t d => inl (tt, f t d).

(** Take the next entry of the fault schedule, then run the statement. *)
Definition exec {A} (on_err : SqlxError -> AppError) (q : Sql A) : M A := fun w =>
  match w_faults w with
  | Some e :: fs => (Err (on_err e), set_faults fs w)
  | None :: fs =>
      match q (w_now w) (w_db w) with
      | inl (a, d) => (Ok a, set_db d (set_faults fs w))
      | inr e => (Err (on_err e), set_faults fs w)
      end
  | [] =>
      match q (w_now w) (w_db w) with
      | inl (a, d) => (Ok a, set_db d w)
      | inr e => (Err (on_err e), w)
      end
  end.

(** Column widths: [VARCHAR(n)] counts characters. *)
Definition varchar (n : Z) (s : string) : bool := (Z.of_nat (length (chars s)) <=? n)%Z.
Definition varchar_opt (n : Z) (o : option string) : bool :=
  match o with Some s => varchar n s | None => true end.
(** The error codes of PostgreSQL the schema can raise. *)
Definition too_long : SqlxError := OtherDatabase "22001".
Definition fk_violation : SqlxError := OtherDatabase "23503".
Definition out_of_range : SqlxError := OtherDatabase "22003".
Definition row_not_found : SqlxError := NonDatabase "RowNotFound".

(** [query(...).await?] *)
Definition sql {A} (q : Sql A) : M A := exec DatabaseError q.

(** [begin()] ... [commit()]: an early return or a panic inside, or a failed
    commit, drops the transaction and leaves the database as it was. *)
Definition ping : M unit := sql (sql_read (fun _ _ => tt)).
Definition transaction {A} (body : M A) : M A := fun w =>
  match ping w with
  | (Ok _, w0) =>
      match body w0 with
      | (Ok a, w1) =>
          match ping w1 with
          | (Ok _, w2) => (Ok a, w2)
          | (Err e, w2) => (Err e, set_db (w_db w0) w2)
          | (Panic, w2) => (Panic, set_db (w_db w0) w2)
          end
      | (Err e, w1) => (Err e, set_db (w_db w0) w1)
      | (Panic, w1) => (Panic, set_db (w_db w0) w1)
      end
  | (Err e, w0) => (Err e, w0)
  | (Panic, w0) => (Panic, w0)
  end.

(** ** Randomness, mail, notification *)

Section Random.
Context {P : Platform}.

Definition fresh {A} (f : nat -> A) : M A := fun w =>
  (Ok (f (w_draws w)), set_draws (S (w_draws w)) w).

(** [Uuid::now_v7()] *)
Definition new_uuid : M Uuid := fresh draw_uuid.
(** [crypto::random_token(len)] *)
Definition random_token (len : nat) : M string := fresh (fun n => draw_alphanumeric n len).
(** [fill_bytes] on a buffer of that length *)
Definition random_bytes (len : nat) : M string := fresh (fun n => draw_bytes n len).
End Random.

(** One Argon2 verification: [None] when the stored hash does not parse, in which
    case no work is done. *)
Definition argon2_check {P : Platform} (hash password : string) : M (option bool) := fun w =>
  match argon2_verify hash password with
  | None => (Ok None, w)
  | Some b => (Ok (Some b), set_argon2 (S (w_argon2 w)) w)
  end.

Definition spawn_mail (m : Mail) : M unit := fun w => (Ok tt, set_mail (w_mail w ++ [m]) w).
(** PostgreSQL refuses a payload of 8000 bytes or more; that is not modelled, what
    keeps within it is the caller's own limit. *)
Definition pg_notify (channel payload : string) : M unit := fun w =>
  match w_faults w with
  | Some e :: fs => (Err (DatabaseError e), set_faults fs w)
  | None :: fs => (Ok tt, set_notify (w_notify w ++ [(channel, payload)]) (set_faults fs w))
  | [] => (Ok tt, set_notify (w_notify w ++ [(channel, payload)]) w)
  end.

(** ** How a handler may change the database

    [respects R m]: whatever happens, faults included, the database before and
    after [m] are related by [R]. For a preorder this is compositional, so an
    invariant or an append-only law of a handler follows from its statements. *)
Definition respects (R : Db -> Db -> Prop) {A} (m : M A) : Prop :=
  ∀ w, R (w_db w) (w_db (snd (m w))).

Definition sql_respects (R : Db -> Db -> Prop) {A} (q : Sql A) : Prop :=
  ∀ t d a d', q t d = inl (a, d') → R d d'.

(** The relation that keeps an invariant. *)
Definition keeps (I : Db -> Prop) (d d' : Db) : Prop := I d → I d'.

#[export] Instance keeps_preorder I : PreOrder (keeps I).
Proof. split; unfold keeps; [intros ?; tauto | intros ? ? ?; tauto]. Qed.

Create HintDb respects.

Section Respects.
Context (R : Db -> Db -> Prop) `{!PreOrder R}.

Lemma respects_ret {A} (a : A) : respects R (ret a).
Proof. intros w. reflexivity. Qed.
Lemma respects_fail {A} e : respects R (fail (A:=A) e).
Proof. intros w. reflexivity. Qed.
Lemma respects_panic {A} : respects R (panic (A:=A)).
Proof. intros w. reflexivity. Qed.
Lemma respects_now : respects R now.
Proof. intros w. reflexivity. Qed.
Lemma respects_fresh {A} (f : nat -> A) : respects R (fresh f).
Proof. intros w. reflexivity. Qed.
Lemma respects_spawn_mail m : respects R (spawn_mail m).
Proof. intros w. reflexivity. Qed.
Lemma respects_pg_notify c p : respects R (pg_notify c p).
Proof. intros w. unfold pg_notify. destruct (w_faults w) as [|[e|] fs]; reflexivity. Qed.
Lemma respects_argon2_check {P : Platform} h p : respects R (argon2_check h p).
Proof. intros w. unfold argon2_check. destruct (argon2_verify h p); reflexivity. Qed.
Lemma respects_ok_or {A} e (o : option A) : respects R (ok_or e o).
Proof. destruct o; [apply respects_ret | apply respects_fail]. Qed.
Lemma respects_guard b e : respects R (guard b e).
Proof. destruct b; [apply respects_ret | apply respects_fail]. Qed.

Lemma respects_bind {A B} (m : M A) (k : A -> M B) :
  respects R m → (∀ a, respects R (k a)) → respects R (bind m k).
Proof.
  intros Hm Hk w. unfold bind. specialize (Hm w). destruct (m w) as [[a|e|] w']; simpl in *; [|done..].
  etrans; [exact Hm | apply Hk].
Qed.

Lemma respects_attempt {A} (m : M A) : respects R m → respects R (attempt m).
Proof.
  intros Hm w. unfold attempt. specialize (Hm w). by destruct (m w) as [[a|e|] w'].
Qed.

Lemma respects_exec {A} f (q : Sql A) : sql_respects R q → respects R (exec f q).
Proof.
  intros Hq w. unfold exec. destruct (w_faults w) as [|[e|] fs]; simpl; [|reflexivity|].
  - destruct (q _ _) as [[a d]|e] eqn:E; simpl; [by eapply Hq | reflexivity].
  - destruct (q _ _) as [[a d]|e] eqn:E; simpl; [by eapply Hq | reflexivity].
Qed.

Lemma sql_respects_read {A} (f : Timestamp -> Db -> A) : sql_respects R (sql_read f).
Proof. intros t d a d' [= _ <-]. reflexivity. Qed.

Lemma sql_respects_write (f : Timestamp -> Db -> Db) :
  (∀ t d, R d (f t d)) → sql_respects R (sql_write f).
Proof. intros H t d a d' [= _ <-]. apply H. Qed.

Lemma ping_spec w : ∃ r w', ping w = (r, w') ∧ w_db w' = w_db w ∧ r ≠ Panic.
Proof.
  unfold ping, sql, exec. destruct (w_faults w) as [|[e|] fs]; simpl; eauto 6.
Qed.

Lemma respects_transaction {A} (m : M A) : respects R m → respects R (transaction m).
Proof.
  intros Hm w. unfold transaction.
  destruct (ping_spec w) as ([u|e|] & w0 & -> & Hd & Hp); [|by simpl; rewrite Hd|done].
  specialize (Hm w0). destruct (m w0) as [[a|e|] w1]; simpl in *; rewrite ?Hd; try reflexivity.
  rewrite Hd in Hm.
  destruct (ping_spec w1) as ([u'|e|] & w2 & -> & Hd2 & Hp2); simpl; rewrite ?Hd2; done.
Qed.
End Respects.

Lemma respects_mono (R1 R2 : Db -> Db -> Prop) {A} (m : M A) :
  (∀ d d', R1 d d' → R2 d d') → respects R1 m → respects R2 m.
Proof. intros H Hm w. apply H, Hm. Qed.

(** A component of the database that a handler leaves alone. *)
Definition same {T} (f : Db -> T) (d d' : Db) : Prop := f d' = f d.
#[export] Instance same_preorder {T} (f : Db -> T) : PreOrder (same f).
Proof. split; unfold same; [by intros ? | intros ? ? ? -> ->; done]. Qed.

(** Discharge [sql_respects R q] for a statement that, branch by branch, leaves
    the component alone. *)
Ltac head_of q := lazymatch q with ?f _ => head_of f | ?c => c end.
Ltac sql_branches H :=
  repeat match type of H with
  | inl _ = inl _ => injection H as ? ?; subst
  | inr _ = inl _ => discriminate H
  | (match ?x with _ => _ end) = _ => destruct x eqn:?
  | ?q = inl _ => let h := head_of q in unfold h in H; cbv beta zeta in H
  end.
Ltac sql_frame :=
  let t := fresh "t" in let d := fresh "d" in let a := fresh "a" in let d' := fresh "d'" in
  let H := fresh "H" in
  intros t d a d' H; sql_branches H; first [ reflexivity | done ].

#[export] Hint Resolve respects_ret respects_fail respects_panic respects_now respects_fresh
  respects_spawn_mail respects_pg_notify respects_argon2_check respects_ok_or respects_guard respects_bind
  respects_attempt respects_exec respects_transaction sql_respects_read sql_respects_write
  : respects.
#[export] Hint Extern 5 (sql_respects _ _) => sql_frame : respects.
#[export] Hint Extern 1 (respects _ new_uuid) => apply respects_fresh : respects.
#[export] Hint Extern 1 (respects _ (random_token _)) => apply respects_fresh : respects.
#[export] Hint Extern 1 (respects _ (random_bytes _)) => apply respects_fresh : respects.
#[export] Hint Extern 1 (respects _ (sql _)) => apply respects_exec : respects.

(** Decompose a [respects] goal along the structure of the handler. *)
Ltac respects_step :=
  match goal with
  | |- respects _ (bind _ _) => apply respects_bind; [try exact _ | | intros ?]
  | |- respects _ (transaction _) => apply respects_transaction; [try exact _ |]
  | |- respects _ (attempt _) => apply respects_attempt
  | |- respects _ (match ?x with _ => _ end) => destruct x
  | |- respects _ (let '_ := ?x in _) => destruct x
  | |- respects _ _ => solve [eauto 3 with respects typeclass_instances]
  end.
Ltac respects_tac := repeat respects_step.

(** ** Running a handler on a healthy database *)

Lemma exec_healthy {A} f (q : Sql A) w :
  w_faults w = [] →
  exec f q w = match q (w_now w) (w_db w) with
               | inl (a, d) => (Ok a, set_db d w)
               | inr e => (Err (f e), w)
               end.
Proof. intros H. unfold exec. by rewrite H. Qed.

Lemma sql_healthy {A} (q : Sql A) w :
  w_faults w = [] →
  sql q w = match q (w_now w) (w_db w) with
            | inl (a, d) => (Ok a, set_db d w)
            | inr e => (Err (DatabaseError e), w)
            end.
Proof. apply exec_healthy. Qed.

Lemma set_db_id w : set_db (w_db w) w = w.
Proof. by destruct w. Qed.

Lemma sql_read_healthy {A} (f : Timestamp -> Db -> A) w :
  w_faults w = [] → sql (sql_read f) w = (Ok (f (w_now w) (w_db w)), w).
Proof. intros H. rewrite sql_healthy by done. simpl. by rewrite set_db_id. Qed.

Lemma sql_write_healthy f w :
  w_faults w = [] → sql (sql_write f) w = (Ok tt, set_db (f (w_now w) (w_db w)) w).
Proof. intros H. by rewrite sql_healthy. Qed.

Lemma transaction_healthy {A} (m : M A) w r w' :
  w_faults w = [] → m w = (r, w') → w_faults w' = [] →
  transaction m w = (r, match r with Ok _ => w' | _ => set_db (w_db w) w' end).
Proof.
  intros Hw Hm Hw'. unfold transaction, ping. rewrite sql_read_healthy by done. rewrite Hm.
  destruct r; [|done..]. by rewrite sql_read_healthy.
Qed.

(** Atomicity: a transaction that does not return [Ok] changed nothing. *)
Lemma transaction_atomic {A} (m : M A) w r w' :
  transaction m w = (r, w') → is_ok r = false → w_db w' = w_db w.
Proof.
  unfold transaction. destruct (ping_spec w) as (u & w0 & -> & Hd & Hp).
  destruct u as [u|e|]; [|by intros [= <- <-] _|done].
  destruct (m w0) as [[a|e|] w1]; [|by intros [= <- <-] _..].
  destruct (ping_spec w1) as (u' & w2 & -> & Hd2 & Hp2).
  by destruct u'; intros [= <- <-].
Qed.

(** ** Steady handlers

    No handler moves the clock or invents a fault: a healthy world stays healthy. *)
Definition steady {A} (m : M A) : Prop :=
  ∀ w, w_now (snd (m w)) = w_now w ∧ (w_faults w = [] → w_faults (snd (m w)) = []).

Create HintDb steady.

Section Steady.
Context {A B : Type}.

Lemma steady_ret (a : A) : steady (ret a).
Proof. done. Qed.
Lemma steady_fail e : steady (fail (A:=A) e).
Proof. done. Qed.
Lemma steady_panic : steady (panic (A:=A)).
Proof. done. Qed.
Lemma steady_fresh (f : nat -> A) : steady (fresh f).
Proof. done. Qed.
Lemma steady_ok_or e (o : option A) : steady (ok_or e o).
Proof. by destruct o. Qed.
Lemma steady_exec f (q : Sql A) : steady (exec f q).
Proof.
  intros w. unfold exec. destruct (w_faults w) as [|[e|] fs] eqn:E; simpl; [|done|].
  all: destruct (q _ _) as [[a d]|e]; simpl; by rewrite ?E.
Qed.
Lemma steady_bind (m : M A) (k : A -> M B) : steady m → (∀ a, steady (k a)) → steady (bind m k).
Proof.
  intros Hm Hk w. unfold bind. specialize (Hm w). destruct (m w) as [[a|e|] w']; simpl in *; [|done..].
  specialize (Hk a w'). destruct Hm as [<- ?], Hk as [-> ?]. auto.
Qed.
Lemma steady_attempt (m : M A) : steady m → steady (attempt m).
Proof. intros Hm w. unfold attempt. specialize (Hm w). by destruct (m w) as [[a|e|] w']. Qed.
End Steady.

Lemma steady_transaction {A} (m : M A) : steady m → steady (transaction m).
Proof.
  intros Hm w. unfold transaction. assert (Hp : steady ping) by apply steady_exec.
  pose proof (Hp w) as H0. destruct (ping w) as [[u|e|] w0]; simpl in *; [|done..].
  specialize (Hm w0). destruct H0 as [<- H0], (m w0) as [[a|e|] w1]; simpl in *;
    destruct Hm as [<- Hm]; [|auto..].
  pose proof (Hp w1) as [H1 H2]. destruct (ping w1) as [[u'|e'|] w2]; simpl in *; auto.
Qed.

Lemma steady_now : steady now.
Proof. done. Qed.
Lemma steady_guard b e : steady (guard b e).
Proof. by destruct b. Qed.
Lemma steady_spawn_mail m : steady (spawn_mail m).
Proof. done. Qed.
Lemma steady_pg_notify c p : steady (pg_notify c p).
Proof. intros w. unfold pg_notify. by destruct (w_faults w) as [|[e|] fs] eqn:E; simpl; rewrite ?E. Qed.
Lemma steady_argon2_check {P : Platform} h p : steady (argon2_check h p).
Proof. intros w. unfold argon2_check. by destruct (argon2_verify h p). Qed.

#[export] Hint Resolve steady_ret steady_fail steady_panic steady_fresh steady_ok_or steady_exec
  steady_attempt steady_transaction steady_now steady_guard steady_spawn_mail
  steady_pg_notify steady_argon2_check : steady.
#[export] Hint Extern 1 (steady new_uuid) => apply steady_fresh : steady.
#[export] Hint Extern 1 (steady (random_token _)) => apply steady_fresh : steady.
#[export] Hint Extern 1 (steady (random_bytes _)) => apply steady_fresh : steady.
#[export] Hint Extern 1 (steady (sql _)) => apply steady_exec : steady.

Ltac steady_step :=
  match goal with
  | |- steady (bind _ _) => apply steady_bind; [| intros ?]
  | |- steady (transaction _) => apply steady_transaction
  | |- steady (attempt _) => apply steady_attempt
  | |- steady (match ?x with _ => _ end) => destruct x
  | |- steady _ => solve [eauto 2 with steady]
  end.
Ltac steady_tac := repeat steady_step.

(** ** Equations of the monad on a healthy database

    One equation per primitive, collected in the rewrite database [healthy]:
    [hrun] walks down a handler with them. *)
Section Equations.
Context {A B C : Type}.
Implicit Types (w : World).

Lemma bind_ret (a : A) (k : A -> M B) w : bind (ret a) k w = k a w.
Proof. done. Qed.
Lemma bind_fail e (k : A -> M B) w : bind (fail e) k w = (Err e, w).
Proof. done. Qed.
Lemma bind_run_Ok (m : M A) (k : A -> M B) w a w' : m w = (Ok a, w') → bind m k w = k a w'.
Proof. unfold bind. by intros ->. Qed.
Lemma bind_run_Err (m : M A) (k : A -> M B) w e w' : m w = (Err e, w') → bind m k w = (Err e, w').
Proof. unfold bind. by intros ->. Qed.
Lemma bind_assoc (m : M A) (f : A -> M B) (k : B -> M C) w :
  bind (bind m f) k w = bind m (fun a => bind (f a) k) w.
Proof. unfold bind. by destruct (m w) as [[a|e|] w']. Qed.
Lemma bind_now (k : Timestamp -> M B) w : bind now k w = k (w_now w) w.
Proof. done. Qed.
Lemma bind_guard b e (k : unit -> M B) w :
  bind (guard b e) k w = if b then k tt w else (Err e, w).
Proof. by destruct b. Qed.
Lemma bind_ok_or e (o : option A) (k : A -> M B) w :
  bind (ok_or e o) k w = match o with Some a => k a w | None => (Err e, w) end.
Proof. by destruct o. Qed.
Lemma bind_read (f : Timestamp -> Db -> A) (k : A -> M B) w :
  w_faults w = [] → bind (sql (sql_read f)) k w = k (f (w_now w) (w_db w)) w.
Proof. intros H. unfold bind. by rewrite sql_read_healthy. Qed.
Lemma bind_write f (k : unit -> M B) w :
  w_faults w = [] →
  bind (sql (sql_write f)) k w = k tt (set_db (f (w_now w) (w_db w)) w).
Proof. intros H. unfold bind. by rewrite sql_write_healthy. Qed.
Lemma bind_sql (q : Sql A) (k : A -> M B) w :
  w_faults w = [] →
  bind (sql q) k w = match q (w_now w) (w_db w) with
                     | inl (a, d) => k a (set_db d w)
                     | inr e => (Err (DatabaseError e), w)
                     end.
Proof. intros H. unfold bind. rewrite sql_healthy by done. by destruct (q _ _) as [[a d]|e]. Qed.
Lemma bind_fresh (f : nat -> A) (k : A -> M B) w :
  bind (fresh f) k w = k (f (w_draws w)) (set_draws (S (w_draws w)) w).
Proof. done. Qed.
Lemma bind_spawn_mail m (k : unit -> M B) w :
  bind (spawn_mail m) k w = k tt (set_mail (w_mail w ++ [m]) w).
Proof. done. Qed.
Lemma bind_argon2_check {P : Platform} h p (k : option bool -> M B) w :
  bind (argon2_check h p) k w =
  match argon2_verify h p with
  | None => k None w
  | Some b => k (Some b) (set_argon2 (S (w_argon2 w)) w)
  end.
Proof. unfold bind, argon2_check. by destruct (argon2_verify h p). Qed.
Lemma bind_attempt (m : M A) (k : A + AppError -> M B) w :
  bind (attempt m) k w =
  match m w with
  | (Ok a, w') => k (inl a) w'
  | (Err e, w') => k (inr e) w'
  | (Panic, w') => (Panic, w')
  end.
Proof. unfold bind, attempt. by destruct (m w) as [[a|e|] w']. Qed.
Lemma bind_transaction (m : M A) (k : A -> M B) w :
  w_faults w = [] → steady m →
  bind (transaction m) k w =
  match m w with
  | (Ok a, w') => k a w'
  | (Err e, w') => (Err e, set_db (w_db w) w')
  | (Panic, w') => (Panic, set_db (w_db w) w')
  end.
Proof.
  intros Hw Hs. specialize (Hs w). unfold bind. destruct (m w) as [r w'] eqn:E.
  rewrite (transaction_healthy m w r w'); [by destruct r | done | done | by apply Hs].
Qed.
End Equations.

Lemma bind_new_uuid {P : Platform} {B} (k : Uuid -> M B) w :
  bind new_uuid k w = k (draw_uuid (w_draws w)) (set_draws (S (w_draws w)) w).
Proof. done. Qed.
Lemma bind_random_token {P : Platform} {B} len (k : string -> M B) w :
  bind (random_token len) k w = k (draw_alphanumeric (w_draws w) len) (set_draws (S (w_draws w)) w).
Proof. done. Qed.
Lemma bind_random_bytes {P : Platform} {B} len (k : string -> M B) w :
  bind (random_bytes len) k w = k (draw_bytes (w_draws w) len) (set_draws (S (w_draws w)) w).
Proof. done. Qed.

Create Rewrite HintDb healthy.
Hint Rewrite @bind_ret @bind_fail @bind_assoc @bind_now @bind_guard @bind_ok_or @bind_spawn_mail
  @bind_argon2_check @bind_new_uuid @bind_random_token @bind_random_bytes : healthy.
Hint Rewrite @bind_read @bind_write using (assumption || (cbn; assumption) || (cbn; reflexivity)) : healthy.

(** Projections of an updated world, simplified. *)
Ltac wsimpl :=
  cbn [set_db set_draws set_faults set_io_faults set_disk set_bucket set_mail set_notify set_now
       set_argon2 set_jwks w_db w_now w_draws w_faults w_io_faults w_disk w_bucket w_mail w_notify
       w_argon2 w_jwks] in *.
Ltac hrun := repeat (progress (autorewrite with healthy; cbv beta)).

(** The inverse direction: what an [Ok] result says of its first action. *)
Lemma bind_Ok_inv {A B} (m : M A) (k : A -> M B) w b w' :
  bind m k w = (Ok b, w') → ∃ a w1, m w = (Ok a, w1) ∧ k a w1 = (Ok b, w').
Proof. unfold bind. destruct (m w) as [[a|e|] w1]; intros H; simplify_eq; eauto. Qed.

Lemma bind_Err_inv {A B} (m : M A) (k : A -> M B) w e w' :
  bind m k w = (Err e, w') →
  m w = (Err e, w') ∨ ∃ a w1, m w = (Ok a, w1) ∧ k a w1 = (Err e, w').
Proof. unfold bind. destruct (m w) as [[a|e'|] w1]; intros H; simplify_eq; eauto. Qed.

(** A statement fails with a database error only, and does no hashing. *)
Lemma sql_cases {A} (q : Sql A) w :
  ∃ w1, w_argon2 w1 = w_argon2 w ∧
    ((∃ a, sql q w = (Ok a, w1)) ∨ (∃ e, sql q w = (Err (DatabaseError e), w1) ∧ w_db w1 = w_db w)).
Proof.
  unfold sql, exec. destruct (w_faults w) as [|[e|] fs].
  2: { exists (set_faults fs w). split; [done|]. right. by exists e. }
  all: destruct (q _ _) as [[a d]|e]; eexists; (split; [|by eauto]); done.
Qed.

(** A transaction that fails leaves the database as it was. *)
Lemma bind_transaction_Err {A B} (m : M A) (k : A -> M B) w e w' :
  bind (transaction m) k w = (Err e, w') →
  w_db w' = w_db w ∨ ∃ a w1, transaction m w = (Ok a, w1) ∧ k a w1 = (Err e, w').
Proof.
  intros [H | H]%bind_Err_inv; [left | by right]. by eapply transaction_atomic.
Qed.

(** ** The errors a handler can return *)
Definition raises (Q : AppError -> Prop) {A} (m : M A) : Prop :=
  ∀ w e w', m w = (Err e, w') → Q e.

(** The server's own faults: a database error or an internal one. *)
Definition server_fault (e : AppError) : Prop :=
  match e with DatabaseError _ | Internal _ => True | _ => False end.

Create HintDb raises.

Section Raises.
Context (Q : AppError -> Prop) {A B : Type}.

Lemma raises_ret (a : A) : raises Q (ret a).
Proof. done. Qed.
Lemma raises_fail e : Q e → raises Q (fail (A:=A) e).
Proof. intros H w e' w' [= <- _]. done. Qed.
Lemma raises_fresh (f : nat -> A) : raises Q (fresh f).
Proof. done. Qed.
Lemma raises_ok_or e (o : option A) : Q e → raises Q (ok_or e o).
Proof. intros H. by destruct o; [|apply raises_fail]. Qed.
Lemma raises_exec f (q : Sql A) : (∀ e, Q (f e)) → raises Q (exec f q).
Proof.
  intros H w e w'. unfold exec. destruct (w_faults w) as [|[x|] fs]; [|by intros [= <- _]|].
  all: destruct (q _ _) as [[a d]|x]; intros [= <- _]; done.
Qed.
Lemma raises_bind (m : M A) (k : A -> M B) : raises Q m → (∀ a, raises Q (k a)) → raises Q (bind m k).
Proof. intros Hm Hk w e w' [H|(a & w1 & _ & H)]%bind_Err_inv; [by eapply Hm | by eapply Hk]. Qed.
End Raises.

Lemma raises_transaction Q {A} (m : M A) :
  (∀ e, Q (DatabaseError e)) → raises Q m → raises Q (transaction m).
Proof.
  intros Hdb Hm w e w'. unfold transaction. assert (Hp : raises Q ping) by (by apply raises_exec).
  destruct (ping w) as [[u|x|] w0] eqn:E0; [|intros [= <- _]; by eapply Hp | done].
  destruct (m w0) as [[a|x|] w1] eqn:E1; [|intros [= <- _]; by eapply Hm | done].
  destruct (ping w1) as [[u'|x|] w2] eqn:E2; [done | intros [= <- _]; by eapply Hp | done].
Qed.
Lemma raises_guard Q b e : Q e → raises Q (guard b e).
Proof. destruct b; [done | apply raises_fail]. Qed.
Lemma raises_now Q : raises Q now.
Proof. done. Qed.
Lemma raises_argon2_check {P : Platform} Q h p : raises Q (argon2_check h p).
Proof. intros w e w'. unfold argon2_check. by destruct (argon2_verify h p). Qed.

#[export] Hint Resolve raises_ret raises_fail raises_fresh raises_ok_or raises_exec raises_bind
  raises_transaction raises_guard raises_now raises_argon2_check : raises.

#[export] Hint Extern 1 (server_fault _) => exact I : raises.

Ltac raises_step :=
  match goal with
  | |- raises _ (bind _ _) => apply raises_bind; [| intros ?]
  | |- raises _ (transaction _) => apply raises_transaction; [by intros ?|]
  | |- raises _ (sql _) => apply raises_exec; by intros ?
  | |- raises _ (match ?x with _ => _ end) => destruct x
  | |- raises _ _ => solve [eauto 2 with raises | by intros ???]
  end.
Ltac raises_tac := repeat raises_step.

(** ** Pure results and inversion *)

(** A pure function's outcome as a handler step. *)
Definition lift {A} (r : outcome A AppError) : M A := fun w => (r, w).

Lemma bind_lift {A B} (r : outcome A AppError) (k : A -> M B) w :
  bind (lift r) k w = match r with Ok a => k a w | Err e => (Err e, w) | Panic => (Panic, w) end.
Proof. by destruct r. Qed.
Lemma respects_lift R `{!PreOrder R} {A} (r : outcome A AppError) : respects R (lift r).
Proof. intros w. reflexivity. Qed.
Lemma steady_lift {A} (r : outcome A AppError) : steady (lift r).
Proof. done. Qed.
#[export] Hint Resolve respects_lift : respects.
#[export] Hint Resolve steady_lift : steady.
Hint Rewrite @bind_lift : healthy.

(** [f(...).await.map_err(|e| ...)] where a unique violation gets its own message. *)
Definition conflict_or_db (msg : string) (e : SqlxError) : AppError :=
  if is_unique_violation e then Conflict msg else DatabaseError e.

(** Whatever the fault schedule, a statement that returned did run. *)
Lemma exec_Ok_inv {A} f (q : Sql A) w a w1 :
  exec f q w = (Ok a, w1) → q (w_now w) (w_db w) = inl (a, w_db w1) ∧ w_now w1 = w_now w ∧
    w_draws w1 = w_draws w.
Proof.
  unfold exec. destruct (w_faults w) as [|[e|] fs]; [|done|].
  all: destruct (q (w_now w) (w_db w)) as [[a' d]|e]; intros H; simplify_eq/=; done.
Qed.

Lemma exec_Err_inv {A} f (q : Sql A) w e w1 :
  exec f q w = (Err e, w1) → w_db w1 = w_db w ∧ ∃ x, e = f x.
Proof.
  unfold exec. destruct (w_faults w) as [|[x|] fs]; [|intros [= <- <-]; eauto|].
  all: destruct (q (w_now w) (w_db w)) as [[a' d]|x]; intros H; simplify_eq/=; eauto.
Qed.

Lemma exec_no_panic {A} f (q : Sql A) w w1 : exec f q w ≠ (Panic, w1).
Proof.
  unfold exec. destruct (w_faults w) as [|[x|] fs]; [|done|].
  all: by destruct (q (w_now w) (w_db w)) as [[a' d]|x].
Qed.

Lemma sql_Ok_inv {A} (q : Sql A) w a w1 :
  sql q w = (Ok a, w1) → q (w_now w) (w_db w) = inl (a, w_db w1) ∧ w_now w1 = w_now w ∧
    w_draws w1 = w_draws w.
Proof. apply exec_Ok_inv. Qed.

(** A read returns what the database holds and changes nothing. *)
Lemma read_Ok_inv {A} (f : Timestamp -> Db -> A) w a w1 :
  sql (sql_read f) w = (Ok a, w1) → a = f (w_now w) (w_db w) ∧ w_db w1 = w_db w ∧
    w_now w1 = w_now w ∧ w_draws w1 = w_draws w.
Proof. by intros (H & ? & ?)%sql_Ok_inv; injection H. Qed.

Lemma ok_or_Ok_inv {A} e (o : option A) a w w1 : ok_or e o w = (Ok a, w1) → o = Some a ∧ w1 = w.
Proof. destruct o; unfold ok_or, ret, fail; intros; by simplify_eq. Qed.
Lemma guard_Ok_inv b e u w w1 : guard b e w = (Ok u, w1) → b = true ∧ w1 = w.
Proof. destruct b; unfold guard, ret, fail; intros; by simplify_eq. Qed.

Lemma transaction_Ok_inv {A} (m : M A) w a w' :
  transaction m w = (Ok a, w') → ∃ w0 w1, w_db w0 = w_db w ∧ w_now w0 = w_now w ∧
    w_draws w0 = w_draws w ∧ m w0 = (Ok a, w1) ∧ w_db w' = w_db w1 ∧ w_now w' = w_now w1.
Proof.
  unfold transaction. destruct (ping w) as [[u|e|] w0] eqn:E0; [|done..].
  destruct (m w0) as [[b|e|] w1] eqn:E1; [|done..].
  destruct (ping w1) as [[u'|e|] w2] eqn:E2; [|done..]. intros [= <- <-].
  apply read_Ok_inv in E0 as (_ & H1 & H2 & H3). apply read_Ok_inv in E2 as (_ & H4 & H5 & H6).
  exists w0, w1. split_and!; congruence.
Qed.

(** Walk backwards through a handler that returned [Ok]. *)
Ltac ok_step H :=
  let a := fresh "a" in let w := fresh "w" in let H1 := fresh "Hs" in
  apply bind_Ok_inv in H as (a & w & H1 & H);
  lazymatch type of H1 with
  | sql (sql_read _) _ = _ =>
      let Hd := fresh "Hd" in let Hn := fresh "Hn" in let Hw := fresh "Hw" in
      apply read_Ok_inv in H1 as (-> & Hd & Hn & Hw)
  | ok_or _ _ _ = _ => let E := fresh "Ho" in apply ok_or_Ok_inv in H1 as [E ->]
  | guard _ _ _ = _ => let E := fresh "Hg" in apply guard_Ok_inv in H1 as [E ->]
  | now _ = _ => injection H1 as <- <-
  | new_uuid _ = _ => injection H1 as <- <-
  | random_token _ _ = _ => injection H1 as <- <-
  | random_bytes _ _ = _ => injection H1 as <- <-
  | ret _ _ = _ => injection H1 as <- <-
  | lift _ _ = _ => injection H1 as H1 <-
  | _ => idtac
  end.

(** ** All or nothing

    A handler is atomic when anything but [Ok] leaves the database as it was,
    and total when it always returns [Ok]. Reads, then one statement or one
    transaction, then best-effort work is atomic. *)
Definition atomic {A} (m : M A) : Prop :=
  ∀ w r w', m w = (r, w') → is_ok r = false → w_db w' = w_db w.
Definition total {A} (m : M A) : Prop := ∀ w, is_ok (fst (m w)) = true.

Create HintDb atomic.

Lemma atomic_exec {A} f (q : Sql A) : atomic (exec f q).
Proof.
  intros w [a|e|] w' H Hr; [done | by apply exec_Err_inv in H as [? _] | by apply exec_no_panic in H].
Qed.
Lemma atomic_transaction {A} (m : M A) : atomic (transaction m).
Proof. intros w r w'. apply transaction_atomic. Qed.
Lemma atomic_readonly {A} (m : M A) : respects eq m → atomic m.
Proof. intros H w r w' E _. specialize (H w). by rewrite E in H. Qed.
Lemma atomic_bind_readonly {A B} (m : M A) (k : A -> M B) :
  respects eq m → (∀ a, atomic (k a)) → atomic (bind m k).
Proof.
  intros Hm Hk w r w' E Hr. specialize (Hm w). unfold bind in E.
  destruct (m w) as [[a|e|] w1]; simpl in Hm; [rewrite Hm; by eapply Hk | by injection E as _ <-..].
Qed.
Lemma atomic_bind_total {A B} (m : M A) (k : A -> M B) :
  atomic m → (∀ a, total (k a)) → atomic (bind m k).
Proof.
  intros Hm Hk w r w' E Hr. unfold bind in E. destruct (m w) as [[a|e|] w1] eqn:Em.
  - specialize (Hk a w1). rewrite E in Hk. simpl in Hk. congruence.
  - injection E as _ <-. by eapply Hm.
  - injection E as _ <-. by eapply Hm.
Qed.
Lemma total_ret {A} (a : A) : total (ret a).
Proof. done. Qed.
Lemma total_attempt_ret {A B} (m : M A) (b : B) :
  (∀ w w', m w ≠ (Panic, w')) → total (bind (attempt m) (fun _ => ret b)).
Proof.
  intros Hp w. unfold bind, attempt. destruct (m w) as [[a|e|] w'] eqn:E; [done..|]. by apply Hp in E.
Qed.
Lemma total_bind {A B} (m : M A) (k : A -> M B) : total m → (∀ a, total (k a)) → total (bind m k).
Proof.
  intros Hm Hk w. specialize (Hm w). unfold bind. destruct (m w) as [[a|e|] w']; [apply Hk | done..].
Qed.
Lemma total_spawn_mail m : total (spawn_mail m).
Proof. done. Qed.

#[export] Hint Resolve atomic_exec atomic_transaction total_ret total_spawn_mail : atomic.
#[export] Hint Extern 1 (atomic (sql _)) => apply atomic_exec : atomic.

Ltac total_step :=
  match goal with
  | |- total (bind _ _) => apply total_bind; [| intros ?]
  | |- total (match ?x with _ => _ end) => destruct x
  | |- total _ => solve [eauto 2 with atomic]
  end.
Ltac total_tac := repeat total_step.
Ltac atomic_step :=
  match goal with
  | |- atomic (bind _ _) =>
      first [ apply atomic_bind_readonly; [solve [respects_tac] | intros ?]
            | apply atomic_bind_total; [| intros ?; solve [total_tac]] ]
  | |- atomic (match ?x with _ => _ end) => destruct x
  | |- atomic _ => solve [eauto 2 with atomic | apply atomic_readonly; respects_tac]
  end.
Ltac atomic_tac := repeat atomic_step.
