(* ===== verification/Pagination.v ===== *)
(** * Pagination ([models/pagination.rs])

    Offset pages ([PageParams], [PageMeta]) with the 64-bit arithmetic of the
    source, opaque cursors, and the keyset query that the notification and audit
    feeds share. *)
From stdpp Require Import sorting.
From S2P Require Import Prelude RustStr Models Errors Platform World.

(** ** Offset pages *)

Record PageParams := { pp_page : option Z; pp_page_size : option Z }.

(** [Ord::clamp] *)
Definition clamp (lo hi z : Z) : Z := if (z <? lo)%Z then lo else if (hi <? z)%Z then hi else z.

Definition page (p : PageParams) : Z := Z.max (unwrap_or 1%Z (pp_page p)) 1.
Definition page_size (p : PageParams) : Z := clamp 1 100 (unwrap_or 20%Z (pp_page_size p)).
(** The multiplication is on [u64] and wraps in a release build. *)
Definition offset (p : PageParams) : Z := wrap_u64 ((page p - 1) * page_size p).
Definition limit (p : PageParams) : Z := page_size p.

Record PageMeta := {
  pm_page : Z; pm_page_size : Z; pm_total_pages : Z; pm_total_count : Z;
  pm_has_next : bool; pm_has_previous : bool }.

(** [u64::div_ceil] *)
Definition div_ceil (a b : Z) : Z := if (a mod b =? 0)%Z then (a / b)%Z else (a / b + 1)%Z.

Definition PageMeta_new (page page_size total_count : Z) : PageMeta :=
  let total_pages := if (total_count =? 0)%Z then 0%Z else div_ceil total_count page_size in
  {| pm_page := page; pm_page_size := page_size; pm_total_pages := total_pages;
     pm_total_count := total_count;
     pm_has_next := (page <? total_pages)%Z;
     pm_has_previous := ((1 <? page) && (0 <? total_pages))%Z%bool |}.

(** [LIMIT]/[OFFSET]: PostgreSQL refuses negative values. *)
Definition limit_offset {A} (lim off : Z) (l : list A) : list A + SqlxError :=
  if (lim <? 0)%Z then inr (OtherDatabase "2201W")
  else if (off <? 0)%Z then inr (OtherDatabase "2201X")
  else inl (take (Z.to_nat lim) (drop (Z.to_nat off) l)).

(** Newest first: [ORDER BY created_at DESC], ties in storage order. *)
Definition newer {A} (created_at : A -> Z) (a b : A) : Prop := (created_at b <= created_at a)%Z.
#[export] Instance newer_dec {A} (created_at : A -> Z) a b : Decision (newer created_at a b).
Proof. unfold newer. apply _. Defined.
Definition newest_first {A} (created_at : A -> Z) (l : list A) : list A :=
  merge_sort (newer created_at) l.

(** The page a listing query returns: [params.limit() as i64], [params.offset() as i64]. *)
Definition page_query {A} (created_at : A -> Z) (p : PageParams) (rows : list A)
  : list A + SqlxError :=
  limit_offset (u64_as_i64 (limit p)) (u64_as_i64 (offset p)) (newest_first created_at rows).

Definition sql_page {A} (created_at : A -> Z) (p : PageParams) (rows : Db -> list A) : Sql (list A) :=
  fun _ d => match page_query created_at p (rows d) with
             | inl l => inl (l, d)
             | inr e => inr e
             end.

(** The two queries of a listing: the page, then [COUNT] of the same rows. *)
Definition list_page {A} (created_at : A -> Z) (p : PageParams) (rows : Db -> list A)
  : M (list A * Z) :=
  let! page_rows := sql (sql_page created_at p rows) in
  let! total := sql (sql_read (fun _ d => Z.of_nat (length (rows d)))) in
  ret (page_rows, total).

(** ** Cursors *)

Record CursorParams := { cp_limit : option Z; cp_cursor : option string }.
Definition cursor_limit (p : CursorParams) : Z := clamp 1 100 (unwrap_or 20%Z (cp_limit p)).

Record Cursor := { cur_created_at : Timestamp; cur_id : Uuid }.

Record CursorMeta := {
  cm_limit : Z; cm_has_next : bool; cm_next_cursor : option string;
  cm_previous_cursor : option string }.

Definition pipe : ascii := ascii_of_nat 124.

Section Cursors.
Context {P : Platform}.

Definition encode (c : Cursor) : string :=
  b64url_encode (show_Z (cur_created_at c) +:+ String pipe (uuid_show (cur_id c))).

(** [String::from_utf8] *)
Definition from_utf8 (s : string) : option string :=
  if is_some (utf8_decode (bytes_of s)) then Some s else None.

Definition decode (raw : string) : option Cursor :=
  match b64url_decode raw with
  | None => None
  | Some decoded =>
      match from_utf8 decoded with
      | None => None
      | Some text =>
          match split_once pipe text with
          | None => None
          | Some (micros, id) =>
              match parse_int 64 micros with
              | None => None
              | Some m =>
                  match chrono_from_timestamp_micros m, uuid_parse id with
                  | Some t, Some u => Some {| cur_created_at := t; cur_id := u |}
                  | _, _ => None
                  end
              end
          end
      end
  end.

Definition from_page (limit : Z) (has_next : bool) (last : option Cursor) : CursorMeta :=
  {| cm_limit := limit; cm_has_next := has_next;
     cm_next_cursor := if has_next then encode <$> last else None;
     cm_previous_cursor := None |}.
End Cursors.

(** ** Keyset pages

    The query of [list_notifications] and [list_audit_logs]: rows of the feed
    strictly below the cursor in [(created_at, id)] order, newest first, one
    more than the limit; the extra row answers "is there a next page". *)
Section Keyset.
Context {A : Type} (key : A -> Cursor).

(** [(a.created_at, a.id) < (b.created_at, b.id)], row-wise *)
Definition cursor_ltb (a b : Cursor) : bool :=
  ((cur_created_at a <? cur_created_at b)%Z
   || (cur_created_at a =? cur_created_at b)%Z && (Z.of_N (cur_id a) <? Z.of_N (cur_id b))%Z)%bool.

(** [ORDER BY created_at DESC, id DESC] *)
Definition not_before (a b : A) : Prop := cursor_ltb (key a) (key b) = false.

#[export] Instance not_before_dec a b : Decision (not_before a b).
Proof. unfold not_before. apply _. Defined.

Definition below (c : option Cursor) (r : A) : bool :=
  match c with None => true | Some c => cursor_ltb (key r) c end.

Definition keyset_rows (feed : A -> bool) (c : option Cursor) (lim : Z) (t : list A) : list A :=
  take (Z.to_nat (lim + 1))
    (merge_sort not_before (select (fun r => feed r && below c r) t)).

Record KeysetPage := { kp_rows : list A; kp_has_next : bool; kp_last : option Cursor }.

(** [has_next = rows.len() > limit; rows.truncate(limit); last = rows.last()] *)
Definition keyset_page (feed : A -> bool) (c : option Cursor) (lim : Z) (t : list A) : KeysetPage :=
  let rows := keyset_rows feed c lim t in
  let has_next := (lim <? Z.of_nat (length rows))%Z in
  let rows := take (Z.to_nat lim) rows in
  {| kp_rows := rows; kp_has_next := has_next; kp_last := key <$> last rows |}.

(** A client following [next_cursor] until [has_next] is false. *)
Fixpoint traverse (fuel : nat) (feed : A -> bool) (c : option Cursor) (lim : Z) (t : list A)
  : list (list A) :=
  match fuel with
  | O => []
  | S fuel' =>
      let p := keyset_page feed c lim t in
      kp_rows p :: (if kp_has_next p then traverse fuel' feed (kp_last p) lim t else [])
  end.
End Keyset.

(** ** Lemmas: cursor order *)

Lemma cursor_ltb_irrefl c : cursor_ltb c c = false.
Proof. unfold cursor_ltb. lia. Qed.

Lemma cursor_ltb_trans a b c :
  cursor_ltb a b = true → cursor_ltb b c = true → cursor_ltb a c = true.
Proof. unfold cursor_ltb. lia. Qed.

Lemma cursor_ltb_total a b :
  cursor_ltb a b = false → cursor_ltb b a = false → a = b.
Proof.
  destruct a as [ta ia], b as [tb ib]. unfold cursor_ltb. simpl. intros H1 H2.
  f_equal; lia.
Qed.

Lemma cursor_ltb_asym a b : cursor_ltb a b = true → cursor_ltb b a = false.
Proof. unfold cursor_ltb. lia. Qed.

Section KeysetLemmas.
Context {A : Type} (key : A -> Cursor).
Implicit Types (t l : list A).

#[local] Instance not_before_trans : Transitive (not_before key).
Proof. unfold not_before. intros a b c. unfold cursor_ltb. lia. Qed.

#[local] Instance not_before_total : Total (not_before key).
Proof.
  intros a b. unfold not_before.
  destruct (cursor_ltb (key a) (key b)) eqn:E; [right | by left].
  by apply cursor_ltb_asym.
Qed.

Lemma select_perm (p : A -> bool) l1 l2 : l1 ≡ₚ l2 → select p l1 ≡ₚ select p l2.
Proof.
  unfold select. induction 1; simpl; repeat case_match; try done; auto using perm_skip, perm_swap.
  by etrans.
Qed.

Lemma select_select (p q : A -> bool) l : select p (select q l) = select (λ r, q r && p r) l.
Proof.
  unfold select. induction l as [|r l IH]; simpl; [done|].
  destruct (q r); simpl; [destruct (p r)|]; by rewrite IH.
Qed.

Lemma select_sorted (p : A -> bool) l :
  StronglySorted (not_before key) l → StronglySorted (not_before key) (select p l).
Proof.
  induction 1 as [|r l Hl IH Hr]; simpl; [constructor|].
  destruct (p r); [|done]. constructor; [done|].
  rewrite Forall_forall in *. intros r' [_ Hr']%elem_of_select. auto.
Qed.

(** Sorting the selected rows is selecting from the sorted rows. *)
Lemma sort_select (p : A -> bool) t :
  NoDup (key <$> t) →
  merge_sort (not_before key) (select p t) = select p (merge_sort (not_before key) t).
Proof.
  intros Hnd. apply (StronglySorted_unique_strong (not_before key)).
  - intros x1 x2 H1 H2 H12 H21.
    assert (Hx1 : x1 ∈ t) by (rewrite merge_sort_Permutation in H1; by apply elem_of_select in H1 as [_ ?]).
    assert (Hx2 : x2 ∈ t) by (apply elem_of_select in H2 as [_ H2]; by rewrite merge_sort_Permutation in H2).
    assert (Hk : key x1 = key x2) by (by apply cursor_ltb_total).
    apply list_elem_of_lookup in Hx1 as [i Hi]. apply list_elem_of_lookup in Hx2 as [j Hj].
    assert (i = j) as ->; [|congruence].
    eapply NoDup_lookup; [exact Hnd | |]; rewrite list_lookup_fmap; [by rewrite Hi | rewrite Hj; simpl; by rewrite Hk].
  - apply StronglySorted_merge_sort; apply _.
  - apply select_sorted, StronglySorted_merge_sort; apply _.
  - rewrite merge_sort_Permutation. apply select_perm. by rewrite merge_sort_Permutation.
Qed.

(** Below the cursor of a row of a strictly sorted list lies what follows it. *)
Lemma select_below_split l1 x l2 :
  NoDup (key <$> (l1 ++ x :: l2)) → StronglySorted (not_before key) (l1 ++ x :: l2) →
  select (below key (Some (key x))) (l1 ++ x :: l2) = l2.
Proof.
  induction l1 as [|y l1 IH]; simpl; intros Hnd Hs; inversion_clear Hs as [|? ? Hs' Hy].
  - rewrite cursor_ltb_irrefl.
    assert (Hall : ∀ r, r ∈ l2 → cursor_ltb (key r) (key x) = true).
    { intros r Hr. destruct (cursor_ltb (key r) (key x)) eqn:E; [done|].
      rewrite Forall_forall in Hy. specialize (Hy r Hr). unfold not_before in Hy.
      apply NoDup_cons in Hnd as [Hn _]. destruct Hn.
      rewrite (cursor_ltb_total (key x) (key r)) by done. by apply list_elem_of_fmap_2. }
    clear -Hall. induction l2 as [|r l2 IH]; simpl; [done|].
    rewrite Hall by set_solver. f_equal. apply IH. set_solver.
  - apply NoDup_cons in Hnd as [_ Hnd]. rewrite IH by done.
    rewrite Forall_forall in Hy. specialize (Hy x ltac:(set_solver)). unfold not_before in Hy.
    by rewrite Hy.
Qed.

Lemma keyset_rows_spec feed c lim t :
  NoDup (key <$> t) →
  keyset_rows key feed c lim t
  = take (Z.to_nat (lim + 1))
      (select (below key c) (merge_sort (not_before key) (select feed t))).
Proof.
  intros Hnd. unfold keyset_rows. f_equal.
  rewrite !sort_select by done. by rewrite select_select.
Qed.

Lemma traverse_suffix feed lim t fuel c pre post :
  NoDup (key <$> t) → (1 <= lim)%Z →
  merge_sort (not_before key) (select feed t) = pre ++ post →
  select (below key c) (pre ++ post) = post →
  length post < fuel →
  concat (traverse key fuel feed c lim t) = post.
Proof.
  intros Hnd Hlim HF. revert c pre post HF.
  assert (HndF : NoDup (key <$> merge_sort (not_before key) (select feed t))).
  { rewrite merge_sort_Permutation. unfold select.
    induction t as [|r t IH]; simpl; [constructor|].
    apply NoDup_cons in Hnd as [Hr Hnd]. destruct (feed r); [|by apply IH].
    apply NoDup_cons. split; [|by apply IH]. intros Hin. apply Hr.
    apply list_elem_of_fmap in Hin as (r' & -> & Hr'). apply list_elem_of_fmap_2.
    rewrite list_elem_of_In, filter_In in Hr'. rewrite list_elem_of_In. tauto. }
  assert (HsF : StronglySorted (not_before key) (merge_sort (not_before key) (select feed t)))
    by (apply StronglySorted_merge_sort; apply _).
  induction fuel as [|fuel IH]; intros c pre post HF Hb Hl; [lia|].
  cbn [traverse concat]. unfold keyset_page. cbn [kp_rows kp_has_next kp_last].
  rewrite keyset_rows_spec, HF, Hb by done.
  replace (Z.to_nat (lim + 1)) with (S (Z.to_nat lim)) by lia.
  rewrite take_take, Nat.min_l by lia.
  destruct (lim <? Z.of_nat (length (take (S (Z.to_nat lim)) post)))%Z eqn:E; bool_facts;
    rewrite length_take in E.
  - assert (Hlen : Z.to_nat lim < length post) by lia.
    destruct (take (Z.to_nat lim) post) as [|x0 l0] eqn:Et using rev_ind.
    { exfalso. apply (f_equal length) in Et. rewrite length_take in Et. simpl in Et. lia. }
    clear IHl0. rewrite last_snoc. simpl fmap.
    rewrite IH with (pre := pre ++ (l0 ++ [x0])) (post := drop (Z.to_nat lim) post).
    + rewrite <- Et. apply take_drop.
    + by rewrite HF, <- Et, <- app_assoc, take_drop.
    + rewrite HF in HndF, HsF.
      assert (Hpost : post = (l0 ++ [x0]) ++ drop (Z.to_nat lim) post)
        by (by rewrite <- Et, take_drop).
      rewrite Hpost in HndF, HsF. rewrite <- !app_assoc in *. simpl in *.
      rewrite app_assoc in HndF, HsF |- *. by apply select_below_split.
    + rewrite length_drop. lia.
  - cbn [concat]. rewrite app_nil_r. apply take_ge. lia.
Qed.
End KeysetLemmas.

(** ** Lemmas: text of a cursor *)

Lemma utf8_decode_ascii_app l1 l2 :
  Forall (λ b, (0 <= b < 128)%Z) l1 → utf8_decode (l1 ++ l2) = app l1 <$> utf8_decode l2.
Proof.
  induction 1 as [|b l1 Hb _ IH]; simpl; [by destruct (utf8_decode l2)|].
  replace (b <? 128)%Z with true by lia. rewrite IH. by destruct (utf8_decode l2).
Qed.

Lemma all_ascii_bytes p s :
  (∀ a, p a = true → (byte_val a < 128)%Z) → all_ascii p s = true →
  Forall (λ b, (0 <= b < 128)%Z) (bytes_of s).
Proof.
  intros Hp. induction s as [|a s IH]; [constructor|]. cbn [all_ascii]. intros H. bool_facts.
  apply Forall_cons_2; [|by apply IH]. pose proof (byte_val_range a). unfold is_byte in *.
  split; [lia | by apply Hp].
Qed.

Lemma int_char_ascii a : int_char a = true → (byte_val a < 128)%Z.
Proof. unfold int_char. lia. Qed.

Lemma int_char_not_pipe a : int_char a = true → negb (Ascii.eqb a pipe) = true.
Proof.
  unfold int_char. destruct (Ascii.eqb a pipe) eqn:E; [|done].
  apply Ascii.eqb_eq in E as ->. done.
Qed.

(** ** Properties *)

(** From the start, with enough requests, a traversal is the sorted feed. *)
Lemma traverse_complete {A} (key : A -> Cursor) (feed : A -> bool) (lim : Z)
    (t : list A) (fuel : nat) :
  NoDup (key <$> t) → (1 <= lim)%Z → length t < fuel →
  concat (traverse key fuel feed None lim t) = merge_sort (not_before key) (select feed t) ∧
  concat (traverse key fuel feed None lim t) ≡ₚ select feed t.
Proof.
  intros Hnd Hlim Hfuel.
  assert (H : concat (traverse key fuel feed None lim t)
              = merge_sort (not_before key) (select feed t)).
  { apply traverse_suffix with (pre := []); auto.
    - simpl. generalize (merge_sort (not_before key) (select feed t)) as l.
      unfold select. intros l. induction l as [|r l IH]; simpl; [done|]. by rewrite IH.
    - rewrite merge_sort_Permutation.
      enough (length (select feed t) <= length t) by lia. apply filter_length_le. }
  split; [done|]. by rewrite H, merge_sort_Permutation.
Qed.

(** A page that has a successor ends in a row of the table. *)
Lemma keyset_last_in {A} (key : A -> Cursor) feed c lim t :
  (1 <= lim)%Z → kp_has_next (keyset_page key feed c lim t) = true →
  ∃ x, x ∈ t ∧ kp_last (keyset_page key feed c lim t) = Some (key x).
Proof.
  intros Hl. unfold keyset_page. cbn [kp_has_next kp_last]. intros Hn. bool_facts.
  destruct (last (take (Z.to_nat lim) (keyset_rows key feed c lim t))) as [x|] eqn:E.
  - exists x. split; [|done]. apply last_Some_elem_of, subseteq_take in E. unfold keyset_rows in E.
    apply subseteq_take in E. rewrite merge_sort_Permutation in E. by apply elem_of_select in E as [_ E].
  - apply last_None in E. apply (f_equal length) in E. rewrite length_take in E. simpl in E. lia.
Qed.

(** Following [next_cursor] from the start of a feed yields every row of the
    feed exactly once, newest first: with the keys distinct (the id is a primary
    key) and a limit of at least one, the pages concatenate to the whole feed in
    [(created_at, id)] order, whatever the table size, once the client makes
    enough requests. *)
Theorem keyset_traversal_complete {A} (key : A -> Cursor) (feed : A -> bool) (lim : Z)
    (t : list A) (fuel : nat) :
  NoDup (key <$> t) → (1 <= lim)%Z → length t < fuel →
  concat (traverse key fuel feed None lim t) = merge_sort (not_before key) (select feed t) ∧
  concat (traverse key fuel feed None lim t) ≡ₚ select feed t.
Proof. apply traverse_complete. Qed.

(** Two rows with the same timestamp and one newer, read two at a time. *)
Definition demo_rows : list Cursor :=
  [ {| cur_created_at := 10; cur_id := 1 |}; {| cur_created_at := 30; cur_id := 2 |};
    {| cur_created_at := 10; cur_id := 3 |} ].

Lemma keyset_traversal_complete_witness :
  concat (traverse id 4 (λ _, true) None 2 demo_rows)
  = [ {| cur_created_at := 30; cur_id := 2 |}; {| cur_created_at := 10; cur_id := 3 |};
      {| cur_created_at := 10; cur_id := 1 |} ].
Proof.
  refine (eq_trans (proj1 (keyset_traversal_complete id (λ _, true) 2 demo_rows 4 _ _ _)) _).
  - simpl. repeat (apply NoDup_cons_2; [set_solver|]). apply NoDup_nil_2.
  - lia.
  - simpl. lia.
  - vm_compute. reflexivity.
Defined.

(** Rows that arrive during a traversal do not disturb it: if none of the new
    rows sorts below the cursor the client holds (they are newer than what it has
    read), the rest of its traversal is exactly what it would have been. *)
Theorem keyset_traversal_stable {A} (key : A -> Cursor) (feed : A -> bool) (lim : Z)
    (t new : list A) (c : Cursor) (fuel : nat) :
  (∀ r, r ∈ new → cursor_ltb (key r) c = false) → (1 <= lim)%Z →
  traverse key fuel feed (Some c) lim (t ++ new) = traverse key fuel feed (Some c) lim t.
Proof.
  intros Hnew Hlim. revert c Hnew. induction fuel as [|fuel IH]; intros c Hnew; [done|].
  cbn [traverse].
  assert (Hrows : keyset_rows key feed (Some c) lim (t ++ new) = keyset_rows key feed (Some c) lim t).
  { unfold keyset_rows. rewrite select_app.
    replace (select _ new) with (@nil A); [by rewrite app_nil_r|].
    symmetry. apply select_none. intros r Hr. simpl. by rewrite Hnew, andb_false_r. }
  unfold keyset_page. cbn [kp_rows kp_has_next kp_last]. rewrite Hrows.
  destruct (lim <? _)%Z eqn:E; [|done]. bool_facts. f_equal.
  destruct (last (take (Z.to_nat lim) (keyset_rows key feed (Some c) lim t))) as [x|] eqn:El.
  - simpl. apply IH. intros r Hr.
    assert (Hx : cursor_ltb (key x) c = true).
    { apply last_Some_elem_of in El.
      assert (Hin : x ∈ keyset_rows key feed (Some c) lim t)
        by (eapply subseteq_take; exact El).
      unfold keyset_rows in Hin. apply subseteq_take in Hin.
      rewrite merge_sort_Permutation in Hin. apply elem_of_select in Hin as [Hin _].
      simpl in Hin. bool_facts. done. }
    destruct (cursor_ltb (key r) (key x)) eqn:Er; [|done].
    rewrite <- (Hnew r Hr). symmetry. by eapply cursor_ltb_trans.
  - exfalso. apply last_None in El. apply (f_equal length) in El.
    rewrite length_take in El. simpl in El. lia.
Qed.

Lemma keyset_traversal_stable_witness :
  traverse id 3 (λ _, true) (Some {| cur_created_at := 30; cur_id := 2 |}) 1
    (demo_rows ++ [ {| cur_created_at := 40; cur_id := 9 |} ])
  = traverse id 3 (λ _, true) (Some {| cur_created_at := 30; cur_id := 2 |}) 1 demo_rows.
Proof.
  apply (keyset_traversal_stable id).
  - intros r ->%list_elem_of_singleton. vm_compute. reflexivity.
  - lia.
Defined.

(** A cursor survives its trip through the client: decoding what [encode]
    produced gives the same timestamp and id, provided base64 and UUID text
    round-trip, UUID text is ASCII, and chrono accepts the timestamp. *)
Theorem cursor_roundtrip {P : Platform} (c : Cursor) :
  (∀ s, b64url_decode (b64url_encode s) = Some s) →
  uuid_parse (uuid_show (cur_id c)) = Some (cur_id c) →
  Forall (λ b, (0 <= b < 128)%Z) (bytes_of (uuid_show (cur_id c))) →
  chrono_from_timestamp_micros (cur_created_at c) = Some (cur_created_at c) →
  (- 2 ^ 63 <= cur_created_at c <= 2 ^ 63 - 1)%Z →
  decode (encode c) = Some c.
Proof.
  intros Hb64 Huuid Hascii Hchrono Hrange. unfold decode, encode. rewrite Hb64.
  set (text := show_Z _ +:+ _).
  assert (Hutf : from_utf8 text = Some text).
  { unfold from_utf8, text. rewrite bytes_of_app.
    rewrite utf8_decode_ascii_app
      by (eapply all_ascii_bytes; [apply int_char_ascii | apply show_Z_ascii]).
    change (bytes_of (String pipe (uuid_show (cur_id c))))
      with ([124%Z] ++ bytes_of (uuid_show (cur_id c))).
    rewrite utf8_decode_ascii_app by (apply Forall_cons_2; [lia | apply Forall_nil_2]).
    rewrite <- (app_nil_r (bytes_of (uuid_show (cur_id c)))), utf8_decode_ascii_app by done.
    done. }
  rewrite Hutf. unfold text.
  rewrite split_once_app
    by (eapply all_ascii_impl; [apply int_char_not_pipe | apply show_Z_ascii]).
  rewrite parse_int_show by exact Hrange. rewrite Hchrono, Huuid. by destruct c.
Qed.

Lemma cursor_roundtrip_witness :
  @decode toy (@encode toy {| cur_created_at := 1700000000123456; cur_id := 77 |})
  = Some {| cur_created_at := 1700000000123456; cur_id := 77 |}.
Proof.
  apply (@cursor_roundtrip toy).
  - apply toy_b64_roundtrip.
  - vm_compute. reflexivity.
  - vm_compute. repeat constructor; done.
  - reflexivity.
  - vm_compute. split; intros H; discriminate H.
Defined.

(** [page], [page_size] and [limit] are always in range, and the listing
    query returns exactly the requested slice of the newest-first rows whenever
    the row number of the page's start fits the signed 64-bit [OFFSET]. *)
Theorem page_query_exact {A} (created_at : A -> Z) (p : PageParams) (rows : list A) :
  (1 <= page p)%Z ∧ (1 <= page_size p <= 100)%Z ∧
  (((page p - 1) * page_size p < 2 ^ 63)%Z →
   page_query created_at p rows
   = inl (take (Z.to_nat (page_size p))
           (drop (Z.to_nat ((page p - 1) * page_size p)) (newest_first created_at rows)))).
Proof.
  assert (Hp : (1 <= page p)%Z) by (unfold page; lia).
  assert (Hs : (1 <= page_size p <= 100)%Z).
  { unfold page_size, clamp. repeat case_match; bool_facts; lia. }
  split; [done|]. split; [done|]. intros Hoff.
  unfold page_query, offset, limit, wrap_u64, u64_as_i64, limit_offset.
  assert (0 <= (page p - 1) * page_size p)%Z by nia.
  rewrite (Z.mod_small ((page p - 1) * page_size p)) by lia.
  replace (page_size p <? 2 ^ 63)%Z with true by lia.
  replace ((page p - 1) * page_size p <? 2 ^ 63)%Z with true by lia.
  replace (page_size p <? 0)%Z with false by lia.
  by replace ((page p - 1) * page_size p <? 0)%Z with false by lia.
Qed.

Lemma page_query_exact_witness :
  page_query id {| pp_page := Some 2%Z; pp_page_size := Some 2%Z |} [5; 9; 7; 1]%Z
  = inl [5; 1]%Z.
Proof.
  refine (eq_trans (proj2 (proj2 (page_query_exact id
    {| pp_page := Some 2%Z; pp_page_size := Some 2%Z |} [5; 9; 7; 1]%Z)) _) _).
  - vm_compute. reflexivity.
  - vm_compute. reflexivity.
Defined.

(** A page number is accepted up to the 64-bit maximum, and the wrap-around
    of [offset] is then visible: a page far beyond the end repeats the first
    page, and another one makes the database refuse the query. *)
Theorem page_offset_wraps :
  page_query id {| pp_page := Some (2 ^ 59 + 1)%Z; pp_page_size := Some 32%Z |} [3; 2; 1]%Z
    = inl [3; 2; 1]%Z ∧
  page_query id {| pp_page := Some u64_max; pp_page_size := None |} [3; 2; 1]%Z
    = inr (OtherDatabase "2201X").
Proof. split; vm_compute; reflexivity. Qed.

(** The page metadata is right: for a page number of at least one and a
    positive page size, [total_pages] is the least number of pages that holds the
    rows, [has_next] says exactly that rows remain after this page, and
    [has_previous] that this is not the first page of a non-empty listing. *)
Theorem page_meta_correct (pg sz total : Z) :
  (1 <= pg)%Z → (1 <= sz)%Z → (0 <= total)%Z →
  let m := PageMeta_new pg sz total in
  (sz * (pm_total_pages m - 1) < total <= sz * pm_total_pages m ∨
   total = 0 ∧ pm_total_pages m = 0)%Z ∧
  pm_has_next m = (pg * sz <? total)%Z ∧
  pm_has_previous m = ((1 <? pg) && (0 <? total))%Z%bool.
Proof.
  intros Hpg Hsz Ht. unfold PageMeta_new. simpl.
  destruct (total =? 0)%Z eqn:E; bool_facts.
  { subst. split; [by right|]. split; [|lia].
    apply eq_true_iff_eq. rewrite !Z.ltb_lt. nia. }
  assert (Htp : (sz * (div_ceil total sz - 1) < total <= sz * div_ceil total sz)%Z).
  { unfold div_ceil. pose proof (Z.div_mod total sz ltac:(lia)) as Hd.
    pose proof (Z.mod_pos_bound total sz ltac:(lia)).
    destruct (total mod sz =? 0)%Z eqn:Em; bool_facts; nia. }
  split; [by left|]. split.
  - apply eq_true_iff_eq. rewrite !Z.ltb_lt. nia.
  - f_equal. apply eq_true_iff_eq. rewrite !Z.ltb_lt. nia.
Qed.

Lemma page_meta_correct_witness :
  pm_has_next (PageMeta_new 2 20 45) = true ∧ pm_total_pages (PageMeta_new 2 20 45) = 3%Z.
Proof.
  destruct (page_meta_correct 2 20 45) as (_ & Hn & _); [lia | lia | lia |].
  split; [rewrite Hn; reflexivity | reflexivity].
Defined.
