(* ===== verification/Scopes.v ===== *)
(** * API key scopes ([models/api_key.rs])

    The typed scopes, their names, and the scope set a key carries. The set is a
    [BTreeSet], modelled as its strictly increasing list of elements. *)
From stdpp Require Import sorting.
From S2P Require Import Prelude RustStr Models Errors.

Inductive ApiScope :=
| FilesRead | FilesWrite | NotificationsRead | NotificationsWrite | AppsRead | AppsWrite
| OrgsRead | OrgsWrite | UsersRead | UsersWrite | AuditRead | AdminScope.

#[export] Instance ApiScope_eq_dec : EqDecision ApiScope.
Proof. solve_decision. Defined.

(** The derived [Ord] follows the declaration order. *)
Definition scope_rank (s : ApiScope) : Z :=
  match s with
  | FilesRead => 0 | FilesWrite => 1 | NotificationsRead => 2 | NotificationsWrite => 3
  | AppsRead => 4 | AppsWrite => 5 | OrgsRead => 6 | OrgsWrite => 7 | UsersRead => 8
  | UsersWrite => 9 | AuditRead => 10 | AdminScope => 11
  end%Z.

Definition scope_eqb (a b : ApiScope) : bool := (scope_rank a =? scope_rank b)%Z.
Definition scope_lt (a b : ApiScope) : Prop := (scope_rank a < scope_rank b)%Z.

Definition ApiScope_as_str (s : ApiScope) : string :=
  match s with
  | FilesRead => "files:read"
  | FilesWrite => "files:write"
  | NotificationsRead => "notifications:read"
  | NotificationsWrite => "notifications:write"
  | AppsRead => "apps:read"
  | AppsWrite => "apps:write"
  | OrgsRead => "orgs:read"
  | OrgsWrite => "orgs:write"
  | UsersRead => "users:read"
  | UsersWrite => "users:write"
  | AuditRead => "audit:read"
  | AdminScope => "admin"
  end.

Definition all_scopes : list ApiScope :=
  [FilesRead; FilesWrite; NotificationsRead; NotificationsWrite; AppsRead; AppsWrite;
   OrgsRead; OrgsWrite; UsersRead; UsersWrite; AuditRead; AdminScope].

(** [ApiScope::parse] *)
Definition parse_scope (raw : string) : outcome ApiScope AppError :=
  let t := trim raw in
  if t =s "files:read" then Ok FilesRead
  else if t =s "files:write" then Ok FilesWrite
  else if t =s "notifications:read" then Ok NotificationsRead
  else if t =s "notifications:write" then Ok NotificationsWrite
  else if t =s "apps:read" then Ok AppsRead
  else if t =s "apps:write" then Ok AppsWrite
  else if t =s "orgs:read" then Ok OrgsRead
  else if t =s "orgs:write" then Ok OrgsWrite
  else if t =s "users:read" then Ok UsersRead
  else if t =s "users:write" then Ok UsersWrite
  else if t =s "audit:read" then Ok AuditRead
  else if t =s "admin" then Ok AdminScope
  else Err (ValidationError
              ("Unknown scope '" +:+ t +:+ "'. Valid scopes: "
               +:+ join ", " (List.map ApiScope_as_str all_scopes))).

(** ** Scope sets *)

Abbreviation ScopeSet := (list ApiScope).

(** [BTreeSet::insert] *)
Fixpoint scope_insert (s : ApiScope) (l : ScopeSet) : ScopeSet :=
  match l with
  | [] => [s]
  | x :: t =>
      if (scope_rank s <? scope_rank x)%Z then s :: l
      else if (scope_rank s =? scope_rank x)%Z then l
      else x :: scope_insert s t
  end.

(** [iter().collect()] *)
Definition scope_collect (l : list ApiScope) : ScopeSet :=
  fold_left (fun acc s => scope_insert s acc) l [].

Definition wildcard_set : ScopeSet :=
  scope_collect (List.filter (fun s => negb (scope_eqb s AdminScope)) all_scopes).

Definition scope_contains (l : ScopeSet) (s : ApiScope) : bool := existsb (scope_eqb s) l.

Definition to_strings (l : ScopeSet) : list string := List.map ApiScope_as_str l.

Fixpoint parse_each (raw : list string) (set : ScopeSet) : outcome ScopeSet AppError :=
  match raw with
  | [] => Ok set
  | e :: t => match parse_scope e with
              | Ok s => parse_each t (scope_insert s set)
              | Err err => Err err
              | Panic => Panic
              end
  end.

(** [ScopeSet::parse_request] *)
Definition parse_request (raw : option (list string)) : outcome ScopeSet AppError :=
  match raw with
  | None => Ok wildcard_set
  | Some [] => Ok wildcard_set
  | Some raw =>
      if existsb (fun s => trim s =s "*") raw then Ok wildcard_set
      else parse_each raw []
  end.

Definition ok_scope (r : outcome ApiScope AppError) : option ApiScope :=
  match r with Ok s => Some s | _ => None end.

(** [ScopeSet::from_stored] *)
Definition from_stored (value : option Json) : ScopeSet :=
  match (match value with Some v => as_array v | None => None end) with
  | None => []
  | Some array =>
      if existsb (fun v => opt_eqb String.eqb (as_str v) (Some "*")) array then wildcard_set
      else scope_collect (omap (fun s => ok_scope (parse_scope s)) (omap as_str array))
  end.

(** ** Lemmas *)

Lemma scope_rank_inj a b : scope_rank a = scope_rank b → a = b.
Proof. by destruct a, b. Qed.

Lemma scope_eqb_eq a b : scope_eqb a b = true ↔ a = b.
Proof.
  unfold scope_eqb. rewrite Z.eqb_eq. split; [apply scope_rank_inj | by intros ->].
Qed.

Lemma scope_contains_elem l s : scope_contains l s = true ↔ s ∈ l.
Proof.
  unfold scope_contains. rewrite existsb_exists, list_elem_of_In. split.
  - intros (x & Hx & He). by apply scope_eqb_eq in He as ->.
  - intros H. exists s. by rewrite scope_eqb_eq.
Qed.

Lemma parse_as_str s : parse_scope (ApiScope_as_str s) = Ok s.
Proof. destruct s; vm_compute; reflexivity. Qed.

Lemma parse_scope_Ok raw s : parse_scope raw = Ok s → trim raw = ApiScope_as_str s.
Proof.
  unfold parse_scope.
  repeat match goal with
  | |- (if ?b then _ else _) = _ → _ =>
      destruct b eqn:?; [bool_facts; intros [= <-]; assumption|]
  end. discriminate.
Qed.

Lemma elem_of_scope_insert s x l : x ∈ scope_insert s l ↔ x = s ∨ x ∈ l.
Proof.
  induction l as [|y l IH]; simpl; [set_solver|].
  destruct (scope_rank s <? scope_rank y)%Z; [set_solver|].
  destruct (scope_rank s =? scope_rank y)%Z eqn:E; bool_facts.
  - apply scope_rank_inj in E as ->. set_solver.
  - rewrite !elem_of_cons, IH. naive_solver.
Qed.

Lemma scope_insert_sorted s l :
  StronglySorted scope_lt l → StronglySorted scope_lt (scope_insert s l).
Proof.
  induction 1 as [|y l Hl IH Hy]; simpl; [repeat constructor|].
  destruct (scope_rank s <? scope_rank y)%Z eqn:E1; bool_facts.
  - constructor; [by constructor|]. constructor; [done|].
    eapply Forall_impl; [exact Hy|]. unfold scope_lt. intros; lia.
  - destruct (scope_rank s =? scope_rank y)%Z eqn:E2; bool_facts; constructor; try done.
    rewrite Forall_forall in *. intros x [->|Hx]%elem_of_scope_insert; [unfold scope_lt; lia | auto].
Qed.

Lemma sorted_scopes_ext l1 l2 :
  StronglySorted scope_lt l1 → StronglySorted scope_lt l2 →
  (∀ s, s ∈ l1 ↔ s ∈ l2) → l1 = l2.
Proof.
  intros H1 H2 He. apply (StronglySorted_unique_strong scope_lt); auto.
  - unfold scope_lt. intros; lia.
  - assert (Hnd : ∀ l, StronglySorted scope_lt l → NoDup l).
    { induction 1 as [|x l _ IH Hx]; constructor; [|done].
      intros Hin. rewrite Forall_forall in Hx. specialize (Hx x Hin). unfold scope_lt in Hx. lia. }
    apply NoDup_Permutation; auto.
Qed.

Lemma scope_collect_spec l acc :
  StronglySorted scope_lt acc →
  StronglySorted scope_lt (fold_left (λ a s, scope_insert s a) l acc) ∧
  ∀ s, s ∈ fold_left (λ a s, scope_insert s a) l acc ↔ s ∈ l ∨ s ∈ acc.
Proof.
  revert acc. induction l as [|x l IH]; intros acc Hs; simpl; [set_solver|].
  destruct (IH (scope_insert x acc)) as [IHs IHe]; [by apply scope_insert_sorted|].
  split; [done|]. intros s. rewrite IHe, elem_of_scope_insert. set_solver.
Qed.

Lemma elem_of_scope_collect s l : s ∈ scope_collect l ↔ s ∈ l.
Proof. unfold scope_collect. rewrite (proj2 (scope_collect_spec l [] (SSorted_nil _))). set_solver. Qed.

Lemma scope_collect_sorted l : StronglySorted scope_lt (scope_collect l).
Proof. apply scope_collect_spec. constructor. Qed.

Lemma parse_each_spec raw acc set :
  StronglySorted scope_lt acc → parse_each raw acc = Ok set →
  StronglySorted scope_lt set ∧
  ∀ s, s ∈ set ↔ s ∈ acc ∨ ∃ e, e ∈ raw ∧ parse_scope e = Ok s.
Proof.
  revert acc. induction raw as [|e raw IH]; intros acc Hs; simpl.
  - intros [= <-]. set_solver.
  - destruct (parse_scope e) as [x|err|] eqn:E; [|done..]. intros H.
    destruct (IH _ (scope_insert_sorted x acc Hs) H) as [Hs' He]. split; [done|].
    intros s. rewrite He, elem_of_scope_insert. setoid_rewrite elem_of_cons. clear -E. split.
    + intros [[->|?]|(e' & ? & ?)]; eauto.
    + intros [?|(e' & [->|?] & ?)]; [eauto | left; left; congruence | eauto].
Qed.

Lemma wildcard_set_eq :
  wildcard_set = [FilesRead; FilesWrite; NotificationsRead; NotificationsWrite; AppsRead; AppsWrite;
   OrgsRead; OrgsWrite; UsersRead; UsersWrite; AuditRead].
Proof. vm_compute. reflexivity. Qed.

Lemma elem_of_wildcard s : s ∈ wildcard_set ↔ s ≠ AdminScope.
Proof. rewrite wildcard_set_eq. destruct s; set_solver. Qed.

Lemma omap_as_str_JStr l : omap as_str (List.map JStr l) = l.
Proof. induction l as [|s l IH]; csimpl; [done|]. by rewrite IH. Qed.

Lemma omap_parse_to_strings l :
  omap (λ s, ok_scope (parse_scope s)) (to_strings l) = l.
Proof.
  unfold to_strings. induction l as [|s l IH]; csimpl; [done|]. by rewrite parse_as_str, IH.
Qed.

(** Storing a scope set and reading it back gives the set. *)
Lemma from_stored_to_strings l :
  StronglySorted scope_lt l → from_stored (Some (JArr (List.map JStr (to_strings l)))) = l.
Proof.
  intros Hs. unfold from_stored. simpl.
  replace (existsb _ _) with false.
  2: { symmetry. apply not_true_iff_false. intros (v & Hv & Hstar)%existsb_exists.
       apply in_map_iff in Hv as (str & <- & Hstr). unfold to_strings in Hstr.
       apply in_map_iff in Hstr as (s & <- & _). by destruct s. }
  rewrite omap_as_str_JStr, omap_parse_to_strings.
  apply sorted_scopes_ext; [apply scope_collect_sorted | done | intros; apply elem_of_scope_collect].
Qed.

Lemma parse_request_sorted raw set : parse_request raw = Ok set → StronglySorted scope_lt set.
Proof.
  intros H. assert (Hw : StronglySorted scope_lt wildcard_set) by apply scope_collect_sorted.
  destruct raw as [[|e raw]|]; simpl in H; try by injection H as <-.
  destruct (_ || _)%bool; [by injection H as <-|].
  eapply (proj1 (parse_each_spec (e :: raw) [] set (SSorted_nil _) H)).
Qed.

(** ** Properties *)

(** What a key is stored with is what it was asked for: if the requested
    scope list is accepted, writing the set to the [scopes] column and reading it
    back yields the same set. *)
Theorem scopes_roundtrip (raw : option (list string)) (set : ScopeSet) :
  parse_request raw = Ok set →
  from_stored (Some (JArr (List.map JStr (to_strings set)))) = set.
Proof.
  intros H. by eapply from_stored_to_strings, parse_request_sorted.
Qed.

Lemma scopes_roundtrip_witness :
  from_stored (Some (JArr [JStr "files:read"; JStr "notifications:write"]))
  = [FilesRead; NotificationsWrite].
Proof.
  apply (scopes_roundtrip (Some ["notifications:write"; " files:read "])
    [FilesRead; NotificationsWrite]).
  vm_compute. reflexivity.
Defined.

(** Scope requests are never silently widened or narrowed: an accepted
    request without a wildcard yields exactly the named scopes, a request is
    accepted only if every entry names a scope (or a wildcard is present), and
    the administrative scope is granted only to a request that names it. *)
Theorem parse_request_exact (raw : option (list string)) (set : ScopeSet) :
  parse_request raw = Ok set →
  (AdminScope ∈ set → ∃ l e, raw = Some l ∧ e ∈ l ∧ trim e = "admin") ∧
  (∀ l, raw = Some l → l ≠ [] → (∀ e, e ∈ l → trim e ≠ "*") →
     (∀ e, e ∈ l → ∃ s, trim e = ApiScope_as_str s ∧ s ∈ set) ∧
     (∀ s, s ∈ set → ∃ e, e ∈ l ∧ trim e = ApiScope_as_str s)).
Proof.
  intros H.
  assert (Hcase : set = wildcard_set ∨
    ∃ l, raw = Some l ∧ l ≠ [] ∧ parse_each l [] = Ok set).
  { destruct raw as [[|e raw]|]; unfold parse_request in H.
    - left. congruence.
    - destruct (existsb _ _); [left; congruence | right; eauto].
    - left. congruence. }
  split.
  - intros Ha. destruct Hcase as [->|(l & -> & _ & Hp)].
    { by apply elem_of_wildcard in Ha. }
    apply (parse_each_spec l [] set (SSorted_nil _)) in Hp as [_ He].
    apply He in Ha as [Ha|(e & He1 & He2)]; [set_solver|].
    exists l, e. split; [done|]. split; [done|]. by apply parse_scope_Ok in He2.
  - intros l -> Hne Hstar. unfold parse_request in H.
    destruct l as [|e0 l0]; [done|].
    replace (existsb _ _) with false in H.
    2: { symmetry. apply not_true_iff_false. intros (x & Hx & Hx2)%existsb_exists.
         rewrite <- list_elem_of_In in Hx. bool_facts. by apply (Hstar x). }
    pose proof H as Hp.
    apply (parse_each_spec (e0 :: l0) [] set (SSorted_nil _)) in Hp as [_ Hset].
    assert (Hall : ∀ l acc, is_ok (parse_each l acc) = true →
      ∀ e, e ∈ l → ∃ s, parse_scope e = Ok s).
    { clear. induction l as [|x l IH]; intros acc Hok e He; [set_solver|]. simpl in Hok.
      destruct (parse_scope x) eqn:E; [|done..]. set_solver. }
    split.
    + intros e He. destruct (Hall (e0 :: l0) [] ltac:(by rewrite H) e He) as [s Hs].
      exists s. split; [by apply parse_scope_Ok|]. apply Hset. eauto.
    + intros s [Hs|(e & He & Hs)]%Hset; [set_solver|].
      exists e. split; [done|]. by apply parse_scope_Ok.
Qed.

Lemma parse_request_exact_witness :
  ∃ l e, Some ["admin"; "files:read"] = Some l ∧ e ∈ l ∧ trim e = "admin".
Proof.
  apply (parse_request_exact (Some ["admin"; "files:read"]) [FilesRead; AdminScope]).
  - vm_compute. reflexivity.
  - right. left.
Defined.

(** Every granted scope is accounted for by a stored entry. *)
Lemma from_stored_grants (value : option Json) (s : ApiScope) :
  scope_contains (from_stored value) s = true →
  ∃ entries, value = Some (JArr entries) ∧
    ((∃ raw, JStr raw ∈ entries ∧ trim raw = ApiScope_as_str s) ∨
     (JStr "*" ∈ entries ∧ s ≠ AdminScope)).
Proof.
  rewrite scope_contains_elem. unfold from_stored.
  destruct value as [[| | | |entries|]|]; simpl; try set_solver.
  intros Hs. exists entries. split; [done|].
  destruct (existsb _ entries) eqn:E.
  - right. apply existsb_exists in E as (v & Hv & Hstar).
    destruct v as [| | |str| |]; try discriminate. simpl in Hstar. bool_facts. subst.
    rewrite list_elem_of_In. split; [done | by apply elem_of_wildcard].
  - left. apply (proj1 (elem_of_scope_collect _ _)) in Hs.
    apply list_elem_of_omap in Hs as (raw & Hraw & Hp).
    apply list_elem_of_omap in Hraw as (v & Hv & Hvs).
    destruct v as [| | |str| |]; try discriminate. injection Hvs as ->.
    exists raw. split; [done|]. destruct (parse_scope raw) eqn:Ep; simplify_eq/=.
    by apply parse_scope_Ok.
Qed.

(** Stored scopes fail closed: a key holds a scope only if its stored value
    is an array that spells that scope's name or, for any scope but [admin], the
    wildcard; in particular no stored value that is not an array grants anything,
    and nothing but an explicit entry grants [admin]. *)
Theorem from_stored_fail_closed (value : option Json) (s : ApiScope) :
  scope_contains (from_stored value) s = true →
  ∃ entries, value = Some (JArr entries) ∧
    ((∃ raw, JStr raw ∈ entries ∧ trim raw = ApiScope_as_str s) ∨
     (JStr "*" ∈ entries ∧ s ≠ AdminScope)).
Proof. apply from_stored_grants. Qed.

Lemma from_stored_fail_closed_witness :
  ∃ entries, Some (JArr [JStr "files:read"; JNum 3]) = Some (JArr entries) ∧
    ((∃ raw, JStr raw ∈ entries ∧ trim raw = ApiScope_as_str FilesRead) ∨
     (JStr "*" ∈ entries ∧ FilesRead ≠ AdminScope)).
Proof.
  apply (from_stored_fail_closed (Some (JArr [JStr "files:read"; JNum 3])) FilesRead).
  vm_compute. reflexivity.
Defined.
