(* ===== verification/Crypto.v ===== *)
(** * Cryptographic helpers ([crypto/mod.rs])

    What the scaffold builds on the primitives of [Platform]: token digests, URL
    signatures, sealed values and the parsing of the encryption key. *)
From S2P Require Import Prelude RustStr Models Errors Platform World.

Definition NONCE_LEN : nat := 12.

(** [impl Debug for Secret] and [impl Display for Secret] *)
Definition Secret_debug (_ : Secret) : string := "Secret(<redacted>)".
Definition Secret_display (_ : Secret) : string := "<redacted>".

Definition string_append_all (l : list string) : string := fold_right String.append EmptyString l.

(** The byte slice of a string from [n] on, and up to [n]. *)
Definition str_take (n : nat) (s : string) : string := String.substring 0 n s.
Definition str_drop (n : nat) (s : string) : string :=
  String.substring n (String.length s - n) s.

Section Crypto.
Context {P : Platform}.

Definition sha256_hex (input : string) : string := hex_encode (bytes_of (sha256 input)).

Definition constant_time_eq (a b : string) : bool :=
  if negb (Nat.eqb (String.length a) (String.length b)) then false else a =s b.

Definition sign (key message : string) : string := b64url_encode (hmac_sha256 key message).

Definition verify_signature (key message signature : string) : bool :=
  match b64url_decode signature with
  | None => false
  | Some provided => provided =s hmac_sha256 key message
  end.

Definition encrypt (key plaintext : string) : M string :=
  let! nonce_bytes := random_bytes NONCE_LEN in
  let! ciphertext := ok_or (Internal "Failed to encrypt value")
                       (aead_encrypt key nonce_bytes plaintext) in
  ret (b64url_encode (nonce_bytes +:+ ciphertext)).

Definition decrypt (key encoded : string) : outcome Secret AppError :=
  match b64url_decode encoded with
  | None => Err (Internal "Stored ciphertext is not valid base64")
  | Some combined =>
      if Nat.leb (String.length combined) NONCE_LEN then
        Err (Internal "Stored ciphertext is truncated")
      else
        match aead_decrypt key (str_take NONCE_LEN combined) (str_drop NONCE_LEN combined) with
        | None => Err (Internal "Failed to decrypt value")
        | Some plaintext =>
            if is_some (utf8_decode (bytes_of plaintext)) then Ok (MkSecret plaintext)
            else Err (Internal "Decrypted value is not valid UTF-8")
        end
  end.

Definition generate_encryption_key : M string :=
  let! key := random_bytes 32 in ret (b64url_encode key).

(** [hex_decode]: pairs of digits, an odd length or another character refused. *)
Definition hex_decode (input : string) : option string :=
  if (negb (Z.even (str_len input)) || negb (forallb is_ascii_hexdigit (chars input)))%bool
  then None
  else string_of_bytes <$> hex_pairs (bytes_of input).

Definition parse_encryption_key (raw : string) : string + string :=
  let raw := trim raw in
  match or_else (hex_decode raw) (or_else (b64url_decode raw) (b64std_decode raw)) with
  | None => inr "ENCRYPTION_KEY must be base64 or hex encoded"
  | Some decoded =>
      if negb (Nat.eqb (String.length decoded) 32) then
        inr ("ENCRYPTION_KEY must decode to exactly 32 bytes, got "
             +:+ show_Z (Z.of_nat (String.length decoded)))
      else inl decoded
  end.

Definition derive_key_from_secret (secret context : string) : string :=
  sha256 (context +:+ String (ascii_of_nat 31) secret).
End Crypto.

(** ** Lemmas *)

Lemma constant_time_eq_iff a b : constant_time_eq a b = true ↔ a = b.
Proof.
  unfold constant_time_eq. split.
  - destruct (negb _); [done | apply String.eqb_eq].
  - intros ->. by rewrite Nat.eqb_refl, String.eqb_refl.
Qed.

Lemma str_length_app s1 s2 :
  String.length (s1 +:+ s2) = (String.length s1 + String.length s2)%nat.
Proof. induction s1 as [|a s1 IH]; simpl; [done|]. by rewrite IH. Qed.

Lemma str_app_nil_r (a : string) : a +:+ "" = a.
Proof. induction a as [|x a IH]; [done|]. change (String x (a +:+ "") = String x a). by rewrite IH. Qed.
Lemma str_len_app a b : str_len (a +:+ b) = (str_len a + str_len b)%Z.
Proof. unfold str_len. rewrite str_length_app. lia. Qed.
Lemma str_len_nonneg a : (0 <= str_len a)%Z.
Proof. unfold str_len. lia. Qed.
Lemma substring_full s : String.substring 0 (String.length s) s = s.
Proof. induction s as [|a s IH]; simpl; [done|]. by rewrite IH. Qed.

Lemma str_take_app s1 s2 : str_take (String.length s1) (s1 +:+ s2) = s1.
Proof.
  unfold str_take. induction s1 as [|a s1 IH]; simpl; [by destruct s2|]. by rewrite IH.
Qed.

Lemma str_drop_app s1 s2 : str_drop (String.length s1) (s1 +:+ s2) = s2.
Proof.
  unfold str_drop. rewrite str_length_app.
  replace (_ + _ - _)%nat with (String.length s2) by lia.
  induction s1 as [|a s1 IH]; simpl; [apply substring_full | done].
Qed.

Lemma verify_sign {P : Platform} key message :
  b64url_decode (sign key message) = Some (hmac_sha256 key message) →
  verify_signature key message (sign key message) = true.
Proof. intros H. unfold verify_signature. by rewrite H, String.eqb_refl. Qed.

(** ** Properties *)

(** Sealing and opening a value are inverse: whatever [encrypt] returns under
    a key, [decrypt] opens under the same key to the plaintext, given the AEAD's
    own round trip, 12-byte nonces, and a ciphertext that is not empty. *)
Theorem encrypt_decrypt {P : Platform} (key plaintext : string) (w w' : World) (sealed : string) :
  (∀ s, b64url_decode (b64url_encode s) = Some s) →
  (∀ n, String.length (draw_bytes n NONCE_LEN) = NONCE_LEN) →
  (∀ nonce c, aead_encrypt key nonce plaintext = Some c →
     c ≠ EmptyString ∧ aead_decrypt key nonce c = Some plaintext) →
  is_some (utf8_decode (bytes_of plaintext)) = true →
  encrypt key plaintext w = (Ok sealed, w') →
  decrypt key sealed = Ok (MkSecret plaintext).
Proof.
  intros Hb64 Hlen Haead Hutf Henc. unfold encrypt, random_bytes, fresh, bind, ok_or in Henc.
  specialize (Hlen (w_draws w)). set (nonce := draw_bytes (w_draws w) NONCE_LEN) in *.
  destruct (aead_encrypt key nonce plaintext) as [c|] eqn:Ec; [|discriminate].
  injection Henc as <- _. destruct (Haead _ _ Ec) as [Hne Hdec].
  unfold decrypt. rewrite Hb64, str_length_app, Hlen.
  replace (Nat.leb _ _) with false.
  2: { symmetry. apply Nat.leb_gt. destruct c as [|a c]; [done|]. cbn [String.length]. lia. }
  rewrite <- Hlen, str_take_app, str_drop_app, Hdec, Hutf. done.
Qed.

Lemma encrypt_decrypt_witness :
  @decrypt toy "k" (toy_hex ("0..........." +:+ "k0...........token")) = Ok (MkSecret "token").
Proof.
  apply (@encrypt_decrypt toy "k" "token" (world_of empty_db 0) (set_draws 1 (world_of empty_db 0))).
  - apply toy_b64_roundtrip.
  - intros n.
    assert (H : ∀ s, NONCE_LEN <= String.length s →
      String.length (String.substring 0 NONCE_LEN s) = NONCE_LEN).
    { generalize NONCE_LEN as k. induction k as [|k IH]; intros s Hs; [by destruct s|].
      destruct s as [|a s]; simpl in *; [lia|]. rewrite IH; lia. }
    apply H. rewrite str_length_app. simpl. unfold NONCE_LEN. lia.
  - intros nonce c [= <-]. split; [done|]. apply strip_prefix_Some. reflexivity.
  - reflexivity.
  - vm_compute. reflexivity.
Defined.

(** Hexadecimal text: digits only, two per byte, and read back by [hex_decode]. *)
Definition hex_text (l : list Z) : Prop :=
  Forall (λ c, (is_ascii_hexdigit c = true ∧ 0 <= c < 128)%Z) l.

Lemma hex_byte_text b : is_byte b → hex_text (bytes_of (hex_byte b)).
Proof.
  intros Hb. unfold is_byte in Hb.
  assert (Hx : ∀ d, (0 <= d < 16)%Z →
    is_ascii_hexdigit (byte_val (hex_digit d)) = true ∧ (0 <= byte_val (hex_digit d) < 128)%Z).
  { intros d Hd. unfold hex_digit.
    destruct (d <? 10)%Z eqn:E; bool_facts; rewrite byte_val_of by (unfold is_byte; lia);
      unfold is_ascii_hexdigit; lia. }
  change (bytes_of (hex_byte b)) with [byte_val (hex_digit (b / 16)); byte_val (hex_digit (b mod 16))].
  pose proof (Z.mod_pos_bound b 16 ltac:(lia)). pose proof (Z.div_pos b 16 ltac:(lia) ltac:(lia)).
  pose proof (Z.div_lt_upper_bound b 16 16 ltac:(lia) ltac:(lia)).
  repeat apply Forall_cons_2; try apply Forall_nil_2; apply Hx; lia.
Qed.

Lemma hex_encode_text l : Forall is_byte l →
  hex_text (bytes_of (hex_encode l)) ∧ String.length (hex_encode l) = (2 * length l)%nat.
Proof.
  induction 1 as [|b l Hb Hl [IH1 IH2]]; [by split; [constructor|]|].
  change (hex_encode (b :: l)) with (hex_byte b +:+ hex_encode l).
  rewrite bytes_of_app, str_length_app, IH2. split; [|simpl; lia].
  apply Forall_app. split; [by apply hex_byte_text | done].
Qed.

Lemma hex_text_chars s : hex_text (bytes_of s) → chars s = bytes_of s.
Proof.
  unfold chars. generalize (bytes_of s) as bs. intros bs H. enough (utf8_decode bs = Some bs) as -> by done.
  induction H as [|b bs [_ Hb] _ IH]; simpl; [done|]. replace (b <? 128)%Z with true by lia. by rewrite IH.
Qed.

Lemma hex_decode_encode l : Forall is_byte l → hex_decode (hex_encode l) = Some (string_of_bytes l).
Proof.
  intros Hl. destruct (hex_encode_text l Hl) as [Ht Hlen].
  unfold hex_decode, str_len. rewrite Hlen, (hex_text_chars _ Ht), hex_pairs_encode by done.
  replace (Z.even _) with true by (rewrite Nat2Z.inj_mul; symmetry; apply Z.even_mul).
  replace (forallb _ _) with true; [done|]. symmetry. apply forallb_forall. intros x Hx.
  rewrite <- list_elem_of_In in Hx. unfold hex_text in Ht. rewrite Forall_forall in Ht. by apply Ht.
Qed.

Lemma length_string_of_bytes l : String.length (string_of_bytes l) = length l.
Proof. unfold string_of_bytes. induction l as [|b l IH]; simpl; auto. Qed.

Lemma parse_encryption_key_len {P : Platform} raw k :
  parse_encryption_key raw = inl k → String.length k = 32%nat.
Proof.
  unfold parse_encryption_key. destruct (or_else _ _) as [d|]; [|done].
  destruct (negb _) eqn:E; [done|]. intros [= <-]. apply negb_false_iff in E.
  by apply Nat.eqb_eq in E.
Qed.

(** An accepted encryption key is always 32 bytes, and a 64-digit hexadecimal
    key is read as hexadecimal, never as the base64 text it also is. *)
Theorem parse_encryption_key_sound {P : Platform} (raw : string) :
  (∀ k, parse_encryption_key raw = inl k → String.length k = 32%nat) ∧
  (∀ l, trim raw = hex_encode l → Forall is_byte l → length l = 32%nat →
     parse_encryption_key raw = inl (string_of_bytes l)).
Proof.
  split.
  - apply parse_encryption_key_len.
  - intros l Htrim Hl Hlen. unfold parse_encryption_key.
    rewrite Htrim, hex_decode_encode by done. cbn [or_else]. by rewrite length_string_of_bytes, Hlen.
Qed.

Lemma parse_encryption_key_sound_witness :
  @parse_encryption_key toy
    " 00112233445566778899aabbccddeeff00112233445566778899aabbccddeeff "
  = inl (string_of_bytes [0; 17; 34; 51; 68; 85; 102; 119; 136; 153; 170; 187; 204; 221; 238; 255;
                          0; 17; 34; 51; 68; 85; 102; 119; 136; 153; 170; 187; 204; 221; 238; 255]%Z).
Proof.
  apply (@parse_encryption_key_sound toy).
  - vm_compute. reflexivity.
  - repeat (apply Forall_cons_2; [unfold is_byte; lia|]). apply Forall_nil_2.
  - reflexivity.
Defined.
