(* ===== verification/AuditTrail.v ===== *)
(** * Audit trail ([services/audit.rs])

    One [INSERT]; the table's trigger refuses everything else, so the trail only
    grows. [record_best_effort] never fails the operation being audited. *)
From S2P Require Import Prelude RustStr Models Errors Platform World.

(** A user row with that id exists (the [REFERENCES users(id)] check). *)
Definition user_exists (d : Db) (uid : Uuid) : bool :=
  exists_row (fun r => u_id (ur_user r) =? uid)%N (users d).

Definition fk_user_opt (d : Db) (uid : option Uuid) : bool :=
  match uid with Some u => user_exists d u | None => true end.

(** [INSERT INTO audit_logs ... RETURNING ...] *)
Definition sql_insert_audit (row : AuditLog) : Sql AuditLog := fun _ d =>
  if exists_row (fun r => al_id r =? al_id row)%N (audit_logs d) then
    inr (UniqueViolation "audit_logs_pkey")
  else if negb (varchar 64 (al_action row) && varchar 64 (al_resource row)
                && varchar_opt 64 (al_resource_id row) && varchar_opt 45 (al_ip_address row))%bool then
    inr too_long
  else if negb (fk_user_opt d (al_user_id row)) then inr fk_violation
  else inl (row, set_audit_logs (insert_row row (audit_logs d)) d).

Section Trail.
Context {P : Platform}.

Definition record (user_id : option Uuid) (action resource : string)
    (resource_id ip_address user_agent : option string) (metadata : option Json) : M AuditLog :=
  let! id := new_uuid in
  let! t := now in
  sql (sql_insert_audit
    {| al_id := id; al_user_id := user_id; al_action := action; al_resource := resource;
       al_resource_id := resource_id; al_ip_address := ip_address;
       al_user_agent := user_agent; al_metadata := metadata; al_created_at := t |}).

Definition record_best_effort (user_id : option Uuid) (action resource : string)
    (resource_id : option string) (ctx : RequestContext) (metadata : option Json) : M unit :=
  do! attempt (record user_id action resource resource_id (ctx_ip_address ctx)
                 (ctx_user_agent ctx) metadata) in
  ret tt.
End Trail.

(** ** Lemmas *)

(** What an audit write may do to the database: append to the trail. *)
Definition audit_only (d d' : Db) : Prop := ∃ l, d' = set_audit_logs (audit_logs d ++ l) d.

Lemma set_audit_logs_id d : set_audit_logs (audit_logs d) d = d.
Proof. by destruct d. Qed.

#[export] Instance audit_only_preorder : PreOrder audit_only.
Proof.
  split.
  - intros d. exists []. by rewrite app_nil_r, set_audit_logs_id.
  - intros d1 d2 d3 [l1 ->] [l2 ->]. exists (l1 ++ l2). unfold set_audit_logs. simpl.
    by rewrite app_assoc.
Qed.

Lemma sql_insert_audit_only row : sql_respects audit_only (sql_insert_audit row).
Proof.
  intros t d a d'. unfold sql_insert_audit. repeat case_match; try discriminate.
  intros [= _ <-]. by exists [row].
Qed.

(** The world after an audit write: only the trail, the randomness and the fault
    schedule have moved. *)
Record audited (w w' : World) : Prop := {
  au_db : audit_only (w_db w) (w_db w');
  au_now : w_now w' = w_now w;
  au_faults : w_faults w = [] → w_faults w' = [];
  au_mail : w_mail w' = w_mail w;
  au_argon2 : w_argon2 w' = w_argon2 w;
  au_disk : w_disk w' = w_disk w;
  au_bucket : w_bucket w' = w_bucket w;
  au_draws : w_draws w' = S (w_draws w) }.

Lemma record_best_effort_total {P : Platform} uid act res rid ctx meta w :
  ∃ w', record_best_effort uid act res rid ctx meta w = (Ok tt, w') ∧ audited w w'.
Proof.
  unfold record_best_effort, record, attempt, bind, new_uuid, fresh, now, sql, exec, ret.
  cbn [set_draws w_db w_now w_draws w_faults].
  match goal with |- context [sql_insert_audit ?r] => set (row := r) end.
  destruct w as [db t n [|[e|] fs] io disk bk mail nt ar jw]; cbn [set_draws w_db w_now w_draws w_faults].
  2: { eexists. split; [reflexivity|]. by split. }
  all: destruct (sql_insert_audit row t db) as [[a d]|e] eqn:E; eexists; (split; [reflexivity|]);
    split; simpl; auto; try discriminate; try reflexivity; by eapply sql_insert_audit_only.
Qed.

(** The best-effort write never stops the handler. *)
Lemma bind_record_best_effort {P : Platform} {B} uid act res rid ctx meta (k : unit -> M B) w :
  ∃ w', audited w w' ∧ bind (record_best_effort uid act res rid ctx meta) k w = k tt w'.
Proof.
  destruct (record_best_effort_total uid act res rid ctx meta w) as (w' & H & Ha).
  exists w'. split; [done|]. unfold bind. by rewrite H.
Qed.

Lemma record_best_effort_respects {P : Platform} uid act res rid ctx meta :
  respects audit_only (record_best_effort uid act res rid ctx meta).
Proof.
  intros w. destruct (record_best_effort_total uid act res rid ctx meta w) as (w' & -> & H).
  apply H.
Qed.

#[export] Hint Extern 1 (respects _ (record_best_effort _ _ _ _ _ _)) =>
  first [ apply record_best_effort_respects
        | eapply respects_mono; [| apply record_best_effort_respects]; intros ? ? [? ->]; reflexivity ]
  : respects.

(** Every other table is as it was. *)
Ltac audited_tables H :=
  let l := fresh "l" in let E := fresh "Haudit" in destruct (au_db _ _ H) as [l E]; rewrite E.

Lemma record_best_effort_steady {P : Platform} uid act res rid ctx meta :
  steady (record_best_effort uid act res rid ctx meta).
Proof.
  intros w. destruct (record_best_effort_total uid act res rid ctx meta w) as (w' & -> & []). done.
Qed.
#[export] Hint Resolve record_best_effort_steady : steady.

Lemma record_best_effort_raises {P : Platform} Q uid act res rid ctx meta :
  raises Q (record_best_effort uid act res rid ctx meta).
Proof.
  intros w e w' H. destruct (record_best_effort_total uid act res rid ctx meta w) as (w1 & H1 & _).
  by rewrite H1 in H.
Qed.
#[export] Hint Resolve record_best_effort_raises : raises.

Lemma record_best_effort_is_total {P : Platform} uid act res rid ctx meta :
  total (record_best_effort uid act res rid ctx meta).
Proof.
  intros w. by destruct (record_best_effort_total uid act res rid ctx meta w) as (w' & -> & _).
Qed.
#[export] Hint Resolve record_best_effort_is_total : atomic.

(** Step over a best-effort audit write in a hypothesis. *)
Ltac audit_step H :=
  match type of H with
  | bind (record_best_effort ?a ?b ?c ?d ?x ?f) ?k ?wx = _ =>
      let w := fresh "w" in let Haud := fresh "Haud" in let Heq := fresh "Heq" in
      destruct (bind_record_best_effort a b c d x f k wx) as (w & Haud & Heq); rewrite Heq in H;
      clear Heq
  end.
