(* ===== verification/MailService.v ===== *)
(** * Transactional mail ([services/mail.rs])

    The rendered messages handed to the detached delivery task, and that task: the
    message and the transport it builds out of the configuration. The SMTP
    library is a parameter. *)
From S2P Require Import Prelude RustStr Models Errors Platform World.

Section Mail.
Context (cfg : AppConfig).

Definition base_url : string := trim_end_matches 47 (public_base_url cfg).

Definition dispatch (recipient subject body kind : string) : M unit :=
  spawn_mail {| m_recipient := recipient; m_subject := subject; m_body := body; m_kind := kind |}.

Definition send_verification_email (recipient token : string) : M unit :=
  let link := base_url +:+ "/api/v1/auth/verify-email?token=" +:+ token in
  let body :=
    "<h2>Confirm your email</h2><p>Use this link to verify your account. It expires in "
    +:+ show_Z (email_verify_ttl_hours cfg) +:+ " hours.</p><p><a href=" +:+ dquote +:+ link
    +:+ dquote +:+ ">Verify my email</a></p>" in
  dispatch recipient "Verify your email" body "email_verify".

Definition send_password_reset_email (recipient token : string) : M unit :=
  let link := base_url +:+ "/reset-password?token=" +:+ token in
  let body :=
    "<h2>Reset your password</h2><p>Use this link to choose a new password. It expires in "
    +:+ show_Z (password_reset_ttl_minutes cfg) +:+ " minutes.</p><p><a href=" +:+ dquote +:+ link
    +:+ dquote +:+ ">Reset my password</a></p><p>If you did not request this, no action is needed.</p>" in
  dispatch recipient "Reset your password" body "password_reset".
End Mail.

(** ** Delivery *)

(** What the transport's builder was told. *)
Inductive Tls := StartTls | Plaintext.
Record Transport := {
  tr_tls : Tls; tr_host : string; tr_port : Z; tr_credentials : option (string * string) }.

(** The [lettre] crate; an error is its [Display]. *)
Class Lettre := {
  Mailbox : Type;
  Message : Type;
  parse_mailbox : string -> Mailbox + string;
  (* [Message::builder()] with sender, recipient, subject and an HTML body *)
  build_message : Mailbox -> Mailbox -> string -> string -> Message + string;
  (* [starttls_relay]: the TLS parameters for a host *)
  starttls_relay : string -> unit + string;
  smtp_send : Transport -> Message -> unit + string }.

Section Delivery.
Context {L : Lettre}.

Definition map_err {A} (f : string -> AppError) (r : A + string) : outcome A AppError :=
  match r with inl a => Ok a | inr e => Err (f e) end.

Definition smtp_transport (smtp : SmtpConfig) : outcome Transport AppError :=
  let credentials := match smtp_username smtp, smtp_password smtp with
                     | Some user, Some pass => Some (user, expose pass)
                     | _, _ => None
                     end in
  let builder tls := {| tr_tls := tls; tr_host := smtp_host smtp; tr_port := smtp_port smtp;
                        tr_credentials := credentials |} in
  if smtp_use_tls smtp then
    match map_err (fun e => Internal ("Failed to build SMTP transport: " +:+ e)) (starttls_relay (smtp_host smtp)) with
    | Ok _ => Ok (builder StartTls)
    | Err e => Err e
    | Panic => Panic
    end
  else Ok (builder Plaintext).

Definition obind {A B} (m : outcome A AppError) (k : A -> outcome B AppError) : outcome B AppError :=
  match m with Ok a => k a | Err e => Err e | Panic => Panic end.

(** What is submitted: a message over a transport. *)
Definition compose (smtp : SmtpConfig) (to_email subject html_body : string)
  : outcome (Transport * Message) AppError :=
  obind (map_err (fun e => Internal ("Invalid SMTP_FROM address: " +:+ e)) (parse_mailbox (smtp_from smtp)))
    (fun from =>
  obind (map_err (fun e => BadRequest ("Invalid recipient email: " +:+ e)) (parse_mailbox to_email)) (fun to =>
  obind (map_err (fun e => Internal ("Failed to build email: " +:+ e)) (build_message from to subject html_body))
    (fun email =>
  obind (smtp_transport smtp) (fun transport => Ok (transport, email))))).

(** The outcome, and everything submitted to a server meanwhile. *)
Definition send_email (cfg : AppConfig) (to_email subject html_body : string)
  : outcome unit AppError * list (Transport * Message) :=
  match smtp cfg with
  | None => (Ok tt, [])
  | Some smtp =>
      match compose smtp to_email subject html_body with
      | Ok (transport, email) =>
          (map_err (fun e => Internal ("SMTP delivery failed: " +:+ e)) (smtp_send transport email),
           [(transport, email)])
      | Err e => (Err e, [])
      | Panic => (Panic, [])
      end
  end.

Lemma obind_Ok_inv {A B} (m : outcome A AppError) (k : A -> outcome B AppError) b :
  obind m k = Ok b → ∃ a, m = Ok a ∧ k a = Ok b.
Proof. destruct m; try done. by eauto. Qed.
Lemma map_err_Ok_inv {A} f (r : A + string) a : map_err f r = Ok a → r = inl a.
Proof. destruct r; cbn; congruence. Qed.

(** The transport a configuration names. *)
Definition relay_of (smtp : SmtpConfig) : Transport := {|
  tr_tls := if smtp_use_tls smtp then StartTls else Plaintext;
  tr_host := smtp_host smtp; tr_port := smtp_port smtp;
  tr_credentials := match smtp_username smtp, smtp_password smtp with
                    | Some user, Some pass => Some (user, expose pass)
                    | _, _ => None
                    end |}.

(** What is submitted comes from the configuration and the arguments. *)
Lemma compose_Ok smtp to_email subject body t m :
  compose smtp to_email subject body = Ok (t, m) →
  t = relay_of smtp ∧
  ∃ from to, parse_mailbox (smtp_from smtp) = inl from ∧ parse_mailbox to_email = inl to ∧
    build_message from to subject body = inl m.
Proof.
  unfold compose. intros (from & Hf & H)%obind_Ok_inv. apply obind_Ok_inv in H as (to & Ht & H).
  apply obind_Ok_inv in H as (email & Hm & H). apply obind_Ok_inv in H as (tr & Htr & [= -> ->]).
  apply map_err_Ok_inv in Hf, Ht, Hm. split; [|by exists from, to]. unfold smtp_transport, relay_of in *.
  destruct (smtp_use_tls smtp); [destruct (starttls_relay _); [|done]|]; cbn in Htr; by injection Htr as <-.
Qed.

(** Nothing is submitted only when something it is made of is refused. *)
Lemma compose_not_Ok smtp to_email subject body :
  is_ok (compose smtp to_email subject body) = false →
  (∃ e, parse_mailbox (smtp_from smtp) = inr e) ∨ (∃ e, parse_mailbox to_email = inr e) ∨
  (∃ from to e, parse_mailbox (smtp_from smtp) = inl from ∧ parse_mailbox to_email = inl to ∧
     build_message from to subject body = inr e) ∨
  (smtp_use_tls smtp = true ∧ ∃ e, starttls_relay (smtp_host smtp) = inr e).
Proof.
  unfold compose, smtp_transport. destruct (parse_mailbox (smtp_from smtp)) as [from|]; [|eauto].
  destruct (parse_mailbox to_email) as [to|]; [|eauto]. cbn.
  destruct (build_message from to subject body) eqn:E; [|eauto 10]. cbn.
  destruct (smtp_use_tls smtp); [|done]. destruct (starttls_relay _); [done|]. eauto 10.
Qed.
End Delivery.
