(* ===== verification/Auth.v ===== *)
(** * Credentials and sessions ([services/auth.rs])

    The statements the service sends to the database come first, one definition
    each, then the handlers, composed as the source composes them. *)
From S2P Require Import Prelude RustStr Models Errors Platform World Crypto AuditTrail MailService.

(** ** Row updates *)

Definition set_user (u : User) (r : UserRow) : UserRow :=
  {| ur_user := u; ur_failed_login_attempts := ur_failed_login_attempts r;
     ur_locked_until := ur_locked_until r; ur_deleted_at := ur_deleted_at r |}.
Definition set_lockout (n : Z) (l : option Timestamp) (r : UserRow) : UserRow :=
  {| ur_user := ur_user r; ur_failed_login_attempts := n; ur_locked_until := l;
     ur_deleted_at := ur_deleted_at r |}.
Definition set_profile (name : string) (image : option string) (verified : bool) (t : Timestamp)
    (u : User) : User :=
  {| u_id := u_id u; u_name := name; u_email := u_email u; u_email_verified := verified;
     u_image := image; u_role := u_role u; u_banned := u_banned u;
     u_created_at := u_created_at u; u_updated_at := t |}.

Definition revoke_session (t : Timestamp) (r : SessionRow) : SessionRow :=
  {| sr_session := {| s_id := s_id (sr_session r); s_user_id := s_user_id (sr_session r);
                      s_expires_at := s_expires_at (sr_session r); s_revoked_at := Some t |};
     sr_refresh_token_hash := sr_refresh_token_hash r;
     sr_previous_token_hash := sr_previous_token_hash r;
     sr_rotated_at := sr_rotated_at r; sr_last_used_at := sr_last_used_at r;
     sr_ip_address := sr_ip_address r; sr_user_agent := sr_user_agent r |}.

Definition consume_verification (t : Timestamp) (r : VerificationRow) : VerificationRow :=
  {| v_id := v_id r; v_identifier := v_identifier r; v_purpose := v_purpose r;
     v_token_hash := v_token_hash r; v_expires_at := v_expires_at r; v_consumed_at := Some t |}.

Definition set_password (pw : string) (t : Timestamp) (a : Account) : Account :=
  {| a_id := a_id a; a_user_id := a_user_id a; a_account_id := a_account_id a;
     a_provider_id := a_provider_id a; a_password := Some pw; a_access_token := a_access_token a;
     a_refresh_token := a_refresh_token a;
     a_access_token_expires_at := a_access_token_expires_at a;
     a_created_at := a_created_at a; a_updated_at := t |}.

(** ** Predicates of the [WHERE] clauses *)

Definition sr_id (r : SessionRow) : Uuid := s_id (sr_session r).
Definition sr_user (r : SessionRow) : Uuid := s_user_id (sr_session r).
Definition sr_unrevoked (r : SessionRow) : bool := is_none (s_revoked_at (sr_session r)).
Definition ur_id (r : UserRow) : Uuid := u_id (ur_user r).
Definition ur_live (r : UserRow) : bool := is_none (ur_deleted_at r).

(** [WHERE email = $1 AND deleted_at IS NULL], [WHERE id = $1 AND deleted_at IS NULL] *)
Definition live_email (email : string) (r : UserRow) : bool :=
  ((u_email (ur_user r) =s email) && ur_live r)%bool.
Definition live_id (uid : Uuid) (r : UserRow) : bool := ((ur_id r =? uid)%N && ur_live r)%bool.

(** [WHERE user_id = $1 AND revoked_at IS NULL] *)
Definition unrevoked_of (uid : Uuid) (r : SessionRow) : bool :=
  ((sr_user r =? uid)%N && sr_unrevoked r)%bool.

Definition credential_of (uid : Uuid) (a : Account) : bool :=
  ((a_user_id a =? uid)%N && (a_provider_id a =s "credential"))%bool.

(** ** Statements *)

(** Uniqueness and width checks of an [INSERT INTO sessions]. *)
Definition sql_insert_session (row : SessionRow) : Sql unit := fun _ d =>
  if exists_row (fun r => sr_id r =? sr_id row)%N (sessions d) then
    inr (UniqueViolation "sessions_pkey")
  else if exists_row (fun r => sr_refresh_token_hash r =s sr_refresh_token_hash row) (sessions d) then
    inr (UniqueViolation "uq_sessions_refresh_hash")
  else if negb (varchar_opt 45 (sr_ip_address row)) then inr too_long
  else if negb (user_exists d (sr_user row)) then inr fk_violation
  else inl (tt, set_sessions (insert_row row (sessions d)) d).

(** The join of [resolve_session] on the two primary keys. *)
Definition q_session_user (uid sid : Uuid) (d : Db) : option SessionUserRow :=
  match fetch_optional (fun s => (sr_id s =? sid)%N && (sr_user s =? uid)%N)%bool (sessions d) with
  | None => None
  | Some s =>
      match fetch_optional (live_id (sr_user s)) (users d) with
      | None => None
      | Some u => Some {| sur_user := ur_user u; sur_revoked_at := s_revoked_at (sr_session s);
                          sur_session_expires_at := s_expires_at (sr_session s) |}
      end
  end.

Definition q_session_by_hash (h : string) (d : Db) : option Session :=
  sr_session <$> fetch_optional (fun s => sr_refresh_token_hash s =s h) (sessions d).
Definition q_session_by_previous (h : string) (d : Db) : option Session :=
  sr_session <$> fetch_optional
    (fun s => opt_eqb String.eqb (sr_previous_token_hash s) (Some h)) (sessions d).
Definition q_live_user (uid : Uuid) (d : Db) : option User :=
  ur_user <$> fetch_optional (live_id uid) (users d).
Definition q_live_user_by_email (email : string) (d : Db) : option User :=
  ur_user <$> fetch_optional (live_email email) (users d).
Definition q_email_exists (email : string) (d : Db) : bool := exists_row (live_email email) (users d).

(** [UPDATE sessions SET revoked_at = now() WHERE user_id = $1 AND revoked_at IS NULL],
    with its [rows_affected]. *)
Definition revoke_all (uid : Uuid) (t : Timestamp) (d : Db) : Db :=
  set_sessions (update_where (unrevoked_of uid) (revoke_session t) (sessions d)) d.
Definition sql_revoke_all (uid : Uuid) : Sql Z := fun t d =>
  inl (Z.of_nat (rows_affected (unrevoked_of uid) (sessions d)), revoke_all uid t d).

Definition sql_revoke_one (uid sid : Uuid) : Sql unit := sql_write (fun t d =>
  set_sessions (update_where (fun r => (sr_id r =? sid)%N && unrevoked_of uid r)%bool
                  (revoke_session t) (sessions d)) d).

Definition sql_revoke_others (uid sid : Uuid) : Sql unit := sql_write (fun t d =>
  set_sessions (update_where (fun r => unrevoked_of uid r && negb (sr_id r =? sid)%N)%bool
                  (revoke_session t) (sessions d)) d).

(** The rotation [UPDATE]: the live hash becomes the previous one. *)
Definition rotate_session (h : string) (exp t : Timestamp) (ctx : RequestContext) (r : SessionRow)
  : SessionRow :=
  {| sr_session := {| s_id := sr_id r; s_user_id := sr_user r; s_expires_at := exp;
                      s_revoked_at := s_revoked_at (sr_session r) |};
     sr_refresh_token_hash := h;
     sr_previous_token_hash := Some (sr_refresh_token_hash r);
     sr_rotated_at := Some t; sr_last_used_at := t;
     sr_ip_address := or_else (ctx_ip_address ctx) (sr_ip_address r);
     sr_user_agent := or_else (ctx_user_agent ctx) (sr_user_agent r) |}.

Definition sql_rotate_session (sid : Uuid) (h : string) (exp : Timestamp) (ctx : RequestContext)
  : Sql unit := fun t d =>
  if exists_row (fun r => (sr_refresh_token_hash r =s h) && negb (sr_id r =? sid)%N)%bool (sessions d)
  then inr (UniqueViolation "uq_sessions_refresh_hash")
  else if (negb (varchar_opt 45 (ctx_ip_address ctx))
           && exists_row (fun r => sr_id r =? sid)%N (sessions d))%bool then inr too_long
  else inl (tt, set_sessions (update_where (fun r => sr_id r =? sid)%N
                                (rotate_session h exp t ctx) (sessions d)) d).

(** [UPDATE verifications SET consumed_at = now() WHERE identifier, purpose, unconsumed] *)
Definition sql_supersede (identifier purpose : string) : Sql unit := sql_write (fun t d =>
  set_verifications
    (update_where (fun v => (v_identifier v =s identifier) && (v_purpose v =s purpose)
                            && is_none (v_consumed_at v))%bool
       (consume_verification t) (verifications d)) d).

Definition sql_insert_verification (row : VerificationRow) : Sql unit := fun _ d =>
  if exists_row (fun r => v_id r =? v_id row)%N (verifications d) then
    inr (UniqueViolation "verifications_pkey")
  else if exists_row (fun r => v_token_hash r =s v_token_hash row) (verifications d) then
    inr (UniqueViolation "uq_verifications_hash")
  else if negb (varchar 255 (v_identifier row)) then inr too_long
  else inl (tt, set_verifications (insert_row row (verifications d)) d).

(** The redeemable row for a token hash and purpose. *)
Definition redeemable (h purpose : string) (t : Timestamp) (v : VerificationRow) : bool :=
  ((v_token_hash v =s h) && (v_purpose v =s purpose) && is_none (v_consumed_at v)
   && (t <? v_expires_at v)%Z)%bool.

(** [UPDATE verifications SET consumed_at = now() WHERE ... RETURNING identifier] *)
Definition sql_consume (h purpose : string) : Sql (option string) := fun t d =>
  inl (v_identifier <$> fetch_optional (redeemable h purpose t) (verifications d),
       set_verifications (update_where (redeemable h purpose t) (consume_verification t)
                            (verifications d)) d).

Definition sql_insert_user (u : User) : Sql User := fun _ d =>
  if user_exists d (u_id u) then inr (UniqueViolation "users_pkey")
  else if q_email_exists (u_email u) d then inr (UniqueViolation "uq_users_email_live")
  else if negb (varchar 255 (u_name u) && varchar 255 (u_email u))%bool then inr too_long
  else inl (u, set_users (insert_row {| ur_user := u; ur_failed_login_attempts := 0;
                                        ur_locked_until := None; ur_deleted_at := None |}
                            (users d)) d).

Definition sql_insert_account (a : Account) : Sql unit := fun _ d =>
  if exists_row (fun r => a_id r =? a_id a)%N (accounts d) then
    inr (UniqueViolation "accounts_pkey")
  else if exists_row (fun r => (a_provider_id r =s a_provider_id a)
                               && (a_account_id r =s a_account_id a))%bool (accounts d) then
    inr (UniqueViolation "uq_accounts_provider_account")
  else if negb (varchar 255 (a_account_id a) && varchar 32 (a_provider_id a))%bool then inr too_long
  else if negb (user_exists d (a_user_id a)) then inr fk_violation
  else inl (tt, set_accounts (insert_row a (accounts d)) d).

(** The sign-in join: the live user with that address and its credential, if any. *)
Definition q_credentials (email : string) (d : Db) : option CredentialRow :=
  match fetch_optional (live_email email) (users d) with
  | None => None
  | Some u =>
      Some {| cr_user := ur_user u;
              cr_password := match fetch_optional (credential_of (ur_id u)) (accounts d) with
                             | Some a => a_password a
                             | None => None
                             end;
              cr_locked_until := ur_locked_until u |}
  end.

Definition sql_clear_lockout (uid : Uuid) : Sql unit := sql_write (fun _ d =>
  set_users (update_where (fun r => ur_id r =? uid)%N (set_lockout 0 None) (users d)) d).

(** The failed-login [UPDATE ... RETURNING locked_until]. *)
Definition bump_failures (threshold mins : Z) (t : Timestamp) (r : UserRow) : UserRow :=
  set_lockout (ur_failed_login_attempts r + 1)
    (if (threshold <=? ur_failed_login_attempts r + 1)%Z then Some (t + minutes mins)%Z
     else ur_locked_until r) r.

Definition sql_register_failure (uid : Uuid) (threshold mins : Z) : Sql (option Timestamp) := fun t d =>
  match fetch_optional (fun r => ur_id r =? uid)%N (users d) with
  | None => inr row_not_found
  | Some r =>
      if (2 ^ 31 - 1 <=? ur_failed_login_attempts r)%Z then inr out_of_range
      else inl (ur_locked_until (bump_failures threshold mins t r),
                set_users (update_where (fun r => ur_id r =? uid)%N (bump_failures threshold mins t)
                             (users d)) d)
  end.

Definition sql_verify_email (email : string) : Sql unit := sql_write (fun t d =>
  set_users (update_where (fun r => u_email (ur_user r) =s email)
    (fun r => set_user (set_profile (u_name (ur_user r)) (u_image (ur_user r)) true t (ur_user r)) r)
    (users d)) d).

Definition sql_set_credential_password (uid : Uuid) (h : string) : Sql unit := sql_write (fun t d =>
  set_accounts (update_where (credential_of uid) (set_password h t) (accounts d)) d).

Definition sql_set_account_password (aid : Uuid) (h : string) : Sql unit := sql_write (fun t d =>
  set_accounts (update_where (fun a => a_id a =? aid)%N (set_password h t) (accounts d)) d).

Definition touch_user (t : Timestamp) (r : UserRow) : UserRow :=
  set_user (set_profile (u_name (ur_user r)) (u_image (ur_user r)) (u_email_verified (ur_user r)) t
              (ur_user r)) r.

Definition sql_reset_lockout (uid : Uuid) : Sql unit := sql_write (fun t d =>
  set_users (update_where (fun r => ur_id r =? uid)%N (fun r => set_lockout 0 None (touch_user t r))
               (users d)) d).

(** [UPDATE users SET name = COALESCE($2, name), image = COALESCE($3, image) ... RETURNING] *)
Definition patch_user (name image : option string) (t : Timestamp) (r : UserRow) : UserRow :=
  set_user (set_profile (unwrap_or (u_name (ur_user r)) name) (or_else image (u_image (ur_user r)))
              (u_email_verified (ur_user r)) t (ur_user r)) r.

Definition sql_update_profile (uid : Uuid) (name image : option string) : Sql (option User) := fun t d =>
  match fetch_optional (live_id uid) (users d) with
  | None => inl (None, d)
  | Some r =>
      if negb (varchar_opt 255 name) then inr too_long
      else inl (Some (ur_user (patch_user name image t r)),
                set_users (update_where (live_id uid) (patch_user name image t) (users d)) d)
  end.

Section Auth.
Context {P : Platform}.

(** The soft delete: the row stays, its address is released. *)
Definition delete_user_row (t : Timestamp) (r : UserRow) : UserRow :=
  let u := ur_user r in
  {| ur_user := {| u_id := u_id u; u_name := "Deleted user";
                   u_email := "deleted+" +:+ uuid_show (u_id u) +:+ "@invalid";
                   u_email_verified := u_email_verified u; u_image := None; u_role := u_role u;
                   u_banned := u_banned u; u_created_at := u_created_at u; u_updated_at := t |};
     ur_failed_login_attempts := ur_failed_login_attempts r;
     ur_locked_until := ur_locked_until r; ur_deleted_at := Some t |}.

Definition sql_soft_delete (uid : Uuid) : Sql Z := fun t d =>
  inl (Z.of_nat (rows_affected (live_id uid) (users d)),
       set_users (update_where (live_id uid) (delete_user_row t) (users d)) d).

Definition sql_delete_accounts (uid : Uuid) : Sql unit := sql_write (fun _ d =>
  set_accounts (delete_where (fun a => a_user_id a =? uid)%N (accounts d)) d).

(** ** Passwords *)

Definition argon2_of (cfg : AppConfig) : outcome unit AppError :=
  match argon2_params_error (argon2 cfg) with
  | Some e => Err (Internal ("Invalid Argon2 parameters: " +:+ e))
  | None => Ok tt
  end.

Definition hash_password (cfg : AppConfig) (password : string) : M string :=
  let! salt := random_bytes 16 in
  do! lift (argon2_of cfg) in
  ok_or (Internal "Password hashing failed") (argon2_hash (argon2 cfg) salt password).

Definition verify_password (password hash : string) : M bool :=
  let! r := argon2_check hash password in
  ok_or (Internal "Invalid password hash format") r.

Definition DUMMY_HASH : string :=
  "$argon2id$v=19$m=19456,t=2,p=1$c29tZXNhbHRzb21lc2FsdA$RdescudvJCsgt3ub+b+dWRWJTmaaJObG".

Definition verify_dummy_password (password : string) : M unit :=
  do! argon2_check DUMMY_HASH password in ret tt.

(** ** Access tokens *)

Definition generate_access_token (cfg : AppConfig) (user : User) (session_id : Uuid) : M string :=
  let! t := now in
  let expires_at := (t + minutes (access_token_ttl_minutes cfg))%Z in
  ok_or (Internal "JWT encoding failed")
    (jwt_encode {| c_sub := uuid_show (u_id user); c_sid := uuid_show session_id;
                   c_email := u_email user; c_role := u_role user;
                   c_iat := timestamp t; c_exp := timestamp expires_at |}
       (expose (jwt_secret cfg))).

Definition verify_access_token (token secret : string) : M Claims :=
  let! t := now in
  ok_or (Unauthorized "Invalid or expired authentication token") (jwt_decode t token secret).

(** ** Sessions *)

Definition create_session (cfg : AppConfig) (user_id : Uuid) (ctx : RequestContext)
  : M (Uuid * string) :=
  let! session_id := new_uuid in
  let! refresh_token := random_token 48 in
  let! t := now in
  do! sql (sql_insert_session
        {| sr_session := {| s_id := session_id; s_user_id := user_id;
             s_expires_at := (t + days (refresh_token_ttl_days cfg))%Z; s_revoked_at := None |};
           sr_refresh_token_hash := sha256_hex refresh_token;
           sr_previous_token_hash := None; sr_rotated_at := None; sr_last_used_at := t;
           sr_ip_address := ctx_ip_address ctx; sr_user_agent := ctx_user_agent ctx |}) in
  ret (session_id, refresh_token).

Definition create_oauth_session := create_session.

Definition resolve_session (user_id session_id : Uuid) : M User :=
  let! row := sql (sql_read (fun _ d => q_session_user user_id session_id d)) in
  let! row := ok_or (Unauthorized "Session no longer exists") row in
  do! guard (is_none (sur_revoked_at row)) (Unauthorized "Session has been revoked") in
  let! t := now in
  do! guard (t <? sur_session_expires_at row)%Z (Unauthorized "Session has expired") in
  do! guard (negb (u_banned (sur_user row))) (Forbidden "This account has been suspended") in
  ret (sur_user row).

(** What the transaction of [refresh_session] decides: a replayed token, whose
    revocations are committed before the error is returned, or a rotation. *)
Inductive refresh_decision :=
| Replayed (compromised : Session)
| Rotated (session : Session) (user : User) (new_refresh : string).

Definition refresh_tx (cfg : AppConfig) (token_hash : string) (ctx : RequestContext)
  : M refresh_decision :=
  let! session := sql (sql_read (fun _ d => q_session_by_hash token_hash d)) in
  let! replayed := (if is_none session
                    then sql (sql_read (fun _ d => q_session_by_previous token_hash d))
                    else ret None) in
  match replayed with
  | Some compromised =>
      do! sql (sql_revoke_all (s_user_id compromised)) in
      ret (Replayed compromised)
  | None =>
      let! session := ok_or (Unauthorized "Invalid refresh token") session in
      do! guard (is_none (s_revoked_at session))
            (Unauthorized "Session has been revoked. Please sign in again.") in
      let! t := now in
      do! guard (t <? s_expires_at session)%Z (Unauthorized "Refresh token has expired") in
      let! user := sql (sql_read (fun _ d => q_live_user (s_user_id session) d)) in
      let! user := ok_or (Unauthorized "Account no longer exists") user in
      do! guard (negb (u_banned user)) (Forbidden "This account has been suspended") in
      let! new_refresh := random_token 48 in
      let! t := now in
      do! sql (sql_rotate_session (s_id session) (sha256_hex new_refresh)
                 (t + days (refresh_token_ttl_days cfg))%Z ctx) in
      ret (Rotated session user new_refresh)
  end.

Definition auth_response (cfg : AppConfig) (access refresh : string) (sid : Uuid) (u : User)
  : AuthResponse :=
  {| ar_access_token := access; ar_refresh_token := refresh; ar_token_type := "Bearer";
     ar_expires_in := (access_token_ttl_minutes cfg * 60)%Z; ar_session_id := sid;
     ar_user := UserResponse_from u |}.

Definition refresh_session (cfg : AppConfig) (refresh_token : string) (ctx : RequestContext)
  : M AuthResponse :=
  let! decision := transaction (refresh_tx cfg (sha256_hex refresh_token) ctx) in
  match decision with
  | Replayed _ =>
      fail (Unauthorized "Refresh token has already been used. Please sign in again.")
  | Rotated session user new_refresh =>
      let! access_token := generate_access_token cfg user (s_id session) in
      ret (auth_response cfg access_token new_refresh (s_id session) user)
  end.

Definition sign_out (user_id session_id : Uuid) (ctx : RequestContext) : M string :=
  do! sql (sql_revoke_one user_id session_id) in
  do! record_best_effort (Some user_id) "session.signed_out" "session"
        (Some (uuid_show session_id)) ctx None in
  ret "Signed out successfully".

Definition sign_out_all (user_id : Uuid) (ctx : RequestContext) : M string :=
  let! revoked := sql (sql_revoke_all user_id) in
  do! record_best_effort (Some user_id) "session.signed_out_all" "session" None ctx
        (Some (JObj [("sessions_revoked", JNum revoked)])) in
  ret ("Revoked " +:+ show_Z revoked +:+ " session(s)").

(** ** Recovery tokens *)

Definition issue_verification_token (identifier : string) (purpose : TokenPurpose) (ttl : Z)
  : M string :=
  do! sql (sql_supersede identifier (TokenPurpose_as_str purpose)) in
  let! token := random_token 48 in
  let! id := new_uuid in
  let! t := now in
  do! sql (sql_insert_verification
        {| v_id := id; v_identifier := identifier; v_purpose := TokenPurpose_as_str purpose;
           v_token_hash := sha256_hex token; v_expires_at := (t + ttl)%Z;
           v_consumed_at := None |}) in
  ret token.

Definition consume_verification_token (token : string) (purpose : TokenPurpose) : M string :=
  let! identifier := sql (sql_consume (sha256_hex token) (TokenPurpose_as_str purpose)) in
  ok_or (BadRequest "Invalid, expired, or already-used token") identifier.

(** ** Registration and sign-in *)

Definition sign_up_tx (cfg : AppConfig) (email : string) (req : SignUpEmailRequest)
    (ctx : RequestContext) : M (User * string * Uuid * string) :=
  let! exists_ := sql (sql_read (fun _ d => q_email_exists email d)) in
  do! guard (negb exists_) (Conflict "User with this email already exists") in
  let! user_id := new_uuid in
  let! password_hash := hash_password cfg (su_password req) in
  let! t := now in
  let! user := sql (sql_insert_user
        {| u_id := user_id; u_name := trim (su_name req); u_email := email;
           u_email_verified := false; u_image := su_image req; u_role := "user";
           u_banned := false; u_created_at := t; u_updated_at := t |}) in
  let! account_id := new_uuid in
  do! sql (sql_insert_account
        {| a_id := account_id; a_user_id := user_id; a_account_id := email;
           a_provider_id := "credential"; a_password := Some password_hash;
           a_access_token := None; a_refresh_token := None; a_access_token_expires_at := None;
           a_created_at := t; a_updated_at := t |}) in
  let! verify_token := issue_verification_token email EmailVerify
                         (hours (email_verify_ttl_hours cfg)) in
  let! sess := create_session cfg user_id ctx in
  ret (user, verify_token, fst sess, snd sess).

Definition sign_up_email (cfg : AppConfig) (req : SignUpEmailRequest) (ctx : RequestContext)
  : M AuthResponse :=
  let email := to_ascii_lowercase (trim (su_email req)) in
  let! r := transaction (sign_up_tx cfg email req ctx) in
  let '(user, verify_token, session_id, refresh_token) := r in
  do! send_verification_email cfg email verify_token in
  do! record_best_effort (Some (u_id user)) "user.signed_up" "user"
        (Some (uuid_show (u_id user))) ctx None in
  let! access_token := generate_access_token cfg user session_id in
  ret (auth_response cfg access_token refresh_token session_id user).

Definition register_failed_login (cfg : AppConfig) (user_id : Uuid) (ctx : RequestContext) : M unit :=
  let! locked := sql (sql_register_failure user_id (lockout_threshold cfg)
                        (i64_as_i32 (lockout_minutes cfg))) in
  let! t := now in
  if is_some_and (fun until => (t <? until)%Z) locked then
    record_best_effort (Some user_id) "user.locked_out" "user" (Some (uuid_show user_id)) ctx None
  else ret tt.

Definition invalid_credentials : AppError := Unauthorized "Invalid email or password".

Definition sign_in_email (cfg : AppConfig) (req : SignInEmailRequest) (ctx : RequestContext)
  : M AuthResponse :=
  let email := to_ascii_lowercase (trim (si_email req)) in
  let! record := sql (sql_read (fun _ d => q_credentials email d)) in
  match record with
  | None =>
      do! verify_dummy_password (si_password req) in
      fail invalid_credentials
  | Some row =>
      let user := cr_user row in
      do! guard (negb (u_banned user)) (Forbidden "This account has been suspended") in
      let! t := now in
      do! guard (negb (is_some_and (fun until => (t <? until)%Z) (cr_locked_until row)))
            (TooManyRequests "Too many failed sign-in attempts. Try again later.") in
      match cr_password row with
      | None =>
          do! verify_dummy_password (si_password req) in
          fail invalid_credentials
      | Some password_hash =>
          let! ok := verify_password (si_password req) password_hash in
          if negb ok then
            do! register_failed_login cfg (u_id user) ctx in
            fail invalid_credentials
          else
            let! sess := transaction (
                do! sql (sql_clear_lockout (u_id user)) in
                create_session cfg (u_id user) ctx) in
            do! record_best_effort (Some (u_id user)) "user.signed_in" "session"
                  (Some (uuid_show (fst sess))) ctx None in
            let! access_token := generate_access_token cfg user (fst sess) in
            ret (auth_response cfg access_token (snd sess) (fst sess) user)
      end
  end.

(** ** Account recovery *)

Definition verify_email (req : VerifyEmailRequest) (ctx : RequestContext) : M string :=
  do! transaction (
      let! identifier := consume_verification_token (ve_token req) EmailVerify in
      sql (sql_verify_email identifier)) in
  do! record_best_effort None "user.email_verified" "user" None ctx None in
  ret "Email verified successfully".

Definition NEUTRAL : string :=
  "If that email is registered, a password reset link has been sent".

Definition forget_password (cfg : AppConfig) (req : ForgetPasswordRequest) : M string :=
  let email := to_ascii_lowercase (trim (fp_email req)) in
  let! exists_ := sql (sql_read (fun _ d => q_email_exists email d)) in
  if negb exists_ then ret NEUTRAL
  else
    let! reset_token := transaction (
        issue_verification_token email PasswordReset (minutes (password_reset_ttl_minutes cfg))) in
    do! send_password_reset_email cfg email reset_token in
    ret NEUTRAL.

Definition reset_password_tx (new_hash token : string) : M User :=
  let! identifier := consume_verification_token token PasswordReset in
  let! user := sql (sql_read (fun _ d => q_live_user_by_email identifier d)) in
  let! user := ok_or (BadRequest "Invalid or expired token") user in
  do! sql (sql_set_credential_password (u_id user) new_hash) in
  do! sql (sql_reset_lockout (u_id user)) in
  do! sql (sql_revoke_all (u_id user)) in
  ret user.

Definition reset_password (cfg : AppConfig) (req : ResetPasswordRequest) (ctx : RequestContext)
  : M string :=
  let! new_password_hash := hash_password cfg (rp_new_password req) in
  let! user := transaction (reset_password_tx new_password_hash (rp_token req)) in
  do! record_best_effort (Some (u_id user)) "user.password_reset" "user"
        (Some (uuid_show (u_id user))) ctx None in
  ret "Password has been reset successfully. All sessions were signed out.".

(** ** Profile *)

Definition update_profile (user_id : Uuid) (req : UpdateUserRequest) : M UserResponse :=
  let! user := sql (sql_update_profile user_id (trim <$> uu_name req) (uu_image req)) in
  let! user := ok_or (NotFound "User not found") user in
  ret (UserResponse_from user).

Definition change_password (cfg : AppConfig) (user_id current_session : Uuid)
    (req : ChangePasswordRequest) (ctx : RequestContext) : M string :=
  let! account := sql (sql_read (fun _ d => fetch_optional (credential_of user_id) (accounts d))) in
  let! account := ok_or (BadRequest "This account signs in with a social provider") account in
  let! password_hash := ok_or (BadRequest "Password not set") (a_password account) in
  let! ok := verify_password (cp_current_password req) password_hash in
  do! guard ok (Unauthorized "Incorrect current password") in
  let! new_hash := hash_password cfg (cp_new_password req) in
  do! transaction (
      do! sql (sql_set_account_password (a_id account) new_hash) in
      sql (sql_revoke_others user_id current_session)) in
  do! record_best_effort (Some user_id) "user.password_changed" "user"
        (Some (uuid_show user_id)) ctx None in
  ret "Password changed. Other sessions were signed out.".

Definition delete_account_tx (user_id : Uuid) : M unit :=
  let! affected := sql (sql_soft_delete user_id) in
  do! guard (negb (affected =? 0)%Z) (NotFound "User not found") in
  do! sql (sql_revoke_all user_id) in
  sql (sql_delete_accounts user_id).

Definition delete_account (user_id : Uuid) (ctx : RequestContext) : M string :=
  do! transaction (delete_account_tx user_id) in
  do! record_best_effort (Some user_id) "user.deleted" "user" (Some (uuid_show user_id)) ctx None in
  ret "Account deleted successfully".
End Auth.
