(* ===== verification/Schema.v ===== *)
(** * The schema's invariants ([migrations/*.sql])

    The primary keys, unique indexes and foreign keys of the tables, as invariants
    of [Db]. Every statement of the services keeps them: the [INSERT]s by the checks
    the server makes, the [UPDATE]s because they do not touch a key, or check it,
    the [DELETE]s because what they delete is referred to by nothing they leave. *)
From S2P Require Import Prelude RustStr Models Errors Platform World AuditTrail Auth.

(** A total key. *)
Definition pk {A K} (key : A -> K) : A -> option K := fun r => Some (key r).

Definition live_email_key (r : UserRow) : option string :=
  if ur_live r then Some (u_email (ur_user r)) else None.

Record db_wf (d : Db) : Prop := {
  wf_users_pk : unique_on (pk ur_id) (users d);
  wf_users_email : unique_on live_email_key (users d);
  wf_accounts_pk : unique_on (pk a_id) (accounts d);
  wf_accounts_provider : unique_on (pk (fun a => (a_provider_id a, a_account_id a))) (accounts d);
  wf_sessions_pk : unique_on (pk sr_id) (sessions d);
  wf_sessions_hash : unique_on (pk sr_refresh_token_hash) (sessions d);
  wf_verifications_pk : unique_on (pk v_id) (verifications d);
  wf_verifications_hash : unique_on (pk v_token_hash) (verifications d);
  wf_oauth_pk : unique_on (pk oa_state_hash) (oauth_auth_requests d);
  wf_apps_pk : unique_on (pk app_id) (apps d);
  wf_apps_slug : unique_on (pk app_slug) (apps d);
  wf_orgs_pk : unique_on (pk org_id) (organizations d);
  wf_orgs_slug : unique_on (pk (fun o => (org_app_id o, org_slug o))) (organizations d);
  wf_members_pk : unique_on (pk om_id) (org_members d);
  wf_members_user : unique_on (pk (fun m => (om_org_id m, om_user_id m))) (org_members d);
  wf_keys_pk : unique_on (pk (fun k => k_id (kr_record k))) (api_keys d);
  wf_keys_hash : unique_on (pk kr_key_hash) (api_keys d);
  wf_notifications_pk : unique_on (pk n_id) (notifications d);
  wf_files_pk : unique_on (pk (fun f => f_id (fr_record f))) (files d);
  wf_files_key : unique_on (pk (fun f => f_storage_key (fr_record f))) (files d);
  wf_audit_pk : unique_on (pk al_id) (audit_logs d);
  wf_jobs_pk : unique_on (pk j_id) (background_jobs d);
  wf_webhooks_pk : unique_on (pk wh_id) (webhooks d);
  wf_deliveries_pk : unique_on (pk wd_id) (webhook_deliveries d);
  wf_idempotency_pk : unique_on (pk ik_scope_hash) (idempotency_keys d) }.

Lemma db_wf_empty : db_wf empty_db.
Proof. split; apply NoDup_nil_2. Qed.

(** Two rows with the same key are the same row. *)
Lemma pk_inj {A K} (key : A -> K) t r1 r2 :
  unique_on (pk key) t → r1 ∈ t → r2 ∈ t → key r1 = key r2 → r1 = r2.
Proof. intros Hu H1 H2 Hk. eapply (unique_on_inj (pk key)); eauto. unfold pk. by rewrite Hk. Qed.

(** A lookup by key finds the row that has it. *)
Lemma fetch_pk {A K} (key : A -> K) (p : A -> bool) t r :
  unique_on (pk key) t → r ∈ t → p r = true → (∀ r', p r' = true → key r' = key r) →
  fetch_optional p t = Some r.
Proof.
  intros Hu Hr Hp Hk. apply fetch_optional_unique; [done..|].
  intros r' Hr' Hp'. eapply pk_inj; eauto.
Qed.

(** An insertion checked against the rows present keeps a key unique. *)
Lemma unique_on_insert_checked {A K} (key : A -> K) (p : A -> bool) row t :
  (∀ r, key r = key row → p r = true) → exists_row p t = false →
  unique_on (pk key) t → unique_on (pk key) (insert_row row t).
Proof.
  intros Hp He Hu. apply unique_on_insert; [done|]. intros k r [= <-] Hr [= Hk].
  rewrite exists_row_false in He. specialize (He r Hr). by rewrite Hp in He.
Qed.

(** ** References *)

(** Every reference of the child table names a row of the parent's. *)
Definition refs {A B K} (child : A -> option K) (parent : B -> K) (ta : list A) (tb : list B) : Prop :=
  ∀ a k, a ∈ ta → child a = Some k → ∃ b, b ∈ tb ∧ parent b = k.

Record db_refs (d : Db) : Prop := {
  rf_accounts : refs (pk a_user_id) ur_id (accounts d) (users d);
  rf_sessions : refs (pk sr_user) ur_id (sessions d) (users d);
  rf_apps : refs (pk app_owner_id) ur_id (apps d) (users d);
  rf_orgs : refs (pk org_app_id) app_id (organizations d) (apps d);
  rf_members_org : refs (pk om_org_id) org_id (org_members d) (organizations d);
  rf_members_user : refs (pk om_user_id) ur_id (org_members d) (users d);
  rf_keys_user : refs (pk (fun k => k_user_id (kr_record k))) ur_id (api_keys d) (users d);
  rf_keys_org : refs (fun k => k_org_id (kr_record k)) org_id (api_keys d) (organizations d);
  rf_notifications_user : refs (pk n_user_id) ur_id (notifications d) (users d);
  rf_notifications_org : refs n_org_id org_id (notifications d) (organizations d);
  rf_files_owner : refs (fun f => f_owner_id (fr_record f)) ur_id (files d) (users d);
  rf_files_org : refs (fun f => f_org_id (fr_record f)) org_id (files d) (organizations d);
  rf_audit_user : refs al_user_id ur_id (audit_logs d) (users d);
  rf_webhooks_app : refs wh_app_id app_id (webhooks d) (apps d);
  rf_webhooks_owner : refs (pk wh_owner_id) ur_id (webhooks d) (users d);
  rf_webhooks_org : refs wh_org_id org_id (webhooks d) (organizations d);
  rf_deliveries : refs (pk wd_webhook_id) wh_id (webhook_deliveries d) (webhooks d) }.

Lemma db_refs_empty : db_refs empty_db.
Proof. split; intros a k Ha%elem_of_nil; done. Qed.

Section Refs.
Context {A B K : Type} (child : A -> option K) (parent : B -> K).
Implicit Types (ta : list A) (tb : list B).

Lemma refs_insert_child row ta tb : (∀ k, child row = Some k → ∃ b, b ∈ tb ∧ parent b = k) →
  refs child parent ta tb → refs child parent (insert_row row ta) tb.
Proof. intros Hr H a k [Ha | ->]%elem_of_insert_row; [by apply H | apply Hr]. Qed.

Lemma refs_insert_parent row ta tb : refs child parent ta tb → refs child parent ta (insert_row row tb).
Proof. intros H a k Ha Hk. destruct (H a k Ha Hk) as (b & Hb & E). exists b. split; [apply elem_of_insert_row; by left | done]. Qed.

Lemma refs_update_child p f ta tb : (∀ r, child (f r) = child r) →
  refs child parent ta tb → refs child parent (update_where p f ta) tb.
Proof.
  intros Hf H a k (r & Hr & ->)%elem_of_update_where Hk. apply (H r k Hr). destruct (p r); [by rewrite Hf in Hk | done].
Qed.

Lemma refs_update_parent p f ta tb : (∀ r, parent (f r) = parent r) →
  refs child parent ta tb → refs child parent ta (update_where p f tb).
Proof.
  intros Hf H a k Ha Hk. destruct (H a k Ha Hk) as (b & Hb & E). exists (if p b then f b else b).
  split; [apply elem_of_update_where; by exists b|]. destruct (p b); [by rewrite Hf | done].
Qed.

Lemma refs_delete_child p ta tb : refs child parent ta tb → refs child parent (delete_where p ta) tb.
Proof. intros H a k [_ Ha]%elem_of_delete_where. by apply H. Qed.

(** [ON DELETE CASCADE] *)
Lemma refs_cascade p q ta tb : (∀ a b, child a = Some (parent b) → p b = true → q a = true) →
  refs child parent ta tb → refs child parent (delete_where q ta) (delete_where p tb).
Proof.
  intros Hq H a k [Hqa Ha]%elem_of_delete_where Hk. destruct (H a k Ha Hk) as (b & Hb & E). exists b.
  split; [|done]. apply elem_of_delete_where. split; [|done]. destruct (p b) eqn:Ep; [|done].
  rewrite (Hq a b) in Hqa; [done | congruence | done].
Qed.
End Refs.
