(* ===== verification/AuthProofs.v ===== *)
(** * Properties of credentials and sessions

    Session resolution and revocation, refresh rotation and replay, single-use
    tokens, the sign-in lockout, and the recovery flows of [Auth]. *)
From S2P Require Import Prelude RustStr Models Errors Platform World Crypto.
From S2P Require Import AuditTrail MailService Auth Schema.

(** ** Sessions *)

(** What makes a session usable at a time: its row is unrevoked and unexpired
    and its user is live and not banned. *)
Definition session_usable (t : Timestamp) (d : Db) (uid sid : Uuid) (u : User) : Prop :=
  ∃ s r, s ∈ sessions d ∧ sr_id s = sid ∧ sr_user s = uid ∧
    s_revoked_at (sr_session s) = None ∧ (t < s_expires_at (sr_session s))%Z ∧
    r ∈ users d ∧ ur_id r = uid ∧ ur_deleted_at r = None ∧ ur_user r = u ∧ u_banned u = false.

Lemma q_session_user_spec d uid sid row :
  q_session_user uid sid d = Some row →
  ∃ s r, s ∈ sessions d ∧ r ∈ users d ∧ sr_id s = sid ∧ sr_user s = uid ∧ ur_id r = uid ∧
    ur_deleted_at r = None ∧
    row = {| sur_user := ur_user r; sur_revoked_at := s_revoked_at (sr_session s);
             sur_session_expires_at := s_expires_at (sr_session s) |}.
Proof.
  unfold q_session_user. destruct (fetch_optional _ (sessions d)) as [s|] eqn:Es; [|done].
  destruct (fetch_optional _ (users d)) as [r|] eqn:Er; [|done]. intros [= <-].
  apply fetch_optional_Some in Es as [Ps Hs]. apply fetch_optional_Some in Er as [Pr Hr].
  unfold live_id, ur_live in Pr. bool_facts. subst. exists s, r. repeat split; congruence.
Qed.

Lemma q_session_user_complete d uid sid s r :
  db_wf d → s ∈ sessions d → r ∈ users d → sr_id s = sid → sr_user s = uid → ur_id r = uid →
  ur_deleted_at r = None →
  q_session_user uid sid d =
    Some {| sur_user := ur_user r; sur_revoked_at := s_revoked_at (sr_session s);
            sur_session_expires_at := s_expires_at (sr_session s) |}.
Proof.
  intros Hwf Hs Hr <- <- Hu Hd. unfold q_session_user.
  erewrite (fetch_pk sr_id _ _ s); [|apply Hwf|done| |].
  2: { by rewrite !N.eqb_refl. }
  2: { intros r' Hp. by bool_facts. }
  erewrite (fetch_pk ur_id _ _ r); [done|apply Hwf|done| |].
  - unfold live_id, ur_live. by rewrite Hu, N.eqb_refl, Hd.
  - unfold live_id. intros r' Hp. bool_facts. congruence.
Qed.

(** C8: an access token's session is accepted exactly when it is usable: the row
    exists, is neither revoked nor expired, and belongs to a user who is neither
    deleted nor banned. The lookup changes nothing, and every refusal is a 401
    or a 403. *)
Theorem resolve_session_exact (uid sid : Uuid) (w : World) :
  w_faults w = [] → db_wf (w_db w) →
  snd (resolve_session uid sid w) = w ∧
  (∀ u, fst (resolve_session uid sid w) = Ok u ↔ session_usable (w_now w) (w_db w) uid sid u) ∧
  (is_ok (fst (resolve_session uid sid w)) = false →
   ∃ m, fst (resolve_session uid sid w) = Err (Unauthorized m) ∨
        fst (resolve_session uid sid w) = Err (Forbidden m)).
Proof.
  intros Hf Hwf. unfold resolve_session. hrun.
  assert (Hc : ∀ u, session_usable (w_now w) (w_db w) uid sid u → ∃ row,
    q_session_user uid sid (w_db w) = Some row ∧ sur_revoked_at row = None ∧
    (w_now w < sur_session_expires_at row)%Z ∧ sur_user row = u ∧ u_banned u = false).
  { intros u (s & r & Hs & <- & <- & Hrev & Hexp & Hr & Hid & Hdel & <- & Hb).
    eexists. by erewrite (q_session_user_complete _ _ _ s r). }
  destruct (q_session_user uid sid (w_db w)) as [row|] eqn:Eq; cbn [fst snd].
  2: { split; [done|]. split; [|eauto]. intros u. split; [done|]. by intros (? & ? & ?)%Hc. }
  apply q_session_user_spec in Eq as (s & r & Hs & Hr & Hsid & Huid & Hrid & Hdel & ->).
  cbn [sur_user sur_revoked_at sur_session_expires_at] in *. autorewrite with healthy.
  destruct (is_none _) eqn:Erev; cbn [fst snd]; bool_facts; autorewrite with healthy.
  2: { split; [done|]. split; [|eauto]. intros u. split; [done|].
       intros (? & [= <-] & ? & ?)%Hc. cbn in *. congruence. }
  destruct (_ <? _)%Z eqn:Eexp; cbn [fst snd]; bool_facts; autorewrite with healthy.
  2: { split; [done|]. split; [|eauto]. intros u. split; [done|].
       intros (? & [= <-] & ? & ? & ?)%Hc. cbn in *. lia. }
  destruct (negb _) eqn:Eb; cbn [fst snd]; bool_facts; autorewrite with healthy.
  2: { split; [done|]. split; [|eauto]. intros u. split; [done|].
       intros (? & [= <-] & ? & ? & <- & ?)%Hc. cbn in *. congruence. }
  split; [done|]. split; [|done]. intros u. split.
  - intros [= <-]. exists s, r. by repeat split.
  - by intros (? & [= <-] & ? & ? & <- & ?)%Hc.
Qed.

(** A concrete signed-in user: the world of the witnesses. *)
Module Example.
Definition cfg : AppConfig := {|
  environment := Production; server_host := "0.0.0.0"; server_port := 8080;
  public_base_url := "https://api.example.com/"; database_url := MkSecret "postgres://";
  database_max_connections := 10; jwt_secret := MkSecret "secret"; access_token_ttl_minutes := 15;
  refresh_token_ttl_days := 30;
  argon2 := {| memory_kib := 19456; iterations := 2; parallelism := 1 |};
  encryption_key := "k"; url_signing_key := "u"; email_verify_ttl_hours := 24;
  password_reset_ttl_minutes := 30; lockout_threshold := 3; lockout_minutes := 15;
  rate_limit_per_second := 50; rate_limit_burst_size := 100; auth_rate_limit_per_second := 6;
  auth_rate_limit_burst_size := 10; trust_proxy_headers := false; cors_allowed_origins := [];
  metrics_token := None; idempotency_ttl_seconds := 86400; request_timeout_seconds := 30;
  body_limit_bytes := 1000; storage_backend := Local; s3 := None; upload_dir := "uploads";
  max_upload_bytes := 1000; allowed_upload_mime := ["image/png"]; signed_url_ttl_seconds := 900;
  smtp := None; google := None; github := None; oidc := None |}%Z.
Definition ctx : RequestContext := {| ctx_ip_address := Some "10.0.0.1"; ctx_user_agent := None |}.
Definition user : User := {|
  u_id := 1%N; u_name := "Ada"; u_email := "ada@example.com"; u_email_verified := true;
  u_image := None; u_role := "user"; u_banned := false; u_created_at := 0; u_updated_at := 0 |}%Z.
Definition user_row : UserRow := {|
  ur_user := user; ur_failed_login_attempts := 0; ur_locked_until := None; ur_deleted_at := None |}.
Definition account : Account := {|
  a_id := 2%N; a_user_id := 1%N; a_account_id := "ada@example.com"; a_provider_id := "credential";
  a_password := Some "h:right"; a_access_token := None; a_refresh_token := None;
  a_access_token_expires_at := None; a_created_at := 0; a_updated_at := 0 |}%Z.
Definition session (sid : Uuid) (h : string) : SessionRow := {|
  sr_session := {| s_id := sid; s_user_id := 1%N; s_expires_at := 1000000000000%Z;
                   s_revoked_at := None |};
  sr_refresh_token_hash := h; sr_previous_token_hash := None; sr_rotated_at := None;
  sr_last_used_at := 0%Z; sr_ip_address := None; sr_user_agent := None |}.
Definition db : Db :=
  set_sessions [session 3%N (@sha256_hex toy "refresh-3"); session 4%N (@sha256_hex toy "refresh-4")]
    (set_accounts [account] (set_users [user_row] empty_db)).
Definition w : World := world_of db 1000000.
End Example.

Lemma example_wf : db_wf Example.db.
Proof. split; unfold unique_on; apply (bool_decide_unpack _); vm_compute; exact I. Qed.

Lemma resolve_session_exact_witness :
  fst (resolve_session 1%N 3%N Example.w) = Ok Example.user.
Proof.
  apply (resolve_session_exact 1%N 3%N Example.w); [reflexivity | apply example_wf |].
  exists (Example.session 3%N (@sha256_hex toy "refresh-3")), Example.user_row.
  split; [set_solver|]. repeat split; try reflexivity. set_solver.
Defined.

(** ** Refresh rotation and replay *)

Section Refresh.
Context {P : Platform} (cfg : AppConfig).
Implicit Types (w : World) (ctx : RequestContext).

Lemma refresh_tx_steady h ctx : steady (refresh_tx cfg h ctx).
Proof. unfold refresh_tx. steady_tac. Qed.

(** A token hash that no session holds but one held before its rotation. *)
Lemma refresh_tx_replay h ctx w s :
  w_faults w = [] → q_session_by_hash h (w_db w) = None →
  q_session_by_previous h (w_db w) = Some s →
  refresh_tx cfg h ctx w =
    (Ok (Replayed s), set_db (revoke_all (s_user_id s) (w_now w) (w_db w)) w).
Proof.
  intros Hf Hn Hp. unfold refresh_tx. hrun. rewrite Hn. cbn [is_none]. hrun. rewrite Hp.
  by rewrite bind_sql.
Qed.

(** What a rotation read and wrote. *)
Lemma refresh_tx_rotated h ctx w s u new w' :
  w_faults w = [] → refresh_tx cfg h ctx w = (Ok (Rotated s u new), w') →
  q_session_by_hash h (w_db w) = Some s ∧ s_revoked_at s = None ∧ (w_now w < s_expires_at s)%Z ∧
  q_live_user (s_user_id s) (w_db w) = Some u ∧ u_banned u = false ∧
  new = draw_alphanumeric (w_draws w) 48 ∧
  w_db w' = set_sessions
    (update_where (fun r => sr_id r =? s_id s)%N
       (rotate_session (sha256_hex new) (w_now w + days (refresh_token_ttl_days cfg)) (w_now w) ctx)
       (sessions (w_db w))) (w_db w).
Proof.
  intros Hf. unfold refresh_tx. hrun.
  destruct (q_session_by_hash h (w_db w)) as [s0|] eqn:Es; cbn [is_none]; hrun.
  2: { destruct (q_session_by_previous _ _); hrun; [by rewrite bind_sql | done]. }
  destruct (is_none _) eqn:Er; [bool_facts | done]. hrun.
  destruct (_ <? _)%Z eqn:Ee; [bool_facts | done]. hrun.
  destruct (q_live_user _ _) as [u0|] eqn:Eu; [hrun | done].
  destruct (negb _) eqn:Eb; [bool_facts; hrun | done].
  rewrite bind_sql by done. unfold sql_rotate_session. wsimpl.
  repeat case_match; try done. simplify_eq. unfold ret. intros [= <- <- <- <-].
  repeat split; auto.
Qed.
End Refresh.

(** No session of the user is usable any more. *)
Definition signed_out (uid : Uuid) (d : Db) : Prop :=
  ∀ s, s ∈ sessions d → sr_user s = uid → s_revoked_at (sr_session s) ≠ None.

Lemma signed_out_revoke_all uid t d : signed_out uid (revoke_all uid t d).
Proof.
  intros s Hs Hu. apply elem_of_update_where in Hs as (s0 & Hs0 & ->).
  destruct (unrevoked_of uid s0) eqn:E; [done|]. intros Hn.
  unfold unrevoked_of, sr_unrevoked in E. by rewrite Hu, N.eqb_refl, Hn in E.
Qed.

Lemma signed_out_unusable uid d t sid u : signed_out uid d → ¬ session_usable t d uid sid u.
Proof. intros Hso (s & r & Hs & _ & Hu & Hr & _). by eapply Hso. Qed.

Lemma refresh_session_Ok {P : Platform} cfg tok ctx w w' resp :
  w_faults w = [] → refresh_session cfg tok ctx w = (Ok resp, w') →
  ∃ s u, s ∈ sessions (w_db w) ∧ sr_refresh_token_hash s = sha256_hex tok ∧
    session_usable (w_now w) (w_db w) (sr_user s) (sr_id s) u ∧
    ar_session_id resp = sr_id s ∧ ar_user resp = UserResponse_from u ∧
    w_db w' = set_sessions
      (update_where (fun r => sr_id r =? sr_id s)%N
         (rotate_session (sha256_hex (ar_refresh_token resp))
            (w_now w + days (refresh_token_ttl_days cfg)) (w_now w) ctx)
         (sessions (w_db w))) (w_db w).
Proof.
  intros Hf. unfold refresh_session. rewrite bind_transaction by (auto using refresh_tx_steady).
  destruct (refresh_tx _ _ _ _) as [[[s|s u new]|e|] w1] eqn:E; try done.
  apply refresh_tx_rotated in E as (Hs & Hr & He & Hu & Hb & -> & Hd); [|done].
  unfold generate_access_token. hrun. destruct (jwt_encode _ _) as [tk|]; [|done].
  intros [= <- <-]. apply fmap_Some in Hs as (s0 & Hs0 & ->). apply fmap_Some in Hu as (r & Hr0 & ->).
  apply fetch_optional_Some in Hs0 as [Ph Hin]. apply fetch_optional_Some in Hr0 as [Pu Hinu].
  unfold live_id, ur_live in Pu. bool_facts. exists s0, (ur_user r).
  split; [done|]. split; [done|]. split; [|done]. exists s0, r. by repeat split.
Qed.

(** Presenting a token no session holds, but one held before it rotated. *)
Lemma refresh_session_replay {P : Platform} cfg tok ctx w s :
  w_faults w = [] → q_session_by_hash (sha256_hex tok) (w_db w) = None →
  q_session_by_previous (sha256_hex tok) (w_db w) = Some s →
  refresh_session cfg tok ctx w =
    (Err (Unauthorized "Refresh token has already been used. Please sign in again."),
     set_db (revoke_all (s_user_id s) (w_now w) (w_db w)) w).
Proof.
  intros Hf Hn Hp. unfold refresh_session.
  rewrite bind_transaction by (auto using refresh_tx_steady). by erewrite refresh_tx_replay.
Qed.

(** A successful refresh was made with the live token of a usable session. It
    rotates that one session and touches nothing else: the session keeps its
    identity, the token returned is the live one from now on, the one presented
    becomes the previous one, and the expiry moves. *)
Theorem refresh_rotation {P : Platform} (cfg : AppConfig) (tok : string) (ctx : RequestContext)
    (w w' : World) (resp : AuthResponse) :
  w_faults w = [] →
  refresh_session cfg tok ctx w = (Ok resp, w') →
  ∃ s u, s ∈ sessions (w_db w) ∧ sr_refresh_token_hash s = sha256_hex tok ∧
    session_usable (w_now w) (w_db w) (sr_user s) (sr_id s) u ∧
    ar_session_id resp = sr_id s ∧ ar_user resp = UserResponse_from u ∧
    w_db w' = set_sessions
      (update_where (fun r => sr_id r =? sr_id s)%N
         (rotate_session (sha256_hex (ar_refresh_token resp))
            (w_now w + days (refresh_token_ttl_days cfg)) (w_now w) ctx)
         (sessions (w_db w))) (w_db w).
Proof. apply refresh_session_Ok. Qed.

Abbreviation Example_refresh :=
  (@refresh_session toy Example.cfg "refresh-3" Example.ctx Example.w) (only parsing).
Definition Example_response : AuthResponse :=
  auth_response Example.cfg
    (toy_jwt {| c_sub := "1"; c_sid := "3"; c_email := "ada@example.com"; c_role := "user";
                c_exp := 901; c_iat := 1 |}%Z "secret")
    (@draw_alphanumeric toy 0 48) 3%N Example.user.

Lemma refresh_rotation_witness :
  ∃ s u, s ∈ sessions (w_db Example.w) ∧ sr_refresh_token_hash s = @sha256_hex toy "refresh-3" ∧
    session_usable (w_now Example.w) (w_db Example.w) (sr_user s) (sr_id s) u ∧
    is_ok (fst Example_refresh) = true.
Proof.
  destruct (@refresh_rotation toy Example.cfg "refresh-3" Example.ctx Example.w
    (snd Example_refresh) Example_response) as (s & u & H1 & H2 & H3 & _).
  - reflexivity.
  - vm_compute. reflexivity.
  - exists s, u. split; [done|]. split; [done|]. split; [done | vm_compute; reflexivity].
Defined.

(** Between two moments a session did not rotate: it is there, with the owner and
    the token hashes it had, and no other session took hash [h]. Everything else may
    have changed: other sessions, their revocation, every other table. *)
Definition not_rotated (sid : Uuid) (h : string) (d d' : Db) : Prop :=
  (∃ s, s ∈ sessions d' ∧ sr_id s = sid) ∧
  ∀ s', s' ∈ sessions d' →
    if (sr_id s' =? sid)%N
    then ∃ s, s ∈ sessions d ∧ sr_id s = sid ∧ sr_user s' = sr_user s ∧
              sr_refresh_token_hash s' = sr_refresh_token_hash s ∧
              sr_previous_token_hash s' = sr_previous_token_hash s
    else sr_refresh_token_hash s' ≠ h ∧ sr_previous_token_hash s' ≠ Some h.

(** Until the session rotates again, the hash it rotated away from stays findable. *)
Lemma rotated_later d d2 s h h' exp t ctx :
  db_wf d → s ∈ sessions d → sr_refresh_token_hash s = h → h' ≠ h →
  let d' := set_sessions (update_where (fun r => sr_id r =? sr_id s)%N
                            (rotate_session h' exp t ctx) (sessions d)) d in
  not_rotated (sr_id s) h d' d2 →
  q_session_by_hash h d2 = None ∧
  ∃ c, q_session_by_previous h d2 = Some c ∧ s_user_id c = sr_user s.
Proof.
  intros Hwf Hs Hh Hne d' [(c & Hc & Hcid) Hrows].
  assert (Hrow : ∀ r, r ∈ sessions d' → sr_id r = sr_id s → r = rotate_session h' exp t ctx s).
  { intros r (r0 & Hr0 & ->)%elem_of_update_where Hid.
    destruct (sr_id r0 =? sr_id s)%N eqn:E; [|by apply N.eqb_neq in E]. apply N.eqb_eq in E. f_equal.
    by eapply (pk_inj sr_id); [apply Hwf | ..]. }
  assert (Hsame : ∀ r, r ∈ sessions d2 → sr_id r = sr_id s →
            sr_user r = sr_user s ∧ sr_refresh_token_hash r = h' ∧ sr_previous_token_hash r = Some h).
  { intros r Hr Hid. specialize (Hrows r Hr). rewrite Hid, N.eqb_refl in Hrows.
    destruct Hrows as (r1 & Hr1 & Hid1 & -> & -> & ->). rewrite (Hrow r1 Hr1 Hid1). cbn. by rewrite Hh. }
  unfold q_session_by_hash, q_session_by_previous. split.
  - apply fmap_None, fetch_optional_None. intros r Hr. apply String.eqb_neq. intros Heq.
    destruct (decide (sr_id r = sr_id s)) as [Hid | Hid]; [by destruct (Hsame r Hr Hid) as (_ & ? & _); congruence|].
    specialize (Hrows r Hr). apply N.eqb_neq in Hid. rewrite Hid in Hrows. by destruct Hrows.
  - destruct (fetch_optional_is_Some (fun r => opt_eqb String.eqb (sr_previous_token_hash r) (Some h))
      (sessions d2) c) as [x Hx]; [done | |].
    + destruct (Hsame c Hc Hcid) as (_ & _ & ->). apply String.eqb_refl.
    + exists (sr_session x). rewrite Hx. split; [done|]. apply fetch_optional_Some in Hx as [Hp Hin].
      destruct (sr_previous_token_hash x) as [p|] eqn:Ep; [|done]. simpl in Hp. apply String.eqb_eq in Hp as ->.
      destruct (decide (sr_id x = sr_id s)) as [Hid | Hid]; [by destruct (Hsame x Hin Hid)|].
      specialize (Hrows x Hin). apply N.eqb_neq in Hid. rewrite Hid in Hrows. by destruct Hrows.
Qed.


(** The user has signed in on another device in between. *)
Definition Example_later : World :=
  snd (@create_session toy Example.cfg 1%N Example.ctx (snd Example_refresh)).


(** A token that is neither live nor the immediate predecessor of a live one is
    refused, and nothing else happens: the sessions descended from it stay up. *)
Lemma refresh_unknown_token {P : Platform} cfg tok ctx w :
  w_faults w = [] → q_session_by_hash (sha256_hex tok) (w_db w) = None →
  q_session_by_previous (sha256_hex tok) (w_db w) = None →
  refresh_session cfg tok ctx w = (Err (Unauthorized "Invalid refresh token"), w).
Proof.
  intros Hf Hn Hp. unfold refresh_session. rewrite bind_transaction by (auto using refresh_tx_steady).
  unfold refresh_tx. hrun. rewrite Hn. cbn [is_none]. hrun. rewrite Hp. hrun. by rewrite set_db_id.
Qed.

(** Two refreshes, then the first token again: refused, but no session is revoked. *)
Lemma refresh_grandparent_undetected :
  let '(_, w1) := Example_refresh in
  let '(_, w2) := @refresh_session toy Example.cfg (@draw_alphanumeric toy 0 48) Example.ctx w1 in
  let '(r, w3) := @refresh_session toy Example.cfg "refresh-3" Example.ctx w2 in
  is_ok r = false ∧ w3 = w2 ∧ fst (resolve_session 1%N 3%N w3) = Ok Example.user.
Proof. vm_compute. repeat split. Qed.

(** ** Single-use tokens *)

Section Tokens.
Context {P : Platform}.

Lemma consume_healthy tok p w :
  w_faults w = [] →
  let h := sha256_hex tok in
  let pr := TokenPurpose_as_str p in
  consume_verification_token tok p w =
    (match fetch_optional (redeemable h pr (w_now w)) (verifications (w_db w)) with
     | Some v => Ok (v_identifier v)
     | None => Err (BadRequest "Invalid, expired, or already-used token")
     end,
     set_db (set_verifications (update_where (redeemable h pr (w_now w))
               (consume_verification (w_now w)) (verifications (w_db w))) (w_db w)) w).
Proof.
  intros Hf h pr. unfold consume_verification_token. rewrite bind_sql by done. cbn [sql_consume].
  by destruct (fetch_optional _ _).
Qed.

Lemma consume_steady tok p : steady (consume_verification_token tok p).
Proof. unfold consume_verification_token. steady_tac. Qed.

Lemma issue_steady i p ttl : steady (issue_verification_token i p ttl).
Proof. unfold issue_verification_token. steady_tac. Qed.

(** What issuing a token leaves behind. *)
Lemma issue_Ok i p ttl w tok w' :
  w_faults w = [] → issue_verification_token i p ttl w = (Ok tok, w') →
  let sup v := ((v_identifier v =s i) && (v_purpose v =s TokenPurpose_as_str p)
                && is_none (v_consumed_at v))%bool in
  let row := {| v_id := draw_uuid (S (w_draws w)); v_identifier := i;
                v_purpose := TokenPurpose_as_str p; v_token_hash := sha256_hex tok;
                v_expires_at := (w_now w + ttl)%Z; v_consumed_at := None |} in
  tok = draw_alphanumeric (w_draws w) 48 ∧ w_faults w' = [] ∧ w_now w' = w_now w ∧
  (∀ v, v ∈ verifications (w_db w) → v_token_hash v ≠ sha256_hex tok) ∧
  w_db w' = set_verifications
    (insert_row row (update_where sup (consume_verification (w_now w)) (verifications (w_db w))))
    (w_db w).
Proof.
  intros Hf. unfold issue_verification_token, sql_supersede. hrun. wsimpl. rewrite bind_sql by done.
  unfold sql_insert_verification. wsimpl. cbn [v_id v_token_hash v_identifier].
  destruct (exists_row _ _) eqn:E1; [done|].
  match goal with |- context [if ?b then _ else _] => destruct b eqn:E2; [done|] end.
  destruct (negb _); [done|]. unfold ret. intros [= <- <-].
  split; [done|]. split; [done|]. split; [done|]. split; [|done].
  intros v Hv Heq. rewrite exists_row_false in E2. cbn [set_verifications verifications] in E2.
  match type of E2 with ∀ r, r ∈ update_where ?p ?f _ → _ =>
    specialize (E2 (if p v then f v else v)) end.
  cbv beta in E2. rewrite String.eqb_neq in E2. apply E2.
  - apply elem_of_update_where. by exists v.
  - by destruct (_ && _)%bool.
Qed.
End Tokens.

(** A recovery token is single-use, purpose-bound and expiring. Consuming one
    succeeds exactly when a row with its hash, issued for that purpose, is
    unconsumed and unexpired, and yields that row's identifier; once it has
    succeeded, the same token is refused whatever purpose it is presented for
    and however soon. *)
Theorem consume_single_use {P : Platform} (tok : string) (p : TokenPurpose) (w w' : World)
    (r : outcome string AppError) :
  w_faults w = [] → db_wf (w_db w) →
  consume_verification_token tok p w = (r, w') →
  (∀ i, r = Ok i ↔ ∃ v, v ∈ verifications (w_db w) ∧ v_token_hash v = sha256_hex tok ∧
     v_purpose v = TokenPurpose_as_str p ∧ v_consumed_at v = None ∧
     (w_now w < v_expires_at v)%Z ∧ v_identifier v = i) ∧
  (is_ok r = true → ∀ p2 w2, w_faults w2 = [] → w_db w2 = w_db w' →
     is_ok (fst (consume_verification_token tok p2 w2)) = false).
Proof.
  intros Hf Hwf. rewrite consume_healthy by done. cbn zeta. intros [= <- <-].
  assert (Hred : ∀ h pr t v, redeemable h pr t v = true ↔ v_token_hash v = h ∧ v_purpose v = pr ∧
    v_consumed_at v = None ∧ (t < v_expires_at v)%Z).
  { intros h pr t v. unfold redeemable. rewrite !andb_true_iff, !String.eqb_eq, Z.ltb_lt.
    destruct (v_consumed_at v); simpl; naive_solver. }
  split.
  - intros i. split.
    + destruct (fetch_optional _ _) as [v|] eqn:E; [|done]. intros [= <-].
      apply fetch_optional_Some in E as [(? & ? & ? & ?)%Hred Hv]. by exists v.
    + intros (v & Hv & Hh & Hp & Hc & He & <-).
      erewrite (fetch_pk v_token_hash _ _ v); [done | apply Hwf | done | |].
      * by apply Hred.
      * intros v' (-> & _)%Hred. done.
  - destruct (fetch_optional _ _) as [v|] eqn:E; [|done]. intros _ p2 w2 Hf2 Hd2.
    apply fetch_optional_Some in E as [Hvr Hv]. rewrite consume_healthy by done. rewrite Hd2.
    cbn [fst set_db set_verifications verifications w_db].
    enough (fetch_optional (redeemable (sha256_hex tok) (TokenPurpose_as_str p2) (w_now w2))
      (update_where (redeemable (sha256_hex tok) (TokenPurpose_as_str p) (w_now w))
         (consume_verification (w_now w)) (verifications (w_db w))) = None) as -> by done.
    apply fetch_optional_None. intros x (v0 & Hv0 & ->)%elem_of_update_where.
    destruct (redeemable _ _ _ v0) eqn:Er; apply not_true_iff_false; intros (H1 & H2 & H3 & H4)%Hred.
    + done.
    + assert (v0 = v) as ->; [|congruence].
      apply Hred in Hvr as (Hh & _). eapply (pk_inj v_token_hash); [apply Hwf | done.. | congruence].
Qed.

Abbreviation Example_token :=
  (@issue_verification_token toy "ada@example.com" PasswordReset (minutes 30) Example.w) (only parsing).

Lemma consume_single_use_witness :
  is_ok (fst (@consume_verification_token toy (@draw_alphanumeric toy 0 48) PasswordReset
    (snd (@consume_verification_token toy (@draw_alphanumeric toy 0 48) PasswordReset
       (snd Example_token))))) = false.
Proof.
  apply (@consume_single_use toy (@draw_alphanumeric toy 0 48) PasswordReset (snd Example_token)
    (snd (@consume_verification_token toy (@draw_alphanumeric toy 0 48) PasswordReset
       (snd Example_token))) (Ok "ada@example.com")).
  - reflexivity.
  - split; unfold unique_on; apply (bool_decide_unpack _); vm_compute; exact I.
  - vm_compute. reflexivity.
  - reflexivity.
  - reflexivity.
  - reflexivity.
Defined.

(** Issuing a token supersedes the outstanding ones. Afterwards the token
    returned is the only one that redeems for that address and purpose; it
    redeems to that address at any time before its expiry, and not after. *)
Theorem issue_then_consume {P : Platform} (i : string) (p : TokenPurpose) (ttl : Z) (w w' w2 : World)
    (tok : string) :
  w_faults w = [] →
  issue_verification_token i p ttl w = (Ok tok, w') →
  w_faults w2 = [] → w_db w2 = w_db w' →
  (fst (consume_verification_token tok p w2) = Ok i ↔ (w_now w2 < w_now w + ttl)%Z) ∧
  ∀ v, v ∈ verifications (w_db w') → v_identifier v = i → v_purpose v = TokenPurpose_as_str p →
    v_consumed_at v = None → v_token_hash v = sha256_hex tok.
Proof.
  intros Hf Hiss Hf2 Hd2. apply issue_Ok in Hiss as (-> & _ & _ & Hfresh & Hd); [|done].
  set (h := sha256_hex _) in *.
  match type of Hd with _ = set_verifications (insert_row ?r (update_where ?q ?f ?t)) _ =>
    set (row := r) in *; set (sup := q) in *; set (old := update_where sup f t) in * end.
  assert (Hold : ∀ v, v ∈ old → v_token_hash v ≠ h).
  { intros v (v0 & Hv0 & ->)%elem_of_update_where. specialize (Hfresh v0 Hv0).
    by destruct (sup v0). }
  split.
  - rewrite consume_healthy by done. cbn [fst]. rewrite Hd2, Hd. cbn [set_verifications verifications].
    unfold insert_row. rewrite fetch_optional_app. fold h.
    assert (fetch_optional (redeemable h (TokenPurpose_as_str p) (w_now w2)) old = None) as ->.
    { apply fetch_optional_None. intros v Hv%Hold. unfold redeemable.
      apply String.eqb_neq in Hv. by rewrite Hv. }
    cbn. unfold redeemable. cbn. rewrite !String.eqb_refl. cbn.
    destruct (_ <? _)%Z eqn:E; bool_facts; split; intros; auto; [done | lia].
  - rewrite Hd. cbn [set_verifications verifications].
    intros v [Hv | ->]%elem_of_insert_row Hi Hp Hc; [|done].
    apply elem_of_update_where in Hv as (v0 & Hv0 & ->). destruct (sup v0) eqn:E; [done|].
    unfold sup in E. rewrite Hi, Hp, Hc, !String.eqb_refl in E. done.
Qed.

Lemma issue_then_consume_witness :
  fst (@consume_verification_token toy (@draw_alphanumeric toy 0 48) PasswordReset (snd Example_token))
  = Ok "ada@example.com".
Proof.
  apply (@issue_then_consume toy "ada@example.com" PasswordReset (minutes 30) Example.w
    (snd Example_token) (snd Example_token) (@draw_alphanumeric toy 0 48));
    vm_compute; reflexivity.
Defined.

(** ** The sign-in lockout *)

(** A run of sign-in attempts on one address, each at its own time. *)
Fixpoint sign_in_run {P : Platform} (cfg : AppConfig) (email : string) (ctx : RequestContext)
    (l : list (Timestamp * string)) (w : World) : World :=
  match l with
  | [] => w
  | (t, pw) :: l =>
      sign_in_run cfg email ctx l
        (snd (sign_in_email cfg {| si_email := email; si_password := pw |} ctx (set_now t w)))
  end.

(** The address has a live, unbanned account whose row is [r] and whose stored
    password is [hs]. *)
Definition has_account (email hs : string) (w : World) (r : UserRow) : Prop :=
  w_faults w = [] ∧ unique_on (pk ur_id) (users (w_db w)) ∧
  fetch_optional (live_email email) (users (w_db w)) = Some r ∧
  (∃ a, fetch_optional (credential_of (ur_id r)) (accounts (w_db w)) = Some a ∧
        a_password a = Some hs) ∧
  u_banned (ur_user r) = false.

Section Lockout.
Context {P : Platform} (cfg : AppConfig).

Definition locked_at (t : Timestamp) (r : UserRow) : bool :=
  is_some_and (fun until => (t <? until)%Z) (ur_locked_until r).

Lemma q_credentials_account e hs w r :
  has_account e hs w r →
  q_credentials e (w_db w) = Some {| cr_user := ur_user r; cr_password := Some hs;
                                     cr_locked_until := ur_locked_until r |}.
Proof.
  intros (_ & _ & Hr & (a & Ha & Hp) & _). unfold q_credentials. by rewrite Hr, Ha, Hp.
Qed.

(** While the account is locked an attempt is answered 429 and does nothing. *)
Lemma sign_in_locked email pw ctx hs w r :
  has_account (to_ascii_lowercase (trim email)) hs w r → locked_at (w_now w) r = true →
  sign_in_email cfg {| si_email := email; si_password := pw |} ctx w =
    (Err (TooManyRequests "Too many failed sign-in attempts. Try again later."), w).
Proof.
  intros Hacc Hl. pose proof Hacc as (Hf & _ & _ & _ & Hb). unfold sign_in_email. hrun.
  cbn [si_email]. rewrite (q_credentials_account _ hs _ r) by done. cbn [cr_user cr_locked_until].
  hrun. rewrite Hb. cbn [negb]. hrun. unfold locked_at in Hl. by rewrite Hl.
Qed.

(** Registering a failure counts it on the row. *)
Lemma count_failure_healthy email hs w r :
  has_account email hs w r → (ur_failed_login_attempts r < 2 ^ 31 - 1)%Z →
  let bump := bump_failures (lockout_threshold cfg) (i64_as_i32 (lockout_minutes cfg)) (w_now w) in
  ∃ d, sql (sql_register_failure (ur_id r) (lockout_threshold cfg) (i64_as_i32 (lockout_minutes cfg))) w
       = (Ok (ur_locked_until (bump r)), set_db d w) ∧ has_account email hs (set_db d w) (bump r).
Proof.
  intros (Hf & Hu & Hr & (a & Ha & Hp) & Hb) Hc bump.
  rewrite sql_healthy by done. unfold sql_register_failure.
  pose proof (fetch_optional_Some _ _ _ Hr) as [_ Hin].
  rewrite (fetch_pk ur_id _ _ r Hu Hin) by (rewrite ?N.eqb_refl; try done; intros; by bool_facts).
  replace (_ <=? _)%Z with false by (symmetry; apply Z.leb_gt; lia). fold bump.
  eexists. split; [reflexivity|]. split; [done|]. wsimpl; cbn [set_users users accounts]. split.
  { apply unique_on_update; [|done]. done. }
  split; [|split; [by exists a | done]].
  rewrite fetch_optional_update_where by (intros r' _; by destruct (_ =? _)%N).
  rewrite Hr. cbn. by rewrite N.eqb_refl.
Qed.

Lemma register_failure_healthy email hs ctx w r :
  has_account email hs w r → (ur_failed_login_attempts r < 2 ^ 31 - 1)%Z →
  let bump := bump_failures (lockout_threshold cfg) (i64_as_i32 (lockout_minutes cfg)) (w_now w) in
  ∃ w', register_failed_login cfg (ur_id r) ctx w = (Ok tt, w') ∧ w_argon2 w' = w_argon2 w ∧
    has_account email hs w' (bump r).
Proof.
  intros Hacc Hc bump. destruct (count_failure_healthy email hs w r Hacc Hc) as (d & Hs & Hacc').
  unfold register_failed_login. erewrite bind_run_Ok by exact Hs. fold bump in Hacc'. fold bump.
  set (w1 := set_db d w) in *.
  hrun. destruct (is_some_and _ _); [|by exists w1].
  destruct (record_best_effort_total (P:=P) (Some (ur_id r)) "user.locked_out" "user"
    (Some (uuid_show (ur_id r))) ctx None w1) as (w' & -> & Haud).
  exists w'. split; [done|]. split; [by rewrite (au_argon2 _ _ Haud)|].
  destruct Hacc' as (Hf1 & Hrest). split; [by apply (au_faults _ _ Haud)|].
  audited_tables Haud. exact Hrest.
Qed.

(** A wrong password on an unlocked account costs one verification, is answered
    401 and counted. *)
Lemma sign_in_wrong email pw ctx hs w r :
  has_account (to_ascii_lowercase (trim email)) hs w r → locked_at (w_now w) r = false →
  argon2_verify hs pw = Some false → (ur_failed_login_attempts r < 2 ^ 31 - 1)%Z →
  ∃ w', sign_in_email cfg {| si_email := email; si_password := pw |} ctx w =
    (Err invalid_credentials, w') ∧ w_argon2 w' = S (w_argon2 w) ∧
    has_account (to_ascii_lowercase (trim email)) hs w'
      (bump_failures (lockout_threshold cfg) (i64_as_i32 (lockout_minutes cfg)) (w_now w) r).
Proof.
  intros Hacc Hl Hv Hc. pose proof Hacc as (Hf & _ & _ & _ & Hb). unfold sign_in_email. hrun.
  cbn [si_email]. rewrite (q_credentials_account _ hs _ r) by done.
  cbn [cr_user cr_locked_until cr_password]. hrun. rewrite Hb. cbn [negb]. hrun.
  unfold locked_at in Hl. rewrite Hl. cbn [negb si_password]. unfold verify_password. hrun.
  rewrite Hv. hrun. cbn [negb].
  destruct (register_failure_healthy (to_ascii_lowercase (trim email)) hs ctx
    (set_argon2 (S (w_argon2 w)) w) r) as (w' & Hreg & Ha & Hacc'); [done..|].
  exists w'. unfold bind. change (u_id (ur_user r)) with (ur_id r). rewrite Hreg. done.
Qed.

Lemma sign_in_run_bound email ctx hs t0 l : ∀ w r,
  has_account (to_ascii_lowercase (trim email)) hs w r →
  (0 < i64_as_i32 (lockout_minutes cfg))%Z →
  (∀ t pw, (t, pw) ∈ l → argon2_verify hs pw = Some false ∧
     (t0 <= t < t0 + minutes (i64_as_i32 (lockout_minutes cfg)))%Z) →
  (ur_failed_login_attempts r + Z.of_nat (length l) < 2 ^ 31)%Z →
  let spent := (Z.of_nat (w_argon2 (sign_in_run cfg email ctx l w)) - Z.of_nat (w_argon2 w))%Z in
  let until := (t0 + minutes (i64_as_i32 (lockout_minutes cfg)))%Z in
  (spent <= Z.max 1 (lockout_threshold cfg - ur_failed_login_attempts r))%Z ∧
  (locked_at (until - 1) r = true → spent = 0)%Z.
Proof.
  induction l as [|[t pw] l IH]; intros w r Hacc Hm Hl Hc; cbn zeta; [cbn; lia|].
  cbn [sign_in_run length] in *. destruct (Hl t pw) as [Hv Ht]; [by left|].
  assert (Hl' : ∀ t pw, (t, pw) ∈ l → argon2_verify hs pw = Some false ∧
     (t0 <= t < t0 + minutes (i64_as_i32 (lockout_minutes cfg)))%Z) by (intros; apply Hl; by right).
  destruct (locked_at t r) eqn:El.
  - rewrite (sign_in_locked _ _ _ hs (set_now t w) r) by done. cbn [snd].
    specialize (IH (set_now t w) r Hacc Hm Hl'). cbn zeta in IH. wsimpl. apply IH. lia.
  - destruct (sign_in_wrong email pw ctx hs (set_now t w) r) as (w' & -> & Ha & Hacc'); [done..|lia|].
    cbn [snd]. specialize (IH w' _ Hacc' Hm Hl'). cbn zeta in IH. rewrite Ha in IH. wsimpl.
    cbn [bump_failures set_lockout ur_failed_login_attempts] in IH.
    destruct IH as [IH1 IH2]; [lia|]. split.
    + destruct (Z.leb (lockout_threshold cfg) (ur_failed_login_attempts r + 1)) eqn:E; bool_facts; [|lia].
      rewrite (Z.max_l 1) by lia. enough (locked_at (t0 + minutes (i64_as_i32 (lockout_minutes cfg)) - 1)
        (bump_failures (lockout_threshold cfg) (i64_as_i32 (lockout_minutes cfg)) t r) = true) as H%IH2
        by lia.
      unfold locked_at, bump_failures, set_lockout. cbn [ur_locked_until].
      apply Z.leb_le in E. rewrite E. cbn. apply Z.ltb_lt. lia.
    + unfold locked_at in *. destruct (ur_locked_until r); cbn in *; [bool_facts; lia | done].
Qed.
End Lockout.

(** Guessing is bounded. Whatever wrong passwords are tried on an account within
    one lockout period, from however many addresses, at most [threshold] minus
    the failures already counted of them are ever compared with the stored
    password, and at most one once the threshold has been reached: the rest
    are answered without looking. *)
Theorem lockout_bounds_guesses {P : Platform} (cfg : AppConfig) (email hs : string)
    (ctx : RequestContext) (t0 : Timestamp) (l : list (Timestamp * string)) (w : World) (r : UserRow) :
  has_account (to_ascii_lowercase (trim email)) hs w r →
  (0 < i64_as_i32 (lockout_minutes cfg))%Z →
  (∀ t pw, (t, pw) ∈ l → argon2_verify hs pw = Some false ∧
     (t0 <= t < t0 + minutes (i64_as_i32 (lockout_minutes cfg)))%Z) →
  (ur_failed_login_attempts r + Z.of_nat (length l) < 2 ^ 31)%Z →
  (Z.of_nat (w_argon2 (sign_in_run cfg email ctx l w)) - Z.of_nat (w_argon2 w)
   <= Z.max 1 (lockout_threshold cfg - ur_failed_login_attempts r))%Z.
Proof. intros. by eapply sign_in_run_bound. Qed.

Lemma lockout_bounds_guesses_witness :
  (Z.of_nat (w_argon2 (@sign_in_run toy Example.cfg " ADA@example.com" Example.ctx
     [(1000000, "a"); (2000000, "b"); (3000000, "c"); (4000000, "d"); (5000000, "e")]%Z Example.w))
   - 0 <= 3)%Z.
Proof.
  apply (@lockout_bounds_guesses toy Example.cfg " ADA@example.com" "h:right" Example.ctx 1000000
    [(1000000, "a"); (2000000, "b"); (3000000, "c"); (4000000, "d"); (5000000, "e")]%Z
    Example.w Example.user_row).
  - split; [done|]. split; [apply (wf_users_pk _ example_wf)|]. split; [reflexivity|].
    split; [|done]. exists Example.account. by split.
  - vm_compute. reflexivity.
  - intros t pw H. repeat (apply elem_of_cons in H as [[= -> ->]|H]; [split; [reflexivity | vm_compute; split; [discriminate | reflexivity]]|]).
    by apply not_elem_of_nil in H.
  - vm_compute. reflexivity.
Defined.

Lemma server_fault_not_401 {A} (h : M A) m w w' :
  raises server_fault h → h w ≠ (Err (Unauthorized m), w').
Proof. intros H E. by apply H in E. Qed.

(** Counting a failure does no hashing, and its own failure is a server fault. *)
Lemma register_failure_401 {P : Platform} cfg uid ctx m w w' :
  bind (register_failed_login cfg uid ctx) (fun _ => fail (A:=AuthResponse) invalid_credentials) w
  = (Err (Unauthorized m), w') →
  m = "Invalid email or password" ∧ w_argon2 w' = w_argon2 w.
Proof.
  unfold register_failed_login. hrun.
  destruct (sql_cases (sql_register_failure uid (lockout_threshold cfg)
    (i64_as_i32 (lockout_minutes cfg))) w) as (w1 & Ha & [[o Ho] | (e & He & _)]);
    unfold bind at 1; rewrite ?Ho, ?He; [|done].
  hrun. destruct (is_some_and _ o); [|hrun; unfold fail; by intros [= <- <-]].
  destruct (bind_record_best_effort (P:=P) (Some uid) "user.locked_out" "user" (Some (uuid_show uid))
    ctx None (fun _ => fail (A:=AuthResponse) invalid_credentials) w1) as (w2 & Haud & ->).
  unfold fail. intros [= <- <-]. by rewrite (au_argon2 _ _ Haud).
Qed.

(** C33: a failed sign-in does not tell why. Whether the address is unknown, the
    account has no password or the password is wrong, every 401 carries the
    same message and costs exactly one password verification, whatever the
    database does. *)
Theorem sign_in_uniform {P : Platform} (cfg : AppConfig) (req : SignInEmailRequest)
    (ctx : RequestContext) (w w' : World) (m : string) :
  (∀ pw, argon2_verify DUMMY_HASH pw ≠ None) →
  sign_in_email cfg req ctx w = (Err (Unauthorized m), w') →
  m = "Invalid email or password" ∧ w_argon2 w' = S (w_argon2 w).
Proof.
  intros Hdummy. unfold sign_in_email.
  assert (Hd : ∀ w1 w2, bind (verify_dummy_password (si_password req))
      (fun _ => fail (A:=AuthResponse) invalid_credentials) w1 = (Err (Unauthorized m), w2) →
      m = "Invalid email or password" ∧ w_argon2 w2 = S (w_argon2 w1)).
  { intros w1 w2. unfold verify_dummy_password. hrun.
    destruct (argon2_verify DUMMY_HASH (si_password req)) eqn:E; [|by apply Hdummy in E].
    unfold fail. by intros [= <- <-]. }
  destruct (sql_cases (sql_read (λ _ d, q_credentials (to_ascii_lowercase (trim (si_email req))) d)) w)
    as (w1 & Ha1 & [[o Ho] | (e & He & _)]); unfold bind at 1; rewrite ?Ho, ?He; [|done].
  destruct o as [row|]; [|rewrite <- Ha1; apply Hd].
  hrun. destruct (negb _); [|done]. hrun. destruct (negb _); [|done].
  destruct (cr_password row) as [hs|]; [|rewrite <- Ha1; apply Hd].
  unfold verify_password. hrun. destruct (argon2_verify _ _) as [b|]; [|done]. hrun.
  destruct b; cbn [negb].
  - intros H. exfalso. revert H. apply (server_fault_not_401 _ m). unfold create_session, generate_access_token.
    raises_tac.
  - rewrite <- Ha1. intros H%register_failure_401. wsimpl. exact H.
Qed.

Definition Example_unknown : SignInEmailRequest :=
  {| si_email := "nobody@example.com"; si_password := "guess" |}.

Lemma sign_in_uniform_witness :
  w_argon2 (snd (@sign_in_email toy Example.cfg Example_unknown Example.ctx Example.w)) = 1%nat.
Proof.
  apply (@sign_in_uniform toy Example.cfg Example_unknown Example.ctx Example.w
    (snd (@sign_in_email toy Example.cfg Example_unknown Example.ctx Example.w))
    "Invalid email or password").
  - intros pw. discriminate.
  - reflexivity.
Defined.

(** ** Account recovery and removal *)

Section Recovery.
Context {P : Platform} (cfg : AppConfig).

(** The effect of [reset_password_tx]. *)
Lemma reset_password_tx_Ok h tok w u w' :
  w_faults w = [] → reset_password_tx h tok w = (Ok u, w') →
  let t := w_now w in
  let sel := redeemable (sha256_hex tok) "password_reset" t in
  ∃ v r, fetch_optional sel (verifications (w_db w)) = Some v ∧
    fetch_optional (live_email (v_identifier v)) (users (w_db w)) = Some r ∧ ur_user r = u ∧
    w_db w' = revoke_all (u_id u) t
      (set_users (update_where (fun r => ur_id r =? u_id u)%N
                    (fun r => set_lockout 0 None (touch_user t r)) (users (w_db w)))
      (set_accounts (update_where (credential_of (u_id u)) (set_password h t) (accounts (w_db w)))
      (set_verifications (update_where sel (consume_verification t) (verifications (w_db w)))
        (w_db w)))).
Proof.
  intros Hf. unfold reset_password_tx. unfold bind at 1. rewrite consume_healthy by done.
  cbn zeta. destruct (fetch_optional _ _) as [v|] eqn:Ev; [|done]. hrun.
  destruct (q_live_user_by_email _ _) as [u0|] eqn:Eu; [|done].
  apply fmap_Some in Eu as (r & Hr & ->). wsimpl. unfold sql_set_credential_password, sql_reset_lockout.
  hrun. wsimpl. rewrite bind_sql by done. wsimpl. unfold sql_revoke_all, ret.
  intros [= <- <-]. exists v, r. done.
Qed.
End Recovery.

(** C11: recovery is all or nothing. When verifying an address, resetting or changing
    a password, or deleting an account does not succeed, whatever failed and
    wherever, the database is exactly as it was: the token is not spent, no
    session is lost, no credential is changed. *)
Theorem recovery_atomic {P : Platform} (cfg : AppConfig) (ctx : RequestContext) (uid sid : Uuid)
    (ve : VerifyEmailRequest) (rp : ResetPasswordRequest) (cp : ChangePasswordRequest)
    (h : M string) (w w' : World) (e : AppError) :
  h ∈ [verify_email ve ctx; reset_password cfg rp ctx; change_password cfg uid sid cp ctx;
       delete_account uid ctx] →
  h w = (Err e, w') → w_db w' = w_db w.
Proof.
  rewrite !elem_of_cons, elem_of_nil. intros Hh Hw.
  assert (Ha : atomic h); [|by eapply Ha].
  destruct Hh as [-> | [-> | [-> | [-> | []]]]];
    unfold verify_email, reset_password, change_password, delete_account, hash_password,
      verify_password; atomic_tac.
Qed.

(** The third statement of the reset fails: nothing of the first two remains. *)
Definition Example_outage : World :=
  set_faults [None; None; None; None; Some (NonDatabase "PoolTimedOut")] (snd Example_token).
Definition Example_reset : ResetPasswordRequest :=
  {| rp_token := @draw_alphanumeric toy 0 48; rp_new_password := "new password" |}.

Lemma recovery_atomic_witness :
  w_db (snd (@reset_password toy Example.cfg Example_reset Example.ctx Example_outage))
  = w_db Example_outage.
Proof.
  apply (@recovery_atomic toy Example.cfg Example.ctx 1%N 3%N {| ve_token := "" |} Example_reset
    {| cp_current_password := ""; cp_new_password := "" |}
    (@reset_password toy Example.cfg Example_reset Example.ctx) Example_outage
    (snd (@reset_password toy Example.cfg Example_reset Example.ctx Example_outage))
    (DatabaseError (NonDatabase "PoolTimedOut"))).
  - right. left.
  - vm_compute. reflexivity.
Defined.

(** A successful reset gives the account back to the owner of the token's address
    and takes it from everybody else: the account's credential is the hash of
    the new password, the lockout is lifted, no session of the user is usable
    any more, and other users' rows are untouched. *)
Theorem reset_password_effect {P : Platform} (cfg : AppConfig) (req : ResetPasswordRequest)
    (ctx : RequestContext) (w w' : World) (msg : string) :
  w_faults w = [] →
  reset_password cfg req ctx w = (Ok msg, w') →
  ∃ v r h, v ∈ verifications (w_db w) ∧
    redeemable (sha256_hex (rp_token req)) "password_reset" (w_now w) v = true ∧
    r ∈ users (w_db w) ∧ live_email (v_identifier v) r = true ∧
    argon2_hash (argon2 cfg) (draw_bytes (w_draws w) 16) (rp_new_password req) = Some h ∧
    (∀ a, a ∈ accounts (w_db w') → credential_of (ur_id r) a = true → a_password a = Some h) ∧
    (∀ r', r' ∈ users (w_db w') → ur_id r' = ur_id r →
       ur_failed_login_attempts r' = 0%Z ∧ ur_locked_until r' = None) ∧
    (∀ t sid u, ¬ session_usable t (w_db w') (ur_id r) sid u) ∧
    (∀ s, sr_user s ≠ ur_id r → s ∈ sessions (w_db w) → s ∈ sessions (w_db w')) ∧
    (∀ a, a_user_id a ≠ ur_id r → a ∈ accounts (w_db w) → a ∈ accounts (w_db w')).
Proof.
  intros Hf. unfold reset_password, hash_password, argon2_of. hrun.
  destruct (argon2_params_error _); [done|]. cbn [lift]. hrun.
  destruct (argon2_hash _ _ _) as [h|] eqn:Eh; [hrun | done].
  rewrite bind_transaction by (try done; unfold reset_password_tx, consume_verification_token; steady_tac).
  destruct (reset_password_tx _ _ _) as [[u|e|] w1] eqn:E; try done.
  apply reset_password_tx_Ok in E as (v & r & Hv & Hr & <- & Hd); [|done].
  match goal with |- bind (record_best_effort ?a ?b ?c ?d ?x ?f) ?k _ = _ → _ =>
    destruct (bind_record_best_effort a b c d x f k w1) as (w2 & Haud & ->) end.
  unfold ret. intros [= _ <-]. apply fetch_optional_Some in Hv as [Hvr Hv].
  apply fetch_optional_Some in Hr as [Hrl Hr]. wsimpl. change (u_id (ur_user r)) with (ur_id r) in *.
  exists v, r, h. do 4 (split; [done|]). split; [done|]. audited_tables Haud. rewrite Hd. clear Hd.
  unfold revoke_all. cbn [set_audit_logs set_sessions set_users set_accounts set_verifications
    users accounts sessions]. repeat split.
  - intros a (a0 & _ & ->)%elem_of_update_where. destruct (credential_of _ a0) eqn:Ec; [done|].
    by rewrite Ec.
  - apply elem_of_update_where in H as (r0 & _ & ->). destruct (_ =? _)%N eqn:Ei; [done|].
    by rewrite H0, N.eqb_refl in Ei.
  - apply elem_of_update_where in H as (r0 & _ & ->). destruct (_ =? _)%N eqn:Ei; [done|].
    by rewrite H0, N.eqb_refl in Ei.
  - intros t sid u. apply signed_out_unusable. intros s Hs.
    exact (signed_out_revoke_all (ur_id r) (w_now w) (w_db w) s Hs).
  - intros s Hs Hin. apply elem_of_update_where. exists s. split; [done|].
    unfold unrevoked_of. apply N.eqb_neq in Hs. by rewrite Hs.
  - intros a Ha Hin. apply elem_of_update_where. exists a. split; [done|].
    unfold credential_of. apply N.eqb_neq in Ha. by rewrite Ha.
Qed.

Lemma reset_password_effect_witness :
  ¬ session_usable 2000000
    (w_db (snd (@reset_password toy Example.cfg Example_reset Example.ctx (snd Example_token)))) 1%N 3%N
    Example.user.
Proof.
  destruct (@reset_password_effect toy Example.cfg Example_reset Example.ctx (snd Example_token)
    (snd (@reset_password toy Example.cfg Example_reset Example.ctx (snd Example_token)))
    "Password has been reset successfully. All sessions were signed out.")
    as (v & r & h & _ & _ & Hr & _ & _ & _ & _ & H & _).
  - reflexivity.
  - vm_compute. reflexivity.
  - enough (ur_id r = 1%N) as <- by apply H. revert r Hr H.
    change (∀ r, r ∈ [Example.user_row] → (∀ t sid u, ¬ session_usable t
      (w_db (snd (@reset_password toy Example.cfg Example_reset Example.ctx (snd Example_token))))
      (ur_id r) sid u) → ur_id r = 1%N). by intros r ->%list_elem_of_singleton _.
Defined.

(** ** Registration, then sign-in *)

Section SignUp.
Context {P : Platform} (cfg : AppConfig).

Lemma sql_insert_session_Ok row t d :
  (∀ s, s ∈ sessions d → sr_id s ≠ sr_id row ∧
     sr_refresh_token_hash s ≠ sr_refresh_token_hash row) →
  varchar_opt 45 (sr_ip_address row) = true → user_exists d (sr_user row) = true →
  sql_insert_session row t d = inl (tt, set_sessions (insert_row row (sessions d)) d).
Proof.
  intros Hs Hip Hu. unfold sql_insert_session. rewrite Hip, Hu. cbn [negb].
  assert (exists_row (λ r, (sr_id r =? sr_id row)%N) (sessions d) = false) as ->.
  { apply exists_row_false. intros s Hin. by apply N.eqb_neq, Hs. }
  assert (exists_row (λ r, sr_refresh_token_hash r =s sr_refresh_token_hash row) (sessions d) = false)
    as ->; [|done].
  apply exists_row_false. intros s Hin. by apply String.eqb_neq, Hs.
Qed.

(** A correct password on an unlocked, unbanned account opens a session. *)
Lemma sign_in_right email pw ctx hs w r :
  has_account (to_ascii_lowercase (trim email)) hs w r → locked_at (w_now w) r = false →
  argon2_verify hs pw = Some true → (∀ c k, jwt_encode c k ≠ None) →
  varchar_opt 45 (ctx_ip_address ctx) = true →
  (∀ s, s ∈ sessions (w_db w) → sr_id s ≠ draw_uuid (w_draws w) ∧
     sr_refresh_token_hash s ≠ sha256_hex (draw_alphanumeric (S (w_draws w)) 48)) →
  ∃ resp w', sign_in_email cfg {| si_email := email; si_password := pw |} ctx w = (Ok resp, w') ∧
    ar_user resp = UserResponse_from (ur_user r) ∧ ar_session_id resp = draw_uuid (w_draws w).
Proof.
  intros Hacc Hl Hv Hjwt Hip Hfresh. pose proof Hacc as (Hf & _ & Hr & _ & Hb).
  unfold sign_in_email. hrun. cbn [si_email]. rewrite (q_credentials_account _ hs _ r) by done.
  cbn [cr_user cr_locked_until cr_password]. hrun. rewrite Hb. cbn [negb]. hrun.
  unfold locked_at in Hl. rewrite Hl. cbn [negb si_password]. unfold verify_password. hrun.
  rewrite Hv. hrun. cbn [negb].
  rewrite bind_transaction by (try done; unfold create_session; steady_tac).
  unfold sql_clear_lockout, create_session. hrun. wsimpl. rewrite bind_sql by done.
  rewrite sql_insert_session_Ok; [|exact Hfresh | done |].
  2: { apply fetch_optional_Some in Hr as [_ Hin]. apply exists_row_true. wsimpl.
       exists (set_lockout 0 None r). cbn [set_users users sr_user sr_session s_user_id].
       split; [|by apply N.eqb_refl]. apply elem_of_update_where. exists r. split; [done|].
       by rewrite (proj2 (N.eqb_eq (ur_id r) (u_id (ur_user r)))). }
  unfold ret at 1. cbn [fst snd].
  match goal with |- context [bind (record_best_effort ?a ?b ?c ?d ?x ?f) ?k ?w1] =>
    destruct (bind_record_best_effort a b c d x f k w1) as (w2 & Haud & ->) end.
  unfold generate_access_token. hrun. destruct (jwt_encode _ _) as [tk|] eqn:Ej; [|by apply Hjwt in Ej].
  unfold ret. by eexists _, _.
Qed.

(** What registration leaves in the database. *)
Lemma sign_up_tx_Ok email req ctx w u vt sid rt w' :
  w_faults w = [] → sign_up_tx cfg email req ctx w = (Ok (u, vt, sid, rt), w') →
  ∃ h acc, argon2_hash (argon2 cfg) (draw_bytes (S (w_draws w)) 16) (su_password req) = Some h ∧
    q_email_exists email (w_db w) = false ∧ user_exists (w_db w) (u_id u) = false ∧
    u_email u = email ∧ u_name u = trim (su_name req) ∧ u_role u = "user" ∧ u_banned u = false ∧
    u_email_verified u = false ∧
    a_user_id acc = u_id u ∧ a_provider_id acc = "credential" ∧ a_password acc = Some h ∧
    users (w_db w') = insert_row {| ur_user := u; ur_failed_login_attempts := 0;
                                    ur_locked_until := None; ur_deleted_at := None |}
                        (users (w_db w)) ∧
    accounts (w_db w') = insert_row acc (accounts (w_db w)).
Proof.
  intros Hf. unfold sign_up_tx. hrun. destruct (q_email_exists _ _) eqn:Ee; [done|]. cbn [negb].
  unfold hash_password, argon2_of. hrun. wsimpl. destruct (argon2_params_error _); [done|].
  hrun. wsimpl. destruct (argon2_hash _ _ _) as [h|] eqn:Eh; [hrun | done].
  rewrite bind_sql by done. unfold sql_insert_user. wsimpl. cbn [u_id u_email u_name].
  destruct (user_exists _ _) eqn:Eu; [done|]. rewrite Ee. destruct (negb _); [done|]. hrun.
  rewrite bind_sql by done. unfold sql_insert_account. wsimpl. cbn [a_id a_provider_id a_account_id a_user_id].
  repeat match goal with |- (match (if ?b then _ else _) with _ => _ end) = _ → _ =>
    destruct b; [done|] end.
  intros [vt' [w1 [H1 H2]]]%bind_Ok_inv. apply issue_Ok in H1 as (_ & Hf1 & _ & _ & Hd1); [|done].
  unfold create_session in H2. revert H2. hrun. rewrite bind_sql by done.
  destruct (sql_insert_session _ _ _) as [[[] d2]|] eqn:Es; [|done]. unfold ret. cbn [fst snd].
  intros [= <- <- <- <- <-]. unfold sql_insert_session in Es. repeat case_match; try done.
  injection Es as <-. wsimpl. rewrite Hd1. wsimpl.
  exists h, {| a_id := draw_uuid (S (S (w_draws w))); a_user_id := draw_uuid (w_draws w);
               a_account_id := email; a_provider_id := "credential"; a_password := Some h;
               a_access_token := None; a_refresh_token := None; a_access_token_expires_at := None;
               a_created_at := w_now w; a_updated_at := w_now w |}.
  by repeat (split; [done|]).
Qed.
End SignUp.

(** C32: registering and signing in fit together. After a successful registration, the
    same password with any spelling of the address that differs only in case
    and surrounding space signs in to the user just created, at any later time
    the rows are still there; the new user has the default role, unverified and
    unbanned, and its name is trimmed. *)
Theorem sign_up_then_sign_in {P : Platform} (cfg : AppConfig) (req : SignUpEmailRequest)
    (ctx ctx2 : RequestContext) (email2 : string) (w w' w2 : World) (resp : AuthResponse) :
  w_faults w = [] → db_wf (w_db w) →
  (∀ a, a ∈ accounts (w_db w) → user_exists (w_db w) (a_user_id a) = true) →
  (∀ params salt pw h, argon2_hash params salt pw = Some h → argon2_verify h pw = Some true) →
  (∀ c k, jwt_encode c k ≠ None) →
  sign_up_email cfg req ctx w = (Ok resp, w') →
  w_faults w2 = [] → w_db w2 = w_db w' →
  to_ascii_lowercase (trim email2) = to_ascii_lowercase (trim (su_email req)) →
  varchar_opt 45 (ctx_ip_address ctx2) = true →
  (∀ s, s ∈ sessions (w_db w2) → sr_id s ≠ draw_uuid (w_draws w2) ∧
     sr_refresh_token_hash s ≠ sha256_hex (draw_alphanumeric (S (w_draws w2)) 48)) →
  uresp_role (ar_user resp) = "user" ∧ uresp_email_verified (ar_user resp) = false ∧
  uresp_name (ar_user resp) = trim (su_name req) ∧
  ∃ resp2 w3, sign_in_email cfg {| si_email := email2; si_password := su_password req |} ctx2 w2
      = (Ok resp2, w3) ∧ ar_user resp2 = ar_user resp.
Proof.
  intros Hf Hwf Hfk Hargon Hjwt Hup Hf2 Hd2 Hemail Hip Hfresh. unfold sign_up_email in Hup.
  rewrite bind_transaction in Hup by
    (try done; unfold sign_up_tx, hash_password, issue_verification_token, create_session; steady_tac).
  destruct (sign_up_tx _ _ _ _ _) as [[[[[u vt] sid] rt]|e|] w1] eqn:E; try done.
  apply sign_up_tx_Ok in E as (h & acc & Hh & Hex & Hue & Hem & Hname & Hrole & Hb & Hver & Hacc & Hprov
    & Hpw & Husers & Haccs); [|done].
  unfold send_verification_email, dispatch in Hup. autorewrite with healthy in Hup.
  match type of Hup with bind (record_best_effort ?a ?b ?c ?d ?x ?f) ?k ?wx = _ =>
    destruct (bind_record_best_effort a b c d x f k wx) as (w3 & Haud & Heq); rewrite Heq in Hup end.
  unfold generate_access_token in Hup. autorewrite with healthy in Hup.
  destruct (jwt_encode _ _) as [tk|]; [|done]. unfold ret in Hup. injection Hup as <- <-.
  cbn [auth_response ar_user UserResponse_from uresp_role uresp_email_verified uresp_name].
  split; [done|]. split; [done|]. split; [done|].
  assert (Hu2 : users (w_db w2) = users (w_db w1) ∧ accounts (w_db w2) = accounts (w_db w1)).
  { rewrite Hd2. by audited_tables Haud. }
  destruct Hu2 as [Hu2 Ha2]. rewrite Husers in Hu2. rewrite Haccs in Ha2.
  set (row := {| ur_user := u; ur_failed_login_attempts := 0; ur_locked_until := None;
                 ur_deleted_at := None |}) in *.
  destruct (sign_in_right cfg email2 (su_password req) ctx2 h w2 row)
    as (resp2 & w4 & Hin & Hru & _); [|done|by eapply Hargon|done..|by exists resp2, w4].
  rewrite Hemail. split; [done|]. rewrite Hu2, Ha2. split.
  { apply (unique_on_insert_checked ur_id (fun r => u_id (ur_user r) =? u_id u)%N);
      [intros r Hk; by apply N.eqb_eq | exact Hue | apply Hwf]. }
  split.
  { apply fetch_optional_insert_new; [by apply exists_row_false|].
    unfold live_email, ur_live. cbn. by rewrite Hem, String.eqb_refl. }
  split; [|done]. exists acc. split; [|done]. apply fetch_optional_insert_new.
  - intros a Ha. apply Hfk in Ha. unfold credential_of. destruct (_ =? _)%N eqn:Ea; [|done].
    apply N.eqb_eq in Ea. change (ur_id row) with (u_id u) in Ea. by rewrite Ea, Hue in Ha.
  - unfold credential_of. change (ur_id row) with (u_id u). by rewrite Hacc, Hprov, N.eqb_refl.
Qed.

Definition Example_sign_up : SignUpEmailRequest :=
  {| su_name := " Grace "; su_email := "Grace@example.com"; su_password := "long enough";
     su_image := None |}.
Abbreviation Example_signed_up :=
  (@sign_up_email toy Example.cfg Example_sign_up Example.ctx Example.w) (only parsing).

Lemma sign_up_then_sign_in_witness :
  ∃ resp w' resp2 w3, Example_signed_up = (Ok resp, w') ∧
    @sign_in_email toy Example.cfg {| si_email := "grace@EXAMPLE.com "; si_password := "long enough" |}
      Example.ctx w' = (Ok resp2, w3) ∧ ar_user resp2 = ar_user resp.
Proof.
  destruct Example_signed_up as [r w'] eqn:E.
  assert (Hr : is_ok (fst Example_signed_up) = true) by (vm_compute; reflexivity).
  rewrite E in Hr. destruct r as [resp|e|]; [|discriminate Hr..].
  assert (Hw : w' = snd Example_signed_up) by (by rewrite E).
  assert (Hf : w_faults w' = []) by (rewrite Hw; vm_compute; reflexivity).
  destruct (@sign_up_then_sign_in toy Example.cfg Example_sign_up Example.ctx Example.ctx
    "grace@EXAMPLE.com " Example.w w' w' resp) as (_ & _ & _ & resp2 & w3 & H & H').
  - reflexivity.
  - apply example_wf.
  - intros a [-> | []%not_elem_of_nil]%elem_of_cons. reflexivity.
  - intros params salt pw h [= <-]. apply toy_argon2.
  - intros c k. discriminate.
  - exact E.
  - exact Hf.
  - reflexivity.
  - reflexivity.
  - reflexivity.
  - rewrite Hw. apply Forall_forall. vm_compute. repeat constructor; discriminate.
  - exists resp, w', resp2, w3. split; [exact eq_refl|]. split; [exact H | exact H'].
Defined.
