(* ===== verification/Threads.v ===== *)
(** * Requests that overlap

    A handler as a thread: the sequence of its atomic actions (one statement, one
    transaction, one look at the clock, one password comparison), each followed
    by what the handler does with its outcome. Threads of several requests
    interleave action by action over one world; one that takes no further action
    is a request abandoned there, by a timeout or a lost connection. A thread run
    alone is the handler ([sign_in_thread_run], [reset_thread_run],
    [verify_email_thread_run], [refresh_thread_run]). Proved here: how many guesses a lockout period allows,
    however they overlap. What works once is in [OneShot]. *)
From stdpp Require Import relations.
From S2P Require Import Prelude RustStr Models Errors Platform World Crypto.
From S2P Require Import AuditTrail MailService Auth Schema AuthProofs.

(** ** Threads *)

Inductive Thread (A : Type) : Type :=
| Done (r : outcome A AppError)
| Atom {X : Type} (m : M X) (k : outcome X AppError -> Thread A).
Arguments Done {A} r.
Arguments Atom {A X} m k.

Fixpoint tbind {A B} (t : Thread A) (f : A -> Thread B) : Thread B :=
  match t with
  | Done (Ok a) => f a
  | Done (Err e) => Done (Err e)
  | Done Panic => Done Panic
  | Atom m k => Atom m (fun r => tbind (k r) f)
  end.
Definition atom {A} (m : M A) : Thread A := Atom m Done.
Definition check (b : bool) (e : AppError) : Thread unit := Done (if b then Ok tt else Err e).

Notation "'let^' x := t 'in' k" := (tbind t (fun x => k))
  (at level 10, x binder, t at level 100, k at level 200,
   format "'[v' 'let^'  x  :=  t  'in' '/' k ']'") : m_scope.
Notation "'do^' t 'in' k" := (tbind t (fun _ => k))
  (at level 10, t at level 100, k at level 200, format "'[v' 'do^'  t  'in' '/' k ']'") : m_scope.

(** Alone. *)
Fixpoint run {A} (t : Thread A) (w : World) : outcome A AppError * World :=
  match t with
  | Done r => (r, w)
  | Atom m k => let '(r, w') := m w in run (k r) w'
  end.

(** One action. *)
Definition advance {A} (t : Thread A) (w : World) : Thread A * World :=
  match t with
  | Done r => (Done r, w)
  | Atom m k => let '(r, w') := m w in (k r, w')
  end.

Lemma run_tbind {A B} (t : Thread A) (f : A -> Thread B) w :
  run (tbind t f) w = bind (run t) (fun a => run (f a)) w.
Proof.
  unfold bind. revert w. induction t as [r|X m k IH]; intros w; [by destruct r|].
  cbn. destruct (m w) as [r w']. apply IH.
Qed.
Lemma run_atom {A} (m : M A) w : run (atom m) w = m w.
Proof. cbn. by destruct (m w). Qed.
Lemma run_check b e w : run (check b e) w = guard b e w.
Proof. by destruct b. Qed.
Lemma bind_ext {A B} (m1 m2 : M A) (k1 k2 : A -> M B) w :
  m1 w = m2 w → (∀ a w', k1 a w' = k2 a w') → bind m1 k1 w = bind m2 k2 w.
Proof. intros H Hk. unfold bind. rewrite H. destruct (m2 w) as [[a|e|] w']; auto. Qed.

(** Several requests, in slots that are used again, and whatever else happens. *)
Definition System (A : Type) : Type := World * list (Thread A).

Inductive sys_step {A} (enters : Thread A -> Prop) (env : World -> World -> Prop) : System A -> System A -> Prop :=
| step_act i t w ts : ts !! i = Some t →
    sys_step enters env (w, ts) (snd (advance t w), <[i := fst (advance t w)]> ts)
| step_admit i r t w ts : ts !! i = Some (Done r) → enters t → sys_step enters env (w, ts) (w, <[i := t]> ts)
| step_env w w' ts : env w w' → sys_step enters env (w, ts) (w', ts).

(** ** The handlers as threads ([services/auth.rs]) *)

Section Handlers.
Context {P : Platform} (cfg : AppConfig).

Definition register_thread (user_id : Uuid) (ctx : RequestContext) : Thread unit :=
  let^ locked := atom (sql (sql_register_failure user_id (lockout_threshold cfg)
                              (i64_as_i32 (lockout_minutes cfg)))) in
  let^ t := atom now in
  if is_some_and (fun until => (t <? until)%Z) locked then
    atom (record_best_effort (Some user_id) "user.locked_out" "user" (Some (uuid_show user_id)) ctx None)
  else Done (Ok tt).

Definition wrong_thread (user_id : Uuid) (ctx : RequestContext) : Thread AuthResponse :=
  do^ register_thread user_id ctx in Done (Err invalid_credentials).

Definition right_thread (user : User) (ctx : RequestContext) : Thread AuthResponse :=
  let^ sess := atom (transaction (
      do! sql (sql_clear_lockout (u_id user)) in
      create_session cfg (u_id user) ctx)) in
  do^ atom (record_best_effort (Some (u_id user)) "user.signed_in" "session"
              (Some (uuid_show (fst sess))) ctx None) in
  let^ access_token := atom (generate_access_token cfg user (fst sess)) in
  Done (Ok (auth_response cfg access_token (snd sess) (fst sess) user)).

Definition compare_thread (user : User) (pw hash : string) (ctx : RequestContext) : Thread AuthResponse :=
  let^ ok := atom (verify_password pw hash) in
  if negb ok then wrong_thread (u_id user) ctx else right_thread user ctx.

Definition unlocked_thread (row : CredentialRow) (pw : string) (ctx : RequestContext) (t : Timestamp)
  : Thread AuthResponse :=
  do^ check (negb (is_some_and (fun until => (t <? until)%Z) (cr_locked_until row)))
        (TooManyRequests "Too many failed sign-in attempts. Try again later.") in
  match cr_password row with
  | None => do^ atom (verify_dummy_password pw) in Done (Err invalid_credentials)
  | Some password_hash => compare_thread (cr_user row) pw password_hash ctx
  end.

Definition found_thread (pw : string) (ctx : RequestContext) (record : option CredentialRow) : Thread AuthResponse :=
  match record with
  | None => do^ atom (verify_dummy_password pw) in Done (Err invalid_credentials)
  | Some row =>
      do^ check (negb (u_banned (cr_user row))) (Forbidden "This account has been suspended") in
      let^ t := atom now in
      unlocked_thread row pw ctx t
  end.

Definition sign_in_thread (req : SignInEmailRequest) (ctx : RequestContext) : Thread AuthResponse :=
  let email := to_ascii_lowercase (trim (si_email req)) in
  let^ record := atom (sql (sql_read (fun _ d => q_credentials email d))) in
  found_thread (si_password req) ctx record.

Definition reset_thread (req : ResetPasswordRequest) (ctx : RequestContext) : Thread string :=
  let^ new_password_hash := atom (hash_password cfg (rp_new_password req)) in
  let^ user := atom (transaction (reset_password_tx new_password_hash (rp_token req))) in
  do^ atom (record_best_effort (Some (u_id user)) "user.password_reset" "user"
              (Some (uuid_show (u_id user))) ctx None) in
  Done (Ok "Password has been reset successfully. All sessions were signed out.").

Definition verify_email_thread (req : VerifyEmailRequest) (ctx : RequestContext) : Thread string :=
  do^ atom (transaction (
      let! identifier := consume_verification_token (ve_token req) EmailVerify in
      sql (sql_verify_email identifier))) in
  do^ atom (record_best_effort None "user.email_verified" "user" None ctx None) in
  Done (Ok "Email verified successfully").

Definition refresh_thread (refresh_token : string) (ctx : RequestContext) : Thread AuthResponse :=
  let^ decision := atom (transaction (refresh_tx cfg (sha256_hex refresh_token) ctx)) in
  match decision with
  | Replayed _ => Done (Err (Unauthorized "Refresh token has already been used. Please sign in again."))
  | Rotated session user new_refresh =>
      let^ access_token := atom (generate_access_token cfg user (s_id session)) in
      Done (Ok (auth_response cfg access_token new_refresh (s_id session) user))
  end.

Ltac same_run := rewrite ?run_tbind; apply bind_ext; [by rewrite ?run_atom, ?run_check | intros ? ?].

Lemma register_thread_run uid ctx w : run (register_thread uid ctx) w = register_failed_login cfg uid ctx w.
Proof. unfold register_thread. do 2 same_run. destruct (is_some_and _ _); [apply run_atom | done]. Qed.

(** A thread run alone is its handler. *)
Lemma sign_in_thread_run req ctx w : run (sign_in_thread req ctx) w = sign_in_email cfg req ctx w.
Proof.
  unfold sign_in_thread. cbv zeta. same_run. unfold found_thread. destruct a as [row|]; [|by same_run].
  do 2 same_run. unfold unlocked_thread. same_run. destruct (cr_password row) as [hash|]; [|by same_run].
  unfold compare_thread. same_run. destruct (negb _); [|unfold right_thread; by repeat same_run].
  unfold wrong_thread. rewrite run_tbind. apply bind_ext; [apply register_thread_run | done].
Qed.

Lemma reset_thread_run req ctx w : run (reset_thread req ctx) w = reset_password cfg req ctx w.
Proof. unfold reset_thread. by repeat same_run. Qed.

Lemma verify_email_thread_run req ctx w : run (verify_email_thread req ctx) w = verify_email req ctx w.
Proof. unfold verify_email_thread. by repeat same_run. Qed.

Lemma refresh_thread_run tok ctx w : run (refresh_thread tok ctx) w = refresh_session cfg tok ctx w.
Proof. unfold refresh_thread. same_run. destruct a as [s|s u new]; [done | by same_run]. Qed.
End Handlers.

(** ** Counting over slots *)

Section Weights.
Context {A : Type} (weight : A -> nat).

Fixpoint total_weight (l : list A) : nat :=
  match l with [] => 0 | x :: l => weight x + total_weight l end.

Lemma total_weight_insert l i p q : l !! i = Some p →
  total_weight (<[i := q]> l) + weight p = total_weight l + weight q.
Proof.
  revert i. induction l as [|x l IH]; intros [|i] H; cbn in H; simplify_eq; cbn [total_weight insert list_insert]; [lia|].
  specialize (IH i H). change (weight x + total_weight (<[i := q]> l) + weight p = weight x + total_weight l + weight q). lia.
Qed.

Lemma total_weight_bound l c : (∀ x, weight x <= c) → total_weight l <= c * length l.
Proof. intros H. induction l as [|x l IH]; cbn; [lia|]. specialize (H x). lia. Qed.

Lemma total_weight_0 l : (∀ x, x ∈ l → weight x = 0) → total_weight l = 0.
Proof.
  induction l as [|x l IH]; intros H; [done|]. cbn. rewrite H by (by left).
  rewrite IH; [done|]. intros y Hy. apply H. by right.
Qed.
End Weights.

(** A thread that has succeeded. *)
Definition succeeded {A} (t : Thread A) : nat := match t with Done (Ok _) => 1 | _ => 0 end.

(** What each step keeps, a run keeps. *)
Lemma rtc_preserved {A} (R : A -> A -> Prop) (I : A -> Prop) x y :
  (∀ a b, R a b → I a → I b) → rtc R x y → I x → I y.
Proof. intros H Hr. induction Hr; eauto. Qed.

(** ** Guessing in parallel *)

Section Guessing.
Context {P : Platform} (cfg : AppConfig) (email hs : string) (uid : Uuid) (t0 : Timestamp).
Let period : Z := minutes (i64_as_i32 (lockout_minutes cfg)).
Let until : Timestamp := (t0 + period)%Z.

(** Where an attempt with a wrong password can be. *)
Inductive Phase :=
| Started
| Read (locked : option Timestamp)   (* has read the row *)
| Cleared                            (* found it unlocked, about to compare *)
| Compared                           (* compared, about to count the failure *)
| Counted                            (* about to look whether that locked the account *)
| Recording                          (* about to record the lockout *)
| Finished.

Inductive in_phase : Thread AuthResponse -> Phase -> Prop :=
| ph_started em pw ctx : to_ascii_lowercase (trim em) = email → argon2_verify hs pw = Some false →
    in_phase (sign_in_thread cfg {| si_email := em; si_password := pw |} ctx) Started
| ph_read user pw ctx locked : argon2_verify hs pw = Some false → u_id user = uid → u_banned user = false →
    in_phase (found_thread cfg pw ctx (Some {| cr_user := user; cr_password := Some hs; cr_locked_until := locked |}))
      (Read locked)
| ph_cleared user pw ctx : argon2_verify hs pw = Some false → u_id user = uid →
    in_phase (compare_thread cfg user pw hs ctx) Cleared
| ph_compared ctx : in_phase (wrong_thread cfg uid ctx) Compared
| ph_counted locked ctx : in_phase (do^ (let^ t := atom now in
      if is_some_and (fun u => (t <? u)%Z) locked
      then atom (record_best_effort (Some uid) "user.locked_out" "user" (Some (uuid_show uid)) ctx None)
      else Done (Ok tt)) in Done (Err invalid_credentials)) Counted
| ph_recording ctx : in_phase (do^ atom (record_best_effort (Some uid) "user.locked_out" "user"
      (Some (uuid_show uid)) ctx None) in Done (Err invalid_credentials)) Recording
| ph_finished r : in_phase (Done r) Finished.

(** Locked for the rest of the period. *)
Definition closed (locked : option Timestamp) : bool := is_some_and (fun u => (until <=? u)%Z) locked.

(** Attempts that will be compared with the stored hash, or may be. *)
Definition committed (p : Phase) : nat :=
  match p with Read locked => if closed locked then 0 else 1 | Cleared => 1 | _ => 0 end.
(** Attempts compared whose failure is not counted yet. *)
Definition uncounted (p : Phase) : nat := match p with Compared => 1 | _ => 0 end.

(** [c0] failures and [a0] comparisons at the start. *)
Record guessing (c0 : Z) (a0 : nat) (w : World) (ts : list (Thread AuthResponse)) (r : UserRow) (ps : list Phase)
  : Prop := {
  gu_account : has_account email hs w r;
  gu_uid : ur_id r = uid;
  gu_now : (t0 <= w_now w < until)%Z;
  gu_phases : Forall2 in_phase ts ps;
  gu_counted : (Z.of_nat (w_argon2 w) - Z.of_nat a0
                = ur_failed_login_attempts r - c0 + Z.of_nat (total_weight uncounted ps))%Z;
  gu_grows : (c0 <= ur_failed_login_attempts r)%Z;
  gu_locks : (c0 < ur_failed_login_attempts r)%Z → (lockout_threshold cfg <= ur_failed_login_attempts r)%Z →
    closed (ur_locked_until r) = true;
  gu_bound : (ur_failed_login_attempts r - c0 + Z.of_nat (total_weight uncounted ps + total_weight committed ps)
              <= Z.max 1 (lockout_threshold cfg - c0) - 1 + Z.of_nat (length ts))%Z }.

(** Everything else that may happen meanwhile: it leaves the account's own row and
    password as they are (other users and accounts may come, change and go), compares no
    password, and stays within the period. *)
Definition elsewhere (w w' : World) : Prop :=
  (∀ r, has_account email hs w r → has_account email hs w' r) ∧
  w_argon2 w' = w_argon2 w ∧ w_faults w' = w_faults w ∧ (t0 <= w_now w' < until)%Z.

Lemma has_account_elsewhere w w' r :
  users (w_db w') = users (w_db w) → accounts (w_db w') = accounts (w_db w) → w_faults w' = w_faults w →
  has_account email hs w r → has_account email hs w' r.
Proof. intros Hu Ha Hf. unfold has_account. by rewrite Hu, Ha, Hf. Qed.

Lemma room ts (ps : list Phase) i p : Forall2 in_phase ts ps → ps !! i = Some p → committed p = 0 → uncounted p = 0 →
  total_weight uncounted ps + total_weight committed ps + 1 <= length ts.
Proof.
  intros Hf Hi Hc Hu. rewrite (Forall2_length _ _ _ Hf). clear Hf. revert i Hi.
  assert (Hle : ∀ x, committed x + uncounted x <= 1) by (intros [|l| | | | |]; cbn; try destruct (closed l); lia).
  assert (Hsum : ∀ l : list Phase, total_weight uncounted l + total_weight committed l <= length l).
  { intros l. induction l as [|x l IH]; cbn; [lia|]. specialize (Hle x). lia. }
  induction ps as [|x ps IH]; intros [|i] Hi; cbn in Hi; simplify_eq.
  - specialize (Hsum ps). cbn. lia.
  - specialize (IH i Hi). specialize (Hle x). cbn. lia.
Qed.

(** What an action of one attempt may do: move to a phase no heavier, or be let
    in by a row that was not locked. *)
Lemma guessing_move c0 a0 w ts r ps i p q t' w' r' :
  guessing c0 a0 w ts r ps → ps !! i = Some p → in_phase t' q →
  has_account email hs w' r' → ur_id r' = uid → w_now w' = w_now w →
  (Z.of_nat (w_argon2 w') - Z.of_nat (w_argon2 w)
   = ur_failed_login_attempts r' - ur_failed_login_attempts r + Z.of_nat (uncounted q) - Z.of_nat (uncounted p))%Z →
  (ur_failed_login_attempts r <= ur_failed_login_attempts r')%Z →
  ((c0 < ur_failed_login_attempts r')%Z → (lockout_threshold cfg <= ur_failed_login_attempts r')%Z →
     closed (ur_locked_until r') = true) →
  (ur_failed_login_attempts r' - ur_failed_login_attempts r + Z.of_nat (uncounted q + committed q)
     <= Z.of_nat (uncounted p + committed p))%Z ∨
  (r' = r ∧ committed p = 0 ∧ uncounted p = 0 ∧ uncounted q = 0 ∧ closed (ur_locked_until r) = false) →
  guessing c0 a0 w' (<[i := t']> ts) r' (<[i := q]> ps).
Proof.
  intros [G1 G2 G3 G4 G5 G6 G7 G8] Hi Hq Hacc Hid Hnow Ha Hle Hlock Hw.
  pose proof (total_weight_insert uncounted ps i p q Hi) as Wu.
  pose proof (total_weight_insert committed ps i p q Hi) as Wc.
  split; try done; [by rewrite Hnow | by apply Forall2_insert | lia | lia |].
  rewrite length_insert. destruct Hw as [Hw | (-> & Hc & Hu & Hq' & Hopen)]; [lia|].
  pose proof (room ts ps i p G4 Hi Hc Hu) as Hroom.
  assert (Hq1 : committed q <= 1) by (clear; destruct q as [|l| | | | |]; cbn; try destruct (closed l); lia).
  destruct (Z.ltb_spec c0 (ur_failed_login_attempts r)) as [Hgt|]; [|lia].
  destruct (Z.leb_spec (lockout_threshold cfg) (ur_failed_login_attempts r)); [|lia].
  by rewrite G7 in Hopen by lia.
Qed.

Lemma in_phase_done rv p : in_phase (Done rv) p → p = Finished.
Proof.
  intros H. remember (Done rv) as t eqn:Ht.
  destruct H as [| user pw ctx locked _ _ Hb | | | | |]; [discriminate Ht | | discriminate Ht.. | done].
  unfold found_thread in Ht. cbn [cr_user] in Ht. rewrite Hb in Ht. discriminate Ht.
Qed.

Lemma guessing_admit c0 a0 w ts r ps i rv t' :
  guessing c0 a0 w ts r ps → ts !! i = Some (Done rv) → in_phase t' Started →
  ∃ ps', guessing c0 a0 w (<[i := t']> ts) r ps'.
Proof.
  intros G Hi Ht. destruct (Forall2_lookup_l _ _ _ _ _ (gu_phases _ _ _ _ _ _ G) Hi) as (p & Hp & Hph).
  apply in_phase_done in Hph as ->.
  exists (<[i := Started]> ps). eapply guessing_move; try done; [apply (gu_account _ _ _ _ _ _ G) |
    apply (gu_uid _ _ _ _ _ _ G) | cbn; lia | apply (gu_locks _ _ _ _ _ _ G) | left; cbn; lia].
Qed.

Lemma guessing_elsewhere c0 a0 w w' ts r ps :
  guessing c0 a0 w ts r ps → elsewhere w w' → guessing c0 a0 w' ts r ps.
Proof.
  intros [] (Ha & Hg & Hf & Hn). split; try done; [by apply Ha | by rewrite Hg].
Qed.

(** One action of one attempt. *)
Lemma guessing_advance c0 a0 w ts r ps i t :
  (0 < period)%Z → (c0 + Z.max 1 (lockout_threshold cfg - c0) + Z.of_nat (length ts) < 2 ^ 31)%Z →
  guessing c0 a0 w ts r ps → ts !! i = Some t →
  ∃ r' ps', guessing c0 a0 (snd (advance t w)) (<[i := fst (advance t w)]> ts) r' ps'.
Proof.
  intros Hperiod Hwidth G Hi. pose proof G as [G1 G2 G3 G4 G5 G6 G7 G8].
  destruct (Forall2_lookup_l _ _ _ _ _ G4 Hi) as (p & Hp & Hph).
  pose proof G1 as (Hfaults & _ & _ & _ & Hbanned).
  destruct Hph as [em pw ctx He Hv | user pw ctx locked Hv Hu Hb | user pw ctx Hv Hu | ctx | locked ctx | ctx | rv].
  - cbn [advance sign_in_thread tbind atom si_email si_password]. rewrite sql_read_healthy by done.
    rewrite He, (q_credentials_account _ hs _ r) by done. cbn [fst snd tbind].
    exists r, (<[i := Read (ur_locked_until r)]> ps).
    eapply guessing_move; try done; [by constructor | cbn; lia |].
    destruct (closed (ur_locked_until r)) eqn:Ec; [left | right]; cbn; rewrite ?Ec; [lia | by split_and!].
  - unfold found_thread. cbn [cr_user]. rewrite Hb. cbn [negb check tbind atom advance now fst snd].
    unfold unlocked_thread. cbn [cr_locked_until cr_password cr_user].
    destruct (is_some_and (fun u => (w_now w <? u)%Z) locked) eqn:El; cbn [negb check tbind].
    + exists r, (<[i := Finished]> ps).
      eapply guessing_move; try done; [constructor | cbn; lia | left; cbn; destruct (closed locked); lia].
    + assert (Hopen : closed locked = false).
      { unfold closed. destruct locked as [u|]; [|done]. cbn in *. apply Z.ltb_ge in El. apply Z.leb_gt. lia. }
      exists r, (<[i := Cleared]> ps).
      eapply guessing_move; try done; [by constructor | cbn; lia | left; cbn; rewrite Hopen; cbn; lia].
  - unfold compare_thread. cbn [advance tbind atom]. unfold verify_password, argon2_check, bind. rewrite Hv.
    cbn [ok_or ret fst snd tbind negb]. rewrite Hu. exists r, (<[i := Compared]> ps).
    eapply guessing_move; try done; [by constructor | cbn; lia | left; cbn; lia].
  - unfold wrong_thread, register_thread. cbn [advance tbind atom]. rewrite <- G2.
    assert (Hc : (ur_failed_login_attempts r < 2 ^ 31 - 1)%Z) by lia.
    destruct (count_failure_healthy cfg email hs w r G1 Hc) as (d & -> & Hacc). cbn [fst snd tbind]. rewrite G2.
    eexists _, (<[i := Counted]> ps). eapply guessing_move; try done; [by constructor | cbn; lia | cbn; lia | | left; cbn; lia].
    cbn [bump_failures set_lockout ur_failed_login_attempts ur_locked_until]. intros _ Hthr.
    apply Z.leb_le in Hthr. rewrite Hthr. unfold closed. cbn. apply Z.leb_le. unfold until, period. lia.
  - cbn [advance tbind atom now fst snd]. destruct (is_some_and _ locked).
    + exists r, (<[i := Recording]> ps). eapply guessing_move; try done; [constructor | cbn; lia | left; cbn; lia].
    + exists r, (<[i := Finished]> ps). eapply guessing_move; try done; [constructor | cbn; lia | left; cbn; lia].
  - cbn [advance tbind atom].
    destruct (record_best_effort_total (P:=P) (Some uid) "user.locked_out" "user" (Some (uuid_show uid)) ctx None w)
      as (w' & -> & Haud). cbn [fst snd tbind]. exists r, (<[i := Finished]> ps).
    eapply guessing_move; try done; [constructor | | by rewrite (au_now _ _ Haud) |
      rewrite (au_argon2 _ _ Haud); cbn; lia | left; cbn; lia].
    eapply (has_account_elsewhere w); [by audited_tables Haud | by audited_tables Haud | | done].
    by rewrite (au_faults _ _ Haud).
  - exists r, ps. cbn. by rewrite list_insert_id.
Qed.
End Guessing.

(** A run that follows a schedule: let a request into a slot that is free, or let
    the one there take an action. *)
Definition play {A} (cmd : nat * option (Thread A)) (s : System A) : System A :=
  match snd cmd, snd s !! fst cmd with
  | None, Some t => (snd (advance t (fst s)), <[fst cmd := fst (advance t (fst s))]> (snd s))
  | Some t, Some (Done _) => (fst s, <[fst cmd := t]> (snd s))
  | _, _ => s
  end.
Definition follow {A} (schedule : list (nat * option (Thread A))) (s : System A) : System A :=
  fold_left (fun s cmd => play cmd s) schedule s.

Lemma follow_steps {A} (enters : Thread A -> Prop) env schedule (s : System A) :
  Forall (fun cmd => ∀ t, snd cmd = Some t → enters t) schedule →
  rtc (sys_step enters env) s (follow schedule s).
Proof.
  intros H. revert s. induction H as [|[i c] rest Hc _ IH]; intros [w ts]; [apply rtc_refl|].
  cbn [follow fold_left]. etransitivity; [|apply IH]. unfold play. cbn [fst snd].
  destruct c as [t'|], (ts !! i) as [t|] eqn:E; try apply rtc_refl.
  - destruct t as [r|]; [|apply rtc_refl]. apply rtc_once. eapply step_admit; [done | by apply Hc].
  - apply rtc_once. by apply step_act.
Qed.

(** Slots that are free. *)
Definition idle {A} (ts : list (Thread A)) : Prop := ∀ t, t ∈ ts → ∃ r, t = Done r.

(** The sign-in attempts with a wrong password for an account. *)
Definition guess {P : Platform} (cfg : AppConfig) (email hs : string) (t : Thread AuthResponse) : Prop :=
  ∃ em pw ctx, to_ascii_lowercase (trim em) = email ∧ argon2_verify hs pw = Some false ∧
    t = sign_in_thread cfg {| si_email := em; si_password := pw |} ctx.

(** ** Properties *)

(** C10: guessing is bounded, in parallel too. However many wrong passwords are tried
    on an account within one lockout period, on however many requests that
    overlap in any way, with at most [K] in flight at once, over a healthy database
    and with anything happening in between that leaves this account's row and password
    alone, at most [max 1 (threshold - counted) + K - 1] of them are ever compared with the
    stored password, [counted] being the failures counted when the period begins.
    The 1 is the comparison a period starts with that follows a lock: the counter
    is not reset, so the next failure locks again. *)
Theorem lockout_concurrent {P : Platform} (cfg : AppConfig) (email hs : string) (t0 : Timestamp)
    (w w' : World) (ts ts' : list (Thread AuthResponse)) (r : UserRow) :
  has_account email hs w r → (0 < i64_as_i32 (lockout_minutes cfg))%Z →
  (t0 <= w_now w < t0 + minutes (i64_as_i32 (lockout_minutes cfg)))%Z → idle ts →
  let K := Z.of_nat (length ts) in
  let allowed := Z.max 1 (lockout_threshold cfg - ur_failed_login_attempts r) in
  (ur_failed_login_attempts r + allowed + K < 2 ^ 31)%Z →
  rtc (sys_step (guess cfg email hs) (elsewhere cfg email hs t0)) (w, ts) (w', ts') →
  (Z.of_nat (w_argon2 w') - Z.of_nat (w_argon2 w) <= allowed + K - 1)%Z.
Proof.
  intros Hacc Hm Hnow Hidle K allowed Hwidth Hrun.
  assert (Hstart : guessing cfg email hs (ur_id r) t0 (ur_failed_login_attempts r) (w_argon2 w) w ts r
    (replicate (length ts) Finished)).
  { assert (H0 : ∀ f : Phase → nat, f Finished = 0 → total_weight f (replicate (length ts) Finished) = 0).
    { intros f Hf. apply total_weight_0. intros x Hx. by apply elem_of_replicate in Hx as [-> _]. }
    split; try done; rewrite ?H0 by done; try lia.
    apply Forall2_same_length_lookup_2; [by rewrite length_replicate|]. intros i t p Ht Hp.
    apply lookup_replicate in Hp as [-> _]. destruct (Hidle t) as [rv ->]; [by eapply list_elem_of_lookup_2|].
    constructor. }
  pose (inv := fun s : System AuthResponse => ∃ r' ps, length (snd s) = length ts ∧
    guessing cfg email hs (ur_id r) t0 (ur_failed_login_attempts r) (w_argon2 w) (fst s) (snd s) r' ps).
  enough (Hinv : inv (w', ts')).
  { destruct Hinv as (r' & ps & Hlen & [_ _ _ _ G5 _ _ G8]). cbn in *. rewrite Hlen in G8. subst K allowed. lia. }
  refine (rtc_preserved _ inv _ _ _ Hrun _); [clear Hrun | by exists r, (replicate (length ts) Finished)].
  intros s1 s2 Hs (r' & ps & Hlen & G).
  destruct Hs as [i t w1 ts1 Hi | i rv t w1 ts1 Hi Ht | w1 w2 ts1 He]; cbn [fst snd] in *.
  - destruct (guessing_advance cfg email hs (ur_id r) t0 (ur_failed_login_attempts r) (w_argon2 w) w1 ts1 r' ps i t)
      as (r2 & ps2 & G2); [unfold minutes, seconds; lia | by rewrite Hlen | done | done |].
    exists r2, ps2. split; cbn [fst snd]; by rewrite ?length_insert.
  - destruct Ht as (em & pw & ctx & He & Hv & ->).
    destruct (guessing_admit cfg email hs (ur_id r) t0 (ur_failed_login_attempts r) (w_argon2 w) w1 ts1 r' ps i rv
      (sign_in_thread cfg {| si_email := em; si_password := pw |} ctx)) as (ps2 & G2); [done | done | by constructor |].
    exists r', ps2. split; cbn [fst snd]; by rewrite ?length_insert.
  - exists r', ps. split; [done|]. by eapply guessing_elsewhere.
Qed.

(** Two guesses one after the other, then four that overlap: all six are compared,
    where the threshold is three. The bound is reached. *)
Module GuessExample.
Definition attempt (pw : string) : Thread AuthResponse :=
  @sign_in_thread toy Example.cfg {| si_email := " ADA@example.com"; si_password := pw |} Example.ctx.
Definition slots : list (Thread AuthResponse) := replicate 4 (Done Panic).
Definition alone (pw : string) : list (nat * option (Thread AuthResponse)) :=
  (0, Some (attempt pw)) :: replicate 6 (0, None).
Definition together (pws : list string) : list (nat * option (Thread AuthResponse)) :=
  imap (fun i pw => (i, Some (attempt pw))) pws ++ concat (replicate 6 (imap (fun i _ => (i, None)) pws)).
Definition schedule : list (nat * option (Thread AuthResponse)) :=
  alone "a" ++ alone "b" ++ together ["c"; "d"; "e"; "f"].
Definition finish : System AuthResponse := follow schedule (Example.w, slots).
Definition outcomes : list (option (outcome AuthResponse AppError)) :=
  map (fun t => match t with Done r => Some r | _ => None end) (snd finish).
End GuessExample.

Example guesses_in_parallel :
  w_argon2 (fst GuessExample.finish) = 6 ∧
  GuessExample.outcomes = replicate 4 (Some (Err invalid_credentials)).
Proof. vm_compute. by split. Qed.

Lemma lockout_concurrent_witness : (Z.of_nat (w_argon2 (fst GuessExample.finish)) - 0 <= 3 + 4 - 1)%Z.
Proof.
  apply (@lockout_concurrent toy Example.cfg "ada@example.com" "h:right" 1000000
    Example.w (fst GuessExample.finish) GuessExample.slots (snd GuessExample.finish) Example.user_row).
  - split; [done|]. split; [apply (wf_users_pk _ example_wf)|]. split; [reflexivity|].
    split; [|done]. exists Example.account. by split.
  - vm_compute. reflexivity.
  - vm_compute. split; [discriminate | reflexivity].
  - intros t H. apply elem_of_replicate in H as [-> _]. by exists Panic.
  - vm_compute. reflexivity.
  - rewrite <- surjective_pairing. apply follow_steps.
    repeat (apply Forall_cons_2; [intros t [= <-]; try by refine (ex_intro _ _ (ex_intro _ _ (ex_intro _ _ (conj _ (conj _ eq_refl)))))|]).
    apply Forall_nil_2.
Defined.
