(* ===== verification/Orgs.v ===== *)
(** * Apps, organizations and memberships ([services/org.rs])

    The service, then its authorization properties: who may create an
    organization, who may add a member and with which role, and what a
    non-member can learn. *)
From S2P Require Import Prelude RustStr Models Errors Platform World Pagination.
From S2P Require Import AuditTrail Auth Schema.

(** ** Statements *)

Definition app_exists (d : Db) (aid : Uuid) : bool := exists_row (fun a => app_id a =? aid)%N (apps d).
Definition org_exists (d : Db) (oid : Uuid) : bool :=
  exists_row (fun o => org_id o =? oid)%N (organizations d).
Definition fk_org_opt (d : Db) (oid : option Uuid) : bool :=
  match oid with Some o => org_exists d o | None => true end.

Definition sql_insert_app (a : App) : Sql App := fun _ d =>
  if app_exists d (app_id a) then inr (UniqueViolation "apps_pkey")
  else if exists_row (fun r => app_slug r =s app_slug a) (apps d) then
    inr (UniqueViolation "apps_slug_key")
  else if negb (varchar 255 (app_name a) && varchar 100 (app_slug a))%bool then inr too_long
  else if negb (user_exists d (app_owner_id a)) then inr fk_violation
  else inl (a, set_apps (insert_row a (apps d)) d).

Definition sql_insert_org (o : Organization) : Sql Organization := fun _ d =>
  if org_exists d (org_id o) then inr (UniqueViolation "organizations_pkey")
  else if exists_row (fun r => (org_app_id r =? org_app_id o)%N && (org_slug r =s org_slug o))%bool
            (organizations d) then inr (UniqueViolation "uq_organizations_app_slug")
  else if negb (varchar 255 (org_name o) && varchar 100 (org_slug o)
                && varchar_opt 512 (org_logo_url o))%bool then inr too_long
  else if negb (app_exists d (org_app_id o)) then inr fk_violation
  else inl (o, set_organizations (insert_row o (organizations d)) d).

Definition sql_insert_member (m : OrgMember) : Sql OrgMember := fun _ d =>
  if exists_row (fun r => om_id r =? om_id m)%N (org_members d) then
    inr (UniqueViolation "org_members_pkey")
  else if exists_row (fun r => (om_org_id r =? om_org_id m)%N && (om_user_id r =? om_user_id m)%N)%bool
            (org_members d) then inr (UniqueViolation "uq_org_members_org_user")
  else if negb (varchar 50 (om_role m)) then inr too_long
  else if negb (org_exists d (om_org_id m) && user_exists d (om_user_id m))%bool then inr fk_violation
  else inl (m, set_org_members (insert_row m (org_members d)) d).

Definition q_app (aid : Uuid) (d : Db) : option App :=
  fetch_optional (fun a => app_id a =? aid)%N (apps d).
Definition q_role (oid uid : Uuid) (d : Db) : option string :=
  om_role <$> fetch_optional (fun m => (om_org_id m =? oid)%N && (om_user_id m =? uid)%N)%bool
                (org_members d).

(** [role_str.as_deref()] matched against the three role names *)
Definition role_of_str (s : option string) : option OrgRole :=
  match s with
  | Some s => if s =s "owner" then Some Owner
              else if s =s "admin" then Some Admin
              else if s =s "member" then Some Member
              else None
  | None => None
  end.

(** ** The service *)

Section Orgs.
Context {P : Platform}.

Definition quoted (prefix : string) (id : Uuid) : string :=
  prefix +:+ " '" +:+ uuid_show id +:+ "' not found".

Definition create_app (owner_id : Uuid) (req : CreateAppRequest) (ctx : RequestContext) : M App :=
  let! id := new_uuid in
  let! t := now in
  let! app := exec (conflict_or_db "An application with this slug already exists")
    (sql_insert_app {| app_id := id; app_owner_id := owner_id; app_name := ca_name req;
                       app_slug := ca_slug req; app_description := ca_description req;
                       app_created_at := t; app_updated_at := t |}) in
  do! record_best_effort (Some owner_id) "app.create" "apps" (Some (uuid_show (app_id app))) ctx
        (Some (JObj [("name", JStr (app_name app)); ("slug", JStr (app_slug app))])) in
  ret app.

Definition list_user_apps (user_id : Uuid) (params : PageParams) : M (list App * Z) :=
  list_page app_created_at params (fun d => select (fun a => app_owner_id a =? user_id)%N (apps d)).

(** The ownership check that [create_org] and [list_app_orgs] share: a foreign
    application is reported exactly as a missing one. *)
Definition owned_app (aid user_id : Uuid) : M App :=
  let! app := sql (sql_read (fun _ d => q_app aid d)) in
  let! app := ok_or (NotFound (quoted "Application" aid)) app in
  do! guard (app_owner_id app =? user_id)%N (NotFound (quoted "Application" aid)) in
  ret app.

Definition create_org_tx (oid mid aid user_id : Uuid) (req : CreateOrgRequest) (t : Timestamp)
  : M Organization :=
  let! org := exec (conflict_or_db "An organization with this slug already exists in this app")
    (sql_insert_org {| org_id := oid; org_app_id := aid; org_name := co_name req;
                       org_slug := co_slug req; org_logo_url := co_logo_url req;
                       org_created_at := t; org_updated_at := t |}) in
  do! sql (sql_insert_member {| om_id := mid; om_org_id := oid; om_user_id := user_id;
             om_role := "owner"; om_created_at := t; om_updated_at := t |}) in
  ret org.

Definition create_org (aid user_id : Uuid) (req : CreateOrgRequest) (ctx : RequestContext)
  : M Organization :=
  do! owned_app aid user_id in
  let! oid := new_uuid in
  let! mid := new_uuid in
  let! t := now in
  let! org := transaction (create_org_tx oid mid aid user_id req t) in
  do! record_best_effort (Some user_id) "org.create" "organizations"
        (Some (uuid_show (org_id org))) ctx
        (Some (JObj [("app_id", JStr (uuid_show aid)); ("name", JStr (org_name org));
                     ("slug", JStr (org_slug org))])) in
  ret org.

Definition list_app_orgs (aid user_id : Uuid) (params : PageParams) : M (list Organization * Z) :=
  do! owned_app aid user_id in
  list_page org_created_at params
    (fun d => select (fun o => org_app_id o =? aid)%N (organizations d)).

Definition get_user_org_role (oid user_id : Uuid) : M (option OrgRole) :=
  let! role_str := sql (sql_read (fun _ d => q_role oid user_id d)) in
  ret (role_of_str role_str).

Definition add_member (oid caller_id : Uuid) (req : AddOrgMemberRequest) (ctx : RequestContext)
  : M OrgMember :=
  let! caller_role := get_user_org_role oid caller_id in
  let! caller_role := ok_or (NotFound (quoted "Organization" oid)) caller_role in
  do! guard (negb (OrgRole_ltb caller_role Admin))
        (Forbidden "Only organization admins or owners can add members") in
  do! guard (negb (bool_decide (am_role req = Owner) && OrgRole_ltb caller_role Owner))
        (Forbidden "Only an owner can grant the owner role") in
  let! member_id := new_uuid in
  let role_str := OrgRole_show (am_role req) in
  let! t := now in
  let! member := exec (conflict_or_db "User is already a member of this organization")
    (sql_insert_member {| om_id := member_id; om_org_id := oid; om_user_id := am_user_id req;
                          om_role := role_str; om_created_at := t; om_updated_at := t |}) in
  do! record_best_effort (Some caller_id) "org.member_add" "org_members"
        (Some (uuid_show (om_id member))) ctx
        (Some (JObj [("org_id", JStr (uuid_show oid)); ("user_id", JStr (uuid_show (am_user_id req)));
                     ("role", JStr role_str)])) in
  ret member.

Definition require_org_role (oid user_id : Uuid) (minimum : OrgRole) : M OrgRole :=
  let! role := get_user_org_role oid user_id in
  let! role := ok_or (NotFound "Organization not found") role in
  do! guard (negb (OrgRole_ltb role minimum))
        (Forbidden ("This action requires the '" +:+ OrgRole_show minimum
                    +:+ "' role or higher in this organization")) in
  ret role.

Definition require_membership (oid user_id : Uuid) : M OrgRole := require_org_role oid user_id Member.
End Orgs.

(** ** Lemmas *)

(** The role a user holds in an organization. *)
Definition role_in (d : Db) (oid uid : Uuid) : option OrgRole := role_of_str (q_role oid uid d).

Lemma role_of_str_show r : role_of_str (Some (OrgRole_show r)) = Some r.
Proof. by destruct r. Qed.

Lemma get_user_org_role_Ok oid uid w r w' :
  get_user_org_role oid uid w = (Ok r, w') →
  r = role_in (w_db w) oid uid ∧ w_db w' = w_db w ∧ w_now w' = w_now w.
Proof. intros H. unfold get_user_org_role in H. ok_step H. by injection H as <- <-. Qed.

Lemma sql_insert_member_Ok m t d x d' :
  sql_insert_member m t d = inl (x, d') →
  x = m ∧ d' = set_org_members (insert_row m (org_members d)) d ∧
  q_role (om_org_id m) (om_user_id m) d = None.
Proof.
  unfold sql_insert_member. destruct (exists_row _ _); [done|].
  destruct (exists_row _ (org_members d)) eqn:E; [done|]. repeat case_match; try done.
  intros [= <- <-]. split; [done|]. split; [done|]. unfold q_role.
  by rewrite (proj2 (fetch_optional_None _ _) (proj1 (exists_row_false _ _) E)).
Qed.

(** ** Properties *)

(** C22: adding a member never raises anyone above the one who adds. Whatever the
    database does, when [add_member] succeeds the caller already held, in that
    organization, at least the admin role and at least the role granted; the
    user added was not a member before; and apart from the audit trail the only
    change is that one membership row. *)
Theorem add_member_no_escalation {P : Platform} (oid caller : Uuid) (req : AddOrgMemberRequest)
    (ctx : RequestContext) (w w' : World) (m : OrgMember) :
  add_member oid caller req ctx w = (Ok m, w') →
  ∃ role, role_in (w_db w) oid caller = Some role ∧
    (OrgRole_val Admin <= OrgRole_val role)%Z ∧ (OrgRole_val (am_role req) <= OrgRole_val role)%Z ∧
    q_role oid (am_user_id req) (w_db w) = None ∧
    role_in (w_db w') oid (am_user_id req) = Some (am_role req) ∧
    audit_only (set_org_members (insert_row m (org_members (w_db w))) (w_db w)) (w_db w').
Proof.
  intros H. unfold add_member in H. ok_step H.
  apply get_user_org_role_Ok in Hs as (-> & Hd & Hn). ok_step H. ok_step H. ok_step H. ok_step H.
  ok_step H. ok_step H. apply exec_Ok_inv in Hs as (Hins & _). wsimpl. rewrite Hd in Hins.
  apply sql_insert_member_Ok in Hins as (-> & Hdb & Hnone). cbn [om_org_id om_user_id] in Hnone.
  audit_step H.
  injection H as <- <-. rename a into role. exists role. split; [done|].
  assert (Hle : ∀ x y, OrgRole_ltb x y = false → (OrgRole_val y <= OrgRole_val x)%Z)
    by (intros x y Hx; unfold OrgRole_ltb in Hx; by bool_facts).
  bool_facts. split; [by apply Hle|]. split.
  { destruct (bool_decide_reflect (am_role req = Owner)) as [->|Hno]; cbn [andb negb] in *; [by apply Hle|].
    destruct (am_role req); [|by apply Hle | done]. destruct role; cbn; lia. }
  split; [done|]. split; [|by rewrite <- Hdb; apply au_db].
  audited_tables Haud. rewrite Hdb. unfold role_in, q_role.
  cbn [set_audit_logs set_org_members org_members]. rewrite fetch_optional_insert_new.
  - apply role_of_str_show.
  - apply fmap_None in Hnone. by apply fetch_optional_None.
  - cbn. by rewrite !N.eqb_refl.
Qed.

Module OrgExample.
Definition app : App := {| app_id := 7%N; app_owner_id := 1%N; app_name := "A"; app_slug := "a";
  app_description := None; app_created_at := 0%Z; app_updated_at := 0%Z |}.
Definition org : Organization := {| org_id := 8%N; org_app_id := 7%N; org_name := "O";
  org_slug := "o"; org_logo_url := None; org_created_at := 0%Z; org_updated_at := 0%Z |}.
Definition member (i uid : Uuid) (role : string) : OrgMember := {| om_id := i; om_org_id := 8%N;
  om_user_id := uid; om_role := role; om_created_at := 0%Z; om_updated_at := 0%Z |}.
Definition user (uid : Uuid) (email : string) : UserRow := {|
  ur_user := {| u_id := uid; u_name := "U"; u_email := email; u_email_verified := true;
                u_image := None; u_role := "user"; u_banned := false; u_created_at := 0%Z;
                u_updated_at := 0%Z |};
  ur_failed_login_attempts := 0; ur_locked_until := None; ur_deleted_at := None |}.
Definition db : Db :=
  set_org_members [member 9%N 1%N "owner"; member 10%N 2%N "admin"]
    (set_organizations [org] (set_apps [app]
      (set_users [user 1%N "a@x"; user 2%N "b@x"; user 3%N "c@x"] empty_db))).
Definition w : World := world_of db 1000000.
Definition ctx : RequestContext := {| ctx_ip_address := None; ctx_user_agent := None |}.
Definition req (r : OrgRole) : AddOrgMemberRequest := {| am_user_id := 3%N; am_role := r |}.
End OrgExample.

Lemma add_member_no_escalation_witness :
  ∃ role, role_in OrgExample.db 8%N 2%N = Some role ∧
    (OrgRole_val Admin <= OrgRole_val role)%Z.
Proof.
  destruct (@add_member_no_escalation toy 8%N 2%N (OrgExample.req Admin) OrgExample.ctx OrgExample.w
    (snd (@add_member toy 8%N 2%N (OrgExample.req Admin) OrgExample.ctx OrgExample.w))
    {| om_id := 1000%N; om_org_id := 8%N; om_user_id := 3%N; om_role := "admin";
       om_created_at := 1000000%Z; om_updated_at := 1000000%Z |}) as (role & H1 & H2 & _).
  - vm_compute. reflexivity.
  - by exists role.
Defined.

(** An organization is created only in an application the caller owns, and never
    without its owner: success means both the organization and the caller's
    owner membership are stored, failure that neither is. *)
Theorem create_org_owned {P : Platform} (aid uid : Uuid) (req : CreateOrgRequest) (ctx : RequestContext)
    (w w' : World) (r : outcome Organization AppError) :
  create_org aid uid req ctx w = (r, w') →
  match r with
  | Ok o => (∃ a, q_app aid (w_db w) = Some a ∧ app_owner_id a = uid) ∧
      org_app_id o = aid ∧ o ∈ organizations (w_db w') ∧
      role_in (w_db w') (org_id o) uid = Some Owner ∧
      ∀ o', o' ∈ organizations (w_db w) → org_id o' ≠ org_id o
  | _ => w_db w' = w_db w
  end.
Proof.
  assert (Ha : atomic (create_org aid uid req ctx)) by (unfold create_org, owned_app; atomic_tac).
  intros H. destruct r as [o|e|]; [|by eapply Ha..]. clear Ha.
  - unfold create_org in H. ok_step H. unfold owned_app in Hs. ok_step Hs. ok_step Hs. ok_step Hs.
    injection Hs as <- <-. ok_step H. ok_step H. ok_step H. ok_step H.
    apply transaction_Ok_inv in Hs as (wa & wb & Hda & _ & _ & Htx & Hdb & _). wsimpl.
    unfold create_org_tx in Htx. ok_step Htx. apply exec_Ok_inv in Hs as (Hio & _). ok_step Htx.
    apply sql_Ok_inv in Hs as (Him & _). injection Htx as <- <-.
    apply sql_insert_member_Ok in Him as (_ & Hd3 & Hnone). cbn [om_org_id om_user_id] in Hnone.
    unfold sql_insert_org in Hio. destruct (org_exists _ _) eqn:Eo; [done|].
    repeat (case_match; try done). injection Hio as <- Hd4. cbn [org_id org_app_id] in *.
    audit_step H.
    injection H as <- <-. split; [exists a0; rewrite <- Hd; split; [congruence | by bool_facts]|].
    cbn [org_id org_app_id]. split; [done|]. audited_tables Haud. rewrite Hdb, Hd3, <- Hd4.
    cbn [set_audit_logs set_org_members set_organizations organizations]. split.
    { apply elem_of_insert_row. by right. }
    split.
    { unfold role_in, q_role. cbn [set_audit_logs set_org_members org_members].
      rewrite fetch_optional_insert_new; [done | |by cbn; rewrite !N.eqb_refl].
      apply fmap_None in Hnone. rewrite <- Hd4 in Hnone. by apply fetch_optional_None. }
    intros o' Ho'. unfold org_exists in Eo. rewrite exists_row_false in Eo.
    apply N.eqb_neq, Eo. congruence.
Qed.

Definition Example_create : CreateOrgRequest :=
  {| co_name := "New"; co_slug := "new"; co_logo_url := None |}.

Lemma create_org_owned_witness :
  role_in (w_db (snd (@create_org toy 7%N 1%N Example_create OrgExample.ctx OrgExample.w))) 1000%N 1%N
  = Some Owner.
Proof.
  destruct (@create_org_owned toy 7%N 1%N Example_create OrgExample.ctx OrgExample.w
    (snd (@create_org toy 7%N 1%N Example_create OrgExample.ctx OrgExample.w))
    (Ok {| org_id := 1000%N; org_app_id := 7%N; org_name := "New"; org_slug := "new";
           org_logo_url := None; org_created_at := 1000000%Z; org_updated_at := 1000000%Z |}))
    as (_ & _ & _ & H & _).
  - vm_compute. reflexivity.
  - exact H.
Defined.

(** A role check answers by the stored role alone, and a caller who is not a
    member cannot tell an organization that exists from one that does not:
    both give the same answer. *)
Theorem require_org_role_exact (oid uid : Uuid) (minimum : OrgRole) (w : World) :
  w_faults w = [] →
  require_org_role oid uid minimum w =
    (match role_in (w_db w) oid uid with
     | None => Err (NotFound "Organization not found")
     | Some role =>
         if (OrgRole_val minimum <=? OrgRole_val role)%Z then Ok role
         else Err (Forbidden ("This action requires the '" +:+ OrgRole_show minimum
                              +:+ "' role or higher in this organization"))
     end, w).
Proof.
  intros Hf. unfold require_org_role, get_user_org_role, role_in. hrun.
  destruct (role_of_str _) as [role|]; [|done]. hrun. unfold OrgRole_ltb.
  rewrite Z.leb_antisym. by destruct (_ <? _)%Z.
Qed.

Lemma require_org_role_exact_witness :
  fst (require_org_role 8%N 3%N Member OrgExample.w)
  = fst (require_org_role 99%N 3%N Member OrgExample.w).
Proof.
  rewrite (require_org_role_exact 8%N 3%N Member OrgExample.w) by reflexivity.
  rewrite (require_org_role_exact 99%N 3%N Member OrgExample.w) by reflexivity.
  vm_compute. reflexivity.
Defined.
