(* ===== verification/ApiKeys.v ===== *)
(** * API keys ([services/api_key.rs])

    Creation, listing, deletion and resolution of machine credentials. The
    [last_used_at] update that [resolve_key] hands to a detached task runs here
    as its last step, its result ignored. *)
From S2P Require Import Prelude RustStr Models Errors Platform World Pagination Scopes Crypto.
From S2P Require Import AuditTrail Auth Schema Orgs.

(** ** Statements *)

Definition kr_id (r : ApiKeyRow) : Uuid := k_id (kr_record r).

Definition sql_insert_key (row : ApiKeyRow) : Sql ApiKeyRecord := fun _ d =>
  let k := kr_record row in
  if exists_row (fun r => kr_id r =? k_id k)%N (api_keys d) then inr (UniqueViolation "api_keys_pkey")
  else if exists_row (fun r => kr_key_hash r =s kr_key_hash row) (api_keys d) then
    inr (UniqueViolation "uq_api_keys_hash")
  else if negb (varchar 100 (k_name k) && varchar 32 (k_key_start k))%bool then inr too_long
  else if negb (user_exists d (k_user_id k) && fk_org_opt d (k_org_id k))%bool then inr fk_violation
  else inl (k, set_api_keys (insert_row row (api_keys d)) d).

Definition q_key (h : string) (d : Db) : option ApiKeyRecord :=
  kr_record <$> fetch_optional (fun r => kr_key_hash r =s h) (api_keys d).

Definition sql_delete_key (kid uid : Uuid) : Sql Z := fun _ d =>
  let p r := ((kr_id r =? kid)%N && (k_user_id (kr_record r) =? uid)%N)%bool in
  inl (Z.of_nat (rows_affected p (api_keys d)), set_api_keys (delete_where p (api_keys d)) d).

Definition touch_key (t : Timestamp) (r : ApiKeyRow) : ApiKeyRow :=
  let k := kr_record r in
  {| kr_record := {| k_id := k_id k; k_user_id := k_user_id k; k_org_id := k_org_id k;
                     k_name := k_name k; k_key_start := k_key_start k; k_scopes := k_scopes k;
                     k_expires_at := k_expires_at k; k_last_used_at := Some t;
                     k_created_at := k_created_at k; k_updated_at := k_updated_at k |};
     kr_key_hash := kr_key_hash r |}.

(** [WHERE id = $1 AND (last_used_at IS NULL OR last_used_at < now() - interval '1 minute')] *)
Definition sql_touch_key (kid : Uuid) : Sql unit := sql_write (fun t d =>
  set_api_keys (update_where
    (fun r => (kr_id r =? kid)%N
              && match k_last_used_at (kr_record r) with
                 | None => true
                 | Some last => (last <? t - minutes 1)%Z
                 end)%bool
    (touch_key t) (api_keys d)) d).

(** ** The service *)

Section ApiKeys.
Context {P : Platform}.

(** [Utc::now() + Duration::days(days)]: the addition panics out of range. *)
Definition key_expiry (t : Timestamp) (expires_in_days : option Z) : outcome (option Timestamp) AppError :=
  match expires_in_days with
  | None => Ok None
  | Some d => match chrono_add_days t d with
              | Some e => Ok (Some e)
              | None => Panic
              end
  end.

Definition create_key (user_id : Uuid) (req : CreateApiKeyRequest) (ctx : RequestContext)
  : M CreateApiKeyResponse :=
  let! key_id := new_uuid in
  let! random_part := random_token 48 in
  let plaintext_key := "ak_live_" +:+ random_part in
  let key_start := "ak_live_" +:+ str_take 6 random_part +:+ "..." in
  let key_hash := sha256_hex plaintext_key in
  let! scope_set := lift (parse_request (ck_scopes req)) in
  let scopes := to_strings scope_set in
  let! t := now in
  let! expires_at := lift (key_expiry t (ck_expires_in_days req)) in
  let! record := sql (sql_insert_key
        {| kr_record := {| k_id := key_id; k_user_id := user_id; k_org_id := ck_org_id req;
             k_name := ck_name req; k_key_start := key_start;
             k_scopes := Some (JArr (List.map JStr scopes)); k_expires_at := expires_at;
             k_last_used_at := None; k_created_at := t; k_updated_at := t |};
           kr_key_hash := key_hash |}) in
  do! record_best_effort (Some user_id) "api_key.create" "api_keys" (Some (uuid_show (k_id record)))
        ctx (Some (JObj [("name", JStr (k_name record)); ("key_start", JStr (k_key_start record));
               ("org_id", match ck_org_id req with Some o => JStr (uuid_show o) | None => JNull end)])) in
  ret {| ckr_id := k_id record; ckr_name := k_name record; ckr_key := plaintext_key;
         ckr_key_start := k_key_start record; ckr_scopes := scopes;
         ckr_expires_at := k_expires_at record; ckr_created_at := k_created_at record |}.

Definition list_keys (user_id : Uuid) (params : PageParams) : M (list ApiKeyRecord * Z) :=
  list_page k_created_at params
    (fun d => List.map kr_record (select (fun r => k_user_id (kr_record r) =? user_id)%N (api_keys d))).

Definition delete_key (key_id user_id : Uuid) (ctx : RequestContext) : M unit :=
  let! rows_affected := sql (sql_delete_key key_id user_id) in
  do! guard (negb (rows_affected =? 0)%Z) (NotFound (quoted "API Key" key_id)) in
  do! record_best_effort (Some user_id) "api_key.delete" "api_keys" (Some (uuid_show key_id)) ctx None in
  ret tt.

Definition resolve_key (raw_key : string) : M (User * ApiKeyRecord) :=
  let! key_record := sql (sql_read (fun _ d => q_key (sha256_hex raw_key) d)) in
  let! key_record := ok_or (Unauthorized "Invalid API key") key_record in
  let! t := now in
  do! guard (negb (is_some_and (fun e => (e <? t)%Z) (k_expires_at key_record)))
        (Unauthorized "API key has expired") in
  let! user := sql (sql_read (fun _ d => q_live_user (k_user_id key_record) d)) in
  let! user := ok_or (Unauthorized "User associated with this API key not found or deleted") user in
  do! guard (negb (u_banned user)) (Forbidden "User account is banned") in
  let needs_touch := match k_last_used_at key_record with
                     | None => true
                     | Some last => (minutes 1 <? t - last)%Z
                     end in
  do! (if needs_touch then do! attempt (sql (sql_touch_key (k_id key_record))) in ret tt
       else ret tt) in
  ret (user, key_record).
End ApiKeys.

(** ** Lemmas *)

Lemma sql_insert_key_Ok row t d k d' :
  sql_insert_key row t d = inl (k, d') →
  k = kr_record row ∧ d' = set_api_keys (insert_row row (api_keys d)) d ∧
  ∀ r, r ∈ api_keys d → kr_key_hash r ≠ kr_key_hash row.
Proof.
  unfold sql_insert_key. destruct (exists_row _ _); [done|].
  destruct (exists_row _ (api_keys d)) eqn:Eh; [done|]. repeat (case_match; try done).
  intros [= <- <-]. split; [done|]. split; [done|].
  intros r Hr. rewrite exists_row_false in Eh. by apply String.eqb_neq, Eh.
Qed.

Section KeyLemmas.
Context {P : Platform}.

(** Creation, inverted, whatever the fault schedule. *)
Lemma create_key_Ok uid req ctx w resp w' :
  create_key uid req ctx w = (Ok resp, w') →
  ∃ set exp row, parse_request (ck_scopes req) = Ok set ∧
    key_expiry (w_now w) (ck_expires_in_days req) = Ok exp ∧
    kr_key_hash row = sha256_hex (ckr_key resp) ∧
    k_id (kr_record row) = ckr_id resp ∧
    k_user_id (kr_record row) = uid ∧ k_expires_at (kr_record row) = exp ∧
    k_scopes (kr_record row) = Some (JArr (List.map JStr (to_strings set))) ∧
    ckr_scopes resp = to_strings set ∧ ckr_expires_at resp = exp ∧
    (∀ r, r ∈ api_keys (w_db w) → kr_key_hash r ≠ kr_key_hash row) ∧
    audit_only (set_api_keys (insert_row row (api_keys (w_db w))) (w_db w)) (w_db w').
Proof.
  intros H. unfold create_key in H. do 6 ok_step H. apply sql_Ok_inv in Hs1 as (Hi & _). wsimpl.
  apply sql_insert_key_Ok in Hi as (-> & Hd & Hnew). audit_step H. injection H as <- <-.
  match type of Hd with _ = set_api_keys (insert_row ?r _) _ => exists a, a0, r end.
  cbn [ckr_key ckr_id ckr_scopes ckr_expires_at kr_key_hash kr_record k_id k_user_id k_expires_at
    k_scopes] in *.
  split_and!; try done. rewrite <- Hd. apply Haud.
Qed.

(** A live, unexpired key of a live, unbanned user resolves. *)
Lemma resolve_key_healthy raw w k u :
  w_faults w = [] → q_key (sha256_hex raw) (w_db w) = Some k →
  is_some_and (fun e => (e <? w_now w)%Z) (k_expires_at k) = false →
  q_live_user (k_user_id k) (w_db w) = Some u → u_banned u = false →
  fst (resolve_key raw w) = Ok (u, k).
Proof.
  intros Hf Hk He Hu Hb. unfold resolve_key. hrun. rewrite Hk. hrun. rewrite He. cbn [negb]. hrun.
  rewrite Hu. hrun. rewrite Hb. cbn [negb].
  match goal with |- context [if ?b then _ else _] => destruct b end; hrun; [|done].
  rewrite bind_attempt. unfold sql_touch_key. rewrite sql_write_healthy by done. done.
Qed.
End KeyLemmas.

(** The row of one key before and after: nothing differs but [last_used_at]. *)
Record same_key (r r' : ApiKeyRow) : Prop := {
  sk_id : kr_id r' = kr_id r;
  sk_hash : kr_key_hash r' = kr_key_hash r;
  sk_user : k_user_id (kr_record r') = k_user_id (kr_record r);
  sk_org : k_org_id (kr_record r') = k_org_id (kr_record r);
  sk_name : k_name (kr_record r') = k_name (kr_record r);
  sk_start : k_key_start (kr_record r') = k_key_start (kr_record r);
  sk_scopes : k_scopes (kr_record r') = k_scopes (kr_record r);
  sk_expires : k_expires_at (kr_record r') = k_expires_at (kr_record r);
  sk_created : k_created_at (kr_record r') = k_created_at (kr_record r);
  sk_updated : k_updated_at (kr_record r') = k_updated_at (kr_record r) }.

#[export] Instance same_key_preorder : PreOrder same_key.
Proof. split; [by intros r; split|]. intros r1 r2 r3 [] []. split; congruence. Qed.

(** Nothing changed but the [last_used_at] of API keys: the same keys, in the same order. *)
Definition only_keys (d d' : Db) : Prop :=
  ∃ ks, d' = set_api_keys ks d ∧ Forall2 same_key (api_keys d) ks.

Lemma only_keys_eq d d' : d' = d → only_keys d d'.
Proof. intros ->. exists (api_keys d). split; [by destruct d|]. by apply Forall_Forall2_diag, Forall_true. Qed.

#[export] Instance only_keys_preorder : PreOrder only_keys.
Proof.
  split; [intros d; by apply only_keys_eq|]. intros d1 d2 d3 (k1 & -> & H1) (k2 & -> & H2). exists k2.
  split; [done | by etrans].
Qed.

(** At most the [last_used_at] of one key was written, with the time it was used. *)
Definition key_touched (t : Timestamp) (kid : Uuid) (d d' : Db) : Prop :=
  ∃ ks, d' = set_api_keys ks d ∧
    Forall2 (fun r r' => r' = r ∨ (kr_id r = kid ∧ same_key r r' ∧ k_last_used_at (kr_record r') = Some t))
      (api_keys d) ks.

Lemma key_touched_refl t kid d : key_touched t kid d d.
Proof. exists (api_keys d). split; [by destruct d|]. apply Forall_Forall2_diag, Forall_true. by left. Qed.

Lemma key_touched_only t kid d d' : key_touched t kid d d' → only_keys d d'.
Proof.
  intros (ks & -> & H). exists ks. split; [done|]. eapply Forall2_impl; [exact H|].
  by intros r r' [-> | (_ & ? & _)].
Qed.

Lemma sql_touch_key_touched kid t d a d' : sql_touch_key kid t d = inl (a, d') → key_touched t kid d d'.
Proof.
  intros [= _ <-]. eexists. split; [done|]. unfold update_where. rewrite Forall2_fmap_r.
  apply Forall_Forall2_diag, Forall_forall. intros r _. unfold compose.
  match goal with |- context [if ?b then _ else _] => destruct b eqn:E end; [right | by left].
  bool_facts. by split_and!.
Qed.

Lemma touch_step b kid w x w1 :
  (if b : bool then do! attempt (sql (sql_touch_key kid)) in ret tt else ret tt) w = (Ok x, w1) →
  key_touched (w_now w) kid (w_db w) (w_db w1).
Proof.
  destruct b; [|intros [= _ <-]; apply key_touched_refl]. rewrite bind_attempt.
  destruct (sql (sql_touch_key kid) w) as [[[]|e|] w2] eqn:E; [..|by apply exec_no_panic in E];
    intros [= _ <-].
  - apply sql_Ok_inv in E as (E & _). by eapply sql_touch_key_touched.
  - apply exec_Err_inv in E as [-> _]. apply key_touched_refl.
Qed.

(** ** Properties *)

(** C30: a key is exactly what its creation said. The secret returned by a successful
    [create_key] resolves, as long as its row is there, to the user who created
    it, with precisely the scopes requested and no others, at every moment up
    to its expiry; no other secret hashing differently resolves through it. *)
Theorem create_then_resolve {P : Platform} (uid : Uuid) (req : CreateApiKeyRequest)
    (ctx : RequestContext) (w w' w2 : World) (resp : CreateApiKeyResponse) (u : User) :
  create_key uid req ctx w = (Ok resp, w') →
  w_faults w2 = [] → w_db w2 = w_db w' →
  q_live_user uid (w_db w2) = Some u → u_banned u = false →
  is_some_and (fun e => (e <? w_now w2)%Z) (ckr_expires_at resp) = false →
  ∃ k set, fst (resolve_key (ckr_key resp) w2) = Ok (u, k) ∧
    parse_request (ck_scopes req) = Ok set ∧ ckr_scopes resp = to_strings set ∧
    from_stored (k_scopes k) = set ∧ k_id k = ckr_id resp ∧ k_user_id k = uid.
Proof.
  intros H Hf2 Hd2 Hu Hb He.
  apply create_key_Ok in H as (set & exp & row & Hset & Hexp & Hh & Hid & Huid & Hexp' & Hsc & Hrsc
    & Hre & Hnew & [l Hdb]).
  exists (kr_record row), set. rewrite Hsc. split_and!; try done; [|by eapply from_stored_to_strings, parse_request_sorted].
  apply resolve_key_healthy; [done | | by rewrite Hexp', <- Hre | by rewrite Huid | done].
  unfold q_key. rewrite Hd2, Hdb. cbn [set_audit_logs set_api_keys api_keys].
  rewrite fetch_optional_insert_new; [done | | rewrite Hh; apply String.eqb_refl].
  intros r Hr. rewrite <- Hh. by apply String.eqb_neq, Hnew.
Qed.

Definition Example_key_request : CreateApiKeyRequest :=
  {| ck_name := "ci"; ck_org_id := None; ck_scopes := Some ["files:read"]; ck_expires_in_days := Some 30%Z |}.
Abbreviation Example_key :=
  (@create_key toy 1%N Example_key_request OrgExample.ctx OrgExample.w) (only parsing).
Definition Example_key_response : CreateApiKeyResponse :=
  {| ckr_id := 1000%N; ckr_name := "ci"; ckr_key := "ak_live_" +:+ @draw_alphanumeric toy 1 48;
     ckr_key_start := "ak_live_tok1AB..."; ckr_scopes := ["files:read"];
     ckr_expires_at := Some (1000000 + 30 * 86400000000)%Z; ckr_created_at := 1000000%Z |}.

Lemma create_then_resolve_witness :
  ∃ k set, fst (@resolve_key toy ("ak_live_" +:+ @draw_alphanumeric toy 1 48) (snd Example_key))
      = Ok (ur_user (OrgExample.user 1%N "a@x"), k) ∧
    parse_request (Some ["files:read"]) = Ok set ∧ from_stored (k_scopes k) = set.
Proof.
  pose proof (@create_then_resolve toy 1%N Example_key_request OrgExample.ctx OrgExample.w
    (snd Example_key) (snd Example_key) Example_key_response (ur_user (OrgExample.user 1%N "a@x"))) as H.
  destruct H as (k & set & H1 & H2 & _ & H3 & _); [vm_compute; reflexivity..|].
  exists k, set. split; [exact H1|]. split; [exact H2 | exact H3].
Defined.

(** The key a secret opens: a stored, unexpired key with the hash of the secret
    whose owner exists, is not deleted and not banned. *)
Definition key_live {P : Platform} (t : Timestamp) (d : Db) (raw : string) (u : User) (k : ApiKeyRecord) : Prop :=
  ∃ row r, row ∈ api_keys d ∧ kr_key_hash row = sha256_hex raw ∧ kr_record row = k ∧
    is_some_and (fun e => (e <? t)%Z) (k_expires_at k) = false ∧
    r ∈ users d ∧ ur_user r = u ∧ ur_id r = k_user_id k ∧ ur_deleted_at r = None ∧ u_banned u = false.

(** Whatever the fault schedule, a secret that resolves is the secret of a live key. *)
Lemma resolve_key_Ok {P : Platform} raw w w' u k :
  resolve_key raw w = (Ok (u, k), w') →
  key_live (w_now w) (w_db w) raw u k ∧ key_touched (w_now w) (k_id k) (w_db w) (w_db w').
Proof.
  intros H. unfold resolve_key in H. do 7 ok_step H.
  apply fmap_Some in Ho as (row & Hrow & ->). apply fmap_Some in Ho0 as (r & Hr & ->).
  apply fetch_optional_Some in Hrow as [Hh Hin]. apply fetch_optional_Some in Hr as [Hl Hinu].
  unfold live_id, ur_live in Hl. bool_facts. rewrite Hd in Hinu.
  ok_step H. apply touch_step in Hs. injection H as <- <- <-.
  rewrite Hd0, Hd, Hn0, Hn in *. split; [by exists row, r | done].
Qed.

(** A live key resolves on a healthy database. *)
Lemma resolve_key_complete {P : Platform} raw w u k :
  w_faults w = [] → db_wf (w_db w) → key_live (w_now w) (w_db w) raw u k →
  ∃ w', resolve_key raw w = (Ok (u, k), w').
Proof.
  intros Hf Hwf (row & r & Hin & Hh & <- & He & Hinu & <- & Hid & Hdel & Hb).
  assert (fst (resolve_key raw w) = Ok (ur_user r, kr_record row)) as <-.
  { apply resolve_key_healthy; [done| |done| |done].
    - unfold q_key. erewrite (fetch_pk kr_key_hash _ _ row); [done|apply Hwf|done| |].
      + by apply String.eqb_eq.
      + intros r' Hp. apply String.eqb_eq in Hp. congruence.
    - unfold q_live_user. erewrite (fetch_pk ur_id _ _ r); [done|apply Hwf|done| |].
      + unfold live_id, ur_live. by rewrite Hid, N.eqb_refl, Hdel.
      + unfold live_id. intros r' Hp. bool_facts. congruence. }
  eexists. apply surjective_pairing.
Qed.

(** Deleting a key ends it. After a successful [delete_key] the key's row is
    gone, no other key is touched, and nothing else but the audit trail
    changes; only the owner can do it, and failing changes nothing. *)
Theorem delete_key_effect {P : Platform} (kid uid : Uuid) (ctx : RequestContext) (w w' : World)
    (r : outcome unit AppError) :
  delete_key kid uid ctx w = (r, w') →
  match r with
  | Ok _ => (∃ row, row ∈ api_keys (w_db w) ∧ kr_id row = kid ∧ k_user_id (kr_record row) = uid) ∧
      (∀ row, row ∈ api_keys (w_db w') ↔ row ∈ api_keys (w_db w) ∧
         ¬ (kr_id row = kid ∧ k_user_id (kr_record row) = uid)) ∧
      audit_only (set_api_keys (api_keys (w_db w')) (w_db w)) (w_db w')
  | _ => w_db w' = w_db w
  end.
Proof.
  assert (Hfail : is_ok r = false → delete_key kid uid ctx w = (r, w') → w_db w' = w_db w).
  { intros Hr. unfold delete_key, bind at 1.
    destruct (sql _ _) as [[n|e|] w1] eqn:E; [|by intros [= _ <-]; apply exec_Err_inv in E as [-> _]
      |by apply exec_no_panic in E].
    apply sql_Ok_inv in E as ([= Hn Hd] & _). hrun. destruct (negb _) eqn:Eb.
    - destruct (bind_record_best_effort (P:=P) (Some uid) "api_key.delete" "api_keys"
        (Some (uuid_show kid)) ctx None (fun _ => ret tt) w1) as (w2 & _ & ->).
      by intros [= <- <-].
    - intros [= _ <-]. bool_facts. rewrite <- Hd, delete_where_none by lia. by destruct (w_db w). }
  intros H. destruct r as [[]|e|]; [clear Hfail | by apply Hfail..].
  - unfold delete_key in H. ok_step H. apply sql_Ok_inv in Hs as (Hq & _). injection Hq as Hrows Hd.
    ok_step H. audit_step H. injection H as <-. cbv beta in *.
    set (p := fun r => ((kr_id r =? kid)%N && (k_user_id (kr_record r) =? uid)%N)%bool) in *.
    assert (Hp : ∀ row, p row = true ↔ kr_id row = kid ∧ k_user_id (kr_record row) = uid).
    { intros row. unfold p. by rewrite andb_true_iff, !N.eqb_eq. }
    split.
    { bool_facts. destruct (select p (api_keys (w_db w))) as [|row l] eqn:E.
      - unfold rows_affected in Hrows. rewrite E in Hrows. simpl in Hrows. lia.
      - exists row. assert (row ∈ select p (api_keys (w_db w))) as Hin by (rewrite E; by left).
        apply elem_of_select in Hin as [Hpr Hin]. apply Hp in Hpr as [? ?]. done. }
    audited_tables Haud. rewrite <- Hd. cbn [set_audit_logs set_api_keys api_keys]. split.
    + intros row. rewrite elem_of_delete_where. rewrite <- not_true_iff_false, Hp. tauto.
    + exists l. done.
Qed.

Lemma delete_key_effect_witness :
  audit_only (set_api_keys (api_keys (w_db (snd (@delete_key toy 1000%N 1%N OrgExample.ctx (snd Example_key)))))
                (w_db (snd Example_key)))
    (w_db (snd (@delete_key toy 1000%N 1%N OrgExample.ctx (snd Example_key)))).
Proof.
  pose proof (@delete_key_effect toy 1000%N 1%N OrgExample.ctx (snd Example_key)
    (snd (@delete_key toy 1000%N 1%N OrgExample.ctx (snd Example_key))) (Ok tt)) as H.
  destruct H as (_ & _ & H); [vm_compute; reflexivity | exact H].
Defined.

(** An expiry the calendar cannot represent is not refused: with valid scopes, any
    number of days for which the date addition is out of range makes
    [create_key] panic, whatever the state of the database. *)
Theorem create_key_panics {P : Platform} (uid : Uuid) (req : CreateApiKeyRequest)
    (ctx : RequestContext) (w : World) (n : Z) :
  is_ok (parse_request (ck_scopes req)) = true →
  ck_expires_in_days req = Some n → chrono_add_days (w_now w) n = None →
  fst (create_key uid req ctx w) = Panic ∧ w_db (snd (create_key uid req ctx w)) = w_db w.
Proof.
  intros Hs Hn Hc. unfold create_key. hrun. destruct (parse_request _) as [set|e|]; [|done..]. hrun.
  unfold key_expiry. wsimpl. by rewrite Hn, Hc.
Qed.

Lemma create_key_panics_witness :
  fst (@create_key toy 1%N {| ck_name := "ci"; ck_org_id := None; ck_scopes := None;
         ck_expires_in_days := Some (10 ^ 12)%Z |} OrgExample.ctx OrgExample.w) = Panic.
Proof.
  apply (@create_key_panics toy 1%N {| ck_name := "ci"; ck_org_id := None; ck_scopes := None;
         ck_expires_in_days := Some (10 ^ 12)%Z |} OrgExample.ctx OrgExample.w (10 ^ 12)%Z);
    vm_compute; reflexivity.
Defined.
