(* ===== verification/Jwks.v ===== *)
(** * Tokens of an external identity provider ([crypto/jwks.rs])

    The cached key set and the verification of a remote token. The cache is
    part of the world; the endpoint and the signature check are the platform's. *)
From stdpp Require Import gmap.
From S2P Require Import Prelude RustStr Models Errors Platform World.

Section Jwks.
Context {P : Platform} {R : Remote}.

(** [JwksClient]: its settings; the cache lives in the world. *)
Record JwksClient := {
  jc_jwks_url : string; jc_expected_issuer : option string; jc_expected_audience : option string;
  jc_cache_ttl : Z }.

Definition JwksClient_new (url : string) (issuer audience : option string) : JwksClient :=
  {| jc_jwks_url := url; jc_expected_issuer := issuer; jc_expected_audience := audience;
     jc_cache_ttl := hours 1 |}.

(** The keys kept of a response: those with an identifier and RSA components
    that the library accepts; a repeated identifier keeps the last. *)
Definition key_map (l : list JwksKey) : gmap string string :=
  fold_left (fun m k =>
    match jk_kid k, jk_n k, jk_e k with
    | Some kid, Some n, Some e =>
        match rsa_key n e with Some dk => <[kid := dk]> m | None => m end
    | _, _, _ => m
    end) l ∅.

Definition get_keys (c : JwksClient) : M (gmap string string) := fun w =>
  match (match w_jwks w with
         | Some cached => if (w_now w - ck_fetched_at cached <? jc_cache_ttl c)%Z
                          then Some (ck_keys cached) else None
         | None => None
         end) with
  | Some keys => (Ok keys, w)
  | None =>
      match jwks_endpoint (jc_jwks_url c) (w_now w) with
      | SendFailed e => (Err (Internal ("Failed to fetch remote JWKS: " +:+ e)), w)
      | Refused s => (Err (Internal ("Remote JWKS returned HTTP status: " +:+ s)), w)
      | Unparsable e => (Err (Internal ("Failed to parse remote JWKS response: " +:+ e)), w)
      | Fetched r =>
          (Ok (key_map (jwks_keys r)),
           set_jwks (Some {| ck_keys := key_map (jwks_keys r); ck_fetched_at := w_now w |}) w)
      end
  end.

(** [Validation::new(alg)] adjusted by the client's expectations. *)
Definition validation (c : JwksClient) (alg : string) : RemoteValidation :=
  {| rv_alg := alg; rv_issuer := jc_expected_issuer c; rv_validate_nbf := false;
     rv_audience := jc_expected_audience c; rv_validate_aud := is_some (jc_expected_audience c) |}.

(** [JwksClient::verify_token]; the library's own error text is not modelled. *)
Definition verify_token (c : JwksClient) (token : string) : M RemoteClaims :=
  let! header := ok_or (Unauthorized "Invalid JWT header format") (jwt_decode_header token) in
  let! kid := ok_or (Unauthorized "JWT header missing 'kid' key identifier") (fst header) in
  let! keys := get_keys c in
  let! decoding_key := ok_or (Unauthorized ("Unknown key identifier 'kid=" +:+ kid +:+ "'"))
                         (keys !! kid) in
  let! t := now in
  ok_or (Unauthorized "Remote token validation failed")
    (jwt_decode_remote t token decoding_key (validation c (snd header))).
End Jwks.

(** ** Lemmas *)

Section JwksLemmas.
Context {P : Platform} {R : Remote}.

Lemma get_keys_respects Q `{!PreOrder Q} c : respects Q (get_keys c).
Proof.
  intros w. unfold get_keys. repeat case_match; reflexivity.
Qed.
Lemma get_keys_steady c : steady (get_keys c).
Proof. intros w. unfold get_keys. by repeat case_match. Qed.
End JwksLemmas.

#[export] Hint Resolve get_keys_respects : respects.
#[export] Hint Resolve get_keys_steady : steady.

Lemma verify_token_respects {P : Platform} {R : Remote} Q `{!PreOrder Q} c tok :
  respects Q (verify_token c tok).
Proof. unfold verify_token. respects_tac. Qed.
#[export] Hint Resolve verify_token_respects : respects.

(** A key the endpoint stopped publishing, or has only just begun to publish, is
    judged by the cached set until the cache expires. *)
Definition keys_for (c : JwksClient) (w : World) : option (gmap string string) :=
  match w_jwks w with
  | Some cached => if (w_now w - ck_fetched_at cached <? jc_cache_ttl c)%Z
                   then Some (ck_keys cached) else None
  | None => None
  end.

(** A remote token is accepted only with a key of the provider: [verify_token]
    returns claims only if the token's header names a key identifier, that
    identifier is in the key set (the cached one while it is fresh, otherwise
    the one just fetched, which replaces it), and the token verifies under that
    very key with the configured issuer and audience; nothing else of the
    system changes. *)
Theorem verify_token_sound {P : Platform} {R : Remote} (c : JwksClient) (tok : string) (w w' : World)
    (claims : RemoteClaims) :
  verify_token c tok w = (Ok claims, w') →
  ∃ kid alg keys dk, jwt_decode_header tok = Some (Some kid, alg) ∧ keys !! kid = Some dk ∧
    jwt_decode_remote (w_now w) tok dk (validation c alg) = Some claims ∧
    match keys_for c w with
    | Some cached => keys = cached ∧ w' = w
    | None => (∃ r, jwks_endpoint (jc_jwks_url c) (w_now w) = Fetched r ∧ keys = key_map (jwks_keys r)) ∧
        w' = set_jwks (Some {| ck_keys := keys; ck_fetched_at := w_now w |}) w
    end.
Proof.
  intros H. unfold verify_token in H. ok_step H. ok_step H. ok_step H. ok_step H. ok_step H.
  apply ok_or_Ok_inv in H as [Hc ->]. destruct a as [k alg]. cbn [fst snd] in *. subst k.
  unfold get_keys in Hs. fold (keys_for c w) in Hs.
  destruct (keys_for c w) as [cached|] eqn:Ek.
  - injection Hs as <- <-. by exists a0, alg, cached, a2.
  - destruct (jwks_endpoint _ _) as [| | |r] eqn:Er; try done. injection Hs as <- <-. wsimpl.
    exists a0, alg, (key_map (jwks_keys r)), a2. by eauto 10.
Qed.

Definition Example_client : JwksClient := JwksClient_new "https://idp/jwks" None None.

Lemma verify_token_sound_witness :
  ∃ kid alg keys dk, @jwt_decode_header toy "kid~ne~7~admin" = Some (Some kid, alg) ∧
    (keys : gmap string string) !! kid = Some dk ∧
    is_some (@jwt_decode_remote toy 1000000%Z "kid~ne~7~admin" dk (validation Example_client alg)) = true.
Proof.
  destruct (fst (@verify_token toy toy_remote Example_client "kid~ne~7~admin" (world_of empty_db 1000000)))
    as [claims|e|] eqn:E; [|vm_compute in E; discriminate E..].
  destruct (@verify_token_sound toy toy_remote Example_client "kid~ne~7~admin"
    (world_of empty_db 1000000)
    (snd (@verify_token toy toy_remote Example_client "kid~ne~7~admin" (world_of empty_db 1000000)))
    claims) as (kid & alg & keys & dk & H1 & H2 & H3 & _).
  - rewrite <- E. apply surjective_pairing.
  - exists kid, alg, keys, dk. split; [exact H1|]. split; [exact H2|].
    change 1000000%Z with (w_now (world_of empty_db 1000000)). by rewrite H3.
Defined.
