(* ===== verification/Oauth.v ===== *)
(** * Social sign-in ([services/oauth.rs])

    The authorization-request table that ties a callback to a flow this server
    started, and the account upsert behind both providers. The provider's
    answers are parameters ([Remote]). *)
From S2P Require Import Prelude RustStr Models Errors Platform World Crypto.
From S2P Require Import AuditTrail Auth Schema AuthProofs.

(** ** Statements *)

Definition sql_insert_auth_request (row : OAuthRequestRow) : Sql unit := fun _ d =>
  if exists_row (fun r => oa_state_hash r =s oa_state_hash row) (oauth_auth_requests d) then
    inr (UniqueViolation "oauth_auth_requests_pkey")
  else if negb (varchar 32 (oa_provider row)) then inr too_long
  else inl (tt, set_oauth_auth_requests (insert_row row (oauth_auth_requests d)) d).

Definition pending_request (h provider : string) (t : Timestamp) (r : OAuthRequestRow) : bool :=
  ((oa_state_hash r =s h) && (oa_provider r =s provider) && is_none (oa_consumed_at r)
   && (t <? oa_expires_at r)%Z)%bool.

Definition consume_request (t : Timestamp) (r : OAuthRequestRow) : OAuthRequestRow :=
  {| oa_state_hash := oa_state_hash r; oa_provider := oa_provider r;
     oa_pkce_verifier := oa_pkce_verifier r; oa_expires_at := oa_expires_at r;
     oa_consumed_at := Some t |}.

Definition sql_consume_request (h provider : string) : Sql (option string) := fun t d =>
  inl (oa_pkce_verifier <$> fetch_optional (pending_request h provider t) (oauth_auth_requests d),
       set_oauth_auth_requests (update_where (pending_request h provider t) (consume_request t)
                                  (oauth_auth_requests d)) d).

(** [SET email_verified = true, image = COALESCE(image, $2), updated_at = now()] *)
Definition mark_verified (image : option string) (t : Timestamp) (r : UserRow) : UserRow :=
  let u := ur_user r in
  set_user (set_profile (u_name u) (or_else (u_image u) image) true t u) r.

Definition sql_mark_verified (uid : Uuid) (image : option string) : Sql User := fun t d =>
  match fetch_optional (fun r => ur_id r =? uid)%N (users d) with
  | None => inr row_not_found
  | Some r => inl (ur_user (mark_verified image t r),
                   set_users (update_where (fun r => ur_id r =? uid)%N (mark_verified image t) (users d)) d)
  end.

Definition set_access_token (tok : option string) (t : Timestamp) (a : Account) : Account :=
  {| a_id := a_id a; a_user_id := a_user_id a; a_account_id := a_account_id a;
     a_provider_id := a_provider_id a; a_password := a_password a; a_access_token := tok;
     a_refresh_token := a_refresh_token a;
     a_access_token_expires_at := a_access_token_expires_at a;
     a_created_at := a_created_at a; a_updated_at := t |}.

Definition same_provider_account (a r : Account) : bool :=
  ((a_provider_id r =s a_provider_id a) && (a_account_id r =s a_account_id a))%bool.

(** [INSERT ... ON CONFLICT (provider_id, account_id) DO UPDATE SET access_token] *)
Definition sql_upsert_account (a : Account) : Sql unit := fun t d =>
  if negb (varchar 255 (a_account_id a) && varchar 32 (a_provider_id a))%bool then inr too_long
  else if exists_row (same_provider_account a) (accounts d) then
    inl (tt, set_accounts (update_where (same_provider_account a)
                             (set_access_token (a_access_token a) t) (accounts d)) d)
  else sql_insert_account a t d.

(** ** The service *)

Section Oauth.
Context {P : Platform} {R : Remote} (cfg : AppConfig).

Record OAuthUrlResponse := { ou_url : string; ou_state : string }.

Definition oauth_client (provider : option OAuthProviderConfig) (name auth_url token_url : string)
  : outcome OAuthClient AppError :=
  match provider with
  | None => Err (BadRequest (name +:+ " OAuth is not configured"))
  | Some p =>
      match redirect_url_error (oc_redirect_url p) with
      | Some e => Err (Internal ("Invalid " +:+ name +:+ " redirect URL: " +:+ e))
      | None => Ok {| cl_id := oc_client_id p; cl_secret := expose (oc_client_secret p);
                      cl_auth_url := auth_url; cl_token_url := token_url;
                      cl_redirect_url := oc_redirect_url p |}
      end
  end.

Definition get_google_client : outcome OAuthClient AppError :=
  oauth_client (google cfg) "Google" "https://accounts.google.com/o/oauth2/v2/auth"
    "https://oauth2.googleapis.com/token".
Definition get_github_client : outcome OAuthClient AppError :=
  oauth_client (github cfg) "GitHub" "https://github.com/login/oauth/authorize"
    "https://github.com/login/oauth/access_token".

Definition pkce : M (string * string) := fresh draw_pkce.

Definition store_auth_request (provider csrf_state pkce_verifier : string) : M unit :=
  let! t := now in
  sql (sql_insert_auth_request
    {| oa_state_hash := sha256_hex csrf_state; oa_provider := provider;
       oa_pkce_verifier := pkce_verifier; oa_expires_at := (t + minutes 10)%Z;
       oa_consumed_at := None |}).

Definition auth_url_for (client : outcome OAuthClient AppError) (scopes : list string)
    (provider : string) : M OAuthUrlResponse :=
  let! client := lift client in
  let! vc := pkce in
  let! csrf := fresh draw_csrf in
  do! store_auth_request provider csrf (fst vc) in
  ret {| ou_url := authorize_url client scopes csrf (snd vc); ou_state := csrf |}.

Definition get_google_auth_url : M OAuthUrlResponse :=
  auth_url_for get_google_client
    ["https://www.googleapis.com/auth/userinfo.email"; "https://www.googleapis.com/auth/userinfo.profile"]
    "google".
Definition get_github_auth_url : M OAuthUrlResponse :=
  auth_url_for get_github_client ["read:user"; "user:email"] "github".

Definition consume_auth_request (provider csrf_state : string) : M string :=
  let! verifier := sql (sql_consume_request (sha256_hex csrf_state) provider) in
  ok_or (Unauthorized "OAuth state is invalid, expired, or already used. Restart the sign-in flow.")
    verifier.

(** [send().await?.error_for_status()?.json().await?] with the source's three messages. *)
Definition fetch_json {A} (what provider : string) (r : fetched A) : M A :=
  match r with
  | SendFailed e => fail (Internal ("Failed to fetch " +:+ what +:+ ": " +:+ e))
  | Refused e => fail (Unauthorized (provider +:+ " rejected the token: " +:+ e))
  | Unparsable e => fail (Internal ("Failed to parse " +:+ what +:+ ": " +:+ e))
  | Fetched a => ret a
  end.

Definition upsert_tx (email name : string) (image : option string) (provider_id account_id : string)
    (access_token : option string) (ctx : RequestContext) : M (User * Uuid * string) :=
  let! existing := sql (sql_read (fun _ d => q_live_user_by_email email d)) in
  let! user := (match existing with
    | Some u =>
        do! guard (negb (u_banned u)) (Forbidden "This account has been suspended") in
        sql (sql_mark_verified (u_id u) image)
    | None =>
        let! id := new_uuid in
        let! t := now in
        sql (sql_insert_user
          {| u_id := id; u_name := name; u_email := email; u_email_verified := true;
             u_image := image; u_role := "user"; u_banned := false; u_created_at := t;
             u_updated_at := t |})
    end) in
  let! sealed_token := (match access_token with
    | Some token => let! s := encrypt (encryption_key cfg) token in ret (Some s)
    | None => ret None
    end) in
  let! id := new_uuid in
  let! t := now in
  do! sql (sql_upsert_account
        {| a_id := id; a_user_id := u_id user; a_account_id := account_id;
           a_provider_id := provider_id; a_password := None; a_access_token := sealed_token;
           a_refresh_token := None; a_access_token_expires_at := None; a_created_at := t;
           a_updated_at := t |}) in
  let! sess := create_oauth_session cfg (u_id user) ctx in
  ret (user, fst sess, snd sess).

Definition upsert_oauth_user (email name : string) (image : option string)
    (provider_id account_id : string) (access_token : option string) (ctx : RequestContext)
  : M AuthResponse :=
  let email := to_ascii_lowercase (trim email) in
  let! r := transaction (upsert_tx email name image provider_id account_id access_token ctx) in
  let '(user, session_id, refresh_token) := r in
  do! record_best_effort (Some (u_id user)) "user.signed_in_social" "session"
        (Some (uuid_show session_id)) ctx (Some (JObj [("provider", JStr provider_id)])) in
  let! access_token := generate_access_token cfg user session_id in
  ret (auth_response cfg access_token refresh_token session_id user).

Definition exchange (client : OAuthClient) (code verifier : string) : M string :=
  match exchange_code client code verifier with
  | inl tok => ret tok
  | inr e => fail (Unauthorized ("OAuth token exchange failed: " +:+ e))
  end.

Definition handle_google_callback (code csrf_state : string) (ctx : RequestContext) : M AuthResponse :=
  let! verifier := consume_auth_request "google" csrf_state in
  let! client := lift get_google_client in
  let! access_token := exchange client code verifier in
  let! user_info := fetch_json "Google user info" "Google" (google_userinfo access_token) in
  do! guard (g_verified_email user_info)
        (BadRequest "Your Google email address is not verified. Verify it with Google, then try again.") in
  upsert_oauth_user (g_email user_info) (unwrap_or "Google User" (g_name user_info))
    (g_picture user_info) "google" (g_id user_info) (Some access_token) ctx.

Definition handle_github_callback (code csrf_state : string) (ctx : RequestContext) : M AuthResponse :=
  let! verifier := consume_auth_request "github" csrf_state in
  let! client := lift get_github_client in
  let! access_token := exchange client code verifier in
  let! user_info := fetch_json "GitHub user info" "GitHub" (github_user access_token) in
  let! emails := fetch_json "GitHub emails" "GitHub" (github_emails access_token) in
  let! email := ok_or (BadRequest "No verified primary email found on your GitHub account")
    (ge_email <$> List.find (fun e => ge_primary e && ge_verified e)%bool emails) in
  let display_name := unwrap_or (gh_login user_info) (gh_name user_info) in
  upsert_oauth_user email display_name (gh_avatar_url user_info) "github"
    (show_Z (gh_id user_info)) (Some access_token) ctx.
End Oauth.

(** ** Lemmas *)

Section OauthLemmas.
Context {P : Platform} {R : Remote} (cfg : AppConfig).

Lemma fetch_json_Ok {A} what prov (r : fetched A) a w w' :
  fetch_json what prov r w = (Ok a, w') → r = Fetched a ∧ w' = w.
Proof. destruct r; intros H; [done..|]. by injection H as -> ->. Qed.

Lemma exchange_Ok c code v tok w w' :
  exchange c code v w = (Ok tok, w') → exchange_code c code v = inl tok ∧ w' = w.
Proof. unfold exchange. destruct (exchange_code c code v); intros H; [by injection H as -> -> | done]. Qed.

(** Signing in never touches the pending authorization requests. *)
Lemma upsert_keeps_requests email name image pid aid tok ctx :
  respects (same oauth_auth_requests) (upsert_oauth_user cfg email name image pid aid tok ctx).
Proof.
  unfold upsert_oauth_user, upsert_tx, encrypt, create_oauth_session, create_session,
    generate_access_token. respects_tac.
Qed.
End OauthLemmas.

(** Consuming a state: what it needs, and that it cannot be repeated. *)
Lemma consume_auth_request_Ok {P : Platform} provider st w v w' :
  consume_auth_request provider st w = (Ok v, w') →
  (∃ r, r ∈ oauth_auth_requests (w_db w) ∧ oa_state_hash r = sha256_hex st ∧
     oa_provider r = provider ∧ oa_consumed_at r = None ∧ (w_now w < oa_expires_at r)%Z ∧
     oa_pkce_verifier r = v) ∧
  users (w_db w') = users (w_db w) ∧
  (unique_on (pk oa_state_hash) (oauth_auth_requests (w_db w)) →
   ∀ r, r ∈ oauth_auth_requests (w_db w') → oa_state_hash r = sha256_hex st → oa_consumed_at r ≠ None).
Proof.
  intros H. unfold consume_auth_request in H. ok_step H. apply sql_Ok_inv in Hs as (Hq & _).
  apply ok_or_Ok_inv in H as [-> ->]. injection Hq as Hv Hd.
  apply fmap_Some in Hv as (r & Hr & ->). apply fetch_optional_Some in Hr as [Hp Hin].
  assert (Hpr : oa_state_hash r = sha256_hex st ∧ oa_provider r = provider ∧ oa_consumed_at r = None ∧
    (w_now w < oa_expires_at r)%Z) by (unfold pending_request in Hp; by bool_facts).
  split; [exists r; tauto|]. split; [by rewrite <- Hd|].
  rewrite <- Hd. cbn [set_oauth_auth_requests oauth_auth_requests].
  intros Hu x (y & Hy & ->)%elem_of_update_where Hh.
  destruct (pending_request _ _ _ y) eqn:E; [done|].
  assert (y = r) as ->; [|congruence].
  eapply (pk_inj oa_state_hash); [exact Hu | done | done |]. cbn in Hh. destruct Hpr. congruence.
Qed.

(** It moves nothing else. *)
Lemma consume_auth_request_frame {P : Platform} provider st w v w' :
  consume_auth_request provider st w = (Ok v, w') →
  ∃ l, w_db w' = set_oauth_auth_requests l (w_db w) ∧ w_now w' = w_now w.
Proof.
  intros H. unfold consume_auth_request in H. ok_step H. apply sql_Ok_inv in Hs as (Hq & Hn & _).
  apply ok_or_Ok_inv in H as [_ ->]. injection Hq as _ Hd. rewrite <- Hd. eauto.
Qed.

(** A state already consumed is refused, under any fault schedule. *)
Lemma consumed_state_refused {P : Platform} provider st w :
  (∀ r, r ∈ oauth_auth_requests (w_db w) → oa_state_hash r = sha256_hex st → oa_consumed_at r ≠ None) →
  is_ok (fst (consume_auth_request provider st w)) = false.
Proof.
  intros H. destruct (consume_auth_request provider st w) as [[v|e|] w'] eqn:E; [|done..].
  apply consume_auth_request_Ok in E as ((r & Hin & Hh & _ & Hc & _) & _). by destruct (H r Hin Hh).
Qed.

Lemma is_ok_bind {A B} (m : M A) (k : A -> M B) w :
  is_ok (fst (m w)) = false → is_ok (fst (bind m k w)) = false.
Proof. unfold bind. by destruct (m w) as [[a|e|] w']. Qed.

(** C28: a callback completes only a flow this server started, once. When either
    provider's callback succeeds, the state it presented had been stored for
    that same provider and was neither expired nor used; and afterwards no
    callback of either provider succeeds with that state again, at any time and
    whatever code it carries. *)
Theorem oauth_state_single_use {P : Platform} {R : Remote} (cfg : AppConfig) (goog : bool)
    (code st : string) (ctx : RequestContext) (w w' w2 : World) (resp : AuthResponse) :
  (if goog then handle_google_callback cfg code st ctx w else handle_github_callback cfg code st ctx w)
    = (Ok resp, w') →
  unique_on (pk oa_state_hash) (oauth_auth_requests (w_db w)) →
  (∃ r, r ∈ oauth_auth_requests (w_db w) ∧ oa_state_hash r = sha256_hex st ∧
     oa_provider r = (if goog then "google" else "github") ∧ oa_consumed_at r = None ∧
     (w_now w < oa_expires_at r)%Z) ∧
  (oauth_auth_requests (w_db w2) = oauth_auth_requests (w_db w') → ∀ code2 ctx2,
     is_ok (fst (handle_google_callback cfg code2 st ctx2 w2)) = false ∧
     is_ok (fst (handle_github_callback cfg code2 st ctx2 w2)) = false).
Proof.
  intros H Hu.
  assert (Hsplit : ∃ v w1, consume_auth_request (if goog then "google" else "github") st w = (Ok v, w1) ∧
    oauth_auth_requests (w_db w') = oauth_auth_requests (w_db w1)).
  { destruct goog; [unfold handle_google_callback in H | unfold handle_github_callback in H];
      ok_step H; eexists _, _; (split; [exact Hs|]); revert H;
      match goal with |- ?m ?x = _ → _ =>
        assert (Hr : respects (same oauth_auth_requests) m);
        [| intros H; specialize (Hr x); rewrite H in Hr; exact Hr] end.
    all: unfold exchange, fetch_json; respects_tac; apply upsert_keeps_requests. }
  destruct Hsplit as (v & w1 & Hc & Hsame).
  apply consume_auth_request_Ok in Hc as ((r & Hin & Hh & Hp & Hcons & Hexp & _) & _ & Huse).
  split; [by exists r|]. intros Hw2 code2 ctx2.
  assert (Hdead : ∀ p, is_ok (fst (consume_auth_request p st w2)) = false).
  { intros p. apply consumed_state_refused. rewrite Hw2, Hsame. by apply Huse. }
  split; apply is_ok_bind, Hdead.
Qed.

Definition Example_config : AppConfig :=
  let c := Example.cfg in
  {| environment := environment c; server_host := server_host c; server_port := server_port c;
     public_base_url := public_base_url c; database_url := database_url c;
     database_max_connections := database_max_connections c; jwt_secret := jwt_secret c;
     access_token_ttl_minutes := access_token_ttl_minutes c;
     refresh_token_ttl_days := refresh_token_ttl_days c; argon2 := argon2 c;
     encryption_key := encryption_key c; url_signing_key := url_signing_key c;
     email_verify_ttl_hours := email_verify_ttl_hours c;
     password_reset_ttl_minutes := password_reset_ttl_minutes c;
     lockout_threshold := lockout_threshold c; lockout_minutes := lockout_minutes c;
     rate_limit_per_second := rate_limit_per_second c; rate_limit_burst_size := rate_limit_burst_size c;
     auth_rate_limit_per_second := auth_rate_limit_per_second c;
     auth_rate_limit_burst_size := auth_rate_limit_burst_size c;
     trust_proxy_headers := trust_proxy_headers c; cors_allowed_origins := cors_allowed_origins c;
     metrics_token := metrics_token c; idempotency_ttl_seconds := idempotency_ttl_seconds c;
     request_timeout_seconds := request_timeout_seconds c; body_limit_bytes := body_limit_bytes c;
     storage_backend := storage_backend c; s3 := s3 c; upload_dir := upload_dir c;
     max_upload_bytes := max_upload_bytes c; allowed_upload_mime := allowed_upload_mime c;
     signed_url_ttl_seconds := signed_url_ttl_seconds c; smtp := smtp c;
     google := Some {| oc_client_id := "id"; oc_client_secret := MkSecret "s"; oc_redirect_url := "https://cb" |};
     github := Some {| oc_client_id := "id"; oc_client_secret := MkSecret "s"; oc_redirect_url := "https://cb" |};
     oidc := oidc c |}.
Abbreviation Example_started :=
  (snd (@get_google_auth_url toy toy_remote Example_config Example.w)) (only parsing).
Abbreviation Example_callback :=
  (@handle_google_callback toy toy_remote Example_config "code" "csrf1" Example.ctx Example_started)
  (only parsing).

Lemma oauth_state_single_use_witness :
  is_ok (fst Example_callback) = true ∧
  is_ok (fst (@handle_google_callback toy toy_remote Example_config "again" "csrf1" Example.ctx
                (snd Example_callback))) = false.
Proof.
  assert (Hok : is_ok (fst Example_callback) = true) by (vm_compute; reflexivity).
  destruct Example_callback as [r w'] eqn:E. cbn [fst snd] in *. split; [exact Hok|].
  destruct r as [resp|e|]; [|discriminate Hok..].
  destruct (@oauth_state_single_use toy toy_remote Example_config true "code" "csrf1" Example.ctx
    Example_started w' w' resp E) as [_ H].
  - apply (bool_decide_unpack _); vm_compute; exact I.
  - apply (H eq_refl "again" Example.ctx).
Defined.

(** A response that signs [u] in: [u] is a live row, the one session that was added is
    [u]'s and carries the hash of the refresh token, and the access token is
    the signature of claims that name [u] and that session. *)
Record signs_in {P : Platform} (cfg : AppConfig) (t : Timestamp) (u : User) (resp : AuthResponse) (d d' : Db)
  : Prop := {
  sgn_user : ar_user resp = UserResponse_from u;
  sgn_row : ∃ row, row ∈ users d' ∧ ur_user row = u ∧ ur_deleted_at row = None;
  sgn_session : ∃ s, sessions d' = insert_row s (sessions d) ∧ sr_id s = ar_session_id resp ∧
    sr_user s = u_id u ∧ sr_refresh_token_hash s = sha256_hex (ar_refresh_token resp) ∧
    s_revoked_at (sr_session s) = None ∧
    s_expires_at (sr_session s) = (t + days (refresh_token_ttl_days cfg))%Z;
  sgn_token : jwt_encode
    {| c_sub := uuid_show (u_id u); c_sid := uuid_show (ar_session_id resp); c_email := u_email u;
       c_role := u_role u; c_iat := timestamp t;
       c_exp := timestamp (t + minutes (access_token_ttl_minutes cfg)) |}
    (expose (jwt_secret cfg)) = Some (ar_access_token resp) }.

Section Upsert.
Context {P : Platform} (cfg : AppConfig).

Lemma create_session_Ok uid ctx w sid rt w' :
  create_session cfg uid ctx w = (Ok (sid, rt), w') →
  ∃ s, w_db w' = set_sessions (insert_row s (sessions (w_db w))) (w_db w) ∧ w_now w' = w_now w ∧
    sr_id s = sid ∧ sr_user s = uid ∧ sr_refresh_token_hash s = sha256_hex rt ∧
    s_revoked_at (sr_session s) = None ∧
    s_expires_at (sr_session s) = (w_now w + days (refresh_token_ttl_days cfg))%Z.
Proof.
  unfold create_session. intros H. do 4 ok_step H. injection H as <- <- <-.
  apply sql_Ok_inv in Hs as (Hq & Hn & _). unfold sql_insert_session in Hq. repeat case_match; try done.
  injection Hq as _ Hd. eexists. rewrite <- Hd. split; [reflexivity|]. by rewrite Hn.
Qed.

(** Sealing the provider's token draws a nonce and touches nothing. *)
Lemma sealed_Ok tok w x w' :
  (match tok with
   | Some token => let! s := encrypt (encryption_key cfg) token in ret (Some s)
   | None => ret None
   end) w = (Ok x, w') → w_db w' = w_db w ∧ w_now w' = w_now w.
Proof.
  destruct tok as [token|]; [|by intros [= _ <-]]. unfold encrypt. intros H. ok_step H.
  do 2 ok_step Hs. injection Hs as _ <-. by injection H as _ <-.
Qed.

(** The account row of a provider's profile: made for this user, or already there. *)
Lemma sql_upsert_account_Ok a t d u d' :
  sql_upsert_account a t d = inl (u, d') →
  users d' = users d ∧ sessions d' = sessions d ∧
  ∃ a', a' ∈ accounts d' ∧ a_provider_id a' = a_provider_id a ∧ a_account_id a' = a_account_id a ∧
    (a_user_id a' = a_user_id a ∨
     ∃ a0, a0 ∈ accounts d ∧ a_provider_id a0 = a_provider_id a ∧ a_account_id a0 = a_account_id a ∧
       a_user_id a0 = a_user_id a').
Proof.
  unfold sql_upsert_account. destruct (negb _); [done|]. destruct (exists_row _ _) eqn:E.
  - intros [= _ <-]. split; [done|]. split; [done|]. apply exists_row_true in E as (a0 & Hin & Hp).
    exists (set_access_token (a_access_token a) t a0). split; [apply elem_of_update_where; exists a0; by rewrite Hp|].
    unfold same_provider_account in Hp. bool_facts. cbn. split; [done|]. split; [done|]. right. by exists a0.
  - unfold sql_insert_account. repeat case_match; try done. intros [= _ <-]. split; [done|]. split; [done|].
    exists a. split; [|by auto]. cbn. unfold insert_row. set_solver.
Qed.

(** The user a provider's profile signs in: the live account of the address, marked
    verified, or a new one. *)
Definition upserted_user (e : string) (d : Db) (u : User) : Prop :=
  u_email u = e ∧ u_email_verified u = true ∧
  match q_live_user_by_email e d with
  | Some u0 => u_banned u0 = false ∧ u_id u = u_id u0 ∧ u_role u = u_role u0
  | None => u_role u = "user" ∧ ∀ row, row ∈ users d → ur_id row ≠ u_id u
  end.

Lemma mark_verified_Ok d e u0 image t u d' :
  unique_on (pk ur_id) (users d) → q_live_user_by_email e d = Some u0 →
  sql_mark_verified (u_id u0) image t d = inl (u, d') →
  u_email u = e ∧ u_email_verified u = true ∧ u_id u = u_id u0 ∧ u_role u = u_role u0 ∧
  sessions d' = sessions d ∧ accounts d' = accounts d ∧
  ∃ row, row ∈ users d' ∧ ur_user row = u ∧ ur_deleted_at row = None.
Proof.
  intros Hpk Hq. apply fmap_Some in Hq as (r0 & Hr0 & ->). apply fetch_optional_Some in Hr0 as [Hle Hin].
  unfold live_email in Hle. unfold sql_mark_verified.
  rewrite (fetch_pk ur_id _ _ r0); [|done|done|by apply N.eqb_refl|by intros ? ?%N.eqb_eq].
  intros [= <- <-]. bool_facts. cbn. do 6 (split; [done|]). exists (mark_verified image t r0).
  split; [|split; [done|]]; [|unfold ur_live in *; change (ur_deleted_at r0 = None); by destruct (ur_deleted_at r0)].
  apply elem_of_update_where. exists r0. unfold ur_id. by rewrite N.eqb_refl.
Qed.

Lemma upsert_user_Ok e name image w w1 u w2 :
  unique_on (pk ur_id) (users (w_db w)) → w_db w1 = w_db w →
  (match q_live_user_by_email e (w_db w) with
   | Some u0 =>
       do! guard (negb (u_banned u0)) (Forbidden "This account has been suspended") in
       sql (sql_mark_verified (u_id u0) image)
   | None =>
       let! id := new_uuid in
       let! t := now in
       sql (sql_insert_user
         {| u_id := id; u_name := name; u_email := e; u_email_verified := true;
            u_image := image; u_role := "user"; u_banned := false; u_created_at := t;
            u_updated_at := t |})
   end) w1 = (Ok u, w2) →
  upserted_user e (w_db w) u ∧ w_now w2 = w_now w1 ∧
  sessions (w_db w2) = sessions (w_db w) ∧ accounts (w_db w2) = accounts (w_db w) ∧
  ∃ row, row ∈ users (w_db w2) ∧ ur_user row = u ∧ ur_deleted_at row = None.
Proof.
  intros Hpk Hd Hu. unfold upserted_user. destruct (q_live_user_by_email _ _) as [u0|] eqn:Eq.
  - ok_step Hu. apply sql_Ok_inv in Hu as (Hq & Hnu & _). rewrite Hd in Hq.
    eapply mark_verified_Ok in Hq as (? & ? & ? & ? & ? & ? & ?); [|done..]. bool_facts. by split_and!.
  - do 2 ok_step Hu. apply sql_Ok_inv in Hu as (Hq & Hnu & _). wsimpl. rewrite Hd in Hq.
    unfold sql_insert_user in Hq. destruct (user_exists _ _) eqn:Ee; [done|].
    repeat (case_match; try done). injection Hq as <- Hq. rewrite <- Hq. cbn.
    unfold user_exists in Ee. rewrite exists_row_false in Ee. cbn in Ee.
    split_and!; try done; [intros r Hr; by apply N.eqb_neq, Ee|].
    eexists. split; [unfold insert_row; apply elem_of_app; right; by left | done].
Qed.

(** What signing in through a provider does. *)
Lemma upsert_Ok email name image pid aid tok ctx w resp w' :
  upsert_oauth_user cfg email name image pid aid tok ctx w = (Ok resp, w') →
  unique_on (pk ur_id) (users (w_db w)) →
  ∃ u, upserted_user (to_ascii_lowercase (trim email)) (w_db w) u ∧
    signs_in cfg (w_now w) u resp (w_db w) (w_db w') ∧
    ∃ a, a ∈ accounts (w_db w') ∧ a_provider_id a = pid ∧ a_account_id a = aid ∧
      (a_user_id a = u_id u ∨
       ∃ a0, a0 ∈ accounts (w_db w) ∧ a_provider_id a0 = pid ∧ a_account_id a0 = aid ∧ a_user_id a0 = a_user_id a).
Proof.
  intros H Hpk. unfold upsert_oauth_user in H. ok_step H. destruct a as [[u sid] rt].
  apply transaction_Ok_inv in Hs as (wa & wb & Hda & Hna & _ & Htx & Hdb & Hnb). unfold upsert_tx in Htx.
  ok_step Htx. apply bind_Ok_inv in Htx as (u' & w2 & Hu & Htx).
  ok_step Htx. apply sealed_Ok in Hs as [Hd3 Hn3]. do 3 ok_step Htx. ok_step Htx. destruct a1 as [sid' rt'].
  injection Htx as -> -> -> ->. apply create_session_Ok in Hs0 as (s & Hd5 & Hn5 & Hsid & Hsu & Hsh & Hsr & Hse).
  apply sql_Ok_inv in Hs as (Hacc & Hn4 & _). apply sql_upsert_account_Ok in Hacc as (Hu4 & Hs4 & Hacc).
  rewrite Hda in Hd, Hu.
  apply (upsert_user_Ok _ _ _ w) in Hu as (Hus & Hn2 & Hss & Hac & row & Hrow & Hru & Hrd); [|done..].
  audit_step H. ok_step H. injection H as <- <-. wsimpl. rewrite Hd3 in *.
  assert (Hnow : w_now w5 = w_now w) by (rewrite (au_now _ _ Haud); congruence).
  destruct (au_db _ _ Haud) as [l El]. rewrite Hdb, Hd5 in El. exists u. split; [exact Hus|].
  unfold generate_access_token in Hs. ok_step Hs. apply ok_or_Ok_inv in Hs as [Hjwt ->].
  rewrite El. split.
  - split; cbn [auth_response ar_user ar_session_id ar_refresh_token ar_access_token set_audit_logs set_sessions users sessions].
    + done.
    + exists row. by rewrite Hu4.
    + exists s. rewrite Hs4, Hss. split_and!; try done. rewrite Hse. f_equal. congruence.
    + by rewrite <- Hnow.
  - rewrite <- Hac. exact Hacc.
Qed.
End Upsert.

(** C29: a social sign-in is of a verified address, and signs in its account. When a provider's
    callback succeeds, the code it carried was exchanged, under the verifier stored
    with its state, for a token with which the provider vouched for an address
    (Google's verified address; a GitHub address both primary and verified, never the
    profile's display address). The user signed in is the live account of that address,
    which was not banned, or a fresh one with the default role if there was none; the
    one session opened and the access token are that user's; and the
    provider's account is linked to that user, unless the provider's account was
    linked already, when it keeps its link. *)
Theorem oauth_verified_email {P : Platform} {R : Remote} (cfg : AppConfig) (goog : bool)
    (code st : string) (ctx : RequestContext) (w w' : World) (resp : AuthResponse) :
  (if goog then handle_google_callback cfg code st ctx w else handle_github_callback cfg code st ctx w)
    = (Ok resp, w') →
  unique_on (pk ur_id) (users (w_db w)) →
  ∃ client verifier tok email account u,
    (∃ r, r ∈ oauth_auth_requests (w_db w) ∧ oa_state_hash r = sha256_hex st ∧ oa_pkce_verifier r = verifier) ∧
    (if goog then get_google_client cfg else get_github_client cfg) = Ok client ∧
    exchange_code client code verifier = inl tok ∧
    (if goog then ∃ i, google_userinfo tok = Fetched i ∧ g_verified_email i = true ∧ g_email i = email ∧
       g_id i = account
     else ∃ g l i, github_user tok = Fetched g ∧ show_Z (gh_id g) = account ∧ github_emails tok = Fetched l ∧
       i ∈ l ∧ ge_primary i = true ∧ ge_verified i = true ∧ ge_email i = email) ∧
    upserted_user (to_ascii_lowercase (trim email)) (w_db w) u ∧
    signs_in cfg (w_now w) u resp (w_db w) (w_db w') ∧
    ∃ a, a ∈ accounts (w_db w') ∧ a_provider_id a = (if goog then "google" else "github") ∧
      a_account_id a = account ∧
      (a_user_id a = u_id u ∨
       ∃ a0, a0 ∈ accounts (w_db w) ∧ a_provider_id a0 = (if goog then "google" else "github") ∧
         a_account_id a0 = account ∧ a_user_id a0 = a_user_id a).
Proof.
  intros H Hpk. destruct goog.
  - unfold handle_google_callback in H. ok_step H. apply consume_auth_request_frame in Hs as Hframe.
    destruct Hframe as (l & Hd & Hn). apply consume_auth_request_Ok in Hs as ((r & Hr & Hh & _ & _ & _ & Hv) & _).
    ok_step H. ok_step H. apply exchange_Ok in Hs0 as [Hex ->]. ok_step H.
    apply fetch_json_Ok in Hs0 as [Hi ->]. ok_step H. apply upsert_Ok in H as (u & Hu & Hsig & Hacc); [|by rewrite Hd].
    rewrite Hd in Hu, Hsig, Hacc. rewrite Hn in Hsig. exists a0, a, a1, (g_email a2), (g_id a2), u.
    split_and!; try done; [by eauto | by exists a2 | by destruct Hsig; split].
  - unfold handle_github_callback in H. ok_step H. apply consume_auth_request_frame in Hs as Hframe.
    destruct Hframe as (l & Hd & Hn). apply consume_auth_request_Ok in Hs as ((r & Hr & Hh & _ & _ & _ & Hv) & _).
    ok_step H. ok_step H. apply exchange_Ok in Hs0 as [Hex ->]. ok_step H.
    apply fetch_json_Ok in Hs0 as [Hg ->]. ok_step H. apply fetch_json_Ok in Hs0 as [Hl ->]. ok_step H.
    apply fmap_Some in Ho as (i & Hi & ->). apply find_some in Hi as [Hin Hb].
    apply upsert_Ok in H as (u & Hu & Hsig & Hacc); [|by rewrite Hd].
    rewrite Hd in Hu, Hsig, Hacc. rewrite Hn in Hsig. exists a0, a, a1, (ge_email i), (show_Z (gh_id a2)), u.
    bool_facts. split_and!; try done; [by eauto | | by destruct Hsig; split].
    exists a2, a3, i. rewrite list_elem_of_In. by split_and!.
Qed.

Lemma oauth_verified_email_witness :
  ∃ u resp, fst Example_callback = Ok resp ∧ u_email u = "ada@example.com" ∧
    @signs_in toy Example_config 1000000 u resp (w_db Example_started) (w_db (snd Example_callback)).
Proof.
  assert (Hok : is_ok (fst Example_callback) = true) by (vm_compute; reflexivity).
  destruct Example_callback as [r w'] eqn:E. destruct r as [resp|e|]; [|discriminate Hok..].
  destruct (@oauth_verified_email toy toy_remote Example_config true "code" "csrf1" Example.ctx
    Example_started w' resp E) as (client & v & tok & email & acc & u & _ & _ & _ & Hi & Hu & Hs & _).
  - apply (bool_decide_unpack _); vm_compute; exact I.
  - exists u, resp. split; [reflexivity|]. split; [|exact Hs]. destruct Hu as [-> _].
    destruct Hi as (i & Hi & _ & <- & _). injection Hi as <-. vm_compute. reflexivity.
Defined.
