(* ===== verification/Disk.v ===== *)
(** * The file system and the object store as the services use them

    [tokio::fs] over a flat store of paths, and the calls to an S3-compatible
    service as an interface ([S3Api]). [w_io_faults] is the schedule of the
    failures to come: [true] at its head fails the next call. *)
From stdpp Require Import gmap.
From S2P Require Import Prelude RustStr Models Errors Platform World.

(** A call that may fail by schedule, or because [f] says so. *)
Definition io {A} (f : World -> option (A * World)) : M (option A) := fun w =>
  let run w := match f w with Some (a, w') => (Ok (Some a), w') | None => (Ok None, w) end in
  match w_io_faults w with
  | true :: fs => (Ok None, set_io_faults fs w)
  | false :: fs => run (set_io_faults fs w)
  | [] => run w
  end.

(** [f(...).await.map_err(|e| err)?] *)
Definition or_fail {A} (e : AppError) (m : M (option A)) : M A :=
  let! r := m in ok_or e r.

Definition fs_create_dir_all (_ : string) : M (option unit) := io (fun w => Some (tt, w)).
Definition fs_write (path bytes : string) : M (option unit) :=
  io (fun w => Some (tt, set_disk (<[path := bytes]> (w_disk w)) w)).
Definition fs_append (path bytes : string) : M (option unit) :=
  io (fun w => Some (tt, set_disk (<[path := unwrap_or "" (w_disk w !! path) +:+ bytes]> (w_disk w)) w)).
Definition fs_flush (_ : string) : M (option unit) := io (fun w => Some (tt, w)).
Definition fs_read (path : string) : M (option string) :=
  io (fun w => match w_disk w !! path with Some b => Some (b, w) | None => None end).
Definition fs_rename (a b : string) : M (option unit) :=
  io (fun w => match w_disk w !! a with
               | Some c => Some (tt, set_disk (<[b := c]> (delete a (w_disk w))) w)
               | None => None
               end).
Definition fs_copy (a b : string) : M (option unit) :=
  io (fun w => match w_disk w !! a with
               | Some c => Some (tt, set_disk (<[b := c]> (w_disk w)) w)
               | None => None
               end).

Inductive removal := Removed | WasAbsent | RemovalFailed.
(** [fs::remove_file], with the one error kind the source distinguishes. *)
Definition fs_remove_file (path : string) : M removal := fun w =>
  let run w := match w_disk w !! path with
               | Some _ => (Ok Removed, set_disk (delete path (w_disk w)) w)
               | None => (Ok WasAbsent, w)
               end in
  match w_io_faults w with
  | true :: fs => (Ok RemovalFailed, set_io_faults fs w)
  | false :: fs => run (set_io_faults fs w)
  | [] => run w
  end.
(** [let _ = fs::remove_file(path).await] *)
Definition fs_remove_quietly (path : string) : M unit := do! fs_remove_file path in ret tt.

(** [PathBuf::join] of a relative name *)
Definition path_join (root name : string) : string :=
  if root =s "" then name
  else if opt_eqb Z.eqb (last (bytes_of root)) (Some 47%Z) then root +:+ name
  else root +:+ "/" +:+ name.

(** ** The object store service *)

Class S3Api := {
  s3_head_bucket : string -> M (option unit);
  s3_put_object : string -> string -> string -> string -> M (option unit);
  s3_get_object : string -> string -> M (option (string * option Z));
  s3_head_object : string -> string -> M (option (option Z * option string));
  s3_delete_object : string -> string -> M (option unit);
  s3_presigning_config : Z -> bool;
  s3_presign_get : string -> string -> Z -> option string;
  s3_presign_put : string -> string -> string -> Z -> option string }.

(** A bucket per name: objects by [bucket/key]. *)
Definition toy_s3 : S3Api := {|
  s3_head_bucket _ := io (fun w => Some (tt, w));
  s3_put_object b k ty body := io (fun w =>
    Some (tt, set_bucket (<[b +:+ "/" +:+ k := {| bo_bytes := body; bo_type := ty |}]> (w_bucket w)) w));
  s3_get_object b k := io (fun w => match w_bucket w !! (b +:+ "/" +:+ k) with
    | Some o => Some ((bo_bytes o, Some (str_len (bo_bytes o))), w) | None => None end);
  s3_head_object b k := io (fun w => match w_bucket w !! (b +:+ "/" +:+ k) with
    | Some o => Some ((Some (str_len (bo_bytes o)), Some (bo_type o)), w) | None => None end);
  s3_delete_object b k := io (fun w =>
    Some (tt, set_bucket (delete (b +:+ "/" +:+ k) (w_bucket w)) w));
  s3_presigning_config secs := (secs <=? 604800)%Z;
  s3_presign_get b k secs := Some ("https://" +:+ b +:+ "/" +:+ k +:+ "?X=" +:+ show_Z secs);
  s3_presign_put b k ty secs := Some ("https://" +:+ b +:+ "/" +:+ k +:+ "?X=" +:+ show_Z secs) |}.

(** ** Lemmas *)

(** File-system calls leave the database and the clock alone. *)
Definition io_steady {A} (f : World -> option (A * World)) : Prop :=
  ∀ w a w', f w = Some (a, w') → w_db w' = w_db w ∧ w_now w' = w_now w ∧ w_faults w' = w_faults w.

Lemma respects_io R `{!PreOrder R} {A} (f : World -> option (A * World)) :
  io_steady f → respects R (io f).
Proof.
  intros Hf w. unfold io. destruct (w_io_faults w) as [|[] fs]; simpl; [|reflexivity|].
  all: destruct (f _) as [[a w']|] eqn:E; simpl; [|reflexivity];
    apply Hf in E as (-> & _ & _); reflexivity.
Qed.
Lemma steady_io {A} (f : World -> option (A * World)) : io_steady f → steady (io f).
Proof.
  intros Hf w. unfold io. destruct (w_io_faults w) as [|[] fs]; simpl; [|done|].
  all: destruct (f _) as [[a w']|] eqn:E; simpl; [|done];
    by apply Hf in E as (_ & -> & ->).
Qed.
Lemma respects_remove R `{!PreOrder R} p : respects R (fs_remove_file p).
Proof.
  intros w. unfold fs_remove_file.
  destruct (w_io_faults w) as [|[] fs]; simpl; [|reflexivity|]; destruct (w_disk _ !! p); reflexivity.
Qed.
Lemma steady_remove p : steady (fs_remove_file p).
Proof.
  intros w. unfold fs_remove_file.
  destruct (w_io_faults w) as [|[] fs]; simpl; [|done|]; by destruct (w_disk _ !! p).
Qed.

Ltac io_frame := intros ? ? ?; cbv beta; repeat case_match; intros ?; simplify_eq/=; done.
#[export] Hint Resolve respects_io respects_remove : respects.
#[export] Hint Resolve steady_io steady_remove : steady.
#[export] Hint Extern 1 (io_steady _) => io_frame : respects steady.
#[export] Hint Unfold fs_create_dir_all fs_write fs_append fs_flush fs_read fs_rename fs_copy : respects steady.

(** On a healthy disk. *)
Section Healthy.
Context {A B : Type}.
Lemma bind_io (f : World -> option (A * World)) (k : option A -> M B) w :
  w_io_faults w = [] →
  bind (io f) k w = match f w with Some (a, w') => k (Some a) w' | None => k None w end.
Proof. intros H. unfold bind, io. rewrite H. by destruct (f w) as [[a w']|]. Qed.
Lemma bind_or_fail e (m : M (option A)) (k : A -> M B) w :
  bind (or_fail e m) k w = bind m (fun o => bind (ok_or e o) k) w.
Proof. unfold or_fail. apply bind_assoc. Qed.
End Healthy.
