(* ===== verification/StorageBackend.v ===== *)
(** * Pluggable object storage ([services/storage_backend])

    The [StorageBackend] trait as a class of operations, the key check every
    backend makes first, the local and the S3 backend as instances, and what a
    backend promises to the storage service ([BackendLaws]). *)
From stdpp Require Import gmap.
From S2P Require Import Prelude RustStr Models Errors Platform World Disk.

Record ObjectMeta := { om_len : Z; om_content_type : option string }.
(** A stored object opened for reading: its bytes, and the length announced. *)
Record StoredObject := { so_stream : string; so_len : Z }.

(** [trait StorageBackend] *)
Class StorageBackend := {
  sb_name : string;
  sb_check_ready : M unit;
  sb_put_file : string -> string -> string -> M unit;
  sb_open : string -> M StoredObject;
  sb_head : string -> M ObjectMeta;
  sb_put_bytes : string -> string -> string -> M unit;
  sb_delete : string -> M unit;
  sb_presign_get : string -> Z -> M (option string);
  sb_presign_put : string -> string -> Z -> M (option string) }.

(** ** Keys *)

Definition key_char (c : Z) : bool :=
  (is_ascii_alphanumeric c || (c =? 45) || (c =? 46) || (c =? 95))%Z%bool.

Definition valid_storage_key (key : string) : bool :=
  (negb (key =s "") && (str_len key <=? 128)%Z && forallb key_char (chars key)
   && negb (contains ".." key) && negb (starts_with "." key))%bool.

Definition validate_storage_key (key : string) : outcome unit AppError :=
  if valid_storage_key key then Ok tt else Err (BadRequest "Invalid storage key").

Definition local_path_for (root key : string) : outcome string AppError :=
  match validate_storage_key key with
  | Ok _ => Ok (path_join root key)
  | Err e => Err e
  | Panic => Panic
  end.

(** ** The local backend ([local.rs]) *)

Section Local.
Context (root : string).

Definition local_put_file (key local_path _content_type : string) : M unit :=
  let! dest := lift (local_path_for root key) in
  do! or_fail (Internal "Failed to create upload dir") (fs_create_dir_all root) in
  let! renamed := fs_rename local_path dest in
  match renamed with
  | Some _ => ret tt
  | None =>
      do! or_fail (Internal "Failed to store file") (fs_copy local_path dest) in
      fs_remove_quietly local_path
  end.

Definition local_open (key : string) : M StoredObject :=
  let! path := lift (local_path_for root key) in
  let! bytes := or_fail (NotFound "File not found") (fs_read path) in
  ret {| so_stream := bytes; so_len := str_len bytes |}.

Definition local_head (key : string) : M ObjectMeta :=
  let! path := lift (local_path_for root key) in
  let! bytes := or_fail (NotFound "File not found") (fs_read path) in
  ret {| om_len := str_len bytes; om_content_type := None |}.

Definition local_put_bytes (key bytes _content_type : string) : M unit :=
  let! dest := lift (local_path_for root key) in
  do! or_fail (Internal "Failed to create upload dir") (fs_create_dir_all root) in
  or_fail (Internal "Failed to store file") (fs_write dest bytes).

Definition local_delete (key : string) : M unit :=
  let! path := lift (local_path_for root key) in
  let! r := fs_remove_file path in
  match r with
  | Removed | WasAbsent => ret tt
  | RemovalFailed => fail (Internal "Failed to delete stored object")
  end.

Definition LocalBackend : StorageBackend := {|
  sb_name := "local";
  sb_check_ready := or_fail (ServiceUnavailable ("Upload directory " +:+ root +:+ " is not writable"))
                      (fs_create_dir_all root);
  sb_put_file := local_put_file;
  sb_open := local_open;
  sb_head := local_head;
  sb_put_bytes := local_put_bytes;
  sb_delete := local_delete;
  (* the trait's default methods *)
  sb_presign_get _ _ := ret None;
  sb_presign_put _ _ _ := ret None |}.
End Local.

(** ** The S3 backend ([s3.rs]) *)

Section S3.
Context {A : S3Api} (cfg : S3Config).

Definition s3_key_prefix : string := trim_matches 47 (s3_prefix cfg).

Definition object_key (key : string) : outcome string AppError :=
  match validate_storage_key key with
  | Ok _ => Ok (if s3_key_prefix =s "" then key else s3_key_prefix +:+ "/" +:+ key)
  | Err e => Err e
  | Panic => Panic
  end.

(** [ttl_seconds.clamp(1, 604_800)] *)
Definition presign_seconds (ttl : Z) : Z := Z.max 1 (Z.min ttl 604800).
Definition presigning (ttl : Z) : outcome Z AppError :=
  if s3_presigning_config (presign_seconds ttl) then Ok (presign_seconds ttl)
  else Err (Internal "Invalid presigning config").

Definition s3_put_file (key local_path content_type : string) : M unit :=
  let! k := lift (object_key key) in
  let! body := or_fail (Internal "Failed to read upload for transfer") (fs_read local_path) in
  or_fail (Internal "Failed to store object") (s3_put_object (s3_bucket cfg) k content_type body).

Definition s3_open (key : string) : M StoredObject :=
  let! k := lift (object_key key) in
  let! o := or_fail (NotFound "File not found") (s3_get_object (s3_bucket cfg) k) in
  ret {| so_stream := fst o; so_len := Z.max (unwrap_or 0%Z (snd o)) 0 |}.

Definition s3_head (key : string) : M ObjectMeta :=
  let! k := lift (object_key key) in
  let! o := or_fail (NotFound "File not found") (s3_head_object (s3_bucket cfg) k) in
  ret {| om_len := Z.max (unwrap_or 0%Z (fst o)) 0; om_content_type := snd o |}.

Definition s3_put_bytes (key bytes content_type : string) : M unit :=
  let! k := lift (object_key key) in
  or_fail (Internal "Failed to store object") (s3_put_object (s3_bucket cfg) k content_type bytes).

Definition s3_delete (key : string) : M unit :=
  let! k := lift (object_key key) in
  or_fail (Internal "Failed to delete object") (s3_delete_object (s3_bucket cfg) k).

Definition s3_presign_get_url (key : string) (ttl : Z) : M (option string) :=
  let! k := lift (object_key key) in
  let! secs := lift (presigning ttl) in
  let! url := ok_or (Internal "Failed to presign download URL") (s3_presign_get (s3_bucket cfg) k secs) in
  ret (Some url).

Definition s3_presign_put_url (key content_type : string) (ttl : Z) : M (option string) :=
  let! k := lift (object_key key) in
  let! secs := lift (presigning ttl) in
  let! url := ok_or (Internal "Failed to presign upload URL")
                (s3_presign_put (s3_bucket cfg) k content_type secs) in
  ret (Some url).

Definition check_connectivity : M unit :=
  or_fail (ServiceUnavailable ("S3 bucket '" +:+ s3_bucket cfg +:+ "' is not reachable"))
    (s3_head_bucket (s3_bucket cfg)).

Definition S3Backend : StorageBackend := {|
  sb_name := "s3";
  sb_check_ready := check_connectivity;
  sb_put_file := s3_put_file;
  sb_open := s3_open;
  sb_head := s3_head;
  sb_put_bytes := s3_put_bytes;
  sb_delete := s3_delete;
  sb_presign_get := s3_presign_get_url;
  sb_presign_put := s3_presign_put_url |}.
End S3.

(** [AppState::new]: the backend the configuration selects. *)
Definition select_backend {A : S3Api} (cfg : AppConfig) : StorageBackend :=
  match storage_backend cfg, s3 cfg with
  | S3, Some c => S3Backend c
  | S3, None => LocalBackend (upload_dir cfg)
  | Local, _ => LocalBackend (upload_dir cfg)
  end.
