(* ===== verification/BackendLaws.v ===== *)
(** * What a storage backend promises

    The contract the storage service relies on, as a class over
    [StorageBackend]: keys are checked first, objects are what was put, and
    nothing but the object store moves. Both backends meet it, the S3 one given
    the same of the service it calls ([S3Laws]). *)
From stdpp Require Import gmap.
From S2P Require Import Prelude RustStr Models Errors Platform World Crypto Disk StorageBackend.

(** [stored w key] is the object a backend holds under [key]; [dir] is the
    directory in which the service writes its temporary files. *)
Class BackendLaws (dir : string) (B : StorageBackend) := {
  stored : World -> string -> option string;
  (* a foreign key is refused before anything happens *)
  bl_guard key w : valid_storage_key key = false →
    (∀ p ty, sb_put_file key p ty w = (Err (BadRequest "Invalid storage key"), w)) ∧
    (∀ b ty, sb_put_bytes key b ty w = (Err (BadRequest "Invalid storage key"), w)) ∧
    sb_open key w = (Err (BadRequest "Invalid storage key"), w) ∧
    sb_head key w = (Err (BadRequest "Invalid storage key"), w) ∧
    sb_delete key w = (Err (BadRequest "Invalid storage key"), w);
  (* reads report what is stored and change nothing *)
  bl_open key w o w' : sb_open key w = (Ok o, w') →
    stored w key = Some (so_stream o) ∧ ∀ k, stored w' k = stored w k;
  bl_head key w m w' : sb_head key w = (Ok m, w') →
    (∃ b, stored w key = Some b ∧ om_len m = str_len b) ∧ ∀ k, stored w' k = stored w k;
  bl_head_err key w e w' : sb_head key w = (Err e, w') → ∀ k, stored w' k = stored w k;
  (* writes store the bytes given, under that key only *)
  bl_put_bytes key b ty w w' : sb_put_bytes key b ty w = (Ok tt, w') →
    stored w' key = Some b ∧ ∀ k, valid_storage_key k = true → k ≠ key → stored w' k = stored w k;
  bl_put_file key name ty w w' : sb_put_file key (path_join dir name) ty w = (Ok tt, w') →
    name ≠ key →
    ∃ b, w_disk w !! path_join dir name = Some b ∧ stored w' key = Some b ∧
      ∀ k, valid_storage_key k = true → k ≠ key → k ≠ name → stored w' k = stored w k;
  bl_delete key w w' : sb_delete key w = (Ok tt, w') →
    stored w' key = None ∧ ∀ k, valid_storage_key k = true → k ≠ key → stored w' k = stored w k;
  (* a healthy store serves what it holds *)
  bl_progress key w : valid_storage_key key = true → w_io_faults w = [] →
    (∀ b ty, is_ok (fst (sb_put_bytes key b ty w)) = true) ∧
    is_ok (fst (sb_delete key w)) = true ∧
    (is_Some (stored w key) → is_ok (fst (sb_open key w)) = true ∧ is_ok (fst (sb_head key w)) = true);
  (* the temporary files of the service are not objects *)
  bl_scratch w w' name key : name ≠ key → w_bucket w' = w_bucket w →
    (∀ p, p ≠ path_join dir name → w_disk w' !! p = w_disk w !! p) →
    stored w' key = stored w key;
  (* the database and the clock are not the backend's *)
  bl_frame R `{!PreOrder R} key :
    (∀ p ty, respects R (sb_put_file key p ty)) ∧ (∀ b ty, respects R (sb_put_bytes key b ty)) ∧
    respects R (sb_open key) ∧ respects R (sb_head key) ∧ respects R (sb_delete key) ∧
    (∀ ttl, respects R (sb_presign_get key ttl)) ∧ (∀ ty ttl, respects R (sb_presign_put key ty ttl));
  bl_steady key :
    (∀ p ty, steady (sb_put_file key p ty)) ∧ (∀ b ty, steady (sb_put_bytes key b ty)) ∧
    steady (sb_open key) ∧ steady (sb_head key) ∧ steady (sb_delete key) ∧
    (∀ ttl, steady (sb_presign_get key ttl)) ∧ (∀ ty ttl, steady (sb_presign_put key ty ttl)) }.

(** ** Paths *)

Lemma str_app_inv_head p a b : p +:+ a = p +:+ b → a = b.
Proof. induction p as [|c p IH]; simpl; [done | intros [= H]; auto]. Qed.

Lemma path_join_inj root a b : path_join root a = path_join root b → a = b.
Proof.
  unfold path_join. destruct (root =s ""); [done|].
  destruct (opt_eqb _ _ _); [apply str_app_inv_head|].
  intros H%str_app_inv_head. by injection H.
Qed.

(** ** The calls on the disk, inverted *)

Section DiskInv.
Context {A : Type}.

(** A call that came back with a value ran on the same world, up to the schedule. *)
Lemma io_Some_inv (f : World -> option (A * World)) w a w' :
  io f w = (Ok (Some a), w') → ∃ fs, f (set_io_faults fs w) = Some (a, w').
Proof.
  unfold io. destruct (w_io_faults w) as [|[] fs] eqn:E; [|done|].
  - destruct (f w) as [[a' w1]|] eqn:Ef; [|done]. intros [= -> ->]. exists []. rewrite <- Ef. f_equal.
    destruct w. simpl in *. by subst.
  - destruct (f (set_io_faults fs w)) as [[a' w1]|] eqn:Ef; [|done]. intros [= -> ->]. by exists fs.
Qed.

Lemma io_None_inv (f : World -> option (A * World)) w w' :
  io f w = (Ok None, w') → w_disk w' = w_disk w ∧ w_bucket w' = w_bucket w.
Proof.
  unfold io. destruct (w_io_faults w) as [|[] fs] eqn:E; [|by intros [= <-]|].
  - destruct (f w) as [[a' w1]|]; by intros [= <-].
  - destruct (f _) as [[a' w1]|]; by intros [= <-].
Qed.

Lemma io_Ok (f : World -> option (A * World)) w : ∃ o w', io f w = (Ok o, w').
Proof. unfold io. destruct (w_io_faults w) as [|[] fs]; [|eauto|]; destruct (f _) as [[a w']|]; eauto. Qed.

Lemma io_not_Err (f : World -> option (A * World)) w e w' : io f w ≠ (Err e, w').
Proof. destruct (io_Ok f w) as (o & w1 & ->). done. Qed.
Lemma io_not_Panic (f : World -> option (A * World)) w w' : io f w ≠ (Panic, w').
Proof. destruct (io_Ok f w) as (o & w1 & ->). done. Qed.

Lemma or_fail_Ok_inv e (m : M (option A)) w a w' :
  or_fail e m w = (Ok a, w') → m w = (Ok (Some a), w').
Proof. intros H. unfold or_fail in H. ok_step H. apply ok_or_Ok_inv in H as [-> ->]. done. Qed.

Lemma or_fail_Err_inv e (f : World -> option (A * World)) w x w' :
  or_fail e (io f) w = (Err x, w') → x = e ∧ w_disk w' = w_disk w ∧ w_bucket w' = w_bucket w.
Proof.
  unfold or_fail, bind. destruct (io_Ok f w) as (o & w1 & E). rewrite E.
  destruct o as [a|]; unfold ok_or, ret, fail; intros [= <- <-]. apply io_None_inv in E. tauto.
Qed.
End DiskInv.

(** ** The local backend *)

Section LocalLaws.
Context (root : string).
Local Abbreviation at_ w key := (w_disk w !! path_join root key).

Lemma local_path_valid key : valid_storage_key key = true →
  local_path_for root key = Ok (path_join root key).
Proof. intros H. unfold local_path_for, validate_storage_key. by rewrite H. Qed.

Lemma local_path_Ok key p : local_path_for root key = Ok p →
  valid_storage_key key = true ∧ p = path_join root key.
Proof. unfold local_path_for, validate_storage_key. destruct (valid_storage_key key); naive_solver. Qed.

Lemma local_open_Ok key w o w' : local_open root key w = (Ok o, w') →
  at_ w key = Some (so_stream o) ∧ w_disk w' = w_disk w.
Proof.
  intros H. unfold local_open in H. ok_step H. apply local_path_Ok in Hs as [_ ->]. ok_step H.
  apply or_fail_Ok_inv in Hs. apply io_Some_inv in Hs as [fs Hs]. cbn in Hs.
  destruct (w_disk w !! _) eqn:E; [|done]. injection Hs as <- <-. by injection H as <- <-.
Qed.

Lemma local_head_Ok key w m w' : local_head root key w = (Ok m, w') →
  (∃ b, at_ w key = Some b ∧ om_len m = str_len b) ∧ w_disk w' = w_disk w.
Proof.
  intros H. unfold local_head in H. ok_step H. apply local_path_Ok in Hs as [_ ->]. ok_step H.
  apply or_fail_Ok_inv in Hs. apply io_Some_inv in Hs as [fs Hs]. cbn in Hs.
  destruct (w_disk w !! _) eqn:E; [|done]. injection Hs as <- <-. injection H as <- <-. eauto.
Qed.

Lemma local_head_Err key w e w' : local_head root key w = (Err e, w') → w_disk w' = w_disk w.
Proof.
  unfold local_head. rewrite bind_lift. destruct (local_path_for _ _); [|by intros [= _ <-]|done].
  intros [H | (b & w1 & _ & H)]%bind_Err_inv; [|done]. by apply or_fail_Err_inv in H as (_ & ? & _).
Qed.

Lemma local_put_bytes_Ok key b ty w w' : local_put_bytes root key b ty w = (Ok tt, w') →
  w_disk w' = <[path_join root key := b]> (w_disk w).
Proof.
  intros H. unfold local_put_bytes in H. ok_step H. apply local_path_Ok in Hs as [_ ->]. ok_step H.
  apply or_fail_Ok_inv in Hs. apply io_Some_inv in Hs as [fs [= <- <-]].
  apply or_fail_Ok_inv in H. apply io_Some_inv in H as [fs' [= <-]]. done.
Qed.

Lemma local_delete_Ok key w w' : local_delete root key w = (Ok tt, w') →
  w_disk w' = delete (path_join root key) (w_disk w).
Proof.
  intros H. unfold local_delete in H. ok_step H. apply local_path_Ok in Hs as [_ ->]. ok_step H.
  unfold fs_remove_file in Hs.
  destruct (w_io_faults w) as [|[] fs]; [|injection Hs as <- <-; discriminate H|]; simpl in Hs;
    destruct (w_disk w !! _) eqn:E; injection Hs as <- <-; injection H as <-; wsimpl;
    first [done | by rewrite delete_id].
Qed.

Lemma local_put_file_Ok key path ty w w' : local_put_file root key path ty w = (Ok tt, w') →
  path ≠ path_join root key →
  ∃ b, w_disk w !! path = Some b ∧ at_ w' key = Some b ∧
    ∀ p, p ≠ path → p ≠ path_join root key → w_disk w' !! p = w_disk w !! p.
Proof.
  intros H Hne. unfold local_put_file in H. ok_step H. apply local_path_Ok in Hs as [_ ->]. ok_step H.
  apply or_fail_Ok_inv in Hs. apply io_Some_inv in Hs as [fs [= <- <-]]. ok_step H.
  destruct a as [[]|].
  - injection H as <-. apply io_Some_inv in Hs as [fs' Hs]. wsimpl.
    destruct (w_disk w !! path) as [b|]; [|done]. injection Hs as <-. exists b. wsimpl.
    split; [done|]. split; [by rewrite lookup_insert_eq|].
    intros p H1 H2. by rewrite lookup_insert_ne, lookup_delete_ne.
  - apply io_None_inv in Hs as [Hd _]. wsimpl. ok_step H. apply or_fail_Ok_inv in Hs.
    apply io_Some_inv in Hs as [fs' Hs]. wsimpl. rewrite Hd in Hs.
    destruct (w_disk w !! path) as [b|] eqn:Eb; [|done]. injection Hs as <- <-. exists b.
    split; [done|]. unfold fs_remove_quietly in H. ok_step H. injection H as ->.
    assert (Hdisk : w_disk w' = <[path_join root key := b]> (w_disk w) ∨
      w_disk w' = delete path (<[path_join root key := b]> (w_disk w))).
    { unfold fs_remove_file in Hs. wsimpl. destruct fs' as [|[] fs']; simpl in Hs;
        [|injection Hs as <- <-; by left|];
        destruct (<[_ := _]> _ !! path) eqn:E; injection Hs as <- <-; wsimpl; auto. }
    destruct Hdisk as [-> | ->].
    + split; [by rewrite lookup_insert_eq|]. intros p H1 H2. by rewrite lookup_insert_ne.
    + split; [by rewrite lookup_delete_ne, lookup_insert_eq by done|].
      intros p H1 H2. by rewrite lookup_delete_ne, lookup_insert_ne.
Qed.
End LocalLaws.

Lemma guard_lift {A} root key (k : string -> M A) w : valid_storage_key key = false →
  bind (lift (local_path_for root key)) k w = (Err (BadRequest "Invalid storage key"), w).
Proof. intros H. unfold local_path_for, validate_storage_key. by rewrite H. Qed.

#[export] Hint Extern 1 (respects _ (or_fail _ _)) => unfold or_fail : respects.

(** Project the operations of a concrete backend. *)
Ltac sb_simpl :=
  cbn [sb_name sb_check_ready sb_put_file sb_open sb_head sb_put_bytes sb_delete sb_presign_get
       sb_presign_put LocalBackend S3Backend].
Ltac sb_simpl_in H :=
  cbn [sb_name sb_check_ready sb_put_file sb_open sb_head sb_put_bytes sb_delete sb_presign_get
       sb_presign_put LocalBackend S3Backend] in H.
Ltac io_unfold :=
  unfold fs_remove_quietly, or_fail, fs_create_dir_all, fs_write, fs_append, fs_flush, fs_read,
    fs_rename, fs_copy.
Ltac local_unfold :=
  unfold local_put_file, local_put_bytes, local_open, local_head, local_delete; io_unfold.

#[export] Program Instance LocalLaws root : BackendLaws root (LocalBackend root) := {|
  stored w key := w_disk w !! path_join root key |}.
Next Obligation.
  intros root key w H. sb_simpl. local_unfold. split_and!; intros; by apply guard_lift.
Qed.
Next Obligation.
  intros root key w o w' H. apply local_open_Ok in H as [H1 H2]. split; [done|]. intros k. by rewrite H2.
Qed.
Next Obligation.
  intros root key w m w' H. apply local_head_Ok in H as [H1 H2]. split; [done|]. intros k. by rewrite H2.
Qed.
Next Obligation.
  intros root key w e w' H k. apply local_head_Err in H. cbn. by rewrite H.
Qed.
Next Obligation.
  intros root key b ty w w' H. apply (local_put_bytes_Ok root key b ty) in H. cbn. rewrite H. split.
  - by rewrite lookup_insert_eq.
  - intros k _ Hne. rewrite lookup_insert_ne; [done|]. intros E. by apply path_join_inj in E.
Qed.
Next Obligation.
  intros root key name ty w w' H Hne. apply (local_put_file_Ok root key _ ty) in H as (b & H1 & H2 & H3).
  - cbn. exists b. split; [done|]. split; [done|]. intros k _ Hk Hk'.
    apply H3; intros E; by apply path_join_inj in E.
  - intros E. by apply path_join_inj in E.
Qed.
Next Obligation.
  intros root key w w' H. apply local_delete_Ok in H. cbn. rewrite H. split.
  - by rewrite lookup_delete_eq.
  - intros k _ Hne. rewrite lookup_delete_ne; [done|]. intros E. by apply path_join_inj in E.
Qed.
Next Obligation.
  intros root key w Hv Hio. sb_simpl. unfold local_put_bytes, local_delete, local_open, local_head.
  setoid_rewrite bind_lift. rewrite local_path_valid by done. split_and!.
  - intros b ty. unfold or_fail, fs_create_dir_all, fs_write. rewrite bind_assoc, bind_io by done.
    cbn [ok_or]. rewrite bind_ret, bind_io by done. done.
  - unfold bind, fs_remove_file. rewrite Hio. by destruct (w_disk w !! _).
  - intros [b Hb]. unfold or_fail, fs_read. rewrite !bind_assoc, !bind_io, !Hb by done. done.
Qed.
Next Obligation.
  intros root w w' name key Hne _ Hd. cbn. apply Hd. intros E. by apply path_join_inj in E.
Qed.
Next Obligation.
  intros root R HR key. sb_simpl. local_unfold. split_and!; intros; respects_tac.
Qed.
Next Obligation.
  intros root key. sb_simpl. local_unfold. split_and!; intros; steady_tac.
Qed.

(** ** The S3 backend *)

(** What the object store service promises, by bucket and object key. *)
Class S3Laws (A : S3Api) := {
  object : World -> string -> string -> option string;
  s3_get_law b k w o w' : s3_get_object b k w = (Ok (Some o), w') → object w b k = Some (fst o);
  s3_head_law b k w o w' : s3_head_object b k w = (Ok (Some o), w') →
    ∃ c, object w b k = Some c ∧ fst o = Some (str_len c);
  s3_get_same b k w r w' : s3_get_object b k w = (r, w') → ∀ b2 k2, object w' b2 k2 = object w b2 k2;
  s3_head_same b k w r w' : s3_head_object b k w = (r, w') → ∀ b2 k2, object w' b2 k2 = object w b2 k2;
  s3_put_law b k ty c w w' : s3_put_object b k ty c w = (Ok (Some tt), w') →
    object w' b k = Some c ∧ ∀ k2, k2 ≠ k → object w' b k2 = object w b k2;
  s3_delete_law b k w w' : s3_delete_object b k w = (Ok (Some tt), w') →
    object w' b k = None ∧ ∀ k2, k2 ≠ k → object w' b k2 = object w b k2;
  s3_progress_law b k w : w_io_faults w = [] →
    (∀ ty c, ∃ w', s3_put_object b k ty c w = (Ok (Some tt), w')) ∧
    (∃ w', s3_delete_object b k w = (Ok (Some tt), w')) ∧
    (is_Some (object w b k) → (∃ o w', s3_get_object b k w = (Ok (Some o), w')) ∧
       ∃ o w', s3_head_object b k w = (Ok (Some o), w'));
  s3_local_law w w' b k : w_bucket w' = w_bucket w → object w' b k = object w b k;
  s3_frame_law R `{!PreOrder R} b k :
    (∀ ty c, respects R (s3_put_object b k ty c)) ∧ respects R (s3_get_object b k) ∧
    respects R (s3_head_object b k) ∧ respects R (s3_delete_object b k);
  s3_steady_law b k :
    (∀ ty c, steady (s3_put_object b k ty c)) ∧ steady (s3_get_object b k) ∧
    steady (s3_head_object b k) ∧ steady (s3_delete_object b k) }.

Section S3BackendLaws.
Context {A : S3Api} `{!S3Laws A} (cfg : S3Config) (dir : string).

Lemma object_key_valid key : valid_storage_key key = true →
  ∃ k, object_key cfg key = Ok k.
Proof. intros H. unfold object_key, validate_storage_key. rewrite H. eauto. Qed.

Lemma object_key_inj a b k : object_key cfg a = Ok k → object_key cfg b = Ok k → a = b.
Proof.
  unfold object_key, validate_storage_key. destruct (valid_storage_key a), (valid_storage_key b); try done.
  destruct (s3_key_prefix cfg =s ""); intros [= <-]; [by intros [= ->]|].
  intros [= H%str_app_inv_head]. by injection H.
Qed.

Lemma s3_guard_lift {B} key (k : string -> M B) w : valid_storage_key key = false →
  bind (lift (object_key cfg key)) k w = (Err (BadRequest "Invalid storage key"), w).
Proof. intros H. unfold object_key, validate_storage_key. by rewrite H. Qed.

(** The object held under a key, found under the prefixed name. *)
Definition s3_stored (w : World) (key : string) : option string :=
  match object_key cfg key with Ok k => object w (s3_bucket cfg) k | _ => None end.

Lemma s3_stored_at key k w : object_key cfg key = Ok k → s3_stored w key = object w (s3_bucket cfg) k.
Proof. unfold s3_stored. by intros ->. Qed.

(** Writing one object leaves the objects of the other keys. *)
Lemma s3_stored_others key k w w' :
  object_key cfg key = Ok k →
  (∀ k2, k2 ≠ k → object w' (s3_bucket cfg) k2 = object w (s3_bucket cfg) k2) →
  ∀ key2, key2 ≠ key → s3_stored w' key2 = s3_stored w key2.
Proof.
  intros Hk Ho key2 Hne. unfold s3_stored. destruct (object_key cfg key2) as [k2|e|] eqn:E; [|done..].
  apply Ho. intros ->. apply Hne. by eapply object_key_inj.
Qed.

Lemma s3_stored_same w w' :
  (∀ b k, object w' b k = object w b k) → ∀ key, s3_stored w' key = s3_stored w key.
Proof. intros H key. unfold s3_stored. by destruct (object_key cfg key). Qed.

Lemma s3_open_Ok key w o w' : s3_open cfg key w = (Ok o, w') →
  s3_stored w key = Some (so_stream o) ∧ ∀ k, s3_stored w' k = s3_stored w k.
Proof.
  intros H. unfold s3_open in H. ok_step H. ok_step H. apply or_fail_Ok_inv in Hs0. injection H as <- <-.
  rewrite (s3_stored_at _ _ _ Hs). split; [by eapply s3_get_law|].
  apply s3_stored_same. by eapply s3_get_same.
Qed.

Lemma s3_head_result key w r w' : s3_head cfg key w = (r, w') →
  (∀ k, s3_stored w' k = s3_stored w k) ∧
  ∀ m, r = Ok m → ∃ b, s3_stored w key = Some b ∧ om_len m = str_len b.
Proof.
  unfold s3_head. rewrite bind_lift. destruct (object_key cfg key) as [k|e|] eqn:Ek; [|by intros [= <- <-]..].
  unfold or_fail, bind. destruct (s3_head_object (s3_bucket cfg) k w) as [x w1] eqn:E.
  assert (Hsame : ∀ k, s3_stored w1 k = s3_stored w k).
  { apply s3_stored_same. by eapply s3_head_same. }
  destruct x as [[o|]|e|]; cbn; intros [= <- <-]; (split; [exact Hsame|]); [|done..].
  intros m [= <-]. apply s3_head_law in E as (c & Hc & Ho). rewrite (s3_stored_at _ _ _ Ek), Ho.
  exists c. split; [done|]. cbn. unfold str_len. lia.
Qed.
End S3BackendLaws.

#[export] Program Instance S3BackendLaws_instance {A : S3Api} `{!S3Laws A} cfg dir :
    BackendLaws dir (S3Backend cfg) := {| stored := s3_stored cfg |}.
Next Obligation.
  intros A HA cfg dir key w H. sb_simpl. unfold s3_put_file, s3_put_bytes, s3_open, s3_head, s3_delete.
  split_and!; intros; by apply s3_guard_lift.
Qed.
Next Obligation. intros A HA cfg dir key w o w' H. by apply s3_open_Ok in H. Qed.
Next Obligation.
  intros A HA cfg dir key w m w' H. apply s3_head_result in H as [H1 H2]. eauto.
Qed.
Next Obligation. intros A HA cfg dir key w e w' H. by apply s3_head_result in H as [H1 _]. Qed.
Next Obligation.
  intros A HA cfg dir key b ty w w' H. sb_simpl_in H. unfold s3_put_bytes in H. ok_step H.
  apply or_fail_Ok_inv, s3_put_law in H as [H1 H2]. rewrite (s3_stored_at _ _ _ _ Hs).
  split; [done|]. intros k _. by eapply s3_stored_others.
Qed.
Next Obligation.
  intros A HA cfg dir key name ty w w' H _. sb_simpl_in H. unfold s3_put_file in H. ok_step H. ok_step H.
  apply or_fail_Ok_inv, io_Some_inv in Hs0 as [fs Hr]. cbn in Hr.
  destruct (w_disk w !! _) as [c|] eqn:E; [|done]. injection Hr as <- <-.
  apply or_fail_Ok_inv, s3_put_law in H as [H1 H2]. exists c. rewrite (s3_stored_at _ _ _ _ Hs).
  split; [done|]. split; [done|]. intros k _ Hk _.
  rewrite (s3_stored_others cfg key a (set_io_faults fs w) w') by done.
  apply s3_stored_same. intros b2 k2. by apply s3_local_law.
Qed.
Next Obligation.
  intros A HA cfg dir key w w' H. sb_simpl_in H. unfold s3_delete in H. ok_step H.
  apply or_fail_Ok_inv, s3_delete_law in H as [H1 H2]. rewrite (s3_stored_at _ _ _ _ Hs).
  split; [done|]. intros k _. by eapply s3_stored_others.
Qed.
Next Obligation.
  intros A HA cfg dir key w Hv Hio. sb_simpl. destruct (object_key_valid cfg key Hv) as [k Hk].
  unfold s3_put_bytes, s3_delete, s3_open, s3_head. setoid_rewrite bind_lift. rewrite Hk.
  destruct (s3_progress_law (s3_bucket cfg) k w Hio) as (Hp & [wd Hd] & Hr). split_and!.
  - intros b ty. destruct (Hp ty b) as [w' E]. unfold or_fail, bind. by rewrite E.
  - unfold or_fail, bind. by rewrite Hd.
  - rewrite (s3_stored_at _ _ _ _ Hk). intros [(o & w1 & E1) (o2 & w2 & E2)]%Hr.
    unfold or_fail, bind. by rewrite E1, E2.
Qed.
Next Obligation.
  intros A HA cfg dir w w' name key _ Hb _. apply s3_stored_same. intros b k. by apply s3_local_law.
Qed.
Next Obligation.
  intros A HA cfg dir R HR key. sb_simpl.
  unfold s3_put_file, s3_put_bytes, s3_open, s3_head, s3_delete, s3_presign_get_url, s3_presign_put_url.
  io_unfold. split_and!; intros; respects_tac;
    by destruct (s3_frame_law R (s3_bucket cfg) a) as (? & ? & ? & ?).
Qed.
Next Obligation.
  intros A HA cfg dir key. sb_simpl.
  unfold s3_put_file, s3_put_bytes, s3_open, s3_head, s3_delete, s3_presign_get_url, s3_presign_put_url.
  io_unfold. split_and!; intros; steady_tac;
    by destruct (s3_steady_law (s3_bucket cfg) a) as (? & ? & ? & ?).
Qed.

(** The concrete object store meets its laws. *)
Definition toy_object (w : World) (b k : string) : option string :=
  bo_bytes <$> w_bucket w !! (b +:+ "/" +:+ k).

Ltac toy_io H :=
  apply io_Some_inv in H as [? H]; cbn in H; repeat case_match; simplify_eq/=.

#[export] Program Instance toy_S3Laws : S3Laws toy_s3 := {| object := toy_object |}.
Next Obligation.
  intros b k w o w' H. toy_io H. unfold toy_object. by rewrite H0.
Qed.
Next Obligation.
  intros b k w o w' H. toy_io H. unfold toy_object. rewrite H0. by eexists.
Qed.
Next Obligation.
  intros b k w r w' H b2 k2. unfold toy_object. destruct r as [[o|]|e|].
  - by toy_io H.
  - by apply io_None_inv in H as [_ ->].
  - by apply io_not_Err in H.
  - by apply io_not_Panic in H.
Qed.
Next Obligation.
  intros b k w r w' H b2 k2. unfold toy_object. destruct r as [[o|]|e|].
  - by toy_io H.
  - by apply io_None_inv in H as [_ ->].
  - by apply io_not_Err in H.
  - by apply io_not_Panic in H.
Qed.
Next Obligation.
  intros b k ty c w w' H. toy_io H. unfold toy_object. cbn. split; [by rewrite lookup_insert_eq|].
  intros k2 Hk. rewrite lookup_insert_ne; [done|]. intros E%str_app_inv_head. by injection E.
Qed.
Next Obligation.
  intros b k w w' H. toy_io H. unfold toy_object. cbn. split; [by rewrite lookup_delete_eq|].
  intros k2 Hk. rewrite lookup_delete_ne; [done|]. intros E%str_app_inv_head. by injection E.
Qed.
Next Obligation.
  intros b k w Hio. cbn. unfold io, toy_object. rewrite Hio. split_and!; [by eauto..|].
  intros [o Ho]. destruct (w_bucket w !! _) as [x|]; [|done]. split; by eexists _, _.
Qed.
Next Obligation. intros w w' b k H. unfold toy_object. by rewrite H. Qed.
Next Obligation. intros R HR b k. cbn. split_and!; intros; respects_tac. Qed.
Next Obligation. intros b k. cbn. split_and!; intros; steady_tac. Qed.

(** ** Properties *)

(** Storage keys cannot escape. An accepted key is 1 to 128 characters of
    [A-Za-z0-9-._] with no [..] in it and no leading dot, and the file it
    designates is the one of that very name directly under the storage root;
    every other key is refused by every backend before it does anything. *)
Theorem storage_key_confined (dir : string) (B : StorageBackend) (L : BackendLaws dir B)
    (root key : string) (w : World) :
  (∀ p, local_path_for root key = Ok p →
     p = path_join root key ∧ key ≠ "" ∧ (str_len key <= 128)%Z ∧
     (∀ c, c ∈ chars key → c ≠ 47%Z ∧ c ≠ 92%Z ∧ c ≠ 0%Z ∧ (c < 128)%Z) ∧
     contains ".." key = false ∧ starts_with "." key = false) ∧
  (is_ok (local_path_for root key) = false →
     ∀ b ty p, snd (sb_put_bytes key b ty w) = w ∧ snd (sb_put_file key p ty w) = w ∧
       snd (sb_delete key w) = w ∧ is_ok (fst (sb_open key w)) = false ∧
       is_ok (fst (sb_head key w)) = false).
Proof.
  split.
  - intros p H. apply local_path_Ok in H as [Hv ->]. unfold valid_storage_key in Hv.
    bool_facts. split; [done|]. split; [by intros ->|]. split; [done|]. split; [|done].
    intros c Hc%list_elem_of_In.
    match goal with H : forallb _ _ = true |- _ => rewrite forallb_forall in H; specialize (H c Hc) end.
    unfold key_char, is_ascii_alphanumeric in *.
    lia.
  - intros Hno b ty p. assert (Hv : valid_storage_key key = false).
    { unfold local_path_for, validate_storage_key in Hno. by destruct (valid_storage_key key). }
    destruct (bl_guard key w Hv) as (H1 & H2 & H3 & H4 & H5). by rewrite H1, H2, H3, H4, H5.
Qed.

Lemma storage_key_confined_witness :
  snd (@sb_delete (LocalBackend "uploads") "../etc/passwd" (world_of empty_db 0)) = world_of empty_db 0.
Proof.
  apply (storage_key_confined "uploads" (LocalBackend "uploads") (LocalLaws "uploads") "uploads"
    "../etc/passwd" (world_of empty_db 0)); [vm_compute; reflexivity | exact "" | exact "" | exact ""].
Defined.

(** An object is what was last put under its key. On any backend that keeps the
    contract, storing bytes under a key and opening it yields exactly those
    bytes with their length, its metadata gives that length, deleting it makes
    it unavailable, and no other key's object is affected by either. *)
Theorem storage_read_back (dir : string) (B : StorageBackend) (L : BackendLaws dir B)
    (key other b ty : string) (w w1 : World) :
  sb_put_bytes key b ty w = (Ok tt, w1) →
  valid_storage_key other = true → other ≠ key →
  (∀ o w2, sb_open key w1 = (Ok o, w2) → so_stream o = b) ∧
  (∀ m w2, sb_head key w1 = (Ok m, w2) → om_len m = str_len b) ∧
  (∀ o w2 o' w', sb_open other w = (Ok o, w') → sb_open other w1 = (Ok o', w2) →
     so_stream o' = so_stream o) ∧
  (∀ w2, sb_delete key w1 = (Ok tt, w2) → is_ok (fst (sb_open key w2)) = false).
Proof.
  intros Hp Hv Hne. apply bl_put_bytes in Hp as [Hk Ho]. specialize (Ho other Hv Hne). split_and!.
  - intros o w2 H. apply bl_open in H as [H _]. congruence.
  - intros m w2 H. apply bl_head in H as [(c & H & ->) _]. congruence.
  - intros o w2 o' w' H1 H2. apply bl_open in H1 as [H1 _]. apply bl_open in H2 as [H2 _]. congruence.
  - intros w2 H. apply bl_delete in H as [H _].
    destruct (sb_open key w2) as [[o|e|] w3] eqn:E; [|done..]. apply bl_open in E as [E _]. congruence.
Qed.

Lemma storage_read_back_witness :
  let w1 := snd (@sb_put_bytes (LocalBackend "uploads") "a.png" "bytes" "image/png" (world_of empty_db 0)) in
  match fst (@sb_open (LocalBackend "uploads") "a.png" w1) with
  | Ok o => so_stream o = "bytes"
  | _ => False
  end.
Proof.
  intros w1. assert (Hok : is_ok (fst (@sb_open (LocalBackend "uploads") "a.png" w1)) = true)
    by (vm_compute; reflexivity).
  destruct (storage_read_back "uploads" (LocalBackend "uploads") (LocalLaws "uploads") "a.png" "b.png"
    "bytes" "image/png" (world_of empty_db 0) w1) as (H & _); [vm_compute; reflexivity..| discriminate|].
  destruct (@sb_open (LocalBackend "uploads") "a.png" w1) as [[o|e|] w2] eqn:E; [|discriminate Hok..].
  exact (H o w2 eq_refl).
Defined.
