(* ===== verification/Storage.v ===== *)
(** * Files ([services/storage.rs])

    Content typing, the streamed upload, authorization, and the life of a
    presigned upload, over whichever backend is configured. *)
From stdpp Require Import gmap.
From S2P Require Import Prelude RustStr Models Errors Platform World Crypto Disk StorageBackend.
From S2P Require Import AuditTrail Orgs.

(** ** Content typing *)

Definition starts_with_bytes (magic bytes : list Z) : bool := bool_decide (magic `prefix_of` bytes).

Definition SNIFFERS : list (list Z * string) := [
  ([255; 216; 255]%Z, "image/jpeg");
  ([137; 80; 78; 71; 13; 10; 26; 10]%Z, "image/png");
  (bytes_of "GIF87a", "image/gif");
  (bytes_of "GIF89a", "image/gif");
  (bytes_of "%PDF-", "application/pdf")].

(** [Path::new(filename).extension()] of a name without separators. *)
Definition rsplit_dot (l : list Z) : option (list Z * list Z) :=
  match split_once (ascii_of_nat 46) (string_of_bytes (rev l)) with
  | Some (after, before) => Some (rev (bytes_of before), rev (bytes_of after))
  | None => None
  end.
Definition file_extension (name : string) : option string :=
  if ((name =s "..") || (name =s "."))%bool then None
  else match rsplit_dot (bytes_of name) with
       | Some (stem, ext) => if bool_decide (stem = []) then None else Some (string_of_bytes ext)
       | None => None
       end.

(** The first 512 bytes are UTF-8 without control characters other than newlines and tabs. *)
Definition is_text (bytes : list Z) : bool :=
  bool_decide (bytes = []) ||
  match utf8_decode (take 512 bytes) with
  | Some cs => negb (existsb (fun c => is_control c && negb (c =? 10)%Z && negb (c =? 13)%Z
                                       && negb (c =? 9)%Z)%bool cs)
  | None => false
  end.

Definition sniff_mime (bytes : list Z) (filename : string) : string :=
  match List.find (fun sn => starts_with_bytes (fst sn) bytes) SNIFFERS with
  | Some (_, mime) => mime
  | None =>
      if (Nat.leb 12 (length bytes) && starts_with_bytes (bytes_of "RIFF") bytes
          && bool_decide (take 4 (drop 8 bytes) = bytes_of "WEBP"))%bool then "image/webp"
      else if is_text bytes then
        let ext := to_ascii_lowercase (unwrap_or "" (file_extension filename)) in
        if ext =s "json" then "application/json"
        else if ((ext =s "txt") || (ext =s "md") || (ext =s "csv") || (ext =s "log"))%bool
        then "text/plain"
        else "application/octet-stream"
      else "application/octet-stream"
  end.

Definition extension_for (mime : string) : string :=
  if mime =s "image/jpeg" then "jpg"
  else if mime =s "image/png" then "png"
  else if mime =s "image/gif" then "gif"
  else if mime =s "image/webp" then "webp"
  else if mime =s "application/pdf" then "pdf"
  else if mime =s "application/json" then "json"
  else if mime =s "text/plain" then "txt"
  else "bin".

Definition sanitize_filename (name : string) : string :=
  let cleaned := of_chars (take 255
    (List.filter (fun c => negb (is_control c) && negb (c =? 47)%Z && negb (c =? 92)%Z)%bool (chars name))) in
  let trimmed := trim cleaned in
  if trimmed =s "" then "unnamed_file" else trimmed.

Definition normalize_visibility (value : string) : outcome string AppError :=
  let v := to_ascii_lowercase (trim value) in
  if ((v =s "") || (v =s "private"))%bool then Ok "private"
  else if v =s "public" then Ok "public"
  else Err (BadRequest ("Unknown visibility '" +:+ v +:+ "' (expected 'private' or 'public')")).

(** ** Statements *)

Definition fr_id (r : FileRow) : Uuid := f_id (fr_record r).
Definition fr_live (r : FileRow) : bool := is_none (fr_deleted_at r).
Definition fr_ready (r : FileRow) : bool := f_status (fr_record r) =s "ready".

Definition sql_insert_file (f : FileRecord) : Sql FileRecord := fun _ d =>
  if exists_row (fun r => fr_id r =? f_id f)%N (files d) then inr (UniqueViolation "files_pkey")
  else if exists_row (fun r => f_storage_key (fr_record r) =s f_storage_key f) (files d) then
    inr (UniqueViolation "uq_files_storage_key")
  else if negb (varchar 64 (f_bucket f) && varchar 255 (f_storage_key f)
                && varchar 255 (f_original_name f) && varchar 127 (f_mime_type f))%bool then inr too_long
  else if negb (fk_user_opt d (f_owner_id f) && fk_org_opt d (f_org_id f))%bool then inr fk_violation
  else inl (f, set_files (insert_row {| fr_record := f; fr_deleted_at := None |} (files d)) d).

Definition q_ready_file (fid : Uuid) (d : Db) : option FileRecord :=
  fr_record <$> fetch_optional (fun r => (fr_id r =? fid)%N && fr_live r && fr_ready r)%bool (files d).
Definition q_file (fid : Uuid) (d : Db) : option FileRecord :=
  fr_record <$> fetch_optional (fun r => (fr_id r =? fid)%N && fr_live r)%bool (files d).
Definition q_pending_mime (key : string) (d : Db) : option string :=
  (fun r => f_mime_type (fr_record r)) <$>
    fetch_optional (fun r => (f_storage_key (fr_record r) =s key)
                             && (f_status (fr_record r) =s "pending") && fr_live r)%bool (files d).

Definition tombstone (t : Timestamp) (r : FileRow) : FileRow :=
  {| fr_record := fr_record r; fr_deleted_at := Some t |}.
Definition sql_delete_live_file (fid : Uuid) : Sql unit := sql_write (fun t d =>
  set_files (update_where (fun r => (fr_id r =? fid)%N && fr_live r)%bool (tombstone t) (files d)) d).
Definition sql_delete_file (fid : Uuid) : Sql unit := sql_write (fun t d =>
  set_files (update_where (fun r => fr_id r =? fid)%N (tombstone t) (files d)) d).

Definition with_size_ready (size : Z) (f : FileRecord) : FileRecord :=
  {| f_id := f_id f; f_owner_id := f_owner_id f; f_org_id := f_org_id f; f_bucket := f_bucket f;
     f_storage_key := f_storage_key f; f_original_name := f_original_name f;
     f_mime_type := f_mime_type f; f_size_bytes := size; f_checksum_sha256 := f_checksum_sha256 f;
     f_visibility := f_visibility f; f_status := "ready"; f_created_at := f_created_at f |}.
Definition mark_ready (size : Z) (r : FileRow) : FileRow :=
  {| fr_record := with_size_ready size (fr_record r); fr_deleted_at := fr_deleted_at r |}.

(** [UPDATE files SET status = 'ready', size_bytes = $2 WHERE id = $1 AND status = 'pending'
    RETURNING ...] *)
Definition sql_mark_ready (fid : Uuid) (size : Z) : Sql (option FileRecord) := fun _ d =>
  let p r := ((fr_id r =? fid)%N && (f_status (fr_record r) =s "pending"))%bool in
  inl ((fun r => with_size_ready size (fr_record r)) <$> fetch_optional p (files d),
       set_files (update_where p (mark_ready size) (files d)) d).

Definition org_files (oid : Uuid) (d : Db) : list FileRecord :=
  List.map fr_record
    (select (fun r => opt_eqb N.eqb (f_org_id (fr_record r)) (Some oid) && fr_live r && fr_ready r)%bool
       (files d)).

(** ** The service *)

(** A multipart field: its file name, and its chunks as they arrive; a broken
    connection is an error in place of a chunk. *)
Record Field := { fd_file_name : option string; fd_chunks : list (string + string) }.

Section Storage.
Context {P : Platform} {B : StorageBackend} (cfg : AppConfig).

Definition ensure_mime_allowed (mime : string) : outcome unit AppError :=
  if existsb (fun m => m =s mime) (allowed_upload_mime cfg) then Ok tt
  else Err (BadRequest ("Files of type '" +:+ mime +:+ "' are not accepted")).

(** The loop over the chunks: the running total, the first sixteen bytes, and
    everything hashed so far. *)
Fixpoint stream_chunks (temp : string) (chunks : list (string + string)) (total : Z) (head : list Z)
    (hashed : string) : M (Z * list Z * string) :=
  match chunks with
  | [] => do! or_fail (Internal "Failed to flush upload") (fs_flush temp) in ret (total, head, hashed)
  | inr e :: _ => fail (BadRequest ("Failed to read upload: " +:+ e))
  | inl chunk :: rest =>
      let total := (total + str_len chunk)%Z in
      do! guard (total <=? max_upload_bytes cfg)%Z
            (PayloadTooLarge ("File exceeds the " +:+ show_Z (max_upload_bytes cfg) +:+ " byte limit")) in
      let head := if Nat.ltb (length head) 16 then head ++ take (16 - length head) (bytes_of chunk)
                  else head in
      do! or_fail (Internal "Failed to write chunk") (fs_append temp chunk) in
      stream_chunks temp rest total head (hashed +:+ chunk)
  end.

(** [if let Err(e) = m { cleanup; return Err(e) }] *)
Definition or_cleanup {A} (m : M A) (cleanup : M unit) : M A :=
  let! r := attempt m in
  match r with
  | inl a => ret a
  | inr e => do! cleanup in fail e
  end.

Definition save_upload_field (owner_id : Uuid) (org : option Uuid) (field : Field) (visibility : string)
  : M FileRecord :=
  do! (match org with Some o => do! require_membership o owner_id in ret tt | None => ret tt end) in
  let original_name := sanitize_filename (unwrap_or "unnamed_file" (fd_file_name field)) in
  let! file_id := new_uuid in
  do! or_fail (Internal "Failed to create upload dir") (fs_create_dir_all (upload_dir cfg)) in
  let temp_path := path_join (upload_dir cfg) (uuid_show file_id +:+ ".part") in
  do! or_fail (Internal "Failed to create file") (fs_write temp_path "") in
  let! streamed := or_cleanup (stream_chunks temp_path (fd_chunks field) 0 [] "")
                     (fs_remove_quietly temp_path) in
  let '(total, head, hashed) := streamed in
  do! or_cleanup (guard (negb (total =? 0)%Z) (BadRequest "Uploaded file is empty"))
        (fs_remove_quietly temp_path) in
  let mime := sniff_mime head original_name in
  do! or_cleanup (lift (ensure_mime_allowed mime)) (fs_remove_quietly temp_path) in
  let storage_key := uuid_show file_id +:+ "." +:+ extension_for mime in
  do! or_cleanup (sb_put_file storage_key temp_path mime) (fs_remove_quietly temp_path) in
  do! fs_remove_quietly temp_path in
  let checksum := sha256_hex hashed in
  let! visibility := lift (normalize_visibility visibility) in
  let! t := now in
  let! record := attempt (sql (sql_insert_file
        {| f_id := file_id; f_owner_id := Some owner_id; f_org_id := org; f_bucket := "default";
           f_storage_key := storage_key; f_original_name := original_name; f_mime_type := mime;
           f_size_bytes := total; f_checksum_sha256 := Some checksum; f_visibility := visibility;
           f_status := "ready"; f_created_at := t |})) in
  match record with
  | inl record => ret record
  | inr e => do! attempt (sb_delete storage_key) in fail e
  end.

Definition list_org_files (oid viewer_id : Uuid) (limit offset : Z) : M (list FileRecord * Z) :=
  do! require_membership oid viewer_id in
  let! rows := sql (fun _ d =>
    match Pagination.limit_offset limit offset (Pagination.newest_first f_created_at (org_files oid d)) with
    | inl l => inl (l, d)
    | inr e => inr e
    end) in
  let! total := sql (sql_read (fun _ d => Z.of_nat (length (org_files oid d)))) in
  ret (rows, total).

Definition load_record (fid : Uuid) : M FileRecord :=
  let! r := sql (sql_read (fun _ d => q_ready_file fid d)) in
  ok_or (NotFound "File not found") r.

Definition authorize_read (record : FileRecord) (viewer : option (Uuid * string)) : M unit :=
  if f_visibility record =s "public" then ret tt
  else match viewer with
  | None => fail (NotFound "File not found")
  | Some (viewer_id, role) =>
      if (opt_eqb N.eqb (Some viewer_id) (f_owner_id record) || (role =s "admin"))%bool then ret tt
      else match f_org_id record with
      | Some oid =>
          let! r := get_user_org_role oid viewer_id in
          if is_some r then ret tt else fail (NotFound "File not found")
      | None => fail (NotFound "File not found")
      end
  end.

Definition authorize_write (record : FileRecord) (actor_id : Uuid) (role : string) : M unit :=
  if (opt_eqb N.eqb (Some actor_id) (f_owner_id record) || (role =s "admin"))%bool then ret tt
  else match f_org_id record with
  | Some oid =>
      let! r := get_user_org_role oid actor_id in
      if is_some_and (fun r => negb (OrgRole_ltb r Admin)) r then ret tt
      else fail (NotFound "File not found")
  | None => fail (NotFound "File not found")
  end.

Definition open_file (record : FileRecord) : M StoredObject :=
  let! object := sb_open (f_storage_key record) in
  ret (if (so_len object =? 0)%Z
       then {| so_stream := so_stream object; so_len := Z.max (f_size_bytes record) 0 |}
       else object).

Definition delete_file (record : FileRecord) : M string :=
  do! sql (sql_delete_live_file (f_id record)) in
  do! attempt (sb_delete (f_storage_key record)) in
  ret ("File '" +:+ f_original_name record +:+ "' deleted successfully").

(** ** Signed URLs *)

Definition signing_payload (method key : string) (expires_at : Z) : string :=
  method +:+ newline +:+ key +:+ newline +:+ show_Z expires_at.

Definition storage_base : string := trim_end_matches 47 (public_base_url cfg).

Definition generate_presigned_upload (owner_id : Uuid) (org : option Uuid) (req : PresignedUploadRequest)
  : M PresignedUploadResponse :=
  let content_type := to_ascii_lowercase (trim (pu_content_type req)) in
  do! lift (ensure_mime_allowed content_type) in
  do! guard (negb (is_some_and (fun size => max_upload_bytes cfg <? size)%Z (pu_size_bytes req)))
        (PayloadTooLarge ("Declared size exceeds the " +:+ show_Z (max_upload_bytes cfg) +:+ " byte limit")) in
  do! (match org with Some o => do! require_membership o owner_id in ret tt | None => ret tt end) in
  let! visibility := lift (normalize_visibility (unwrap_or "private" (pu_visibility req))) in
  let! file_id := new_uuid in
  let storage_key := uuid_show file_id +:+ "." +:+ extension_for content_type in
  let ttl := signed_url_ttl_seconds cfg in
  let! t := now in
  let expires_at := (t + seconds ttl)%Z in
  do! sql (sql_insert_file
        {| f_id := file_id; f_owner_id := Some owner_id; f_org_id := org; f_bucket := "default";
           f_storage_key := storage_key; f_original_name := sanitize_filename (pu_filename req);
           f_mime_type := content_type; f_size_bytes := 0; f_checksum_sha256 := None;
           f_visibility := visibility; f_status := "pending"; f_created_at := t |}) in
  let! native := sb_presign_put storage_key content_type ttl in
  let upload_url :=
    match native with
    | Some native => native
    | None =>
        let signature := sign (url_signing_key cfg) (signing_payload "PUT" storage_key (timestamp expires_at)) in
        storage_base +:+ "/api/v1/files/upload-signed?key=" +:+ storage_key +:+ "&expires="
        +:+ show_Z (timestamp expires_at) +:+ "&signature=" +:+ signature
    end in
  ret {| pr_file_id := file_id; pr_storage_key := storage_key; pr_upload_url := upload_url;
         pr_file_url := storage_base +:+ "/api/v1/files/" +:+ uuid_show file_id;
         pr_complete_url := storage_base +:+ "/api/v1/files/" +:+ uuid_show file_id +:+ "/complete";
         pr_method := "PUT"; pr_expires_at := expires_at; pr_expires_in_seconds := ttl;
         pr_max_bytes := max_upload_bytes cfg |}.

(** [StorageService::verify_signature] *)
Definition verify_url_signature (method key : string) (expires : Z) (signature : string) : M bool :=
  let! t := now in
  ret (match chrono_from_timestamp expires with
       | None => false
       | Some expires_at =>
           if (expires_at <=? t)%Z then false
           else verify_signature (url_signing_key cfg) (signing_payload method key expires) signature
       end).

Definition accept_signed_upload (storage_key : string) (expires : Z) (signature body : string) : M unit :=
  let! ok := verify_url_signature "PUT" storage_key expires signature in
  do! guard ok (Forbidden "Invalid or expired upload signature") in
  do! guard (str_len body <=? max_upload_bytes cfg)%Z
        (PayloadTooLarge ("Upload exceeds the " +:+ show_Z (max_upload_bytes cfg) +:+ " byte limit")) in
  let! mime := sql (sql_read (fun _ d => q_pending_mime storage_key d)) in
  let! mime := ok_or (NotFound "No pending upload for this key") mime in
  sb_put_bytes storage_key body mime.

Definition complete_upload (file_id actor_id : Uuid) (role : string) : M FileRecord :=
  let! record := sql (sql_read (fun _ d => q_file file_id d)) in
  let! record := ok_or (NotFound "File not found") record in
  do! authorize_write record actor_id role in
  if f_status record =s "ready" then ret record
  else
    let! meta := attempt (sb_head (f_storage_key record)) in
    match meta with
    | inr _ => fail (BadRequest "No uploaded object found for this reservation. Upload the bytes first.")
    | inl meta =>
        do! guard (negb (om_len meta =? 0)%Z) (BadRequest "Uploaded object is empty") in
        if (max_upload_bytes cfg <? om_len meta)%Z then
          do! attempt (sb_delete (f_storage_key record)) in
          do! sql (sql_delete_file file_id) in
          fail (PayloadTooLarge ("Uploaded object is " +:+ show_Z (om_len meta) +:+ " bytes, over the "
                 +:+ show_Z (max_upload_bytes cfg) +:+ " byte limit"))
        else
          let! updated := sql (sql_mark_ready file_id (om_len meta)) in
          ret (unwrap_or record updated)
    end.

Definition generate_signed_download (record : FileRecord) : M SignedUrlResponse :=
  let! t := now in
  let expires_at := (t + seconds (signed_url_ttl_seconds cfg))%Z in
  let signature := sign (url_signing_key cfg)
                     (signing_payload "GET" (uuid_show (f_id record)) (timestamp expires_at)) in
  ret {| su_url := storage_base +:+ "/api/v1/files/" +:+ uuid_show (f_id record) +:+ "?expires="
           +:+ show_Z (timestamp expires_at) +:+ "&signature=" +:+ signature;
         su_expires_at := expires_at; su_expires_in_seconds := signed_url_ttl_seconds cfg |}.

Definition generate_signed_download_url (record : FileRecord) : M SignedUrlResponse :=
  let ttl := signed_url_ttl_seconds cfg in
  let! native := sb_presign_get (f_storage_key record) ttl in
  match native with
  | Some url =>
      let! t := now in
      ret {| su_url := url; su_expires_at := (t + seconds ttl)%Z; su_expires_in_seconds := ttl |}
  | None => generate_signed_download record
  end.

(** [impl From<FileRecord> for UploadResponse] *)
Definition UploadResponse_from (f : FileRecord) : UploadResponse :=
  {| up_url := "/api/v1/files/" +:+ uuid_show (f_id f); up_id := f_id f; up_org_id := f_org_id f;
     up_storage_key := f_storage_key f; up_original_name := f_original_name f;
     up_size_bytes := f_size_bytes f; up_mime_type := f_mime_type f; up_visibility := f_visibility f |}.
End Storage.
