(* ===== verification/StorageProofs.v ===== *)
(** * What the file service guarantees ([services/storage.rs])

    Stated against the contract of the backends ([BackendLaws]), so for both of
    them: an upload that succeeds stored exactly the bytes sent, and one that is
    refused left nothing; who may see a file; the life of a presigned upload;
    and what a signed URL grants. *)
From stdpp Require Import gmap.
From S2P Require Import Prelude RustStr Models Errors Platform World Crypto Disk StorageBackend.
From S2P Require Import BackendLaws AuditTrail Orgs Auth Schema AuthProofs Storage.

(** ** Frames *)

(** A database statement leaves the disk and the bucket alone. *)
Lemma exec_store {A} f (q : Sql A) w r w' :
  exec f q w = (r, w') → w_disk w' = w_disk w ∧ w_bucket w' = w_bucket w.
Proof.
  unfold exec. destruct (w_faults w) as [|[e|] fs]; [|by intros [= <- <-]|].
  all: destruct (q _ _) as [[a d]|e]; by intros [= <- <-].
Qed.

(** Two worlds agree off one path of the disk. *)
Definition off_path (p : string) (w w' : World) : Prop :=
  w_bucket w' = w_bucket w ∧ ∀ p', p' ≠ p → w_disk w' !! p' = w_disk w !! p'.

#[export] Instance off_path_preorder p : PreOrder (off_path p).
Proof.
  split; unfold off_path; [done|]. intros w1 w2 w3 [H1 H2] [H3 H4]. split; [congruence|].
  intros p' Hp. rewrite H4, H2; done.
Qed.

Lemma remove_quietly_Ok p w u w' : fs_remove_quietly p w = (Ok u, w') →
  off_path p w w' ∧ w_db w' = w_db w ∧ w_now w' = w_now w ∧ w_draws w' = w_draws w.
Proof.
  intros H. unfold fs_remove_quietly in H. ok_step H. injection H as <- ->.
  unfold fs_remove_file in Hs. unfold off_path.
  destruct (w_io_faults w) as [|[] fs]; [| by injection Hs as <- <-|]; cbn in Hs;
    destruct (w_disk w !! p) eqn:E; injection Hs as <- <-; wsimpl; split_and!; try done;
    intros p' Hp; by rewrite lookup_delete_ne.
Qed.

Lemma remove_quietly_healthy p w : w_io_faults w = [] →
  fs_remove_quietly p w = (Ok tt, set_disk (delete p (w_disk w)) w).
Proof.
  intros H. unfold fs_remove_quietly, bind, fs_remove_file. rewrite H.
  destruct (w_disk w !! p) eqn:E; [done|]. rewrite delete_id by done. by destruct w.
Qed.

Lemma remove_quietly_total p : total (fs_remove_quietly p).
Proof.
  intros w. unfold fs_remove_quietly, bind, fs_remove_file.
  destruct (w_io_faults w) as [|[] fs]; cbn; [|done|]; by destruct (w_disk w !! p).
Qed.

(** A step whose failure is cleaned up after, seen from its success. *)
Lemma or_cleanup_Ok {A} (m : M A) c w a w' : or_cleanup m c w = (Ok a, w') → m w = (Ok a, w').
Proof.
  unfold or_cleanup, bind, attempt. destruct (m w) as [[x|e|] w1]; [done| |done].
  destruct (c w1) as [[u|x|] w2]; done.
Qed.

Lemma or_cleanup_Err {A} (m : M A) p w e w1 :
  m w = (Err e, w1) → w_io_faults w1 = [] →
  or_cleanup m (fs_remove_quietly p) w = (Err e, set_disk (delete p (w_disk w1)) w1).
Proof.
  intros H Hio. unfold or_cleanup, bind, attempt. rewrite H. by rewrite remove_quietly_healthy.
Qed.

Lemma attempt_inl_inv {A} (m : M A) w a w' : attempt m w = (Ok (inl a), w') → m w = (Ok a, w').
Proof. unfold attempt. destruct (m w) as [[x|e|] w1]; intros H; by simplify_eq. Qed.

(** ** The streamed upload *)

(** What was sent, and whether it arrived whole. *)
Definition body_of (chunks : list (string + string)) : string :=
  fold_right (fun c s => match c with inl b => b +:+ s | inr _ => s end) "" chunks.
Definition arrived (chunks : list (string + string)) : Prop := ∀ e, inr e ∉ chunks.

(** Keeping the first sixteen bytes, chunk by chunk. *)
Lemma head_step (h c : list Z) : (length h <= 16)%nat →
  (if Nat.ltb (length h) 16 then h ++ take (16 - length h) c else h) = take 16 (h ++ c).
Proof.
  intros H. destruct (Nat.ltb_spec (length h) 16) as [Hlt|Hge].
  - by rewrite take_app, (take_ge h 16) by lia.
  - by rewrite take_app_le, take_ge by lia.
Qed.

Lemma take_head_more (h c r : list Z) :
  take 16 (take 16 (h ++ c) ++ r) = take 16 (h ++ c ++ r).
Proof.
  rewrite (assoc_L (++)), (take_app (take 16 (h ++ c)) r), (take_app (h ++ c) r), take_take, length_take.
  f_equal; f_equal; lia.
Qed.

Section Save.
Context {P : Platform} (cfg : AppConfig).

Lemma stream_chunks_Ok temp : ∀ chunks total head hashed w r w' c,
  stream_chunks cfg temp chunks total head hashed w = (Ok r, w') →
  (length head <= 16)%nat → w_disk w !! temp = Some c →
  arrived chunks ∧
  r = ((total + str_len (body_of chunks))%Z, take 16 (head ++ bytes_of (body_of chunks)),
       hashed +:+ body_of chunks) ∧
  (chunks = [] ∨ fst (fst r) <= max_upload_bytes cfg)%Z ∧
  w_disk w' !! temp = Some (c +:+ body_of chunks) ∧ off_path temp w w' ∧
  w_db w' = w_db w ∧ w_now w' = w_now w ∧ w_draws w' = w_draws w.
Proof.
  induction chunks as [|[b|e] chunks IH]; intros total head hashed w r w' c H Hl Hc;
    cbn [stream_chunks body_of fold_right] in *; [| |done].
  - ok_step H. apply or_fail_Ok_inv, io_Some_inv in Hs as [fs [= <- <-]]. injection H as <- <-.
    cbn. rewrite !app_nil_r, !str_app_nil_r, take_ge, Z.add_0_r by done. split_and!; try done; [|by left].
    by intros e ?%elem_of_nil.
  - ok_step H. bool_facts. ok_step H. apply or_fail_Ok_inv, io_Some_inv in Hs as [fs [= <- <-]].
    rewrite head_step in H by done. apply (IH _ _ _ _ _ _ (c +:+ b)) in H as (H1 & -> & H3 & H4 & H5 & H6).
    + split; [intros e [?|?]%elem_of_cons; [done | by eapply H1]|].
      rewrite str_len_app, bytes_of_app, take_head_more, str_app_assoc, Z.add_assoc. split; [done|].
      split.
      { right. cbn [fst] in *. destruct H3 as [->|H3]; [|lia].
        cbn [body_of fold_right]. change (str_len "") with 0%Z. lia. }
      rewrite str_app_assoc in H4. split; [done|]. wsimpl. split; [|done].
      etrans; [|exact H5]. split; [done|]. intros p' Hp. wsimpl. rewrite lookup_insert_ne; done.
    + rewrite length_take. lia.
    + wsimpl. rewrite lookup_insert_eq. by rewrite Hc.
Qed.

(** Whatever comes, only the temporary file is touched, and on a healthy disk
    the outcome is decided by the bytes. *)
Lemma stream_chunks_frame temp : ∀ chunks total head hashed w r w',
  stream_chunks cfg temp chunks total head hashed w = (r, w') → w_io_faults w = [] →
  off_path temp w w' ∧ w_db w' = w_db w ∧ w_now w' = w_now w ∧ w_io_faults w' = [] ∧
  w_faults w' = w_faults w ∧ r ≠ Panic ∧
  (arrived chunks → (total + str_len (body_of chunks) <= max_upload_bytes cfg)%Z → is_ok r = true).
Proof.
  induction chunks as [|[b|e] chunks IH]; intros total head hashed w r w' H Hio;
    cbn [stream_chunks body_of fold_right] in *.
  - unfold or_fail, fs_flush in H. autorewrite with healthy in H. rewrite bind_io in H by done.
    cbn in H. injection H as <- <-. by split_and!.
  - rewrite bind_guard in H. destruct (_ <=? _)%Z eqn:E; bool_facts.
    + unfold or_fail, fs_append in H. autorewrite with healthy in H. rewrite bind_io in H by done.
      cbn [ok_or] in H. rewrite bind_ret in H. apply IH in H as (H1 & H2 & H3 & H4 & H5 & H6 & H7); [|done].
      split_and!; try done.
      * etrans; [|exact H1]. split; [done|]. intros p' Hp. wsimpl. by rewrite lookup_insert_ne.
      * intros Ha Hm. apply H7; [intros e He; apply (Ha e); by right|].
        fold (body_of chunks) in Hm. rewrite str_len_app in Hm. lia.
    + injection H as <- <-. split_and!; try done. intros _ Hm. fold (body_of chunks) in Hm.
      rewrite str_len_app in Hm. pose proof (str_len_nonneg (body_of chunks)). lia.
  - injection H as <- <-. split_and!; try done. intros Ha _. exfalso. apply (Ha e). by left.
Qed.
End Save.

(** Membership, when an organization is named. *)
Lemma require_role_Ok oid uid m w r w' : require_org_role oid uid m w = (Ok r, w') →
  role_in (w_db w) oid uid = Some r ∧ w_db w' = w_db w.
Proof.
  intros H. unfold require_org_role in H. ok_step H. apply get_user_org_role_Ok in Hs as (-> & Hd & _).
  ok_step H. ok_step H. injection H as -> ->. done.
Qed.

Lemma org_check_Ok org uid w u w' :
  (match org with Some o => do! require_membership o uid in ret tt | None => ret tt end) w = (Ok u, w') →
  w_db w' = w_db w ∧ ∀ o, org = Some o → is_Some (role_in (w_db w) o uid).
Proof.
  destruct org as [o|]; intros H; [|injection H as <- <-; done].
  ok_step H. injection H as <- <-. apply require_role_Ok in Hs as [Hr Hd]. split; [done|].
  intros ? [= <-]. by eexists.
Qed.

Lemma sql_insert_file_Ok f t d x d' : sql_insert_file f t d = inl (x, d') →
  x = f ∧ files d' = insert_row {| fr_record := f; fr_deleted_at := None |} (files d) ∧
  ∀ r, r ∈ files d → fr_id r ≠ f_id f.
Proof.
  unfold sql_insert_file. destruct (exists_row _ (files d)) eqn:E; [done|].
  repeat (case_match; try done). intros [= <- <-]. split_and!; try done.
  intros r Hr. rewrite exists_row_false in E. specialize (E r Hr). by bool_facts.
Qed.

(** A record is found under its identifier once inserted ready. *)
Lemma q_ready_inserted f d d' : f_status f = "ready" →
  files d' = insert_row {| fr_record := f; fr_deleted_at := None |} (files d) →
  (∀ r, r ∈ files d → fr_id r ≠ f_id f) → q_ready_file (f_id f) d' = Some f.
Proof.
  intros Hst Hf Hn. unfold q_ready_file. rewrite Hf, fetch_optional_insert_new; [done| |].
  - intros r Hr. apply Hn, N.eqb_neq in Hr. by rewrite Hr.
  - unfold fr_id, fr_live, fr_ready. cbn. by rewrite N.eqb_refl, Hst.
Qed.

Lemma extension_not_part mime : extension_for mime ≠ "part".
Proof. unfold extension_for. by repeat case_match. Qed.

Lemma part_not_key {P : Platform} fid mime :
  uuid_show fid +:+ ".part" ≠ uuid_show fid +:+ "." +:+ extension_for mime.
Proof.
  intros H%str_app_inv_head. injection H as H. by apply (extension_not_part mime).
Qed.

(** C14: what an upload stores is what was sent. If [save_upload_field] succeeds,
    under any schedule of database and disk failures, then the request arrived
    whole; the object under the record's key is exactly the concatenation of
    the chunks; the record's size is its length, between one byte and the limit,
    its checksum is the SHA-256 of it, and its type is an allowed one, sniffed
    from its own first sixteen bytes; the record is the caller's, found ready,
    and in an organization the caller is a member of. *)
Theorem upload_faithful {P : Platform} (cfg : AppConfig) (B : StorageBackend)
    (L : BackendLaws (upload_dir cfg) B) (owner : Uuid) (org : option Uuid) (field : Field)
    (visibility : string) (w w' : World) (f : FileRecord) :
  save_upload_field cfg owner org field visibility w = (Ok f, w') →
  let body := body_of (fd_chunks field) in
  arrived (fd_chunks field) ∧ stored w' (f_storage_key f) = Some body ∧
  f_size_bytes f = str_len body ∧ (0 < f_size_bytes f <= max_upload_bytes cfg)%Z ∧
  f_checksum_sha256 f = Some (sha256_hex body) ∧
  f_mime_type f = sniff_mime (take 16 (bytes_of body)) (f_original_name f) ∧
  f_mime_type f ∈ allowed_upload_mime cfg ∧
  f_owner_id f = Some owner ∧ f_org_id f = org ∧
  (∀ o, org = Some o → is_Some (role_in (w_db w) o owner)) ∧
  q_ready_file (f_id f) (w_db w') = Some f.
Proof.
  intros H body. unfold save_upload_field in H.
  ok_step H. apply org_check_Ok in Hs as [Hd0 Horg]. ok_step H. ok_step H. ok_step H.
  apply or_fail_Ok_inv, io_Some_inv in Hs0 as [fs [= <- <-]]. ok_step H.
  apply or_cleanup_Ok, (stream_chunks_Ok cfg _ _ _ _ _ _ _ _ "") in Hs0
    as (Harr & -> & Hmax & Htemp & _ & _); [|cbn; lia | wsimpl; apply lookup_insert_eq].
  fold body in Hmax, Htemp, H. cbn [fst app] in Hmax, H. change ("" +:+ body) with body in Htemp, H.
  ok_step H. apply or_cleanup_Ok, guard_Ok_inv in Hs0 as [Hne ->]. bool_facts.
  set (name := sanitize_filename _) in H. set (mime := sniff_mime _ name) in H.
  set (fid := draw_uuid _) in H, Htemp. change (0 + str_len body)%Z with (str_len body) in H, Hmax, Hne.
  ok_step H. apply or_cleanup_Ok in Hs0. injection Hs0 as Hmime ->.
  ok_step H. apply or_cleanup_Ok in Hs0.
  lazymatch type of Hs0 with _ = (Ok ?u, _) => destruct u end.
  apply bl_put_file in Hs0 as (b & Hb & Hst & _); [|apply part_not_key].
  rewrite Htemp in Hb. injection Hb as <-. clear Htemp.
  ok_step H. apply remove_quietly_Ok in Hs0 as ([Hbk Hdk] & _ & _).
  ok_step H. ok_step H. ok_step H.
  lazymatch type of H with (match ?x with _ => _ end) _ = _ => destruct x as [rec|e] end;
    [|by ok_step H].
  injection H as -> ->.
  apply attempt_inl_inv in Hs1. destruct (exec_store _ _ _ _ _ Hs1) as [Hd5 Hb5].
  apply sql_Ok_inv in Hs1 as (Hins & _). apply sql_insert_file_Ok in Hins as (Ef & Hf & Hfresh).
  assert (Hq : q_ready_file (f_id f) (w_db w') = Some f).
  { rewrite <- Ef in Hf, Hfresh. eapply q_ready_inserted; [by rewrite Ef | done..]. }
  subst f.
  cbn [f_id f_storage_key f_size_bytes f_checksum_sha256 f_mime_type f_original_name f_owner_id f_org_id].
  split_and!; try done.
  - rewrite <- Hst. apply (bl_scratch w2 w' (uuid_show fid +:+ ".part")); [apply part_not_key | congruence|].
    intros p Hp. rewrite Hd5. by apply Hdk.
  - pose proof (str_len_nonneg body). lia.
  - destruct Hmax as [Hnil|]; [|done]. exfalso. apply Hne. subst body. by rewrite Hnil.
  - unfold ensure_mime_allowed in Hmime. destruct (existsb _ _) eqn:E; [|done].
    apply existsb_exists in E as (m & Hm & He). apply String.eqb_eq in He. subst m.
    by apply list_elem_of_In.
Qed.

(** The concrete world of the witnesses: a signed-in user, files on the local disk. *)
Module FileExample.
Definition B : StorageBackend := LocalBackend "uploads".
Definition L : BackendLaws "uploads" B := LocalLaws "uploads".
Definition png : string := string_of_bytes [137; 80; 78; 71; 13; 10; 26; 10; 1; 2]%Z.
Definition field (l : list (string + string)) : Field :=
  {| fd_file_name := Some "cat.png"; fd_chunks := l |}.
Definition upload (l : list (string + string)) (visibility : string) : outcome FileRecord AppError * World :=
  @save_upload_field toy B Example.cfg 1%N None (field l) visibility Example.w.
End FileExample.

Lemma upload_faithful_witness :
  match fst (FileExample.upload [inl FileExample.png; inl "rest"] "public") with
  | Ok f => w_disk (snd (FileExample.upload [inl FileExample.png; inl "rest"] "public"))
              !! ("uploads/" +:+ f_storage_key f) = Some (FileExample.png +:+ "rest")
  | _ => False
  end.
Proof.
  assert (Hok : is_ok (fst (FileExample.upload [inl FileExample.png; inl "rest"] "public")) = true)
    by (vm_compute; reflexivity).
  destruct (FileExample.upload _ _) as [[f|e|] w'] eqn:E; [|discriminate Hok..].
  exact (proj1 (proj2 (@upload_faithful toy Example.cfg FileExample.B FileExample.L 1%N None
    (FileExample.field [inl FileExample.png; inl "rest"]) "public" Example.w w' f E))).
Defined.

Lemma off_path_restore p w w1 : off_path p w w1 → w_disk w !! p = None → delete p (w_disk w1) = w_disk w.
Proof.
  intros [_ H] Hp. apply map_eq. intros p'. destruct (decide (p' = p)) as [->|Hne].
  - by rewrite lookup_delete_eq.
  - rewrite lookup_delete_ne by done. by apply H.
Qed.

Lemma org_check_healthy org uid w : w_faults w = [] →
  ∃ r, (match org with Some o => do! require_membership o uid in ret tt | None => ret tt end) w = (r, w)
       ∧ r ≠ Panic.
Proof.
  intros H. destruct org as [o|]; [|by eexists].
  unfold require_membership, require_org_role, get_user_org_role. hrun.
  destruct (role_of_str _); [|by eexists]. hrun. destruct (negb _); by eexists.
Qed.

Lemma or_cleanup_run_Ok {A} (m : M A) c w a w' : m w = (Ok a, w') → or_cleanup m c w = (Ok a, w').
Proof. unfold or_cleanup, bind, attempt. by intros ->. Qed.

Lemma mime_refused cfg mime w : mime ∉ allowed_upload_mime cfg →
  ∃ e, lift (ensure_mime_allowed cfg mime) w = (Err e, w).
Proof.
  intros H. unfold lift, ensure_mime_allowed. destruct (existsb _ _) eqn:E; [|by eexists].
  apply existsb_exists in E as (m & Hm & He). apply String.eqb_eq in He. subst m.
  exfalso. by apply H, list_elem_of_In.
Qed.

(** The upload, from the point where the temporary file exists. *)
Lemma upload_refused_stream {P : Platform} (cfg : AppConfig) {A} temp chunks name w
    (k : Z -> list Z -> string -> M A) :
  w_io_faults w = [] → w_disk w !! temp = None →
  ¬ arrived chunks ∨ (max_upload_bytes cfg < str_len (body_of chunks))%Z ∨ body_of chunks = "" ∨
    sniff_mime (take 16 (bytes_of (body_of chunks))) name ∉ allowed_upload_mime cfg →
  ∃ e w', (let! streamed := or_cleanup (stream_chunks cfg temp chunks 0 [] "") (fs_remove_quietly temp) in
           let '(total, head, hashed) := streamed in
           do! or_cleanup (guard (negb (total =? 0)%Z) (BadRequest "Uploaded file is empty"))
                 (fs_remove_quietly temp) in
           do! or_cleanup (lift (ensure_mime_allowed cfg (sniff_mime head name))) (fs_remove_quietly temp) in
           k total head hashed) (set_disk (<[temp := ""]> (w_disk w)) w) = (Err e, w') ∧
    w_db w' = w_db w ∧ w_disk w' = w_disk w ∧ w_bucket w' = w_bucket w.
Proof.
  intros Hio Hfree Hbad. set (w0 := set_disk _ w).
  assert (H0 : off_path temp w w0).
  { split; [done|]. intros p Hp. unfold w0; wsimpl. by rewrite lookup_insert_ne. }
  destruct (stream_chunks cfg temp chunks 0 [] "" w0) as [r w1] eqn:Es.
  destruct (stream_chunks_frame cfg _ _ _ _ _ _ _ _ Es Hio) as (H1 & Hd1 & _ & Hio1 & _ & Hnp & _).
  assert (Hback : delete temp (w_disk w1) = w_disk w)
    by (eapply off_path_restore; [etrans; [exact H0 | exact H1] | done]).
  assert (Hb1 : w_bucket w1 = w_bucket w) by (by destruct H0 as [<- _], H1 as [-> _]).
  assert (Hstop : ∀ e : AppError, ∃ e' w',
    (@Err A AppError e, set_disk (delete temp (w_disk w1)) w1) = (Err e', w') ∧
    w_db w' = w_db w ∧ w_disk w' = w_disk w ∧ w_bucket w' = w_bucket w) by eauto 6.
  destruct r as [[[total head] hashed]|e|]; [| |done].
  - pose proof Es as Er0. apply (stream_chunks_Ok cfg _ _ _ _ _ _ _ _ "") in Es as (Ha & Er & Hm & _);
      [|cbn; lia | apply lookup_insert_eq].
    rewrite app_nil_l in Er. injection Er as -> -> _. cbn [fst] in Hm.
    assert (Hmime : str_len (body_of chunks) ≠ 0%Z →
      sniff_mime (take 16 (bytes_of (body_of chunks))) name ∉ allowed_upload_mime cfg).
    { intros Hnz. destruct Hbad as [? | [Hbig | [Hnil | ?]]]; [done| |by rewrite Hnil in Hnz|done].
      destruct Hm as [-> | Hm]; [done | lia]. }
    rewrite (bind_run_Ok _ _ _ _ _ (or_cleanup_run_Ok _ _ _ _ _ Er0)). cbv beta iota zeta.
    rewrite Z.add_0_l. destruct (Z.eqb_spec (str_len (body_of chunks)) 0) as [Hz|Hnz]; cbn [negb].
    { erewrite bind_run_Err; [apply Hstop | by apply or_cleanup_Err]. }
    erewrite bind_run_Ok by (by apply or_cleanup_run_Ok).
    destruct (mime_refused cfg _ w1 (Hmime Hnz)) as [e He].
    rewrite (bind_run_Err _ _ _ _ _ (or_cleanup_Err _ _ _ _ _ He Hio1)). apply Hstop.
  - rewrite (bind_run_Err _ _ _ _ _ (or_cleanup_Err _ _ _ _ _ Es Hio1)). apply Hstop.
Qed.

(** C26: an upload refused for its bytes leaves nothing. On a healthy database and
    disk, a request that breaks off, exceeds the limit, is empty, or sniffs as a
    type that is not allowed fails, and the database, the disk and the bucket
    are as they were: the temporary file is gone and no object was stored. (One refused
    for its visibility leaves its object: [upload_bad_visibility_orphan].) *)
Theorem upload_refused_clean {P : Platform} (cfg : AppConfig) (B : StorageBackend) (owner : Uuid)
    (org : option Uuid) (field : Field) (visibility : string) (w : World) :
  w_faults w = [] → w_io_faults w = [] →
  w_disk w !! path_join (upload_dir cfg) (uuid_show (draw_uuid (w_draws w)) +:+ ".part") = None →
  ¬ arrived (fd_chunks field) ∨
  (max_upload_bytes cfg < str_len (body_of (fd_chunks field)))%Z ∨
  body_of (fd_chunks field) = "" ∨
  sniff_mime (take 16 (bytes_of (body_of (fd_chunks field))))
    (sanitize_filename (unwrap_or "unnamed_file" (fd_file_name field))) ∉ allowed_upload_mime cfg →
  ∃ e w', save_upload_field cfg owner org field visibility w = (Err e, w') ∧
    w_db w' = w_db w ∧ w_disk w' = w_disk w ∧ w_bucket w' = w_bucket w.
Proof.
  intros Hf Hio Hfree Hbad. unfold save_upload_field.
  destruct (org_check_healthy org owner w Hf) as ([u|e|] & Horg & Hnp); [| |done].
  - erewrite bind_run_Ok by exact Horg. rewrite bind_new_uuid.
    unfold fs_create_dir_all, fs_write. rewrite bind_or_fail, bind_io by done. cbn [ok_or]. rewrite bind_ret.
    rewrite bind_or_fail, bind_io by done. cbn [ok_or]. rewrite bind_ret.
    by apply (upload_refused_stream cfg _ _ _ (set_draws (S (w_draws w)) w)).
  - erewrite bind_run_Err by exact Horg. by eauto 8.
Qed.

Lemma upload_refused_clean_witness :
  ∃ e w', FileExample.upload [inl FileExample.png; inr "reset by peer"] "public" = (Err e, w') ∧
    w_db w' = Example.db ∧ w_disk w' = ∅ ∧ w_bucket w' = ∅.
Proof.
  apply (@upload_refused_clean toy Example.cfg FileExample.B 1%N None
    (FileExample.field [inl FileExample.png; inr "reset by peer"]) "public" Example.w);
    [reflexivity | reflexivity | vm_compute; reflexivity | left].
  intros H. apply (H "reset by peer"). right. left.
Defined.

(** The one refusal that does leave something: the visibility is checked after
    the object is stored, and nothing removes the object then. *)
Lemma upload_bad_visibility_orphan :
  fst (FileExample.upload [inl FileExample.png] "secret")
    = Err (BadRequest "Unknown visibility 'secret' (expected 'private' or 'public')") ∧
  w_disk (snd (FileExample.upload [inl FileExample.png] "secret")) !! "uploads/1000.png"
    = Some FileExample.png ∧
  files (w_db (snd (FileExample.upload [inl FileExample.png] "secret"))) = [].
Proof. split_and!; vm_compute; reflexivity. Qed.

(** ** Who may see a file *)

Definition may_read (d : Db) (f : FileRecord) (viewer : option (Uuid * string)) : Prop :=
  f_visibility f = "public" ∨
  ∃ id role, viewer = Some (id, role) ∧
    (f_owner_id f = Some id ∨ role = "admin" ∨ ∃ o r, f_org_id f = Some o ∧ role_in d o id = Some r).
Definition may_write (d : Db) (f : FileRecord) (id : Uuid) (role : string) : Prop :=
  f_owner_id f = Some id ∨ role = "admin" ∨
  ∃ o r, f_org_id f = Some o ∧ role_in d o id = Some r ∧ (OrgRole_val Admin <= OrgRole_val r)%Z.

Lemma owner_or_admin (f : FileRecord) id role :
  (opt_eqb N.eqb (Some id) (f_owner_id f) || (role =s "admin"))%bool = true ↔
  f_owner_id f = Some id ∨ role = "admin".
Proof.
  rewrite orb_true_iff, String.eqb_eq. unfold opt_eqb. destruct (f_owner_id f) as [o|]; [|naive_solver].
  rewrite N.eqb_eq. naive_solver.
Qed.

(** Both authorization checks decide, and refuse with the one answer. *)
Definition decides (m : M unit) (P : Prop) (w : World) : Prop :=
  (P ∧ m w = (Ok tt, w)) ∨ (¬ P ∧ m w = (Err (NotFound "File not found"), w)).

Lemma role_run {A} o id (k : option OrgRole -> M A) w : w_faults w = [] →
  bind (get_user_org_role o id) k w = k (role_in (w_db w) o id) w.
Proof. intros H. unfold get_user_org_role. by hrun. Qed.

Lemma authorize_read_decides f viewer w : w_faults w = [] →
  decides (authorize_read f viewer) (may_read (w_db w) f viewer) w.
Proof.
  intros H. unfold decides, may_read, authorize_read.
  destruct (String.eqb_spec (f_visibility f) "public"); [left; split; [by left | done]|].
  destruct viewer as [[id role]|]; [|right; split; [naive_solver | done]].
  pose proof (owner_or_admin f id role) as Ho. destruct (_ || _)%bool.
  { left. split; [|done]. right. exists id, role. naive_solver. }
  assert (Hno : ¬ (f_owner_id f = Some id ∨ role = "admin")) by (by intros ?%Ho).
  destruct (f_org_id f) as [o|] eqn:Eo; [|right; split; [naive_solver | done]].
  rewrite role_run by done. destruct (role_in (w_db w) o id) as [r|] eqn:Er; [left | right].
  - split; [|done]. right. exists id, role. naive_solver.
  - split; [|done]. naive_solver.
Qed.

Lemma authorize_write_decides f id role w : w_faults w = [] →
  decides (authorize_write f id role) (may_write (w_db w) f id role) w.
Proof.
  intros H. unfold decides, may_write, authorize_write.
  pose proof (owner_or_admin f id role) as Ho. destruct (_ || _)%bool; [left; naive_solver|].
  assert (Hno : ¬ (f_owner_id f = Some id ∨ role = "admin")) by (by intros ?%Ho).
  destruct (f_org_id f) as [o|] eqn:Eo; [|right; split; [naive_solver | done]].
  rewrite role_run by done. destruct (role_in (w_db w) o id) as [r|] eqn:Er; cbn [is_some_and].
  - unfold OrgRole_ltb. destruct (Z.ltb_spec (OrgRole_val r) (OrgRole_val Admin)) as [Hlt|Hge];
      [right | left]; (split; [|done]); [|naive_solver].
    intros [?|[?|(? & ? & [= <-] & ? & ?)]]; [naive_solver..|]. simplify_eq. lia.
  - right. split; [naive_solver | done].
Qed.

(** Access to a file is decided by visibility, ownership, the admin role and
    organization membership and nothing else: anyone reads a public file, the
    owner, administrators and members of its organization read a private one,
    and only the owner, administrators and the organization's admins change it,
    so whoever may change it may read it. Everyone else gets the very answer a
    file that does not exist gives. *)
Theorem file_access_exact (f : FileRecord) (viewer : option (Uuid * string)) (id : Uuid) (role : string)
    (w : World) :
  w_faults w = [] →
  decides (authorize_read f viewer) (may_read (w_db w) f viewer) w ∧
  decides (authorize_write f id role) (may_write (w_db w) f id role) w ∧
  (is_ok (fst (authorize_write f id role w)) = true → is_ok (fst (authorize_read f (Some (id, role)) w)) = true) ∧
  (∀ fid, q_ready_file fid (w_db w) = None → load_record fid w = (Err (NotFound "File not found"), w)).
Proof.
  intros H. pose proof (authorize_write_decides f id role w H) as Hw.
  pose proof (authorize_read_decides f (Some (id, role)) w H) as Hr.
  split; [by apply authorize_read_decides|]. split; [done|]. split.
  - destruct Hw as [[Hw ->] | [_ ->]]; [intros _ | done]. destruct Hr as [[_ ->] | [Hr _]]; [done|].
    exfalso. apply Hr. right. exists id, role. unfold may_write in Hw. naive_solver.
  - intros fid Hq. unfold load_record. hrun. by rewrite Hq.
Qed.

Module FileExample2.
Definition file (status : string) : FileRecord := {|
  f_id := 20%N; f_owner_id := Some 1%N; f_org_id := Some 8%N; f_bucket := "default";
  f_storage_key := "20.png"; f_original_name := "cat.png"; f_mime_type := "image/png"; f_size_bytes := 0;
  f_checksum_sha256 := None; f_visibility := "private"; f_status := status; f_created_at := 0%Z |}.
Definition w (status : string) (disk : gmap string string) : World :=
  set_disk disk (world_of (set_files [{| fr_record := file status; fr_deleted_at := None |}] OrgExample.db) 1000000).
End FileExample2.

Lemma file_access_exact_witness :
  is_ok (fst (authorize_read (FileExample2.file "ready") (Some (2%N, "user")) OrgExample.w)) = true.
Proof.
  apply (file_access_exact (FileExample2.file "ready") None 2%N "user" OrgExample.w); vm_compute; reflexivity.
Defined.

(** ** The life of a presigned upload *)

(** The same database and the same objects. *)
Definition untouched (w w' : World) : Prop :=
  w_db w' = w_db w ∧ w_disk w' = w_disk w ∧ w_bucket w' = w_bucket w.

Lemma read_untouched {A} (f : Timestamp -> Db -> A) w r w' : sql (sql_read f) w = (r, w') → untouched w w'.
Proof.
  intros H. destruct (exec_store _ _ _ _ _ H) as [H1 H2]. split; [|done].
  destruct r as [a|e|]; [by apply read_Ok_inv in H as (_ & ? & _) | by apply exec_Err_inv in H as [? _] |
    by apply exec_no_panic in H].
Qed.

Lemma authorize_write_Ok f id role w u w' : authorize_write f id role w = (Ok u, w') →
  may_write (w_db w) f id role ∧ untouched w w'.
Proof.
  unfold authorize_write, may_write. pose proof (owner_or_admin f id role) as Ho. destruct (_ || _)%bool.
  { intros [= _ <-]. split; [|done]. naive_solver. }
  destruct (f_org_id f) as [o|] eqn:Eo; [|done]. intros H. unfold get_user_org_role in H.
  rewrite bind_assoc in H. apply bind_Ok_inv in H as (x & w1 & Hs & H).
  pose proof (read_untouched _ _ _ _ Hs) as Hu. apply read_Ok_inv in Hs as (-> & _). rewrite bind_ret in H.
  fold (role_in (w_db w) o id) in H. destruct (role_in (w_db w) o id) as [r|] eqn:Er; [|done].
  cbn [is_some_and] in H. destruct (negb _) eqn:E; [|done]. injection H as <- <-. split; [|done].
  unfold OrgRole_ltb in E. bool_facts. naive_solver.
Qed.

Lemma same_stored {dir B} {L : BackendLaws dir B} w w' key :
  w_disk w' = w_disk w → w_bucket w' = w_bucket w → stored w' key = stored w key.
Proof.
  intros Hd Hb. apply (bl_scratch w w' (key +:+ "x")); [|done | intros p _; by rewrite Hd].
  intros H. apply (f_equal str_len) in H. rewrite str_len_app in H. change (str_len "x") with 1%Z in H. lia.
Qed.

Lemma q_file_row fid d rec : q_file fid d = Some rec → ∃ r, r ∈ files d ∧ fr_id r = fid ∧
  fr_live r = true ∧ fr_record r = rec ∧ f_id rec = fid.
Proof.
  unfold q_file. intros (r & H & ->)%fmap_Some. apply fetch_optional_Some in H as [H Hr]. bool_facts. exists r. by split_and!.
Qed.

(** Marking the one pending row ready, with the size found. *)
Lemma sql_mark_ready_spec fid size t d rec :
  unique_on (pk fr_id) (files d) → q_file fid d = Some rec → f_status rec = "pending" →
  ∃ d', sql_mark_ready fid size t d = inl (Some (with_size_ready size rec), d') ∧
    q_ready_file fid d' = Some (with_size_ready size rec).
Proof.
  intros Hu (r & Hr & Hid & Hlive & <- & Hf)%q_file_row Hst. unfold sql_mark_ready. cbv zeta.
  rewrite (fetch_pk fr_id _ _ r Hu Hr).
  2: by rewrite Hid, N.eqb_refl, Hst.
  2: intros r' H; bool_facts; congruence.
  eexists. split; [reflexivity|].
  - unfold q_ready_file. cbn [set_files files].
    rewrite (fetch_optional_unique _ _ (mark_ready size r)); [done| | |].
    + apply elem_of_update_where. exists r. split; [done|]. by rewrite Hid, N.eqb_refl, Hst.
    + unfold fr_live in Hlive. unfold fr_id, fr_live, fr_ready. cbn. rewrite Hlive, Hf, N.eqb_refl. done.
    + intros r' (r0 & Hr0 & ->)%elem_of_update_where Hp.
      assert (Hid0 : fr_id r0 = fid).
      { destruct (N.eqb_spec (fr_id r0) fid) as [|E0]; [done|]. cbn [andb] in Hp. by bool_facts. }
      rewrite (pk_inj fr_id _ r0 r Hu Hr0 Hr) by congruence. by rewrite Hid, N.eqb_refl, Hst.
Qed.

Lemma head_Ok {dir B} {L : BackendLaws dir B} key w m w' : sb_head key w = (Ok m, w') →
  (∃ b, stored w key = Some b ∧ om_len m = str_len b) ∧ (∀ k, stored w' k = stored w k) ∧ w_db w' = w_db w.
Proof.
  intros H. destruct (bl_head key w m w' H) as [H1 H2]. split; [done|]. split; [done|].
  destruct (bl_frame eq key) as (_ & _ & _ & Hh & _). specialize (Hh w). by rewrite H in Hh.
Qed.

(** C27: completing a presigned upload. A reservation becomes a file only by a
    caller who may change it, and only when the object under its key exists,
    with the object's true size, between one byte and the limit; completing a
    file that is ready returns it and changes nothing. *)
Theorem complete_upload_sound (cfg : AppConfig) (B : StorageBackend)
    (L : BackendLaws (upload_dir cfg) B) (fid actor : Uuid) (role : string) (w w' : World) (f : FileRecord) :
  unique_on (pk fr_id) (files (w_db w)) →
  complete_upload cfg fid actor role w = (Ok f, w') →
  ∃ rec, q_file fid (w_db w) = Some rec ∧ may_write (w_db w) rec actor role ∧
    (f_status rec = "ready" → f = rec ∧ w_db w' = w_db w ∧ ∀ k, stored w' k = stored w k) ∧
    (f_status rec = "pending" → ∃ b, stored w (f_storage_key rec) = Some b ∧
       (0 < str_len b <= max_upload_bytes cfg)%Z ∧ f = with_size_ready (str_len b) rec ∧
       q_ready_file fid (w_db w') = Some f ∧ stored w' (f_storage_key rec) = Some b).
Proof.
  intros Hu H. unfold complete_upload in H.
  apply bind_Ok_inv in H as (x & w1 & Hs & H). pose proof (read_untouched _ _ _ _ Hs) as U1.
  apply read_Ok_inv in Hs as (-> & _). ok_step H. ok_step H.
  apply authorize_write_Ok in Hs as [Hmay U2].
  pose proof U1 as (Hd1 & _). rewrite Hd1 in Hmay. pose proof U2 as (Hd2 & _).
  assert (Hsame : ∀ k, stored w0 k = stored w k).
  { intros k. destruct U1 as (_ & ? & ?), U2 as (_ & ? & ?). apply same_stored; congruence. }
  exists a. split; [done|]. split; [done|]. destruct (String.eqb_spec (f_status a) "ready") as [Er|Er].
  { injection H as <- <-. split; [intros _; split_and!; [done | congruence | done] | congruence]. }
  split; [done|]. intros Hp. ok_step H.
  lazymatch type of H with (match ?x with _ => _ end) _ = _ => destruct x as [meta|e] end; [|done].
  apply attempt_inl_inv, head_Ok in Hs as ((b & Hb & Hlen) & Hkeep & Hd3). rewrite Hsame in Hb.
  ok_step H. bool_facts. destruct (_ <? _)%Z eqn:Elt; bool_facts; [by do 2 ok_step H|].
  pose proof (str_len_nonneg b). rewrite Hlen in *.
  ok_step H. destruct (exec_store _ _ _ _ _ Hs) as [Hdisk Hbucket]. apply sql_Ok_inv in Hs as (Hmark & _).
  destruct (sql_mark_ready_spec fid (str_len b) (w_now w2) (w_db w2) a) as (d' & Hspec & Hq);
    [by rewrite Hd3, Hd2, Hd1 | by rewrite Hd3, Hd2, Hd1 | done |].
  rewrite Hspec in Hmark. injection Hmark as <- Hd'. injection H as <- ->. exists b.
  split; [done|]. split; [lia|]. split; [done|]. rewrite <- Hd'. split; [done|].
  by rewrite (same_stored w2 w'), Hkeep, Hsame by done.
Qed.

Abbreviation pending_world := (FileExample2.w "pending" {["uploads/20.png" := "12345"]}).

Lemma complete_upload_sound_witness :
  match fst (@complete_upload FileExample.B Example.cfg 20%N 1%N "user" pending_world) with
  | Ok f => f_size_bytes f = 5%Z
  | _ => False
  end.
Proof.
  assert (Hok : is_ok (fst (@complete_upload FileExample.B Example.cfg 20%N 1%N "user" pending_world)) = true)
    by (vm_compute; reflexivity).
  destruct (complete_upload _ _ _ _ _) as [[f|e|] w'] eqn:E; [|discriminate Hok..].
  destruct (complete_upload_sound Example.cfg FileExample.B FileExample.L 20%N 1%N "user" pending_world w' f)
    as (rec & Hq & _ & _ & H); [apply NoDup_singleton | exact E |].
  vm_compute in Hq. injection Hq as <-. destruct (H eq_refl) as (b & Hb & _ & -> & _).
  vm_compute in Hb. injection Hb as <-. reflexivity.
Defined.

(** ** Signed URLs *)

Definition no_newline (s : string) : Prop :=
  all_ascii (λ a, negb (Ascii.eqb a (ascii_of_nat 10))) s = true.

(** The signed text determines what it grants. *)
Lemma signing_payload_inj m1 k1 e1 m2 k2 e2 :
  no_newline m1 → no_newline k1 → no_newline m2 → no_newline k2 →
  (- 2 ^ 63 <= e1 <= 2 ^ 63 - 1)%Z → (- 2 ^ 63 <= e2 <= 2 ^ 63 - 1)%Z →
  signing_payload m1 k1 e1 = signing_payload m2 k2 e2 → m1 = m2 ∧ k1 = k2 ∧ e1 = e2.
Proof.
  intros M1 K1 M2 K2 E1 E2 H. unfold signing_payload in H.
  assert (Hn : ∀ s, newline +:+ s = String (ascii_of_nat 10) s) by done. rewrite !Hn in H.
  apply (f_equal (split_once (ascii_of_nat 10))) in H. rewrite !split_once_app in H by done.
  injection H as -> H. apply (f_equal (split_once (ascii_of_nat 10))) in H.
  rewrite !split_once_app in H by done. injection H as -> H.
  apply (f_equal (parse_int 64)) in H. rewrite !parse_int_show in H by done. by injection H.
Qed.

(** C15: a signed URL grants one method on one key until one instant. A signature
    is accepted exactly when the expiry it names is an instant in the future and it is the
    MAC of that method, key and expiry, a text that no other method, key or
    expiry has; and the download URL the service issues is accepted, for that
    file, up to its expiry and never after. *)
Theorem signed_url_exact {P : Platform} (cfg : AppConfig) (record : FileRecord) (w w' : World)
    (resp : SignedUrlResponse) :
  (∀ s, b64url_decode (b64url_encode s) = Some s) →
  generate_signed_download cfg record w = (Ok resp, w') →
  chrono_from_timestamp (timestamp (su_expires_at resp)) = Some (seconds (timestamp (su_expires_at resp))) →
  (∀ method key expires signature w2, fst (verify_url_signature cfg method key expires signature w2) = Ok true ↔
     (∃ t, chrono_from_timestamp expires = Some t ∧ (w_now w2 < t)%Z) ∧
     b64url_decode signature = Some (hmac_sha256 (url_signing_key cfg) (signing_payload method key expires))) ∧
  (∀ m1 k1 e1 m2 k2 e2, no_newline m1 → no_newline k1 → no_newline m2 → no_newline k2 →
     (- 2 ^ 63 <= e1 <= 2 ^ 63 - 1)%Z → (- 2 ^ 63 <= e2 <= 2 ^ 63 - 1)%Z →
     signing_payload m1 k1 e1 = signing_payload m2 k2 e2 → m1 = m2 ∧ k1 = k2 ∧ e1 = e2) ∧
  ∃ expires signature,
    su_url resp = storage_base cfg +:+ "/api/v1/files/" +:+ uuid_show (f_id record) +:+ "?expires="
                  +:+ show_Z expires +:+ "&signature=" +:+ signature ∧
    seconds expires = (seconds (timestamp (su_expires_at resp)))%Z ∧
    ∀ w2, fst (verify_url_signature cfg "GET" (uuid_show (f_id record)) expires signature w2)
          = Ok (w_now w2 <? seconds expires)%Z.
Proof.
  intros Hb64 H Hchrono. split; [|split; [exact signing_payload_inj|]].
  - intros method key expires signature w2. unfold verify_url_signature. rewrite bind_now.
    unfold ret, verify_signature. cbn [fst]. destruct (chrono_from_timestamp expires) as [t|]; [|naive_solver].
    destruct (Z.leb_spec t (w_now w2)).
    { split; [done|]. intros ((t' & [= <-] & ?) & _). lia. }
    destruct (b64url_decode signature) as [mac|]; [|naive_solver].
    destruct (String.eqb_spec mac (hmac_sha256 (url_signing_key cfg) (signing_payload method key expires)))
      as [->|Hne]; [naive_solver|]. split; [done|]. intros [_ [= ->]]. done.
  - unfold generate_signed_download in H. ok_step H. injection H as <- <-. cbn [su_url su_expires_at] in *.
    eexists _, _. split; [reflexivity|]. split; [done|]. intros w2.
    unfold verify_url_signature. rewrite bind_now, Hchrono, verify_sign by apply Hb64.
    unfold ret. cbn [fst]. rewrite Z.ltb_antisym. by destruct (_ <=? _)%Z.
Qed.

Lemma signed_url_exact_witness :
  ∃ expires signature,
    fst (@verify_url_signature toy Example.cfg "GET" (@uuid_show toy 20%N) expires signature (set_now 5000000 Example.w)) = Ok true ∧
    fst (@verify_url_signature toy Example.cfg "GET" (@uuid_show toy 20%N) expires signature (set_now (hours 1) Example.w)) = Ok false.
Proof.
  destruct (@generate_signed_download toy Example.cfg (FileExample2.file "ready") Example.w) as [r w'] eqn:E.
  assert (Hok : is_ok (fst (@generate_signed_download toy Example.cfg (FileExample2.file "ready") Example.w)) = true)
    by (vm_compute; reflexivity).
  rewrite E in Hok. destruct r as [resp|e|]; [|discriminate Hok..].
  destruct (@signed_url_exact toy Example.cfg (FileExample2.file "ready") Example.w w' resp)
    as (_ & _ & expires & signature & _ & He & Hv); [exact toy_b64_roundtrip | exact E | reflexivity |].
  exists expires, signature. assert (Hs : seconds expires = 901000000%Z).
  { rewrite He. vm_compute in E. injection E as <- _. reflexivity. }
  change (f_id (FileExample2.file "ready")) with 20%N in Hv.
  split; [rewrite (Hv (set_now 5000000 Example.w)) | rewrite (Hv (set_now (hours 1) Example.w))];
    rewrite Hs; reflexivity.
Defined.
