(* ===== verification/JobQueue.v ===== *)
(** * The job queue ([services/job_queue.rs])

    The four operations as the service runs them, then the queue as several
    replicas see it: a step relation in which a poll is two steps, the locked
    selection and the committed update, and the steps of different workers
    interleave. *)
From stdpp Require Import gmap sorting.
From S2P Require Import Prelude RustStr Models Errors Platform World Schema.

(** ** Statements *)

Definition job_is (id : Uuid) (j : BackgroundJobRecord) : bool := (j_id j =? id)%N.
Definition has_status (s : JobStatus) (j : BackgroundJobRecord) : bool :=
  j_status j =s JobStatus_as_str s.

Definition sql_enqueue (id : Uuid) (queue job_type : string) (payload : Json)
    (run_at : option Timestamp) (max_attempts : Z) : Sql unit := fun t d =>
  if exists_row (job_is id) (background_jobs d) then inr (UniqueViolation "background_jobs_pkey")
  else if negb (varchar 64 queue && varchar 128 job_type)%bool then inr too_long
  else inl (tt, set_background_jobs (insert_row
    {| j_id := id; j_queue := queue; j_job_type := job_type; j_payload := payload;
       j_status := "queued"; j_attempts := 0; j_max_attempts := max_attempts; j_last_error := None;
       j_run_at := unwrap_or t run_at; j_locked_at := None; j_locked_by := None; j_created_at := t;
       j_updated_at := t |} (background_jobs d)) d).

(** [ORDER BY run_at ASC FOR UPDATE SKIP LOCKED LIMIT 1]: the earliest due job of
    the queue that no other transaction holds. *)
Definition runs_before (a b : BackgroundJobRecord) : Prop := (j_run_at a <= j_run_at b)%Z.
#[export] Instance runs_before_dec : RelDecision runs_before.
Proof. intros a b. apply Z.le_dec. Defined.

Definition due (locked : Uuid -> bool) (queue : string) (t : Timestamp) (j : BackgroundJobRecord) : bool :=
  ((j_queue j =s queue) && has_status Queued j && (j_run_at j <=? t)%Z && negb (locked (j_id j)))%bool.

Definition q_next_job (locked : Uuid -> bool) (queue : string) (t : Timestamp) (d : Db)
  : option BackgroundJobRecord :=
  head (merge_sort runs_before (select (due locked queue t) (background_jobs d))).

Definition start_row (worker : string) (t : Timestamp) (j : BackgroundJobRecord) : BackgroundJobRecord :=
  {| j_id := j_id j; j_queue := j_queue j; j_job_type := j_job_type j; j_payload := j_payload j;
     j_status := "running"; j_attempts := j_attempts j + 1; j_max_attempts := j_max_attempts j;
     j_last_error := j_last_error j; j_run_at := j_run_at j; j_locked_at := Some t;
     j_locked_by := Some worker; j_created_at := j_created_at j; j_updated_at := t |}.
Definition sql_start_job (worker : string) (id : Uuid) : Sql BackgroundJobRecord := fun t d =>
  match fetch_optional (job_is id) (background_jobs d) with
  | None => inr row_not_found
  | Some j =>
      if (2 ^ 31 - 1 <? j_attempts j + 1)%Z then inr out_of_range
      else if negb (varchar 128 worker) then inr too_long
      else inl (start_row worker t j,
                set_background_jobs (update_where (job_is id) (start_row worker t) (background_jobs d)) d)
  end.

(** Releasing a job: its new status, error and due time. *)
Definition release_row (status : JobStatus) (error : option string) (run_at : option Timestamp)
    (t : Timestamp) (j : BackgroundJobRecord) : BackgroundJobRecord :=
  {| j_id := j_id j; j_queue := j_queue j; j_job_type := j_job_type j; j_payload := j_payload j;
     j_status := JobStatus_as_str status; j_attempts := j_attempts j; j_max_attempts := j_max_attempts j;
     j_last_error := or_else error (j_last_error j); j_run_at := unwrap_or (j_run_at j) run_at;
     j_locked_at := None; j_locked_by := None; j_created_at := j_created_at j; j_updated_at := t |}.
Definition sql_release (id : Uuid) (status : JobStatus) (error : option string) (run_at : option Timestamp)
  : Sql unit := sql_write (fun t d =>
  set_background_jobs (update_where (job_is id) (release_row status error run_at t) (background_jobs d)) d).

Definition finished (j : BackgroundJobRecord) : bool :=
  (has_status Completed j || has_status Cancelled j || has_status Failed j)%bool.
Definition sql_reap (cutoff : Timestamp) : Sql Z := fun _ d =>
  let p j := (finished j && (j_updated_at j <? cutoff)%Z)%bool in
  inl (Z.of_nat (rows_affected p (background_jobs d)),
       set_background_jobs (delete_where p (background_jobs d)) d).

(** ** Operations *)

Definition enqueue {P : Platform} (job_type : string) (payload : Json) (queue : option string)
    (run_at : option Timestamp) (max_attempts : option Z) : M Uuid :=
  let! id := new_uuid in
  do! sql (sql_enqueue id (unwrap_or "default" queue) job_type payload run_at (unwrap_or 5%Z max_attempts)) in
  ret id.

(** [locked] is what the other transactions hold while this one runs. *)
Definition poll_next_job (locked : Uuid -> bool) (queue worker_id : string)
  : M (option BackgroundJobRecord) :=
  transaction (
    let! maybe_job := sql (sql_read (fun t d => q_next_job locked queue t d)) in
    match maybe_job with
    | Some job => let! updated := sql (sql_start_job worker_id (j_id job)) in ret (Some updated)
    | None => ret None
    end).

Definition complete_job (job_id : Uuid) : M unit := sql (sql_release job_id Completed None None).

(** [2_i64.pow(attempts.clamp(0, 10) as u32) * 5] *)
Definition backoff_secs (attempts : Z) : Z := (2 ^ Z.max 0 (Z.min attempts 10) * 5)%Z.

Definition fail_job (job_id : Uuid) (attempts max_attempts : Z) (error_message : string) : M unit :=
  if (max_attempts <=? attempts)%Z then sql (sql_release job_id Failed (Some error_message) None)
  else
    let! t := now in
    sql (sql_release job_id Queued (Some error_message) (Some (t + seconds (backoff_secs attempts))%Z)).

Definition reap_old_jobs (retention_days : Z) : M Z :=
  let! t := now in
  sql (sql_reap (t - days retention_days)%Z).

(** ** The queue between replicas *)

(** The jobs; the row each worker's open transaction holds; the job each worker is
    executing, as the poll returned it. *)
Record Queue := MkQueue {
  qs_db : Db; qs_now : Timestamp; qs_locks : gmap string Uuid; qs_work : gmap string BackgroundJobRecord }.

(** Rows held by the transactions of other workers. *)
Definition held (locks : gmap string Uuid) (id : Uuid) : bool :=
  bool_decide (id ∈ (map_to_list locks).*2).

(** What a worker reports of the job it executed. *)
Inductive Report := Done | FailedAttempt (e : string) | Malformed (e : string).
Definition report_status (r : Report) (j : BackgroundJobRecord) : JobStatus :=
  match r with
  | Done => Completed
  | FailedAttempt _ => if (j_max_attempts j <=? j_attempts j)%Z then Failed else Queued
  | Malformed _ => Failed
  end.
Definition report_release (r : Report) (t : Timestamp) (j : BackgroundJobRecord) : Sql unit :=
  match r with
  | Done => sql_release (j_id j) Completed None None
  | FailedAttempt e =>
      if (j_max_attempts j <=? j_attempts j)%Z then sql_release (j_id j) Failed (Some e) None
      else sql_release (j_id j) Queued (Some e) (Some (t + seconds (backoff_secs (j_attempts j)))%Z)
  | Malformed e => sql_release (j_id j) Failed (Some e) None
  end.

Inductive queue_step : Queue -> Queue -> Prop :=
| step_enqueue s id queue ty payload run_at max_attempts d' :
    (1 <= max_attempts)%Z →
    sql_enqueue id queue ty payload run_at max_attempts (qs_now s) (qs_db s) = inl (tt, d') →
    queue_step s (MkQueue d' (qs_now s) (qs_locks s) (qs_work s))
| step_select s worker queue j :
    qs_locks s !! worker = None → qs_work s !! worker = None →
    q_next_job (held (qs_locks s)) queue (qs_now s) (qs_db s) = Some j →
    queue_step s (MkQueue (qs_db s) (qs_now s) (<[worker := j_id j]> (qs_locks s)) (qs_work s))
| step_commit s worker id j d' :
    qs_locks s !! worker = Some id →
    sql_start_job worker id (qs_now s) (qs_db s) = inl (j, d') →
    queue_step s (MkQueue d' (qs_now s) (delete worker (qs_locks s)) (<[worker := j]> (qs_work s)))
| step_rollback s worker :
    queue_step s (MkQueue (qs_db s) (qs_now s) (delete worker (qs_locks s)) (qs_work s))
| step_report s worker j r d' :
    qs_work s !! worker = Some j →
    report_release r (qs_now s) j (qs_now s) (qs_db s) = inl (tt, d') →
    queue_step s (MkQueue d' (qs_now s) (qs_locks s) (delete worker (qs_work s)))
| step_lost s worker :
    queue_step s (MkQueue (qs_db s) (qs_now s) (qs_locks s) (delete worker (qs_work s)))
| step_reap s cutoff n d' :
    sql_reap cutoff (qs_now s) (qs_db s) = inl (n, d') →
    queue_step s (MkQueue d' (qs_now s) (qs_locks s) (qs_work s))
| step_tick s t :
    (qs_now s <= t)%Z → queue_step s (MkQueue (qs_db s) t (qs_locks s) (qs_work s))
| step_elsewhere s d' :
    background_jobs d' = background_jobs (qs_db s) →
    queue_step s (MkQueue d' (qs_now s) (qs_locks s) (qs_work s)).

Definition empty_queue (t : Timestamp) : Queue := MkQueue empty_db t ∅ ∅.
Definition reachable (s : Queue) : Prop := ∃ t, rtc queue_step (empty_queue t) s.

(** ** The invariant of the queue *)

Definition job_ok (j : BackgroundJobRecord) : Prop :=
  (0 <= j_attempts j <= j_max_attempts j)%Z ∧ (j_status j = "queued" → (j_attempts j < j_max_attempts j)%Z).

Record queue_inv (s : Queue) : Prop := {
  qi_pk : unique_on (pk j_id) (background_jobs (qs_db s));
  qi_ok : ∀ j, j ∈ background_jobs (qs_db s) → job_ok j;
  (* a held row is queued, and held once *)
  qi_lock : ∀ w id, qs_locks s !! w = Some id →
    ∃ j, j ∈ background_jobs (qs_db s) ∧ j_id j = id ∧ j_status j = "queued";
  qi_lock_inj : ∀ w1 w2 id, qs_locks s !! w1 = Some id → qs_locks s !! w2 = Some id → w1 = w2;
  (* an executing worker owns the running row *)
  qi_work : ∀ w j, qs_work s !! w = Some j →
    j ∈ background_jobs (qs_db s) ∧ j_status j = "running" ∧ j_locked_by j = Some w }.

Lemma start_row_id w t j : j_id (start_row w t j) = j_id j.
Proof. done. Qed.

Lemma held_false locks id : held locks id = false → ∀ w, locks !! w ≠ Some id.
Proof.
  unfold held. intros H w Hw. apply bool_decide_eq_false in H. apply H.
  apply list_elem_of_fmap. exists (w, id). split; [done|]. by apply elem_of_map_to_list.
Qed.

Lemma q_next_job_Some locked queue t d j : q_next_job locked queue t d = Some j →
  j ∈ background_jobs d ∧ due locked queue t j = true ∧
  ∀ j', j' ∈ background_jobs d → due locked queue t j' = true → (j_run_at j <= j_run_at j')%Z.
Proof.
  unfold q_next_job. intros H.
  assert (Hp : merge_sort runs_before (select (due locked queue t) (background_jobs d))
    ≡ₚ select (due locked queue t) (background_jobs d)) by apply merge_sort_Permutation.
  assert (Hs : StronglySorted runs_before (merge_sort runs_before (select (due locked queue t) (background_jobs d)))).
  { apply StronglySorted_merge_sort; [intros a b c; unfold runs_before; lia | intros a b; unfold runs_before; lia]. }
  destruct (merge_sort _ _) as [|x l] eqn:E; [done|]. injection H as ->.
  assert (Hj : j ∈ select (due locked queue t) (background_jobs d)) by (rewrite <- Hp; by left).
  apply elem_of_select in Hj as [Hdue Hj]. split_and!; [done..|]. intros j' Hj' Hd'.
  assert (Hin : j' ∈ j :: l) by (rewrite Hp; by apply elem_of_select).
  apply elem_of_cons in Hin as [->|Hin]; [done|]. apply StronglySorted_inv in Hs as [_ Hs].
  rewrite Forall_forall in Hs. by apply Hs.
Qed.

Lemma q_next_job_None locked queue t d : q_next_job locked queue t d = None ↔
  ∀ j, j ∈ background_jobs d → due locked queue t j = false.
Proof.
  unfold q_next_job. assert (Hp : merge_sort runs_before (select (due locked queue t) (background_jobs d))
    ≡ₚ select (due locked queue t) (background_jobs d)) by apply merge_sort_Permutation.
  split.
  - intros H j Hj. destruct (due locked queue t j) eqn:E; [|done]. exfalso.
    destruct (merge_sort _ _) as [|x l]; [|done].
    assert (Hin : j ∈ select (due locked queue t) (background_jobs d)) by (by apply elem_of_select).
    rewrite <- Hp in Hin. by apply elem_of_nil in Hin.
  - intros H. rewrite (select_none _ _ H) in *. by apply Permutation_nil_r in Hp as ->.
Qed.

(** Rows of a table after one row was rewritten. *)
Lemma job_update_rows id f t j :
  (∀ r, j_id (f r) = j_id r) → unique_on (pk j_id) t →
  j ∈ update_where (job_is id) f t ↔
  (j ∈ t ∧ j_id j ≠ id) ∨ (∃ r, r ∈ t ∧ j_id r = id ∧ j = f r).
Proof.
  intros Hf Hu. rewrite elem_of_update_where. unfold job_is. split.
  - intros (r & Hr & ->). destruct (N.eqb_spec (j_id r) id); [right; eauto | left; done].
  - intros [[Hj Hne] | (r & Hr & <- & ->)].
    + exists j. split; [done|]. by destruct (N.eqb_spec (j_id j) id).
    + exists r. split; [done|]. by rewrite N.eqb_refl.
Qed.

(** An update of one row, which the locks and the work of the others do not see. *)
Section Update.
Context (s : Queue) (Hi : queue_inv s) (id : Uuid) (f : BackgroundJobRecord -> BackgroundJobRecord)
  (Hid : ∀ r, j_id (f r) = j_id r).
Local Abbreviation jobs' := (update_where (job_is id) f (background_jobs (qs_db s))).

Lemma update_pk : unique_on (pk j_id) jobs'.
Proof. apply unique_on_update; [|apply Hi]. intros r _ _. unfold pk. by rewrite Hid. Qed.

Lemma update_ok : (∀ r, r ∈ background_jobs (qs_db s) → j_id r = id → job_ok (f r)) →
  ∀ j, j ∈ jobs' → job_ok j.
Proof.
  intros H j. rewrite (job_update_rows id f) by (done || apply Hi).
  intros [[Hj _] | (r & Hr & Hrid & ->)]; [by apply Hi | by apply H].
Qed.

Lemma update_other j : j ∈ background_jobs (qs_db s) → j_id j ≠ id → j ∈ jobs'.
Proof. intros. rewrite (job_update_rows id f) by (done || apply Hi). by left. Qed.

Lemma row_unique r1 r2 : r1 ∈ background_jobs (qs_db s) → r2 ∈ background_jobs (qs_db s) →
  j_id r1 = j_id r2 → r1 = r2.
Proof. apply pk_inj, Hi. Qed.
End Update.

Lemma inv_empty t : queue_inv (empty_queue t).
Proof.
  split; cbn; [apply NoDup_nil_2 | by intros j ?%elem_of_nil | ..]; intros *; by rewrite ?lookup_empty.
Qed.

Lemma inv_enqueue s id queue ty payload run_at mx d' :
  queue_inv s → (1 <= mx)%Z →
  sql_enqueue id queue ty payload run_at mx (qs_now s) (qs_db s) = inl (tt, d') →
  queue_inv (MkQueue d' (qs_now s) (qs_locks s) (qs_work s)).
Proof.
  intros Hi Hmx H. unfold sql_enqueue in H. destruct (exists_row _ _) eqn:E; [done|].
  destruct (negb _); [done|]. injection H as <-.
  split; cbn [qs_db qs_now qs_locks qs_work set_background_jobs background_jobs].
  - eapply (unique_on_insert_checked j_id (job_is id)); [|done | apply Hi].
    intros r Hr. unfold job_is. rewrite Hr. by apply N.eqb_refl.
  - intros j [Hj | ->]%elem_of_insert_row; [by apply Hi|]. split; cbn; [lia | intros _; lia].
  - intros w i Hw. destruct (qi_lock s Hi w i Hw) as (j & Hj & ?). exists j.
    split; [apply elem_of_insert_row; by left | done].
  - apply Hi.
  - intros w j Hw. destruct (qi_work s Hi w j Hw) as (Hj & ?).
    split; [apply elem_of_insert_row; by left | done].
Qed.

Lemma inv_select s worker queue j :
  queue_inv s → q_next_job (held (qs_locks s)) queue (qs_now s) (qs_db s) = Some j →
  queue_inv (MkQueue (qs_db s) (qs_now s) (<[worker := j_id j]> (qs_locks s)) (qs_work s)).
Proof.
  intros Hi (Hj & Hdue & _)%q_next_job_Some. unfold due, has_status in Hdue. bool_facts.
  assert (Hfree : ∀ w, qs_locks s !! w ≠ Some (j_id j)) by (by apply held_false).
  split; cbn [qs_db qs_now qs_locks qs_work]; try apply Hi.
  - intros w id [[-> <-] | [Hw Hl]]%lookup_insert_Some; [eauto | by eapply qi_lock].
  - intros w1 w2 id [[-> <-] | [Hw1 Hl1]]%lookup_insert_Some [[-> E] | [Hw2 Hl2]]%lookup_insert_Some.
    + done.
    + by apply Hfree in Hl2.
    + subst. by apply Hfree in Hl1.
    + by eapply qi_lock_inj.
Qed.

Lemma sql_start_job_Ok worker id t d j d' : sql_start_job worker id t d = inl (j, d') →
  ∃ r, r ∈ background_jobs d ∧ j_id r = id ∧ j = start_row worker t r ∧
    d' = set_background_jobs (update_where (job_is id) (start_row worker t) (background_jobs d)) d.
Proof.
  unfold sql_start_job. destruct (fetch_optional _ _) as [r|] eqn:E; [|done].
  apply fetch_optional_Some in E as [E Hr]. unfold job_is in E. bool_facts.
  destruct (_ <? _)%Z; [done|]. destruct (negb _); [done|]. intros [= <- <-]. eauto.
Qed.

Lemma inv_commit s worker id j d' :
  queue_inv s → qs_locks s !! worker = Some id →
  sql_start_job worker id (qs_now s) (qs_db s) = inl (j, d') →
  queue_inv (MkQueue d' (qs_now s) (delete worker (qs_locks s)) (<[worker := j]> (qs_work s))).
Proof.
  intros Hi Hl (r & Hr & Hid & -> & ->)%sql_start_job_Ok.
  destruct (qi_lock s Hi worker id Hl) as (r' & Hr' & Hid' & Hst).
  assert (r' = r) as -> by (eapply row_unique; eauto; congruence).
  set (f := start_row worker (qs_now s)).
  split; cbn [qs_db qs_now qs_locks qs_work set_background_jobs background_jobs].
  - by apply update_pk.
  - apply update_ok; [done..|]. intros x Hx Hxid.
    assert (x = r) as -> by (eapply row_unique; eauto; congruence).
    destruct (qi_ok s Hi r Hr) as [Hb Hq]. specialize (Hq Hst). split; cbn; [lia | done].
  - intros w i [Hne Hw]%lookup_delete_Some. destruct (qi_lock s Hi w i Hw) as (x & Hx & <- & Hxs).
    exists x. split; [|done]. apply update_other; [done..|].
    intros E. apply Hne. eapply (qi_lock_inj s Hi); [exact Hl | by rewrite <- E].
  - intros w1 w2 i [_ H1]%lookup_delete_Some [_ H2]%lookup_delete_Some. by eapply qi_lock_inj.
  - intros w x [[-> <-] | [Hne Hw]]%lookup_insert_Some.
    + split; [|done]. rewrite (job_update_rows id f) by (done || apply Hi). right. eauto.
    + destruct (qi_work s Hi w x Hw) as (Hx & Hrun & Hby). split; [|done].
      apply update_other; [done..|]. intros E.
      assert (x = r) as -> by (eapply row_unique; eauto; congruence). congruence.
Qed.

(** Any release of the row its worker is executing. *)
Lemma inv_release s worker j status error run_at :
  queue_inv s → qs_work s !! worker = Some j →
  (status = Queued → (j_attempts j < j_max_attempts j)%Z) →
  queue_inv (MkQueue (set_background_jobs (update_where (job_is (j_id j))
      (release_row status error run_at (qs_now s)) (background_jobs (qs_db s))) (qs_db s))
    (qs_now s) (qs_locks s) (delete worker (qs_work s))).
Proof.
  intros Hi Hw Hq. destruct (qi_work s Hi worker j Hw) as (Hj & Hrun & Hby).
  split; cbn [qs_db qs_now qs_locks qs_work set_background_jobs background_jobs].
  - by apply update_pk.
  - apply update_ok; [done..|]. intros x Hx Hxid.
    assert (x = j) as -> by (by eapply row_unique). destruct (qi_ok s Hi j Hj) as [Hb _].
    split; cbn; [lia | by destruct status; try done; intros _; apply Hq].
  - intros w i Hl. destruct (qi_lock s Hi w i Hl) as (x & Hx & <- & Hxs). exists x.
    split; [|done]. apply update_other; [done..|]. intros E.
    assert (x = j) as -> by (by eapply row_unique). congruence.
  - apply Hi.
  - intros w x [Hne Hx]%lookup_delete_Some. destruct (qi_work s Hi w x Hx) as (Hxj & Hxr & Hxb).
    split; [|done]. apply update_other; [done..|]. intros E.
    assert (x = j) as -> by (by eapply row_unique). congruence.
Qed.

Lemma report_release_spec r t j d d' : report_release r t j t d = inl (tt, d') →
  ∃ status error run_at,
    d' = set_background_jobs (update_where (job_is (j_id j)) (release_row status error run_at t)
           (background_jobs d)) d ∧
    (status = Queued → (j_attempts j < j_max_attempts j)%Z).
Proof.
  unfold report_release, sql_release, sql_write. destruct r as [|e|e]; [| destruct (Z.leb_spec (j_max_attempts j) (j_attempts j)) |];
    intros [= <-]; eexists _, _, _; (split; [reflexivity|]); done || lia.
Qed.

Lemma inv_shrink s locks work :
  queue_inv s → locks ⊆ qs_locks s → work ⊆ qs_work s → ∀ t, queue_inv (MkQueue (qs_db s) t locks work).
Proof.
  intros Hi Hl Hw t. split; cbn; [apply Hi | apply Hi | | |].
  - intros w id H. eapply qi_lock; [done|]. by eapply lookup_weaken.
  - intros w1 w2 id H1 H2. eapply (qi_lock_inj s Hi); by eapply lookup_weaken.
  - intros w j H. eapply (qi_work s Hi). by eapply lookup_weaken.
Qed.

Lemma inv_reap s p :
  queue_inv s → (∀ j, p j = true → finished j = true) →
  queue_inv (MkQueue (set_background_jobs (delete_where p (background_jobs (qs_db s))) (qs_db s))
    (qs_now s) (qs_locks s) (qs_work s)).
Proof.
  intros Hi Hp.
  assert (Hkeep : ∀ j, j ∈ background_jobs (qs_db s) → j_status j = "queued" ∨ j_status j = "running" →
    j ∈ delete_where p (background_jobs (qs_db s))).
  { intros j Hj Hst. apply elem_of_delete_where. split; [|done]. destruct (p j) eqn:E; [|done].
    apply Hp in E. unfold finished, has_status in E. by destruct Hst as [Hst | Hst]; rewrite Hst in E. }
  split; cbn [qs_db qs_now qs_locks qs_work set_background_jobs background_jobs].
  - apply unique_on_delete, Hi.
  - intros j [_ Hj]%elem_of_delete_where. by apply Hi.
  - intros w id H. destruct (qi_lock s Hi w id H) as (j & Hj & ? & ?). exists j. naive_solver.
  - apply Hi.
  - intros w j H. destruct (qi_work s Hi w j H) as (Hj & ? & ?). naive_solver.
Qed.

Lemma inv_step s s' : queue_step s s' → queue_inv s → queue_inv s'.
Proof.
  intros H Hi. destruct H.
  - by eapply inv_enqueue.
  - by eapply inv_select.
  - by eapply inv_commit.
  - apply inv_shrink; [done | apply delete_subseteq | done].
  - lazymatch goal with H : report_release _ _ _ _ _ = _ |- _ =>
      apply report_release_spec in H as (st & er & ra & -> & Hq) end. by apply inv_release.
  - apply inv_shrink; [done.. | apply delete_subseteq].
  - lazymatch goal with H : sql_reap _ _ _ = _ |- _ => injection H as _ <- end.
    apply inv_reap; [done|]. intros j Hj. by bool_facts.
  - by apply inv_shrink.
  - destruct Hi. by split; cbn; lazymatch goal with H : background_jobs _ = _ |- _ => rewrite ?H end.
Qed.

Lemma reachable_inv s : reachable s → queue_inv s.
Proof.
  intros [t H]. assert (Hi : queue_inv (empty_queue t)) by apply inv_empty. revert Hi.
  induction H as [|s1 s2 s3 Hs _ IH]; [done|]. intros Hi. by eapply IH, inv_step.
Qed.

(** ** Properties *)

Module JobExample.
Definition job (id : Uuid) (attempts : Z) (status : string) (run_at : Timestamp) : BackgroundJobRecord := {|
  j_id := id; j_queue := "webhooks"; j_job_type := "webhook.deliver"; j_payload := JNull;
  j_status := status; j_attempts := attempts; j_max_attempts := 5; j_last_error := None;
  j_run_at := run_at; j_locked_at := None; j_locked_by := None; j_created_at := 0%Z; j_updated_at := 0%Z |}.
Definition db (l : list BackgroundJobRecord) : Db := set_background_jobs l empty_db.
Definition w (l : list BackgroundJobRecord) : World := world_of (db l) 1000000.
(** Two jobs, claimed by two workers whose transactions overlap. *)
Definition d2 : Db :=
  match sql_enqueue 1%N "webhooks" "webhook.deliver" JNull None 5%Z 0%Z empty_db with
  | inl (_, d) => match sql_enqueue 2%N "webhooks" "webhook.deliver" JNull None 5%Z 0%Z d with
                  | inl (_, d') => d' | inr _ => empty_db end
  | inr _ => empty_db
  end.
Definition started (worker : string) (id : Uuid) (d : Db) : BackgroundJobRecord * Db :=
  match sql_start_job worker id 0%Z d with inl r => r | inr _ => (job 0%N 0%Z "" 0%Z, d) end.
Definition d3 : Db := snd (started "b" 2%N d2).
Definition s : Queue := MkQueue (snd (started "a" 1%N d3)) 0%Z ∅
  (<["a" := fst (started "a" 1%N d3)]> (<["b" := fst (started "b" 2%N d2)]> ∅)).
End JobExample.

Lemma example_reachable : reachable JobExample.s.
Proof.
  exists 0%Z. eapply rtc_l; [eapply (step_enqueue (empty_queue 0%Z) 1%N "webhooks" "webhook.deliver" JNull None 5%Z); [lia | reflexivity] |].
  eapply rtc_l; [eapply (step_enqueue _ 2%N "webhooks" "webhook.deliver" JNull None 5%Z); [lia | reflexivity] |].
  eapply rtc_l; [eapply (step_select _ "a" "webhooks"); [reflexivity | reflexivity | vm_compute; reflexivity] |].
  eapply rtc_l; [eapply (step_select _ "b" "webhooks"); [reflexivity | reflexivity | vm_compute; reflexivity] |].
  eapply rtc_l; [eapply (step_commit _ "b"); [reflexivity | vm_compute; reflexivity] |].
  eapply rtc_l; [eapply (step_commit _ "a"); [reflexivity | vm_compute; reflexivity] |].
  apply rtc_refl.
Qed.

(** C17: a job runs on one worker at a time. However the polls, reports, crashes and
    clean-ups of any number of workers interleave, no two transactions hold the
    same row and no two workers execute the same job: a job being executed is a
    [running] row locked by exactly that worker. *)
Theorem job_exclusive (s : Queue) (w1 w2 : string) :
  reachable s →
  (∀ id, qs_locks s !! w1 = Some id → qs_locks s !! w2 = Some id → w1 = w2) ∧
  (∀ j1 j2, qs_work s !! w1 = Some j1 → qs_work s !! w2 = Some j2 → j_id j1 = j_id j2 → w1 = w2) ∧
  (∀ j, qs_work s !! w1 = Some j →
     j ∈ background_jobs (qs_db s) ∧ j_status j = "running" ∧ j_locked_by j = Some w1 ∧
     qs_locks s !! w2 ≠ Some (j_id j)).
Proof.
  intros Hi%reachable_inv. split_and!.
  - intros id. by apply qi_lock_inj.
  - intros j1 j2 H1 H2 E. apply (qi_work s Hi) in H1 as (I1 & _ & L1), H2 as (I2 & _ & L2).
    assert (j1 = j2) as -> by (by eapply row_unique). congruence.
  - intros j H. apply (qi_work s Hi) in H as (I1 & R1 & L1). split_and!; [done..|].
    intros (j' & I2 & E & Q)%(qi_lock s Hi). assert (j' = j) as -> by (by eapply row_unique). congruence.
Qed.

Lemma job_exclusive_witness : "a" ≠ "b" ∧ qs_locks JobExample.s !! "b" ≠ Some 1%N.
Proof.
  split; [done|].
  destruct (job_exclusive JobExample.s "a" "b" example_reachable) as (_ & _ & H).
  exact (proj2 (proj2 (proj2 (H (fst (JobExample.started "a" 1%N JobExample.d3)) eq_refl)))).
Defined.

(** C18: no job is tried more often than it asked for: in every reachable state each
    job has been started at most [max_attempts] times, and one that is still
    queued has an attempt left. *)
Theorem job_attempts_bounded (s : Queue) (j : BackgroundJobRecord) :
  reachable s → j ∈ background_jobs (qs_db s) →
  (0 <= j_attempts j <= j_max_attempts j)%Z ∧ (j_status j = "queued" → (j_attempts j < j_max_attempts j)%Z).
Proof. intros Hi%reachable_inv Hj. by apply Hi. Qed.

Lemma job_attempts_bounded_witness :
  (j_attempts (fst (JobExample.started "a" 1%N JobExample.d3)) <= 5)%Z.
Proof.
  exact (proj2 (proj1 (job_attempts_bounded JobExample.s (fst (JobExample.started "a" 1%N JobExample.d3))
    example_reachable ltac:(by left)))).
Defined.

Lemma poll_steady locked queue worker : steady
  (let! maybe_job := sql (sql_read (fun t d => q_next_job locked queue t d)) in
   match maybe_job with
   | Some job => let! updated := sql (sql_start_job worker (j_id job)) in ret (Some updated)
   | None => ret None
   end).
Proof. steady_tac. Qed.

(** What a poll that returned [Ok] did, whatever the fault schedule. *)
Lemma poll_Ok_inv locked queue worker w r w' : poll_next_job locked queue worker w = (Ok r, w') →
  w_now w' = w_now w ∧
  match r with
  | None => w_db w' = w_db w ∧ q_next_job locked queue (w_now w) (w_db w) = None
  | Some j => ∃ j0, q_next_job locked queue (w_now w) (w_db w) = Some j0 ∧
      sql_start_job worker (j_id j0) (w_now w) (w_db w) = inl (j, w_db w')
  end.
Proof.
  intros H. unfold poll_next_job in H. apply transaction_Ok_inv in H as (w0 & w1 & Hd & Hn & _ & H & Hd' & Hn').
  ok_step H. rewrite Hn, Hd in *. destruct (q_next_job _ _ _ _) as [j0|] eqn:E.
  - ok_step H. apply sql_Ok_inv in Hs as (Hs & Hn2 & _). injection H as <- <-. split; [congruence|].
    exists j0. split; [done|]. rewrite Hd'. congruence.
  - injection H as <- <-. split; [congruence|]. split; [congruence | done].
Qed.

(** Polling hands out the earliest due job. On a healthy database a poll returns
    the queued job of its queue with the earliest due time among those no other
    transaction holds, marked running and locked by the caller with one more
    attempt counted; [None] exactly when there is no such job; and whatever
    fails, a poll that does not return a job has changed nothing. *)
Theorem poll_earliest (locked : Uuid -> bool) (queue worker : string) (w : World) :
  w_faults w = [] → varchar 128 worker = true → queue_inv (MkQueue (w_db w) (w_now w) ∅ ∅) →
  (∀ j, j ∈ background_jobs (w_db w) → (j_max_attempts j < 2 ^ 31)%Z) →
  ((∃ j w', poll_next_job locked queue worker w = (Ok (Some (start_row worker (w_now w) j)), w') ∧
      j ∈ background_jobs (w_db w) ∧ due locked queue (w_now w) j = true ∧
      (∀ j', j' ∈ background_jobs (w_db w) → due locked queue (w_now w) j' = true → (j_run_at j <= j_run_at j')%Z) ∧
      w_db w' = set_background_jobs
        (update_where (job_is (j_id j)) (start_row worker (w_now w)) (background_jobs (w_db w))) (w_db w))
   ∨ ((∀ j, j ∈ background_jobs (w_db w) → due locked queue (w_now w) j = false) ∧
      poll_next_job locked queue worker w = (Ok None, w))) ∧
  (∀ faults r w', poll_next_job locked queue worker (set_faults faults w) = (r, w') →
     (∀ j, r ≠ Ok (Some j)) → w_db w' = w_db w).
Proof.
  intros Hf Hv Hi Hmax. split.
  - unfold poll_next_job.
    erewrite transaction_healthy; [|done | apply surjective_pairing | by apply poll_steady].
    rewrite bind_read by done. destruct (q_next_job _ _ _ _) as [j|] eqn:E.
    + left. apply q_next_job_Some in E as (Hj & Hdue & Hmin). exists j. rewrite bind_sql by done.
      assert (Hst : has_status Queued j = true) by (unfold due in Hdue; by bool_facts).
      unfold has_status in Hst. bool_facts. destruct (qi_ok _ Hi j Hj) as [Hb Hq]. specialize (Hq Hst).
      specialize (Hmax j Hj). unfold sql_start_job.
      rewrite (fetch_pk j_id _ _ j (qi_pk _ Hi) Hj);
        [|by apply N.eqb_refl | by intros x Hx; apply N.eqb_eq in Hx].
      rewrite Hv. cbn [qs_db] in *. replace (2 ^ 31 - 1 <? j_attempts j + 1)%Z with false by lia.
      eexists. split; [reflexivity|]. by split_and!.
    + right. split; [by apply q_next_job_None | done].
  - intros faults r w' H Hr. destruct r as [[j|]|e|]; [by destruct (Hr j) | | |].
    + by apply poll_Ok_inv in H as (_ & H & _).
    + by eapply (transaction_atomic _ (set_faults faults w)) in H.
    + by eapply (transaction_atomic _ (set_faults faults w)) in H.
Qed.

Lemma poll_earliest_witness :
  ∃ j w', poll_next_job (fun _ => false) "webhooks" "w1"
      (JobExample.w [JobExample.job 1%N 0 "queued" 20; JobExample.job 2%N 0 "queued" 10]) = (Ok (Some j), w').
Proof.
  destruct (poll_earliest (fun _ => false) "webhooks" "w1"
    (JobExample.w [JobExample.job 1%N 0 "queued" 20; JobExample.job 2%N 0 "queued" 10]))
    as [[(j & w' & H & _) | [H _]] _].
  - reflexivity.
  - reflexivity.
  - split; cbn.
    + apply NoDup_cons. split; [by apply not_elem_of_cons; split; [done | apply not_elem_of_nil] | apply NoDup_singleton].
    + intros j [->|[->|[]%elem_of_nil]%elem_of_cons]%elem_of_cons; split; cbn; lia.
    + intros *. by rewrite lookup_empty.
    + intros *. by rewrite lookup_empty.
    + intros *. by rewrite lookup_empty.
  - cbn. intros j [->|[->|[]%elem_of_nil]%elem_of_cons]%elem_of_cons; cbn; lia.
  - eauto.
  - specialize (H (JobExample.job 1%N 0 "queued" 20) ltac:(by left)). discriminate H.
Defined.

Lemma poll_steps (locks : gmap string Uuid) (work : gmap string BackgroundJobRecord) queue worker w j w' :
  locks !! worker = None → work !! worker = None →
  poll_next_job (held locks) queue worker w = (Ok (Some j), w') →
  nsteps queue_step 2 (MkQueue (w_db w) (w_now w) locks work)
    (MkQueue (w_db w') (w_now w') locks (<[worker := j]> work)).
Proof.
  intros Hl Hw H. apply poll_Ok_inv in H as [Hn (j0 & Hq & Hs)]. rewrite Hn.
  pose proof (step_select (MkQueue (w_db w) (w_now w) locks work) worker queue j0 Hl Hw Hq) as H1.
  pose proof (step_commit (MkQueue (w_db w) (w_now w) (<[worker := j_id j0]> locks) work) worker (j_id j0) j
    (w_db w') (lookup_insert_eq _ _ _) Hs) as H2.
  cbn in H1, H2. rewrite delete_insert_id in H2 by done.
  eapply nsteps_l; [exact H1|]. eapply nsteps_l; [exact H2 | apply nsteps_O].
Qed.

Lemma poll_no_panic locked queue worker w w' : poll_next_job locked queue worker w ≠ (Panic, w').
Proof.
  unfold poll_next_job, transaction. destruct (ping w) as [[u|e|] w0] eqn:E0; [|done|].
  2: { by apply exec_no_panic in E0. }
  unfold bind. destruct (sql _ w0) as [[o|e|] w1] eqn:E1; [|done|by apply exec_no_panic in E1].
  destruct o as [j|].
  - destruct (sql (sql_start_job _ _) w1) as [[x|e|] w2] eqn:E2; [|done|by apply exec_no_panic in E2].
    cbn. destruct (ping w2) as [[u'|e|] w3] eqn:E3; try done. by apply exec_no_panic in E3.
  - cbn. destruct (ping w1) as [[u'|e|] w3] eqn:E3; try done. by apply exec_no_panic in E3.
Qed.

(** ** Retries *)

Lemma backoff_range a : (5 <= backoff_secs a <= 5120)%Z.
Proof.
  unfold backoff_secs. pose proof (Z.pow_le_mono_r 2 0 (Z.max 0 (Z.min a 10)) ltac:(lia) ltac:(lia)).
  pose proof (Z.pow_le_mono_r 2 (Z.max 0 (Z.min a 10)) 10 ltac:(lia) ltac:(lia)). lia.
Qed.

(** A failed attempt is retried later, until the attempts run out. After
    [fail_job] the row is released; with attempts left it is due again exactly
    from [5 * 2^min(attempts, 10)] seconds on, twice as long after each failure
    (at least ten seconds for a job that was started, never beyond 5120); without,
    it is failed and no poll ever returns it. *)
Theorem retry_schedule (j : BackgroundJobRecord) (error : string) (w : World) :
  w_faults w = [] → unique_on (pk j_id) (background_jobs (w_db w)) → j ∈ background_jobs (w_db w) →
  ∃ w' j', fail_job (j_id j) (j_attempts j) (j_max_attempts j) error w = (Ok tt, w') ∧
    j' ∈ background_jobs (w_db w') ∧ j_id j' = j_id j ∧ j_locked_by j' = None ∧
    j_last_error j' = Some error ∧
    (∀ t, due (fun _ => false) (j_queue j) t j' = true ↔
       (j_attempts j < j_max_attempts j ∧ w_now w + seconds (backoff_secs (j_attempts j)) <= t)%Z) ∧
    ((1 <= j_attempts j)%Z → (10 <= backoff_secs (j_attempts j) <= 5120)%Z) ∧
    ((0 <= j_attempts j < 10)%Z → (backoff_secs (j_attempts j + 1) = 2 * backoff_secs (j_attempts j))%Z) ∧
    ((j_max_attempts j <= j_attempts j)%Z → j_status j' = "failed").
Proof.
  intros Hf Hu Hj.
  assert (Hb1 : (1 <= j_attempts j)%Z → (10 <= backoff_secs (j_attempts j) <= 5120)%Z).
  { intros H. split; [|apply backoff_range]. unfold backoff_secs.
    pose proof (Z.pow_le_mono_r 2 1 (Z.max 0 (Z.min (j_attempts j) 10)) ltac:(lia) ltac:(lia)). lia. }
  assert (Hb2 : (0 <= j_attempts j < 10)%Z → (backoff_secs (j_attempts j + 1) = 2 * backoff_secs (j_attempts j))%Z).
  { intros H. unfold backoff_secs. rewrite !Z.max_r, !Z.min_l by lia. rewrite Z.pow_add_r by lia. lia. }
  unfold fail_job. destruct (Z.leb_spec (j_max_attempts j) (j_attempts j)) as [Hle|Hlt].
  - unfold sql_release. rewrite sql_write_healthy by done. eexists _, (release_row Failed (Some error) None (w_now w) j).
    split; [reflexivity|]. cbn [w_db set_db set_background_jobs background_jobs]. split.
    { rewrite job_update_rows by done. right. eauto. }
    split_and!; try done. intros t. unfold due, has_status. cbn. rewrite andb_false_r. split; [done | lia].
  - unfold sql_release. rewrite bind_now, sql_write_healthy by done.
    eexists _, (release_row Queued (Some error) (Some (w_now w + seconds (backoff_secs (j_attempts j)))%Z) (w_now w) j).
    split; [reflexivity|]. cbn [w_db set_db set_background_jobs background_jobs]. split.
    { rewrite job_update_rows by done. right. eauto. }
    split_and!; try done; [|lia]. intros t. unfold due, has_status. cbn. rewrite String.eqb_refl, andb_true_r. cbn.
    rewrite Z.leb_le. lia.
Qed.

Lemma retry_schedule_witness :
  ∃ w', fail_job 1%N 3 5 "503" (JobExample.w [JobExample.job 1%N 3 "running" 20]) = (Ok tt, w').
Proof.
  destruct (retry_schedule (JobExample.job 1%N 3 "running" 20) "503" (JobExample.w [JobExample.job 1%N 3 "running" 20]))
    as (w' & j' & H & _); [reflexivity | apply NoDup_singleton | by left | by exists w'].
Defined.

(** A worker that dies while executing leaves its job [running] for good: no
    step of any worker, nor the reaper, touches the row again. *)
Lemma lost_job_stuck s s' j :
  rtc queue_step s s' → queue_inv s → j ∈ background_jobs (qs_db s) → j_status j = "running" →
  (∀ w x, qs_work s !! w = Some x → j_id x ≠ j_id j) → j ∈ background_jobs (qs_db s').
Proof.
  intros H. induction H as [|s1 s2 s3 Hs _ IH]; [done|]. intros Hi Hj Hr Hno.
  assert (Hnl : ∀ w, qs_locks s1 !! w ≠ Some (j_id j)).
  { intros w (x & Hx & E & Q)%(qi_lock _ Hi). assert (x = j) as -> by (by eapply row_unique). congruence. }
  apply IH; [by eapply inv_step | | done |].
  - destruct Hs; cbn [qs_db]; try done.
    + unfold sql_enqueue in *. repeat (case_match; try done). simplify_eq/=. apply elem_of_insert_row. by left.
    + lazymatch goal with H : sql_start_job _ _ _ _ = _ |- _ => apply sql_start_job_Ok in H as (r & ? & ? & -> & ->) end.
      cbn. eapply update_other; [done..|]. intros E. eapply Hnl. by rewrite E.
    + lazymatch goal with H : report_release _ _ _ _ _ = _ |- _ =>
        apply report_release_spec in H as (st & er & ra & -> & _) end.
      cbn. eapply update_other; [done..|]. intros E. by eapply Hno.
    + lazymatch goal with H : sql_reap _ _ _ = _ |- _ => injection H as _ <- end.
      apply elem_of_delete_where. split; [|done]. unfold finished, has_status. by rewrite Hr.
    + congruence.
  - destruct Hs; cbn [qs_work] in *; try done.
    + intros w x [[-> <-]|[_ Hw]]%lookup_insert_Some; [|by eapply Hno].
      lazymatch goal with H : sql_start_job _ _ _ _ = _ |- _ => apply sql_start_job_Ok in H as (r & ? & E & -> & _) end.
      cbn. intros E'. eapply Hnl. rewrite <- E', E. eassumption.
    + intros w x [_ Hw]%lookup_delete_Some. by eapply Hno.
    + intros w x [_ Hw]%lookup_delete_Some. by eapply Hno.
Qed.
