(* ===== verification/Webhooks.v ===== *)
(** * Webhooks ([services/webhook.rs])

    Registration, the fan-out of an event to the subscriptions that match it, and
    one delivery attempt. An event becomes a row of the outbox and a job of the
    queue for each subscription; the worker of [main.rs] delivers the job. *)
From stdpp Require Import gmap sorting.
From S2P Require Import Prelude RustStr Models Errors Platform World Schema JobQueue AuditTrail.
From S2P Require Pagination.

(** ** Statements *)

Definition fk_app_opt (d : Db) (aid : option Uuid) : bool :=
  match aid with Some a => exists_row (fun r => app_id r =? a)%N (apps d) | None => true end.
Definition fk_org_opt (d : Db) (oid : option Uuid) : bool :=
  match oid with Some o => exists_row (fun r => org_id r =? o)%N (organizations d) | None => true end.

Definition sql_insert_webhook (wh : WebhookRecord) : Sql WebhookRecord := fun _ d =>
  if exists_row (fun r => wh_id r =? wh_id wh)%N (webhooks d) then inr (UniqueViolation "webhooks_pkey")
  else if negb (fk_app_opt d (wh_app_id wh) && user_exists d (wh_owner_id wh)
                && fk_org_opt d (wh_org_id wh))%bool then inr fk_violation
  else inl (wh, set_webhooks (insert_row wh (webhooks d)) d).

(** [$n::uuid IS NULL OR column = $n] *)
Definition scope_filter (param column : option Uuid) : bool :=
  match param with None => true | Some p => opt_eqb N.eqb column (Some p) end.

Definition q_owner_webhooks (owner : Uuid) (aid oid : option Uuid) (d : Db) : list WebhookRecord :=
  Pagination.newest_first wh_created_at (select (fun wh =>
    (wh_owner_id wh =? owner)%N && wh_is_active wh && scope_filter aid (wh_app_id wh)
    && scope_filter oid (wh_org_id wh))%bool (webhooks d)).

Definition owned_webhook (id owner : Uuid) (wh : WebhookRecord) : bool :=
  ((wh_id wh =? id) && (wh_owner_id wh =? owner))%N%bool.

(** The deliveries go with the webhook ([ON DELETE CASCADE]). *)
Definition sql_delete_webhook (id owner : Uuid) : Sql nat := fun _ d =>
  let n := rows_affected (owned_webhook id owner) (webhooks d) in
  inl (n, set_webhooks (delete_where (owned_webhook id owner) (webhooks d))
            (if Nat.eqb n 0 then d
             else set_webhook_deliveries
                    (delete_where (fun x => wd_webhook_id x =? id)%N (webhook_deliveries d)) d)).

Definition q_deliveries (id : Uuid) (d : Db) : list WebhookDeliveryRecord :=
  take 50 (Pagination.newest_first wd_created_at
    (select (fun x => wd_webhook_id x =? id)%N (webhook_deliveries d))).

(** [($1::uuid IS NULL AND app_id IS NULL OR app_id = $1)] and
    [($2::uuid IS NULL OR org_id IS NULL OR org_id = $2)] and the event filter *)
Definition subscribed (event_type : string) (aid oid : option Uuid) (wh : WebhookRecord) : bool :=
  (wh_is_active wh
   && match aid with None => is_none (wh_app_id wh) | Some a => opt_eqb N.eqb (wh_app_id wh) (Some a) end
   && match oid with None => true
      | Some o => is_none (wh_org_id wh) || opt_eqb N.eqb (wh_org_id wh) (Some o) end
   && (existsb (fun e => e =s "*") (wh_events wh) || existsb (fun e => e =s event_type) (wh_events wh)))%bool.

Definition sql_insert_delivery (id webhook_id : Uuid) (event_type : string) (payload : Json) : Sql unit :=
  fun t d =>
  if exists_row (fun x => wd_id x =? id)%N (webhook_deliveries d) then
    inr (UniqueViolation "webhook_deliveries_pkey")
  else if negb (varchar 128 event_type) then inr too_long
  else if negb (exists_row (fun wh => wh_id wh =? webhook_id)%N (webhooks d)) then inr fk_violation
  else inl (tt, set_webhook_deliveries (insert_row
    {| wd_id := id; wd_webhook_id := webhook_id; wd_event_type := event_type; wd_payload := payload;
       wd_status := "pending"; wd_status_code := None; wd_response_body := None; wd_attempts := 0;
       wd_created_at := t; wd_updated_at := t |} (webhook_deliveries d)) d).

Definition with_attempt (status : string) (code : option Z) (body : string) (t : Timestamp)
    (x : WebhookDeliveryRecord) : WebhookDeliveryRecord :=
  {| wd_id := wd_id x; wd_webhook_id := wd_webhook_id x; wd_event_type := wd_event_type x;
     wd_payload := wd_payload x; wd_status := status; wd_status_code := or_else code (wd_status_code x);
     wd_response_body := Some body; wd_attempts := wd_attempts x + 1; wd_created_at := wd_created_at x;
     wd_updated_at := t |}.
Definition sql_record_attempt (id : Uuid) (status : string) (code : option Z) (body : string) : Sql unit :=
  fun t d =>
  let p x := (wd_id x =? id)%N in
  if exists_row (fun x => p x && (2 ^ 31 - 1 <? wd_attempts x + 1)%Z)%bool (webhook_deliveries d) then
    inr out_of_range
  else inl (tt, set_webhook_deliveries (update_where p (with_attempt status code body t)
                  (webhook_deliveries d)) d).

(** ** Operations *)

(** [s.chars().take(n).collect()] *)
Definition take_chars (n : nat) (s : string) : string := of_chars (take n (chars s)).

Section Service.
Context {P : Platform}.

Definition create_webhook (owner_id : Uuid) (req : CreateWebhookRequest) : M CreateWebhookResponse :=
  let! id := new_uuid in
  let! token := random_token 32 in
  let secret := "whsec_" +:+ token in
  let! t := now in
  let! record := sql (sql_insert_webhook
    {| wh_id := id; wh_app_id := cw_app_id req; wh_owner_id := owner_id; wh_org_id := cw_org_id req;
       wh_target_url := cw_target_url req; wh_secret := secret; wh_events := cw_events req;
       wh_is_active := true; wh_created_at := t; wh_updated_at := t |}) in
  ret {| cwr_id := wh_id record; cwr_app_id := wh_app_id record; cwr_target_url := wh_target_url record;
         cwr_org_id := wh_org_id record; cwr_events := wh_events record; cwr_secret := secret;
         cwr_created_at := wh_created_at record |}.

Definition list_webhooks (owner_id : Uuid) (aid oid : option Uuid) : M (list WebhookRecord) :=
  sql (sql_read (fun _ d => q_owner_webhooks owner_id aid oid d)).

Definition delete_webhook (webhook_id owner_id : Uuid) : M unit :=
  let! n := sql (sql_delete_webhook webhook_id owner_id) in
  guard (negb (Nat.eqb n 0)) (NotFound "Webhook not found").

Definition list_deliveries (webhook_id owner_id : Uuid) : M (list WebhookDeliveryRecord) :=
  let! found := sql (sql_read (fun _ d => exists_row (owned_webhook webhook_id owner_id) (webhooks d))) in
  do! guard found (NotFound "Webhook not found") in
  sql (sql_read (fun _ d => q_deliveries webhook_id d)).

(** [t={timestamp},v1={hex of the HMAC of "timestamp.payload"}] *)
Definition compute_signature (secret : string) (timestamp : Z) (payload_json : string) : string :=
  let signed_payload := show_Z timestamp +:+ "." +:+ payload_json in
  "t=" +:+ show_Z timestamp +:+ ",v1=" +:+ hex_encode (bytes_of (hmac_sha256 secret signed_payload)).

Definition job_payload (delivery_id : Uuid) (wh : WebhookRecord) (event_type : string) (payload : Json) : Json :=
  JObj [("delivery_id", JStr (uuid_show delivery_id)); ("webhook_id", JStr (uuid_show (wh_id wh)));
        ("target_url", JStr (wh_target_url wh)); ("secret", JStr (wh_secret wh));
        ("event_type", JStr event_type); ("payload", payload)].

Fixpoint dispatch_all (event_type : string) (payload : Json) (l : list WebhookRecord) : M unit :=
  match l with
  | [] => ret tt
  | wh :: rest =>
      let! delivery_id := new_uuid in
      do! sql (sql_insert_delivery delivery_id (wh_id wh) event_type payload) in
      do! enqueue "webhook.deliver" (job_payload delivery_id wh event_type payload)
            (Some "webhooks") None (Some 5%Z) in
      dispatch_all event_type payload rest
  end.

Definition dispatch_event (event_type : string) (payload : Json) (aid oid : option Uuid) : M nat :=
  let! matching := sql (sql_read (fun _ d => select (subscribed event_type aid oid) (webhooks d))) in
  do! dispatch_all event_type payload matching in
  ret (length matching).

Context {R : Remote}.

Definition execute_delivery (delivery_id : Uuid) (target_url secret event_type : string) (payload : Json)
  : M bool :=
  let payload_str := json_to_string payload in
  let! t := now in
  let signature := compute_signature secret (timestamp t) payload_str in
  match webhook_post target_url
          [("Content-Type", "application/json"); ("X-Webhook-Event", event_type);
           ("X-Webhook-Delivery", uuid_show delivery_id); ("X-Webhook-Signature", signature)] payload_str with
  | inl (status_code, text) =>
      let body_snippet := unwrap_or "" text in
      let is_success := ((200 <=? status_code) && (status_code <? 300))%Z%bool in
      do! sql (sql_record_attempt delivery_id (if is_success then "delivered" else "failed")
                 (Some status_code) (take_chars 1000 body_snippet)) in
      ret is_success
  | inr err =>
      do! sql (sql_record_attempt delivery_id "failed" None (take_chars 1000 err)) in
      ret false
  end.
End Service.

(** ** Properties *)

Lemma sql_insert_delivery_Ok id wid ev payload t d u d' :
  sql_insert_delivery id wid ev payload t d = inl (u, d') →
  d' = set_webhook_deliveries (insert_row
    {| wd_id := id; wd_webhook_id := wid; wd_event_type := ev; wd_payload := payload;
       wd_status := "pending"; wd_status_code := None; wd_response_body := None; wd_attempts := 0;
       wd_created_at := t; wd_updated_at := t |} (webhook_deliveries d)) d.
Proof. unfold sql_insert_delivery. repeat (case_match; try done). by intros [= _ <-]. Qed.

Lemma sql_enqueue_Ok id queue ty payload run_at mx t d u d' :
  sql_enqueue id queue ty payload run_at mx t d = inl (u, d') →
  d' = set_background_jobs (insert_row
    {| j_id := id; j_queue := queue; j_job_type := ty; j_payload := payload; j_status := "queued";
       j_attempts := 0; j_max_attempts := mx; j_last_error := None; j_run_at := unwrap_or t run_at;
       j_locked_at := None; j_locked_by := None; j_created_at := t; j_updated_at := t |}
    (background_jobs d)) d.
Proof. unfold sql_enqueue. repeat (case_match; try done). by intros [= _ <-]. Qed.

(** A delivery waiting in the outbox for a webhook, and the job that will make it. *)
Definition outbox_entry {P : Platform} (event_type : string) (payload : Json) (t : Timestamp)
    (wh : WebhookRecord) (x : WebhookDeliveryRecord * BackgroundJobRecord) : Prop :=
  let '(x, j) := x in
  wd_webhook_id x = wh_id wh ∧ wd_event_type x = event_type ∧ wd_payload x = payload ∧
  wd_status x = "pending" ∧ wd_attempts x = 0%Z ∧
  j_queue j = "webhooks" ∧ j_job_type j = "webhook.deliver" ∧
  j_payload j = job_payload (wd_id x) wh event_type payload ∧ j_max_attempts j = 5%Z ∧
  due (fun _ => false) "webhooks" t j = true.

Lemma dispatch_all_Ok {P : Platform} ev payload : ∀ l w u w',
  dispatch_all ev payload l w = (Ok u, w') →
  w_now w' = w_now w ∧ ∃ entries, Forall2 (outbox_entry ev payload (w_now w)) l entries ∧
    webhook_deliveries (w_db w') = webhook_deliveries (w_db w) ++ entries.*1 ∧
    background_jobs (w_db w') = background_jobs (w_db w) ++ entries.*2.
Proof.
  induction l as [|wh l IH]; intros w u w' H; cbn [dispatch_all] in H.
  - injection H as _ <-. split; [done|]. exists []. by rewrite !app_nil_r.
  - ok_step H. ok_step H. apply sql_Ok_inv in Hs as (Hd & Hn & _). ok_step H.
    unfold enqueue in Hs. ok_step Hs. ok_step Hs. apply sql_Ok_inv in Hs0 as (Hj & Hn2 & _).
    injection Hs as <- ->. apply sql_insert_delivery_Ok in Hd. apply sql_enqueue_Ok in Hj.
    apply IH in H as (Hn3 & entries & Hf & Hdel & Hjobs). wsimpl. split; [congruence|].
    eexists ((_, _) :: entries). rewrite Hdel, Hjobs, Hj, Hd.
    split; [|by cbn; unfold insert_row; rewrite <- !app_assoc].
    rewrite Hn2, Hn in *. apply Forall2_cons. split; [|exact Hf]. cbn. split_and!; try done.
    unfold due, has_status. cbn. rewrite Z.leb_refl. done.
Qed.

(** The subscriptions an event goes to, as the query's WHERE clause says it. *)
Lemma subscribed_iff event_type aid oid wh :
  subscribed event_type aid oid wh = true ↔
  wh_is_active wh = true ∧ wh_app_id wh = aid ∧
  (oid = None ∨ wh_org_id wh = None ∨ wh_org_id wh = oid) ∧
  (event_type ∈ wh_events wh ∨ "*" ∈ wh_events wh).
Proof.
  unfold subscribed. rewrite !andb_true_iff, orb_true_iff.
  assert (Hin : ∀ x, existsb (fun e => e =s x) (wh_events wh) = true ↔ x ∈ wh_events wh).
  { intros x. rewrite existsb_exists. setoid_rewrite String.eqb_eq. setoid_rewrite <- list_elem_of_In. naive_solver. }
  rewrite !Hin. destruct aid as [a|], oid as [o|], (wh_app_id wh) as [a'|], (wh_org_id wh) as [o'|];
    cbn; rewrite ?N.eqb_eq; naive_solver.
Qed.

Lemma select_sublist {A} (p : A -> bool) (l : list A) : sublist (select p l) l.
Proof. induction l as [|x l IH]; cbn; [constructor|]. destruct (p x); by constructor. Qed.

(** C34: an event is queued for every subscription that matches it and for no
    other. When [dispatch_event] returns [n], whatever the fault schedule, [n]
    subscriptions match: those of the table, in its order, that are active, of the event's own
    application, of the event's organization unless the event or the
    subscription names none, and subscribed to the event or to all. For each of them, in
    order, exactly one pending row was added to the outbox together with one job that is
    due at once and carries that delivery. *)
Theorem dispatch_fanout {P : Platform} (event_type : string) (payload : Json) (aid oid : option Uuid)
    (n : nat) (w w' : World) :
  dispatch_event event_type payload aid oid w = (Ok n, w') →
  ∃ matching entries, n = length matching ∧ sublist matching (webhooks (w_db w)) ∧
    (∀ wh, wh ∈ matching ↔
       wh ∈ webhooks (w_db w) ∧ wh_is_active wh = true ∧ wh_app_id wh = aid ∧
       (oid = None ∨ wh_org_id wh = None ∨ wh_org_id wh = oid) ∧
       (event_type ∈ wh_events wh ∨ "*" ∈ wh_events wh)) ∧
    Forall2 (outbox_entry event_type payload (w_now w)) matching entries ∧
    webhook_deliveries (w_db w') = webhook_deliveries (w_db w) ++ entries.*1 ∧
    background_jobs (w_db w') = background_jobs (w_db w) ++ entries.*2.
Proof.
  intros H. unfold dispatch_event in H. ok_step H. ok_step H. injection H as <- <-.
  apply dispatch_all_Ok in Hs as (_ & entries & Hf & Hdel & Hjobs). rewrite Hd, Hn in *.
  exists (select (subscribed event_type aid oid) (webhooks (w_db w))), entries.
  split; [done|]. split; [apply select_sublist|]. split; [|by split_and!].
  intros wh. rewrite elem_of_select, subscribed_iff. tauto.
Qed.

Module WebhookExample.
Definition hook (id : Uuid) (events : list string) (url : string) : WebhookRecord := {|
  wh_id := id; wh_app_id := None; wh_owner_id := 1%N; wh_org_id := None; wh_target_url := url;
  wh_secret := "whsec_x"; wh_events := events; wh_is_active := true; wh_created_at := 0%Z; wh_updated_at := 0%Z |}.
Definition in_org (org : Uuid) (wh : WebhookRecord) : WebhookRecord := {|
  wh_id := wh_id wh; wh_app_id := wh_app_id wh; wh_owner_id := wh_owner_id wh; wh_org_id := Some org;
  wh_target_url := wh_target_url wh; wh_secret := wh_secret wh; wh_events := wh_events wh;
  wh_is_active := wh_is_active wh; wh_created_at := wh_created_at wh; wh_updated_at := wh_updated_at wh |}.
Definition db : Db := set_webhooks
  [hook 1%N ["user.created"] "https://a.example.com"; in_org 8 (hook 2%N ["*"] "https://b.example.com");
   hook 3%N ["user.deleted"] "https://c.example.com"; in_org 9 (hook 4%N ["*"] "https://d.example.com")] empty_db.
Definition w : World := world_of db 1000000.
End WebhookExample.

Abbreviation dispatched := (@dispatch_event toy "user.created" (JNum 1) None (Some 8%N) WebhookExample.w).

(** Organization 8's event: its own subscription and the one of no organization, not
    organization 9's. *)
Lemma dispatch_fanout_witness :
  fst dispatched = Ok 2%nat ∧ ∀ x, x ∈ webhook_deliveries (w_db (snd dispatched)) → wd_webhook_id x ≠ 4%N.
Proof.
  assert (Hok : fst dispatched = Ok 2%nat) by (vm_compute; reflexivity).
  split; [exact Hok|]. destruct dispatched as [r w'] eqn:E. cbn [fst] in Hok. subst r.
  destruct (@dispatch_fanout toy "user.created" (JNum 1) None (Some 8%N) 2%nat WebhookExample.w w' E)
    as (matching & entries & _ & _ & Hm & Hf & Hdel & _).
  cbn [snd]. rewrite Hdel. cbn. intros x ([x' j] & -> & Hx)%list_elem_of_fmap Hid.
  apply list_elem_of_lookup in Hx as [i Hi]. destruct (Forall2_lookup_r _ _ _ _ _ Hf Hi) as (wh & Hwh & Ho & _).
  apply list_elem_of_lookup_2, Hm in Hwh as (Hin & _ & _ & Horg & _). cbn in Hid. rewrite Ho in Hid.
  repeat (apply elem_of_cons in Hin as [->|Hin]; [try discriminate Hid|]); [|by apply elem_of_nil in Hin].
  destruct Horg as [Ho1|[Ho1|Ho1]]; discriminate Ho1.
Defined.

(** The two inserts of a delivery are separate statements: a failure between them
    leaves a pending delivery that no job will ever make. *)
Lemma dispatch_not_atomic :
  let w := set_faults [None; None; Some row_not_found] WebhookExample.w in
  is_ok (fst (@dispatch_event toy "user.created" (JNum 1) None None w)) = false ∧
  length (webhook_deliveries (w_db (snd (@dispatch_event toy "user.created" (JNum 1) None None w)))) = 1%nat ∧
  background_jobs (w_db (snd (@dispatch_event toy "user.created" (JNum 1) None None w))) = [].
Proof. split_and!; vm_compute; reflexivity. Qed.

(** A delivery signature binds the time and the payload. The header is
    [t=<time>,v1=<hex>] with the MAC, under the webhook's secret, of the text
    [<time>.<payload>]; no other time and payload have that text, so a recipient
    that recomputes the MAC accepts neither an altered body nor an altered time. *)
Theorem webhook_signature_binds {P : Platform} (secret : string) (t1 t2 : Z) (p1 p2 : string) :
  (- 2 ^ 63 <= t1 <= 2 ^ 63 - 1)%Z → (- 2 ^ 63 <= t2 <= 2 ^ 63 - 1)%Z →
  ∃ text1 text2,
    compute_signature secret t1 p1 = "t=" +:+ show_Z t1 +:+ ",v1=" +:+ hex_encode (bytes_of (hmac_sha256 secret text1)) ∧
    compute_signature secret t2 p2 = "t=" +:+ show_Z t2 +:+ ",v1=" +:+ hex_encode (bytes_of (hmac_sha256 secret text2)) ∧
    (text1 = text2 ↔ t1 = t2 ∧ p1 = p2) ∧
    (compute_signature secret t1 p1 = compute_signature secret t2 p2 →
       t1 = t2 ∧ hmac_sha256 secret text1 = hmac_sha256 secret text2).
Proof.
  intros H1 H2. exists (show_Z t1 +:+ "." +:+ p1), (show_Z t2 +:+ "." +:+ p2).
  assert (Hne : ∀ c a, int_char c = false → int_char a = true → negb (Ascii.eqb a c) = true).
  { intros c a Hc Ha. destruct (Ascii.eqb_spec a c) as [->|]; [|done]. by rewrite Hc in Ha. }
  assert (Hint : ∀ c z, (∀ a, int_char a = true → negb (Ascii.eqb a c) = true) →
    all_ascii (λ a, negb (Ascii.eqb a c)) (show_Z z) = true).
  { intros c z Hc. eapply all_ascii_impl; [exact Hc | apply show_Z_ascii]. }
  assert (Hsplit : ∀ c a b x y, (∀ a, int_char a = true → negb (Ascii.eqb a c) = true) →
    (- 2 ^ 63 <= a <= 2 ^ 63 - 1)%Z → (- 2 ^ 63 <= b <= 2 ^ 63 - 1)%Z →
    show_Z a +:+ String c x = show_Z b +:+ String c y → a = b ∧ x = y).
  { intros c a b x y Hc Ha Hb E. apply (f_equal (split_once c)) in E. rewrite !split_once_app in E by auto.
    injection E as E ->. apply (f_equal (parse_int 64)) in E. rewrite !parse_int_show in E by done.
    by injection E. }
  split; [done|]. split; [done|]. split.
  - split; [|by intros [-> ->]]. apply Hsplit; [intros a; by apply Hne | done..].
  - unfold compute_signature. intros E. injection E as E.
    apply (Hsplit (ascii_of_nat 44) t1 t2) in E as [-> E]; [|intros a; by apply Hne | done..].
    split; [done|]. injection E as E. by apply hex_encode_inj, bytes_of_inj in E; [|apply bytes_of_range..].
Qed.

Lemma webhook_signature_binds_witness :
  @compute_signature toy "s" 5 "{}" ≠ @compute_signature toy "s" 6 "{}".
Proof.
  destruct (@webhook_signature_binds toy "s" 5 6 "{}" "{}") as (x & y & _ & _ & _ & H); [lia..|].
  intros [[=] _]%H.
Defined.
