(* ===== verification/Realtime.v ===== *)
(** * Notifications and realtime events ([services/notification.rs],
    [services/realtime.rs], [routes/v1/realtime.rs])

    An event travels from the service through PostgreSQL's NOTIFY to every
    replica's listener, from there to the local broadcast channel, and to each
    connected client that may see it. *)
From S2P Require Import Prelude RustStr Models Errors Platform World AuditTrail Schema.

(** ** Publishing *)

Definition REALTIME_CHANNEL : string := "realtime_events".
Definition MAX_NOTIFY_PAYLOAD : Z := 7500.

Section Publish.
Context {P : Platform}.

Definition json_uuid (u : Uuid) : Json := JStr (uuid_show u).
Definition json_opt {A} (f : A -> Json) (o : option A) : Json :=
  match o with Some a => f a | None => JNull end.

(** [#[derive(Serialize)]] of the two records. *)
Definition event_json (e : RealtimeEvent) : Json := JObj [
  ("id", json_uuid (re_id e)); ("event_type", JStr (re_event_type e));
  ("target_user_id", json_opt json_uuid (re_target_user_id e)); ("payload", re_payload e);
  ("timestamp", JStr (show_timestamp (re_timestamp e)))].
Definition notification_json (n : Notification) : Json := JObj ([
  ("id", json_uuid (n_id n)); ("user_id", json_uuid (n_user_id n));
  ("org_id", json_opt json_uuid (n_org_id n)); ("title", JStr (n_title n)); ("body", JStr (n_body n));
  ("read", JBool (n_read n))]
  ++ match n_data n with Some v => [("data", v)] | None => [] end
  ++ [("created_at", JStr (show_timestamp (n_created_at n)))]).

(** The reference sent in place of an event that does not fit. *)
Definition slim (e : RealtimeEvent) : RealtimeEvent :=
  {| re_id := re_id e; re_event_type := re_event_type e; re_target_user_id := re_target_user_id e;
     re_payload := JObj [("truncated", JBool true)]; re_timestamp := re_timestamp e |}.

Definition publish (event : RealtimeEvent) : M unit :=
  let payload := json_to_string (event_json event) in
  if (MAX_NOTIFY_PAYLOAD <? str_len payload)%Z
  then pg_notify REALTIME_CHANNEL (json_to_string (event_json (slim event)))
  else pg_notify REALTIME_CHANNEL payload.

Definition publish_best_effort (event : RealtimeEvent) : M unit :=
  do! attempt (publish event) in ret tt.

(** ** Notifications *)

Definition fk_org_ref (d : Db) (oid : option Uuid) : bool :=
  match oid with Some o => exists_row (fun r => org_id r =? o)%N (organizations d) | None => true end.

Definition sql_insert_notification (n : Notification) : Sql Notification := fun _ d =>
  if exists_row (fun r => n_id r =? n_id n)%N (notifications d) then
    inr (UniqueViolation "notifications_pkey")
  else if negb (varchar 255 (n_title n)) then inr too_long
  else if negb (user_exists d (n_user_id n) && fk_org_ref d (n_org_id n))%bool then inr fk_violation
  else inl (n, set_notifications (insert_row n (notifications d)) d).

Definition with_read (n : Notification) : Notification :=
  {| n_id := n_id n; n_user_id := n_user_id n; n_org_id := n_org_id n; n_title := n_title n;
     n_body := n_body n; n_read := true; n_data := n_data n; n_created_at := n_created_at n |}.
Definition sql_mark_read (p : Notification -> bool) : Sql nat := fun _ d =>
  inl (rows_affected p (notifications d), set_notifications (update_where p with_read (notifications d)) d).

Definition create_scoped (user_id : Uuid) (oid : option Uuid) (title body : string) (data : option Json)
  : M Notification :=
  let! id := new_uuid in
  let! t := now in
  let! notif := sql (sql_insert_notification
    {| n_id := id; n_user_id := user_id; n_org_id := oid; n_title := title; n_body := body;
       n_read := false; n_data := data; n_created_at := t |}) in
  let! event_id := new_uuid in
  do! publish_best_effort
        {| re_id := event_id; re_event_type := "notification.created"; re_target_user_id := Some user_id;
           re_payload := notification_json notif; re_timestamp := n_created_at notif |} in
  ret notif.

Definition create (user_id : Uuid) (title body : string) (data : option Json) : M Notification :=
  create_scoped user_id None title body data.

Definition mark_as_read (user_id notification_id : Uuid) : M string :=
  let! rows := sql (sql_mark_read (fun n => (n_id n =? notification_id) && (n_user_id n =? user_id))%N) in
  do! guard (negb (Nat.eqb rows 0)) (NotFound "Notification not found") in
  ret "Notification marked as read".

Definition mark_all_as_read (user_id : Uuid) : M string :=
  let! rows := sql (sql_mark_read (fun n => (n_user_id n =? user_id)%N && negb (n_read n))%bool) in
  ret ("Marked " +:+ show_Z (Z.of_nat rows) +:+ " notification(s) as read").

(** ** The listener *)

(** What the connection reports to [run_listener]. *)
Inductive ListenerInput :=
| ConnectFailed | ListenFailed | Listening | Received (payload : string) | Dropped.
(** What the loop does next: forward an event, skip a malformed one, or sleep and reconnect. *)
Inductive ListenerOutput := Forward (e : RealtimeEvent) | Discard | SleepFor (secs : Z).

(** [backoff_secs], and whether the inner receive loop is running. *)
Record Listener := { li_backoff : Z; li_receiving : bool }.
Definition new_listener : Listener := {| li_backoff := 1; li_receiving := false |}.

Definition back_off (l : Listener) : Listener * list ListenerOutput :=
  ({| li_backoff := Z.min (li_backoff l * 2) 30; li_receiving := false |}, [SleepFor (li_backoff l)]).

(** [parse_realtime_event] is [serde_json::from_str::<RealtimeEvent>]. *)
Section Listener.
Context (parse_realtime_event : string -> option RealtimeEvent).

Definition run_listener_step (l : Listener) (i : ListenerInput) : Listener * list ListenerOutput :=
  if li_receiving l then
    match i with
    | Received payload =>
        (l, [match parse_realtime_event payload with Some e => Forward e | None => Discard end])
    | Dropped => back_off l
    | _ => (l, [])
    end
  else
    match i with
    | ConnectFailed | ListenFailed => back_off l
    | Listening => ({| li_backoff := 1; li_receiving := true |}, [])
    | _ => (l, [])
    end.

Fixpoint run_listener (l : Listener) (is_ : list ListenerInput) : Listener * list ListenerOutput :=
  match is_ with
  | [] => (l, [])
  | i :: rest =>
      let '(l1, o1) := run_listener_step l i in
      let '(l2, o2) := run_listener l1 rest in
      (l2, o1 ++ o2)
  end.

End Listener.

(** ** The stream of one client *)

Record SseEvent := { se_id : option string; se_event : string; se_data : string }.

(** What the broadcast channel yields: an event, or the number of events lost. *)
Definition sse_item (current_user_id : Uuid) (item : RealtimeEvent + Z) : option SseEvent :=
  match item with
  | inl event =>
      if (is_none (re_target_user_id event)
          || opt_eqb N.eqb (re_target_user_id event) (Some current_user_id))%bool
      then Some {| se_id := Some (uuid_show (re_id event)); se_event := re_event_type event;
                   se_data := json_to_string (event_json event) |}
      else None
  | inr skipped =>
      Some {| se_id := None; se_event := "lagged";
              se_data := "{" +:+ dquote +:+ "skipped" +:+ dquote +:+ ":" +:+ show_Z skipped +:+ ","
                         +:+ dquote +:+ "action" +:+ dquote +:+ ":" +:+ dquote +:+ "resync" +:+ dquote +:+ "}" |}
  end.

Definition sse_stream (current_user_id : Uuid) (items : list (RealtimeEvent + Z)) : list SseEvent :=
  omap (sse_item current_user_id) items.
End Publish.

(** ** Properties *)

Section ListenerProofs.
Context (parse_realtime_event : string -> option RealtimeEvent).
Local Abbreviation run_listener_step := (run_listener_step parse_realtime_event).
Local Abbreviation run_listener := (run_listener parse_realtime_event).

Definition backoff_ok (l : Listener) : Prop := (1 <= li_backoff l <= 30)%Z.

Lemma listener_step_ok l i : backoff_ok l →
  backoff_ok (fst (run_listener_step l i)) ∧
  ∀ n, SleepFor n ∈ snd (run_listener_step l i) → n = li_backoff l.
Proof.
  unfold backoff_ok, Realtime.run_listener_step. intros H.
  assert (Hb : (1 <= Z.min (li_backoff l * 2) 30 <= 30)%Z) by lia.
  destruct (li_receiving l), i; cbn [fst snd back_off li_backoff]; (split; [lia|]); intros n Hn;
    try by apply elem_of_nil in Hn.
  all: apply list_elem_of_singleton in Hn; try destruct (parse_realtime_event _); by simplify_eq.
Qed.

Lemma listener_sleeps l is_ : backoff_ok l →
  backoff_ok (fst (run_listener l is_)) ∧
  ∀ n, SleepFor n ∈ snd (run_listener l is_) → (1 <= n <= 30)%Z.
Proof.
  revert l. induction is_ as [|i is_ IH]; intros l H; cbn [Realtime.run_listener].
  - split; [done|]. by intros n ?%elem_of_nil.
  - destruct (listener_step_ok l i H) as [H1 S1]. destruct (run_listener_step l i) as [l1 o1].
    destruct (IH l1 H1) as [H2 S2]. destruct (run_listener l1 is_) as [l2 o2]. cbn in *. split; [done|].
    intros n [Hn|Hn]%elem_of_app; [|by apply S2]. rewrite (S1 n Hn). exact H.
Qed.

(** Between a successful LISTEN and the next drop, the well-formed notifications
    are forwarded in order and nothing else is. *)
Lemma listener_forwards payloads :
  omap (λ o, match o with Forward e => Some e | _ => None end)
    (snd (run_listener {| li_backoff := 1; li_receiving := true |} (Received <$> payloads)))
  = omap parse_realtime_event payloads.
Proof.
  induction payloads as [|p payloads IH]; [done|]. csimpl.
  destruct (run_listener _ _) as [l2 o2]. cbn in *. destruct (parse_realtime_event p); cbn; by rewrite IH.
Qed.
End ListenerProofs.

(** The message put on the wire for an event: the event itself when it fits the
    limit of a NOTIFY, the reference to it otherwise. *)
Definition wire {P : Platform} (e : RealtimeEvent) : RealtimeEvent :=
  if (MAX_NOTIFY_PAYLOAD <? str_len (json_to_string (event_json e)))%Z then slim e else e.

Lemma publish_wire {P : Platform} e w :
  publish e w = pg_notify REALTIME_CHANNEL (json_to_string (event_json (wire e))) w.
Proof. unfold publish, wire. by destruct (_ <? _)%Z. Qed.

Lemma sql_insert_notification_Ok n t d x d' : sql_insert_notification n t d = inl (x, d') →
  x = n ∧ d' = set_notifications (insert_row n (notifications d)) d.
Proof. unfold sql_insert_notification. repeat (case_match; try done). by intros [= <- <-]. Qed.

(** C35: a notification reaches its owner and nobody else. On a healthy database
    creating one stores it, unread, and sends exactly one message; every
    replica's listener that can read it forwards one event, the
    notification itself when its message is within the limit, a reference to it
    otherwise; and the stream of a connected user carries the event exactly when that
    user is the notification's owner. *)
Theorem notification_delivery {P : Platform} (uid : Uuid) (oid : option Uuid) (title body : string) (data : option Json) (w w' : World)
    (n : Notification) :
  w_faults w = [] → create_scoped uid oid title body data w = (Ok n, w') →
  n ∈ notifications (w_db w') ∧ n_user_id n = uid ∧ n_read n = false ∧
  ∃ message e, w_notify w' = w_notify w ++ [(REALTIME_CHANNEL, message)] ∧
    (∀ parse b, parse (json_to_string (event_json e)) = Some e →
       run_listener_step parse {| li_backoff := b; li_receiving := true |} (Received message)
       = ({| li_backoff := b; li_receiving := true |}, [Forward e])) ∧
    ((re_payload e = notification_json n ∧ message = json_to_string (event_json e) ∧
      (str_len message <= MAX_NOTIFY_PAYLOAD)%Z) ∨
     re_payload e = JObj [("truncated", JBool true)] ∧
     (MAX_NOTIFY_PAYLOAD < str_len (json_to_string (event_json
        {| re_id := re_id e; re_event_type := re_event_type e; re_target_user_id := re_target_user_id e;
           re_payload := notification_json n; re_timestamp := re_timestamp e |})))%Z) ∧
    ∀ viewer, is_Some (sse_item viewer (inl e)) ↔ viewer = uid.
Proof.
  intros Hf H. unfold create_scoped in H. rewrite bind_new_uuid, bind_now, bind_sql in H by done.
  wsimpl. destruct (sql_insert_notification _ _ _) as [[x d']|e] eqn:E; [|done].
  apply sql_insert_notification_Ok in E as [-> ->]. rewrite bind_new_uuid in H.
  set (notif := Build_Notification _ _ _ _ _ _ _ _) in *. set (ev := Build_RealtimeEvent _ _ _ _ _) in H.
  unfold publish_best_effort in H. rewrite bind_assoc, bind_attempt, publish_wire in H.
  unfold pg_notify in H. wsimpl. rewrite Hf in H. injection H as <- <-.
  cbn [w_db w_notify set_notify set_notifications notifications]. split.
  { apply elem_of_insert_row. by right. }
  split; [done|]. split; [done|].
  assert (Ht : re_target_user_id (wire ev) = Some uid) by (unfold wire; by destruct (_ <? _)%Z).
  exists (json_to_string (event_json (wire ev))), (wire ev). split; [done|]. split.
  { intros parse b Hparse. unfold run_listener_step. cbn [li_receiving]. by rewrite Hparse. }
  split.
  { unfold wire. destruct (Z.ltb_spec MAX_NOTIFY_PAYLOAD (str_len (json_to_string (event_json ev)))); [right | left]; by split_and!. }
  intros viewer. unfold sse_item. rewrite Ht. cbn. destruct (N.eqb_spec uid viewer) as [->|Hne].
  - split; [done | by eexists].
  - split; [by intros [? ?] | by intros ->].
Qed.

Module RealtimeExample.
Definition user (uid : Uuid) : UserRow := {|
  ur_user := {| u_id := uid; u_name := "U"; u_email := show_Z (Z.of_N uid) +:+ "@x"; u_email_verified := true;
                u_image := None; u_role := "user"; u_banned := false; u_created_at := 0%Z; u_updated_at := 0%Z |};
  ur_failed_login_attempts := 0; ur_locked_until := None; ur_deleted_at := None |}.
Definition w : World := world_of (set_users [user 1%N; user 2%N] empty_db) 1000000.
End RealtimeExample.

Abbreviation noticed := (@create_scoped toy 1%N None "Welcome" "Hello" None RealtimeExample.w).

Lemma notification_delivery_witness :
  ∃ e : RealtimeEvent, is_Some (@sse_item toy 1%N (inl e)) ∧ ¬ is_Some (@sse_item toy 2%N (inl e)).
Proof.
  assert (Hok : is_ok (fst noticed) = true) by (vm_compute; reflexivity).
  destruct noticed as [[n|x|] w'] eqn:E; [|discriminate Hok..].
  destruct (@notification_delivery toy 1%N None "Welcome" "Hello" None RealtimeExample.w w' n eq_refl E)
    as (_ & _ & _ & message & e & _ & _ & _ & H).
  exists e. split; [apply H; reflexivity | intros [=]%H].
Defined.

(** A user marks only their own notifications. Marking one succeeds exactly
    when it exists and is the caller's, the answer does not tell a missing
    notification from another user's, and no other row changes; marking all
    reads every one of the caller's and reports how many were unread. *)
Theorem mark_read_own (uid nid : Uuid) (w : World) :
  w_faults w = [] →
  ∃ w1 w2,
    mark_as_read uid nid w =
      ((if exists_row (fun n => (n_id n =? nid) && (n_user_id n =? uid))%N (notifications (w_db w))
        then Ok "Notification marked as read" else Err (NotFound "Notification not found")), w1) ∧
    mark_all_as_read uid w =
      (Ok ("Marked " +:+ show_Z (Z.of_nat (rows_affected (fun n => (n_user_id n =? uid)%N && negb (n_read n))%bool
             (notifications (w_db w)))) +:+ " notification(s) as read"), w2) ∧
    (∀ n, n ∈ notifications (w_db w) → n_user_id n ≠ uid →
       n ∈ notifications (w_db w1) ∧ n ∈ notifications (w_db w2)) ∧
    (∀ n, n ∈ notifications (w_db w1) → n_id n = nid → n_user_id n = uid → n_read n = true) ∧
    (∀ n, n ∈ notifications (w_db w2) → n_user_id n = uid → n_read n = true).
Proof.
  intros Hf. unfold mark_as_read, mark_all_as_read. do 2 rewrite bind_sql by done. unfold sql_mark_read.
  set (p := fun n : Notification => ((n_id n =? nid) && (n_user_id n =? uid))%N).
  set (q := fun n : Notification => ((n_user_id n =? uid)%N && negb (n_read n))%bool).
  assert (Hrows : negb (Nat.eqb (rows_affected p (notifications (w_db w))) 0) = exists_row p (notifications (w_db w))).
  { unfold rows_affected, select, exists_row. induction (notifications (w_db w)) as [|n l IH]; [done|].
    cbn. destruct (p n); [done | exact IH]. }
  exists (set_db (set_notifications (update_where p with_read (notifications (w_db w))) (w_db w)) w).
  exists (set_db (set_notifications (update_where q with_read (notifications (w_db w))) (w_db w)) w).
  split; [rewrite bind_guard, Hrows; by destruct (exists_row p _)|]. split; [done|].
  cbn [w_db set_db set_notifications notifications]. split_and!.
  - intros n Hn Hne. apply N.eqb_neq in Hne. split; apply elem_of_update_where; exists n; (split; [done|]).
    + unfold p. by rewrite Hne, andb_false_r.
    + unfold q. by rewrite Hne.
  - intros n (r & _ & ->)%elem_of_update_where Hid Hu. destruct (p r) eqn:E; [done|].
    unfold p in E. by rewrite Hid, Hu, !N.eqb_refl in E.
  - intros n (r & _ & ->)%elem_of_update_where Hu. destruct (q r) eqn:E; [done|].
    unfold q in E. rewrite Hu, N.eqb_refl in E. by apply negb_false_iff in E.
Qed.

Definition Example_note (nid uid : Uuid) : Notification := {|
  n_id := nid; n_user_id := uid; n_org_id := None; n_title := "T"; n_body := "B"; n_read := false;
  n_data := None; n_created_at := 0%Z |}.

Lemma mark_read_own_witness :
  let w := world_of (set_notifications [Example_note 5%N 1%N; Example_note 6%N 2%N] empty_db) 0 in
  fst (mark_as_read 1%N 6%N w) = Err (NotFound "Notification not found").
Proof.
  intros w. destruct (mark_read_own 1%N 6%N w eq_refl) as (w1 & w2 & H & _). rewrite H. reflexivity.
Defined.
