(* ===== verification/Worker.v ===== *)
(** * The background tasks ([main.rs])

    The worker loop over the webhook queue, one iteration at a time, and the
    hourly clean-up. A loop that never ends is its body, iterated. *)
From stdpp Require Import gmap.
From S2P Require Import Prelude RustStr Models Errors Platform World Schema Disk StorageBackend.
From S2P Require Import BackendLaws AuditTrail Orgs Storage JobQueue Webhooks.
From S2P Require AuthProofs.

(** ** [background_worker_loop] *)

(** What the loop does after an iteration: poll again at once, or sleep. *)
Inductive Next := Again | Sleep (secs : Z).

Section Worker.
Context {P : Platform} {R : Remote}.

(** The five fields of a delivery job, [None] where one is missing or malformed. *)
Definition deliver_args (payload : Json) : option (Uuid * string * string * string * Json) :=
  match as_str (json_index payload "delivery_id") with
  | Some s =>
      match uuid_parse s, as_str (json_index payload "target_url"), as_str (json_index payload "secret"),
            as_str (json_index payload "event_type") with
      | Some del_id, Some url, Some sec, Some evt => Some (del_id, url, sec, evt, json_index payload "payload")
      | _, _, _, _ => None
      end
  | None => None
  end.

(** The handling of one polled job, [let _ =] dropping the errors of the bookkeeping. *)
Definition process_job (job : BackgroundJobRecord) : M unit :=
  if j_job_type job =s "webhook.deliver" then
    match deliver_args (j_payload job) with
    | Some (del_id, url, sec, evt, payload) =>
        let! delivered := attempt (execute_delivery del_id url sec evt payload) in
        match delivered with
        | inl true => do! attempt (complete_job (j_id job)) in ret tt
        | inl false =>
            do! attempt (fail_job (j_id job) (j_attempts job) (j_max_attempts job)
                           "Delivery returned non-2xx HTTP status") in ret tt
        | inr e =>
            do! attempt (fail_job (j_id job) (j_attempts job) (j_max_attempts job) (AppError_show e)) in ret tt
        end
    | None =>
        do! attempt (fail_job (j_id job) (j_max_attempts job) (j_max_attempts job)
                       "Malformed webhook delivery job payload") in ret tt
    end
  else ret tt.

Definition worker_iteration (locked : Uuid -> bool) (worker_id : string) : M Next :=
  let! polled := attempt (poll_next_job locked "webhooks" worker_id) in
  match polled with
  | inl (Some job) => do! process_job job in ret Again
  | inl None => ret (Sleep 2)
  | inr _ => ret (Sleep 5)
  end.
End Worker.

(** ** [cleanup_loop] *)

Definition cleanup_statements (t : Timestamp) : list (Db -> Db) := [
  (fun d => set_idempotency_keys (delete_where (fun r => ik_expires_at r <=? t)%Z (idempotency_keys d)) d);
  (fun d => set_verifications (delete_where (fun r => v_expires_at r <=? t - days 7)%Z (verifications d)) d);
  (fun d => set_oauth_auth_requests (delete_where (fun r => oa_expires_at r <=? t)%Z (oauth_auth_requests d)) d);
  (fun d => set_sessions (delete_where (fun r => s_expires_at (sr_session r) <=? t - days 30)%Z (sessions d)) d)].

Fixpoint run_statements (l : list (Db -> Db)) : M unit :=
  match l with
  | [] => ret tt
  | f :: rest => do! attempt (sql (sql_write (fun _ d => f d))) in run_statements rest
  end.

Definition stale_uploads (grace : Z) (t : Timestamp) (d : Db) : list (Uuid * string) :=
  List.map (fun r => (fr_id r, f_storage_key (fr_record r)))
    (select (fun r => (f_status (fr_record r) =s "pending") && fr_live r
                      && (f_created_at (fr_record r) <? t - seconds grace)%Z)%bool (files d)).

Section Cleanup.
Context {B : StorageBackend} (cfg : AppConfig).

Fixpoint reap_each (l : list (Uuid * string)) : M unit :=
  match l with
  | [] => ret tt
  | (id, storage_key) :: rest =>
      do! attempt (sb_delete storage_key) in
      do! attempt (sql (sql_delete_file id)) in
      reap_each rest
  end.

Definition reap_abandoned_uploads : M unit :=
  let grace := (signed_url_ttl_seconds cfg * 2)%Z in
  let! stale := attempt (sql (sql_read (stale_uploads grace))) in
  match stale with
  | inl stale => reap_each stale
  | inr _ => ret tt
  end.

Definition cleanup_pass : M unit :=
  let! t := now in
  do! run_statements (cleanup_statements t) in
  do! attempt (reap_old_jobs 14) in
  reap_abandoned_uploads.
End Cleanup.

(** ** The worker keeps to the queue's steps *)

(** A statement whose error is dropped ran, or left the database alone. *)
Lemma attempt_sql_run {A} (q : Sql A) w r w' : attempt (sql q) w = (r, w') →
  is_ok r = true ∧ w_now w' = w_now w ∧
  (w_db w' = w_db w ∨ ∃ a, q (w_now w) (w_db w) = inl (a, w_db w')).
Proof.
  unfold attempt. destruct (sql q w) as [[a|e|] w1] eqn:E; intros [= <- <-].
  - apply sql_Ok_inv in E as (? & ? & _). eauto 6.
  - split; [done|]. destruct (steady_exec DatabaseError q w) as [Hn _]. fold (sql q) in Hn. rewrite E in Hn.
    apply exec_Err_inv in E as [? _]. auto.
  - by apply exec_no_panic in E.
Qed.

Section Refinement.
Context {P : Platform} {R : Remote} (worker : string) (locks : gmap string Uuid)
  (work : gmap string BackgroundJobRecord).

Lemma execute_delivery_frame id url sec evt payload :
  respects (same background_jobs) (execute_delivery id url sec evt payload).
Proof. unfold execute_delivery. respects_tac. Qed.
Lemma execute_delivery_steady id url sec evt payload : steady (execute_delivery id url sec evt payload).
Proof. unfold execute_delivery. steady_tac. Qed.
Lemma execute_delivery_no_panic id url sec evt payload w w' :
  execute_delivery id url sec evt payload w ≠ (Panic, w').
Proof.
  unfold execute_delivery. rewrite bind_now. destruct (webhook_post _ _ _) as [[code text]|err];
    unfold bind; destruct (sql _ w) as [[u|e|] w1] eqn:E; try done; by apply exec_no_panic in E.
Qed.

(** A report that ran, or was lost. *)
Lemma report_steps (report : M unit) j (rep : Report) w r w' :
  report = sql (report_release rep (w_now w) j) →
  (do! attempt report in ret tt) w = (r, w') →
  r = Ok tt ∧ rtc queue_step (MkQueue (w_db w) (w_now w) locks (<[worker := j]> work))
                (MkQueue (w_db w') (w_now w') locks (delete worker (<[worker := j]> work))).
Proof.
  intros -> H. unfold bind in H. destruct (attempt _ w) as [x w1] eqn:E.
  apply attempt_sql_run in E as (Hok & Hn & Hr). destruct x as [x|e|]; [|done..]. injection H as <- <-.
  rewrite Hn. split; [done|]. apply rtc_once. destruct Hr as [-> | [[] Hq]].
  - exact (step_lost (MkQueue (w_db w) (w_now w) locks (<[worker := j]> work)) worker).
  - exact (step_report (MkQueue (w_db w) (w_now w) locks (<[worker := j]> work)) worker j rep (w_db w1)
      (lookup_insert_eq _ _ _) Hq).
Qed.

Lemma fail_job_report j e w : w_now w = w_now w →
  fail_job (j_id j) (j_attempts j) (j_max_attempts j) e w = sql (report_release (FailedAttempt e) (w_now w) j) w.
Proof. intros _. unfold fail_job, report_release. by destruct (_ <=? _)%Z. Qed.
Lemma fail_job_malformed j e w :
  fail_job (j_id j) (j_max_attempts j) (j_max_attempts j) e w = sql (report_release (Malformed e) (w_now w) j) w.
Proof. unfold fail_job, report_release. by rewrite Z.leb_refl. Qed.

Lemma attempt_ext {A B} (m1 m2 : M A) (k : A + AppError -> M B) w :
  m1 w = m2 w → bind (attempt m1) k w = bind (attempt m2) k w.
Proof. intros H. unfold bind, attempt. by rewrite H. Qed.

Lemma process_job_steps j w r w' : work !! worker = None → process_job j w = (r, w') →
  r = Ok tt ∧ rtc queue_step (MkQueue (w_db w) (w_now w) locks (<[worker := j]> work))
                (MkQueue (w_db w') (w_now w') locks work).
Proof.
  intros Hw H. assert (Hback : delete worker (<[worker := j]> work) = work) by (by apply delete_insert_id).
  unfold process_job in H. destruct (_ =s _).
  2: { injection H as <- <-. split; [done|]. apply rtc_once.
       pose proof (step_lost (MkQueue (w_db w) (w_now w) locks (<[worker := j]> work)) worker) as Hs.
       cbn in Hs. by rewrite Hback in Hs. }
  destruct (deliver_args (j_payload j)) as [[[[[id url] sec] evt] payload]|].
  2: { erewrite attempt_ext in H by apply fail_job_malformed.
       by eapply report_steps in H as [-> H]; [rewrite Hback in H|]. }
  unfold bind at 1 in H. unfold attempt at 1 in H.
  pose proof (execute_delivery_frame id url sec evt payload w) as Hf.
  pose proof (execute_delivery_steady id url sec evt payload w) as [Hn _].
  destruct (execute_delivery id url sec evt payload w) as [d w1] eqn:Ed. cbn [snd] in Hf, Hn.
  assert (Hrep : ∀ m rep, (do! attempt m in ret tt) w1 = (r, w') → m w1 = sql (report_release rep (w_now w1) j) w1 →
    r = Ok tt ∧ rtc queue_step (MkQueue (w_db w) (w_now w) locks (<[worker := j]> work))
                  (MkQueue (w_db w') (w_now w') locks work)).
  { intros m rep Hm Heq. erewrite attempt_ext in Hm by exact Heq.
    eapply report_steps in Hm as [-> Hm]; [|done]. rewrite Hback in Hm. split; [done|].
    eapply rtc_l; [|exact Hm]. rewrite <- Hn.
    exact (step_elsewhere (MkQueue (w_db w) (w_now w1) locks (<[worker := j]> work)) (w_db w1) Hf). }
  destruct d as [[]|e|].
  - by apply (Hrep _ Done) in H.
  - apply (Hrep _ (FailedAttempt "Delivery returned non-2xx HTTP status")) in H; [done|]. by apply fail_job_report.
  - apply (Hrep _ (FailedAttempt (AppError_show e))) in H; [done|]. by apply fail_job_report.
  - by apply execute_delivery_no_panic in Ed.
Qed.

(** C16: the worker loop is the queue's step relation. Whatever the fault schedule
    and whatever the receivers answer, one iteration of an idle worker returns,
    and takes the replicas' queue, through steps of the relation only, to a
    state where that worker is idle again and every other worker's transaction
    and job are untouched; so every state the running service reaches is a
    reachable state of the relation. *)
Theorem worker_refines (w w' : World) (r : outcome Next AppError) :
  locks !! worker = None → work !! worker = None →
  worker_iteration (held locks) worker w = (r, w') →
  is_ok r = true ∧
  rtc queue_step (MkQueue (w_db w) (w_now w) locks work) (MkQueue (w_db w') (w_now w') locks work).
Proof.
  intros Hl Hw H. unfold worker_iteration in H. rewrite bind_attempt in H.
  pose proof (steady_transaction _ (poll_steady (held locks) "webhooks" worker) w) as [Hn _].
  fold (poll_next_job (held locks) "webhooks" worker) in Hn.
  destruct (poll_next_job _ _ _ w) as [p w1] eqn:Ep. cbn [snd] in Hn. destruct p as [[j|]|e|].
  - apply (poll_steps locks work) in Ep; [|done..].
    unfold bind in H. destruct (process_job j w1) as [x w2] eqn:Ex.
    apply process_job_steps in Ex as [-> Hx]; [|done]. injection H as <- <-. split; [done|].
    etrans; [|exact Hx]. by eapply rtc_nsteps_2.
  - apply poll_Ok_inv in Ep as (_ & Hd & _). injection H as <- <-. by rewrite Hn, Hd.
  - apply (transaction_atomic _ w) in Ep; [|done]. injection H as <- <-. by rewrite Hn, Ep.
  - exfalso. revert Ep. apply poll_no_panic.
Qed.
End Refinement.

Abbreviation due_job := (JobExample.job 1%N 0%Z "queued" 20%Z).
Abbreviation iterated := (@worker_iteration toy toy_remote (held ∅) "w1" (JobExample.w [due_job])).

Lemma worker_refines_witness :
  rtc queue_step (MkQueue (JobExample.db [due_job]) 1000000 ∅ ∅)
    (MkQueue (w_db (snd iterated)) (w_now (snd iterated)) ∅ ∅) ∧
  List.map j_status (background_jobs (w_db (snd iterated))) = ["failed"].
Proof.
  assert (Hst : List.map j_status (background_jobs (w_db (snd iterated))) = ["failed"]) by (vm_compute; reflexivity).
  split; [|exact Hst]. destruct iterated as [r w'] eqn:E.
  exact (proj2 (@worker_refines toy toy_remote "w1" ∅ ∅ (JobExample.w [due_job]) w' r eq_refl eq_refl E)).
Defined.

(** ** Delivery *)

Section Delivery.
Context {P : Platform} {R : Remote}.

(** The worker reads back what the dispatcher wrote into the job. *)
Lemma deliver_args_payload id wh evt payload :
  uuid_parse (uuid_show id) = Some id →
  deliver_args (job_payload id wh evt payload) = Some (id, wh_target_url wh, wh_secret wh, evt, payload).
Proof. intros H. unfold deliver_args, job_payload. cbn. by rewrite H. Qed.

(** What the receiver answers to a delivery attempted now. *)
Definition response_to (id : Uuid) (wh : WebhookRecord) (evt : string) (payload : Json) (t : Timestamp) :=
  webhook_post (wh_target_url wh)
    [("Content-Type", "application/json"); ("X-Webhook-Event", evt); ("X-Webhook-Delivery", uuid_show id);
     ("X-Webhook-Signature", compute_signature (wh_secret wh) (timestamp t) (json_to_string payload))]
    (json_to_string payload).
Definition accepted (r : (Z * option string) + string) : bool :=
  match r with inl (code, _) => ((200 <=? code) && (code <? 300))%Z%bool | inr _ => false end.

Lemma execute_delivery_healthy id wh evt payload w :
  w_faults w = [] → (∀ x, x ∈ webhook_deliveries (w_db w) → (wd_attempts x < 2 ^ 31 - 1)%Z) →
  ∃ code body, 
    let ok := accepted (response_to id wh evt payload (w_now w)) in
    execute_delivery id (wh_target_url wh) (wh_secret wh) evt payload w =
    (Ok ok, set_db (set_webhook_deliveries (update_where (fun x => wd_id x =? id)%N
       (with_attempt (if ok then "delivered" else "failed") code body (w_now w)) (webhook_deliveries (w_db w)))
       (w_db w)) w).
Proof.
  intros Hf Ha. unfold execute_delivery. rewrite bind_now. fold (response_to id wh evt payload (w_now w)).
  assert (Hno : ∀ p, exists_row (fun x => p x && (2 ^ 31 - 1 <? wd_attempts x + 1)%Z)%bool
                       (webhook_deliveries (w_db w)) = false).
  { intros p. apply exists_row_false. intros x Hx. specialize (Ha x Hx).
    replace (2 ^ 31 - 1 <? wd_attempts x + 1)%Z with false by lia. apply andb_false_r. }
  destruct (response_to id wh evt payload (w_now w)) as [[code text]|err]; cbn [accepted];
    rewrite bind_sql by done; unfold sql_record_attempt; rewrite Hno; eauto.
Qed.
End Delivery.

(** The job of a delivery, alone in the queue. *)
Definition delivery_job {P : Platform} (j : BackgroundJobRecord) (id : Uuid) (wh : WebhookRecord)
    (evt : string) (payload : Json) : Prop :=
  j_queue j = "webhooks" ∧ j_job_type j = "webhook.deliver" ∧ j_payload j = job_payload id wh evt payload.

Definition released {P : Platform} {R : Remote} (worker : string) (j : BackgroundJobRecord) (ok : bool) (t : Timestamp)
  : BackgroundJobRecord :=
  let j1 := start_row worker t j in
  if ok then release_row Completed None None t j1
  else if (j_max_attempts j <=? j_attempts j + 1)%Z
       then release_row Failed (Some "Delivery returned non-2xx HTTP status") None t j1
       else release_row Queued (Some "Delivery returned non-2xx HTTP status")
              (Some (t + seconds (backoff_secs (j_attempts j + 1)))%Z) t j1.

Lemma attempt_inl_run {A} (m : M A) w a w' : attempt m w = (Ok (inl a), w') → m w = (Ok a, w').
Proof. unfold attempt. destruct (m w) as [[x|e|] w1]; intros H; by simplify_eq. Qed.

Section Rounds.
Context {P : Platform} {R : Remote} (worker : string) (id : Uuid) (wh : WebhookRecord) (evt : string)
  (payload : Json) (Hid : uuid_parse (uuid_show id) = Some id) (Hworker : varchar 128 worker = true).

Lemma poll_alone w j :
  w_faults w = [] → background_jobs (w_db w) = [j] → delivery_job j id wh evt payload →
  due (fun _ => false) "webhooks" (w_now w) j = true → (j_attempts j < 2 ^ 31 - 1)%Z →
  poll_next_job (fun _ => false) "webhooks" worker w =
    (Ok (Some (start_row worker (w_now w) j)),
     set_db (set_background_jobs [start_row worker (w_now w) j] (w_db w)) w).
Proof.
  intros Hf Hj _ Hdue Ha.
  assert (Hq : q_next_job (fun _ => false) "webhooks" (w_now w) (w_db w) = Some j).
  { unfold q_next_job. rewrite Hj. unfold select. cbn. rewrite Hdue. reflexivity. }
  assert (Hstart : sql_start_job worker (j_id j) (w_now w) (w_db w) =
    inl (start_row worker (w_now w) j, set_background_jobs [start_row worker (w_now w) j] (w_db w))).
  { unfold sql_start_job, update_where, fetch_optional. rewrite Hj. cbn. unfold job_is.
    rewrite N.eqb_refl, Hworker. by replace (2 ^ 31 - 1 <? j_attempts j + 1)%Z with false by lia. }
  apply (transaction_healthy _ w (Ok (Some _)) (set_db _ w)); [done | | done].
  rewrite bind_read by done. rewrite Hq, bind_sql by done. by rewrite Hstart.
Qed.

Lemma release_alone st e ra w j :
  w_faults w = [] → background_jobs (w_db w) = [j] →
  attempt (sql (sql_release (j_id j) st e ra)) w =
    (Ok (inl tt), set_db (set_background_jobs [release_row st e ra (w_now w) j] (w_db w)) w).
Proof.
  intros Hf Hj. unfold attempt, sql_release. rewrite sql_write_healthy by done.
  unfold update_where. rewrite Hj. cbn. unfold job_is. by rewrite N.eqb_refl.
Qed.

(** One round of the worker over its one due job. *)
Lemma round_alone w j :
  w_faults w = [] → background_jobs (w_db w) = [j] → delivery_job j id wh evt payload →
  due (fun _ => false) "webhooks" (w_now w) j = true → (j_attempts j < 2 ^ 31 - 1)%Z →
  (∀ x, x ∈ webhook_deliveries (w_db w) → (wd_attempts x < 2 ^ 31 - 1)%Z) →
  let ok := accepted (response_to id wh evt payload (w_now w)) in
  ∃ code body d',
    worker_iteration (fun _ => false) worker w = (Ok Again, set_db d' w) ∧
    background_jobs d' = [released worker j ok (w_now w)] ∧
    webhook_deliveries d' = update_where (fun x => wd_id x =? id)%N
      (with_attempt (if ok then "delivered" else "failed") code body (w_now w)) (webhook_deliveries (w_db w)).
Proof.
  intros Hf Hj Hd Hdue Ha Hdel ok. unfold worker_iteration. rewrite bind_attempt, (poll_alone w j) by done.
  destruct Hd as (Hq & Hty & Hpl). unfold process_job. cbn [start_row j_job_type j_payload]. rewrite Hty, Hpl.
  rewrite (proj2 (String.eqb_eq _ _) eq_refl), deliver_args_payload by done.
  set (w1 := set_db _ w).
  destruct (execute_delivery_healthy id wh evt payload w1) as (code & body & He); [done..|].
  exists code, body. change (w_now w1) with (w_now w) in He. fold ok in He. cbv zeta in He.
  rewrite bind_assoc, bind_attempt, He. set (w2 := set_db _ w1).
  assert (Hj2 : background_jobs (w_db w2) = [start_row worker (w_now w) j]) by reflexivity.
  unfold complete_job, fail_job, released. destruct ok.
  - rewrite bind_assoc. unfold bind. erewrite (release_alone _ _ _ w2) by done. by eexists.
  - change (j_max_attempts (start_row worker (w_now w) j)) with (j_max_attempts j).
    change (j_attempts (start_row worker (w_now w) j)) with (j_attempts j + 1)%Z.
    destruct (j_max_attempts j <=? j_attempts j + 1)%Z; rewrite bind_assoc; unfold bind.
    + erewrite (release_alone _ _ _ w2) by done. by eexists.
    + unfold attempt, now. erewrite (attempt_inl_run _ w2) by (by apply release_alone). by eexists.
Qed.
End Rounds.

(** Rounds of the loop with the clock moved on by [gap] before each. *)
Fixpoint rounds {P : Platform} {R : Remote} (worker : string) (gap : Z) (n : nat) : M unit :=
  match n with
  | O => ret tt
  | S n =>
      do! (fun w => (Ok tt, set_now (w_now w + gap)%Z w)) in
      do! worker_iteration (fun _ => false) worker in
      rounds worker gap n
  end.

Lemma rounds_S {P : Platform} {R : Remote} worker gap n w w1 :
  worker_iteration (fun _ => false) worker (set_now (w_now w + gap)%Z w) = (Ok Again, w1) →
  rounds worker gap (S n) w = rounds worker gap n w1.
Proof.
  intros H. change (rounds worker gap (S n) w) with
    (bind (worker_iteration (fun _ => false) worker) (fun _ => rounds worker gap n) (set_now (w_now w + gap)%Z w)).
  unfold bind. by rewrite H.
Qed.

(** The job of a delivery over [S n] rounds, [ok t] the receiver's answer at [t]:
    done in the first round it accepts, or failed after the last. *)
Lemma rounds_end {P : Platform} {R : Remote} worker id wh evt payload gap :
  uuid_parse (uuid_show id) = Some id → varchar 128 worker = true → (seconds 5120 <= gap)%Z →
  let ok t := accepted (response_to id wh evt payload t) in
  ∀ n w j, w_faults w = [] → background_jobs (w_db w) = [j] → delivery_job j id wh evt payload →
  due (fun _ => false) "webhooks" (w_now w + gap) j = true →
  (0 <= j_attempts j)%Z → (j_max_attempts j = j_attempts j + Z.of_nat (S n))%Z → (j_max_attempts j < 2 ^ 31)%Z →
  (∀ x, x ∈ webhook_deliveries (w_db w) → (wd_attempts x + Z.of_nat (S n) < 2 ^ 31)%Z) →
  ∃ k w' j' code body wds, k <= n ∧ rounds worker gap (S k) w = (Ok tt, w') ∧ background_jobs (w_db w') = [j'] ∧
    (∀ i, i < k → ok (w_now w + gap * Z.of_nat (S i))%Z = false) ∧
    w_now w' = (w_now w + gap * Z.of_nat (S k))%Z ∧ j_attempts j' = (j_attempts j + Z.of_nat (S k))%Z ∧
    map wd_id wds = map wd_id (webhook_deliveries (w_db w)) ∧
    webhook_deliveries (w_db w') = update_where (fun x => wd_id x =? id)%N
      (with_attempt (if ok (w_now w') then "delivered" else "failed") code body (w_now w')) wds ∧
    if ok (w_now w') then j_status j' = "completed" else k = n ∧ j_status j' = "failed".
Proof.
  intros Hid Hwk Hgap ok. induction n as [|n IH]; intros w j Hf Hj Hd Hdue H0 Hmax Hlim Hdel.
  all: set (w1 := set_now (w_now w + gap) w).
  all: destruct (round_alone worker id wh evt payload Hid Hwk w1 j) as (code & body & d' & Hit & Hj' & Hdel');
    try done; try (by lia); try (intros x Hx; specialize (Hdel x Hx); lia).
  all: change (w_now w1) with (w_now w + gap)%Z in Hit, Hj', Hdel'; fold (ok (w_now w + gap)%Z) in Hj', Hdel';
    destruct (ok (w_now w + gap)%Z) eqn:Eok; unfold released in Hj'.
  1, 3: exists 0; erewrite rounds_S by done; eexists _, _, code, body, _; split; [lia|]; split; [reflexivity|];
    split; [exact Hj'|]; split; [intros i Hi; lia|]; cbn [w_now set_db set_now w_db];
    change (w_now w1) with (w_now w + gap)%Z; rewrite Eok, Hdel'; split_and!; try reflexivity; cbn; lia.
  - replace (j_max_attempts j <=? j_attempts j + 1)%Z with true in Hj' by lia.
    exists 0. erewrite rounds_S by done. eexists _, _, code, body, _. split; [lia|]. split; [reflexivity|].
    split; [exact Hj'|]. split; [intros i Hi; lia|]. cbn [w_now set_db set_now w_db].
    change (w_now w1) with (w_now w + gap)%Z. rewrite Eok, Hdel'. split_and!; try reflexivity; cbn; lia.
  - replace (j_max_attempts j <=? j_attempts j + 1)%Z with false in Hj' by lia.
    edestruct (IH (set_db d' w1)) as (k & w' & j' & c & b & wds & Hk & Hr & Hj2 & Hno & Hnow & Hatt & Hids & Hrows & Hst);
      [done | exact Hj' | done | | | | done | |].
    + unfold due, has_status. cbn. destruct Hd as (-> & _ & _). rewrite String.eqb_refl. cbn.
      rewrite andb_true_r. apply Z.leb_le. pose proof (backoff_range (j_attempts j + 1)). unfold seconds in *. lia.
    + cbn. lia.
    + cbn [release_row start_row j_max_attempts j_attempts]. lia.
    + intros x Hx. cbn [w_db set_db] in Hx. rewrite Hdel' in Hx.
      apply elem_of_update_where in Hx as (x0 & Hx0 & ->). specialize (Hdel x0 Hx0).
      destruct (_ =? _)%N; cbn [with_attempt wd_attempts]; lia.
    + exists (S k), w', j', c, b, wds. erewrite rounds_S by done. change (w_now (set_db d' w1)) with (w_now w + gap)%Z in *.
      split_and!; try done; [lia | | lia | cbn in Hatt; lia | | by destruct (ok (w_now w')); [|destruct Hst as [-> ?]]].
      * intros [|i] Hi; [by rewrite Z.mul_1_r|]. rewrite <- (Hno i) by lia. f_equal. lia.
      * rewrite Hids. cbn [w_db set_db]. rewrite Hdel'. unfold update_where. rewrite map_map. apply map_ext.
        intros x. by destruct (_ =? _)%N.
Qed.


Module DeliveryExample.
Definition hook : WebhookRecord := WebhookExample.hook 1%N ["*"] "https://down.example.com".
Definition job : BackgroundJobRecord := {|
  j_id := 1%N; j_queue := "webhooks"; j_job_type := "webhook.deliver";
  j_payload := @job_payload toy 7%N hook "user.created" (JNum 1); j_status := "queued"; j_attempts := 0;
  j_max_attempts := 5; j_last_error := None; j_run_at := 0%Z; j_locked_at := None; j_locked_by := None;
  j_created_at := 0%Z; j_updated_at := 0%Z |}.
Definition delivery : WebhookDeliveryRecord := {|
  wd_id := 7%N; wd_webhook_id := 1%N; wd_event_type := "user.created"; wd_payload := JNum 1;
  wd_status := "pending"; wd_status_code := None; wd_response_body := None; wd_attempts := 0;
  wd_created_at := 0%Z; wd_updated_at := 0%Z |}.
Definition w : World := world_of (set_background_jobs [job] (set_webhook_deliveries [delivery] empty_db)) 1000000.
End DeliveryExample.

(** A receiver that is down until its third attempt. *)
Definition recovering : Remote :=
  let '(Build_Remote j r c p a x g u m _) := toy_remote in
  Build_Remote j r c p a x g u m (fun _ headers body =>
    if existsb (fun h => snd h =s @compute_signature toy (wh_secret DeliveryExample.hook)
                                    (timestamp (1000000 + seconds 15360)) body) headers
    then inl (204%Z, None) else inr "connection refused").


(** ** Clean-up *)

(** Rows that satisfy [live] are still there. *)
Definition kept {A} (T : Db -> list A) (live : A -> Prop) (d d' : Db) : Prop :=
  ∀ x, x ∈ T d → live x → x ∈ T d'.
#[export] Instance kept_preorder {A} (T : Db -> list A) live : PreOrder (kept T live).
Proof. split; unfold kept; [by intros ? ? ? | naive_solver]. Qed.

(** Some rows were deleted, none of them [live], and none was added or changed. *)
Definition trimmed {A} (T : Db -> list A) (live : A -> Prop) (d d' : Db) : Prop :=
  kept T live d d' ∧ ∀ x, x ∈ T d' → x ∈ T d.
#[export] Instance trimmed_preorder {A} (T : Db -> list A) live : PreOrder (trimmed T live).
Proof.
  split; [by intros d; split|]. intros d1 d2 d3 [K1 S1] [K2 S2]. split; [by etrans|]. auto.
Qed.

Lemma trimmed_same {A} (T : Db -> list A) live d d' : T d' = T d → trimmed T live d d'.
Proof. intros H. split; [intros x Hx _ | intros x Hx]; congruence. Qed.

Lemma trimmed_delete {A} (T : Db -> list A) live (p : A -> bool) d d' :
  T d' = delete_where p (T d) → (∀ y, live y → p y = false) → trimmed T live d d'.
Proof.
  intros H Hp. unfold trimmed, kept. rewrite H. setoid_rewrite elem_of_delete_where. naive_solver.
Qed.

(** What a clean-up at time [t] must leave. *)
Definition live_session (t : Timestamp) (r : SessionRow) : Prop := (t - days 30 < s_expires_at (sr_session r))%Z.
Definition live_verification (t : Timestamp) (r : VerificationRow) : Prop := (t - days 7 < v_expires_at r)%Z.
Definition live_oauth (t : Timestamp) (r : OAuthRequestRow) : Prop := (t < oa_expires_at r)%Z.
Definition live_idempotency (t : Timestamp) (r : IdempotencyRow) : Prop := (t < ik_expires_at r)%Z.
Definition live_job (t : Timestamp) (j : BackgroundJobRecord) : Prop :=
  finished j = false ∨ (t - days 14 <= j_updated_at j)%Z.
Definition live_file (cfg : AppConfig) (t : Timestamp) (r : FileRow) : Prop :=
  f_status (fr_record r) ≠ "pending" ∨ (t - seconds (signed_url_ttl_seconds cfg * 2) <= f_created_at (fr_record r))%Z.

Record cleanup_keeps (t : Timestamp) (d d' : Db) : Prop := {
  ck_sessions : trimmed sessions (live_session t) d d';
  ck_verifications : trimmed verifications (live_verification t) d d';
  ck_oauth : trimmed oauth_auth_requests (live_oauth t) d d';
  ck_idempotency : trimmed idempotency_keys (live_idempotency t) d d';
  ck_jobs : trimmed background_jobs (live_job t) d d';
  ck_accounts : users d' = users d ∧ accounts d' = accounts d ∧ api_keys d' = api_keys d;
  ck_tenants : apps d' = apps d ∧ organizations d' = organizations d ∧ org_members d' = org_members d;
  ck_events : notifications d' = notifications d ∧ webhooks d' = webhooks d ∧
    webhook_deliveries d' = webhook_deliveries d ∧ audit_logs d' = audit_logs d }.
#[export] Instance cleanup_keeps_preorder t : PreOrder (cleanup_keeps t).
Proof.
  split; [by intros d; split; try reflexivity|].
  intros d1 d2 d3 [] []. split; try (by etrans; eassumption); intuition congruence.
Qed.

Lemma cleanup_statement_keeps t f : f ∈ cleanup_statements t → ∀ d, cleanup_keeps t d (f d) ∧ files (f d) = files d.
Proof.
  unfold cleanup_statements, live_session. intros Hf d.
  repeat (apply elem_of_cons in Hf as [->|Hf]); [..|by apply elem_of_nil in Hf];
    (split; [|done]); split; (by split_and!) || (by apply trimmed_same) ||
    (eapply trimmed_delete; [reflexivity|]; intros y;
     unfold live_session, live_verification, live_oauth, live_idempotency; intros; lia).
Qed.

Lemma run_statements_keeps t l :
  (∀ f, f ∈ l → ∀ d, cleanup_keeps t d (f d) ∧ files (f d) = files d) →
  respects (cleanup_keeps t) (run_statements l) ∧ respects (same files) (run_statements l).
Proof.
  induction l as [|f l IH]; intros H; cbn [run_statements]; [split; respects_tac|].
  destruct IH as [IH1 IH2]; [intros g Hg; apply H; by right|].
  split; (apply respects_bind; [exact _ | apply respects_attempt, respects_exec; [exact _|] | intros _; done]);
    apply sql_respects_write; intros _ d; by destruct (H f ltac:(by left) d).
Qed.

Lemma sql_reap_keeps t : sql_respects (cleanup_keeps t) (sql_reap (t - days 14)).
Proof.
  intros t' d n d' [= _ <-]. split; (by split_and!) || (by apply trimmed_same) || (eapply trimmed_delete; [reflexivity|]).
  unfold live_job. intros y [Hy|Hy]; [by rewrite Hy|]. apply andb_false_iff. right. lia.
Qed.

Section CleanupProofs.
Context {B : StorageBackend} (cfg : AppConfig) (L : BackendLaws (upload_dir cfg) B).

Lemma delete_frame R0 `{!PreOrder R0} key : respects R0 (sb_delete key).
Proof. by destruct (bl_frame R0 key) as (_ & _ & _ & _ & ? & _). Qed.

(** Reaping the listed uploads touches only their rows. *)
Lemma reap_each_keeps t l :
  respects (cleanup_keeps t) (reap_each l) ∧ respects (kept files (λ r, fr_id r ∉ l.*1)) (reap_each l).
Proof.
  assert (Hsub : ∀ id key rest, (id, key) :: rest = l → ∀ d d', kept files (λ r, fr_id r ∉ rest.*1) d d' →
    kept files (λ r, fr_id r ∉ l.*1) d d').
  { intros id key rest <- d d' H x Hx Hn. apply H; [done|]. csimpl in *. set_solver. }
  induction l as [|[id key] rest IH]; cbn [reap_each]; [split; respects_tac|].
  destruct IH as [IH1 IH2]; [intros i k r <- d d' H x Hx Hn; apply H; [done|]; csimpl in *; set_solver|].
  split; (apply respects_bind; [exact _ | apply respects_attempt, delete_frame; exact _ | intros _]);
    (apply respects_bind; [exact _ | apply respects_attempt, respects_exec; [exact _|] | intros _]).
  - intros t' d [] d' [= <-]. split; (by split_and!) || by apply trimmed_same.
  - exact IH1.
  - intros t' d [] d' [= <-] x Hx Hn. cbn. apply elem_of_update_where. exists x. split; [done|].
    destruct (N.eqb_spec (fr_id x) id) as [E|]; [|done]. exfalso. apply Hn. rewrite E. csimpl. by left.
  - eapply respects_mono; [|exact IH2]. by apply (Hsub id key rest).
Qed.

(** A file that is live is not among the listed ones. *)
Lemma live_not_stale t d x :
  unique_on (pk fr_id) (files d) → x ∈ files d → live_file cfg t x →
  fr_id x ∉ (stale_uploads (signed_url_ttl_seconds cfg * 2) t d).*1.
Proof.
  intros Hu Hx Hl (y & Hid & Hy)%list_elem_of_fmap. unfold stale_uploads in Hy.
  apply list_elem_of_In, in_map_iff in Hy as (z & <- & Hz). apply list_elem_of_In, elem_of_select in Hz as [Hp Hz].
  cbn in Hid. assert (z = x) as -> by (by eapply pk_inj). bool_facts. unfold live_file in Hl. naive_solver lia.
Qed.

(** C36: the hourly clean-up removes only what is dead. Whatever fails during it,
    every session within thirty days of its expiry, every recovery token within
    seven, every OAuth request and idempotency key not yet expired, every job
    that is queued, running or settled within fourteen days, and every file
    that is not a reservation older than twice the lifetime of a signed URL is
    still there, unchanged; nothing is added or rewritten in the five tables it deletes
    from (stale reservations it marks as deleted); and every other table (users, credentials, keys, applications,
    organizations, memberships, notifications, webhooks, deliveries and the audit
    trail) is as it was. *)
Theorem cleanup_spares_live (w w' : World) (r : outcome unit AppError) :
  unique_on (pk fr_id) (files (w_db w)) →
  cleanup_pass cfg w = (r, w') →
  cleanup_keeps (w_now w) (w_db w) (w_db w') ∧ kept files (live_file cfg (w_now w)) (w_db w) (w_db w').
Proof.
  intros Hu H. unfold cleanup_pass in H. rewrite bind_now in H. set (t := w_now w) in *.
  destruct (run_statements_keeps t (cleanup_statements t) (cleanup_statement_keeps t)) as [Hs1 Hs2].
  specialize (Hs1 w). specialize (Hs2 w).
  assert (Hst : steady (run_statements (cleanup_statements t))).
  { unfold cleanup_statements. cbn [run_statements]. steady_tac. }
  specialize (Hst w). unfold bind at 1 in H.
  destruct (run_statements _ w) as [[u|e|] w1]; [|injection H as _ <-|injection H as _ <-].
  2,3: split; [exact Hs1 | intros x Hx _; cbn in Hs2; by rewrite Hs2].
  cbn [snd] in *. destruct Hst as [Hn1 _].
  unfold reap_old_jobs in H. rewrite bind_attempt, bind_now, Hn1 in H. fold t in H.
  pose proof (respects_exec (cleanup_keeps t) DatabaseError _ (sql_reap_keeps t) w1) as Hj1.
  pose proof (respects_exec (same files) DatabaseError (sql_reap (t - days 14)) ltac:(sql_frame) w1) as Hj2.
  pose proof (steady_exec DatabaseError (sql_reap (t - days 14)) w1) as [Hj3 _].
  fold (sql (sql_reap (t - days 14))) in Hj1, Hj2, Hj3.
  assert (Hgo : ∀ w2, w_now w2 = t → cleanup_keeps t (w_db w) (w_db w2) → files (w_db w2) = files (w_db w) →
    reap_abandoned_uploads cfg w2 = (r, w') →
    cleanup_keeps t (w_db w) (w_db w') ∧ kept files (live_file cfg t) (w_db w) (w_db w')).
  { clear H. intros w2 Ht Hk Hf H. unfold reap_abandoned_uploads in H. rewrite bind_attempt in H.
    destruct (sql _ w2) as [[l|e|] w3] eqn:E; [| |by apply exec_no_panic in E].
    - apply read_Ok_inv in E as (-> & Hd & _). destruct (reap_each_keeps t (stale_uploads (signed_url_ttl_seconds cfg * 2) (w_now w2) (w_db w2))) as [H1 H2].
      specialize (H1 w3). specialize (H2 w3). rewrite H, Hd in H1, H2. cbn [snd] in *. split; [by etrans|].
      intros x Hx Hl. apply H2; [by rewrite Hf|]. rewrite Ht. by apply live_not_stale; rewrite ?Hf.
    - apply exec_Err_inv in E as [Hd _]. injection H as _ <-. rewrite Hd. split; [done|].
      intros x Hx _. by rewrite Hf. }
  destruct (sql (sql_reap _) w1) as [[n|e|] w2]; cbn [snd] in *; [| |injection H as _ <-].
  1,2: apply (Hgo w2); [by rewrite Hj3, Hn1 | by etrans | by rewrite Hj2 | exact H].
  split; [by etrans | intros x Hx _; by rewrite Hj2, Hs2].
Qed.
End CleanupProofs.

Module CleanupExample.
Definition row (status : string) (t : Timestamp) : FileRow := {|
  fr_record := {| f_id := 20%N; f_owner_id := Some 1%N; f_org_id := None; f_bucket := "default";
    f_storage_key := "20.png"; f_original_name := "cat.png"; f_mime_type := "image/png"; f_size_bytes := 0;
    f_checksum_sha256 := None; f_visibility := "private"; f_status := status; f_created_at := t |};
  fr_deleted_at := None |}.
Definition w (status : string) (t : Timestamp) : World :=
  set_disk {["uploads/20.png" := "12345"]} (world_of (set_files [row status t] empty_db) (days 1)).
Definition B : StorageBackend := LocalBackend "uploads".
End CleanupExample.

Lemma cleanup_spares_live_witness :
  CleanupExample.row "ready" 0 ∈ files (w_db (snd (@cleanup_pass CleanupExample.B AuthProofs.Example.cfg (CleanupExample.w "ready" 0)))).
Proof.
  destruct (@cleanup_pass CleanupExample.B AuthProofs.Example.cfg (CleanupExample.w "ready" 0)) as [r w'] eqn:E.
  destruct (@cleanup_spares_live CleanupExample.B AuthProofs.Example.cfg (LocalLaws "uploads") (CleanupExample.w "ready" 0) w' r)
    as [_ H]; [apply NoDup_singleton | exact E |].
  apply H; [left | left; discriminate].
Defined.

(** The list of stale reservations is computed first and acted on later: a
    reservation its client completes in between is destroyed, row and object. *)
Lemma reap_races_completion :
  let w := CleanupExample.w "pending" 0 in
  let stale := stale_uploads (signed_url_ttl_seconds AuthProofs.Example.cfg * 2) (w_now w) (w_db w) in
  let completed := snd (@complete_upload CleanupExample.B AuthProofs.Example.cfg 20%N 1%N "user" w) in
  is_some (q_ready_file 20%N (w_db completed)) = true ∧
  let reaped := snd (@reap_each CleanupExample.B stale completed) in
  q_file 20%N (w_db reaped) = None ∧ w_disk reaped !! "uploads/20.png" = None.
Proof.
  intros w stale completed. split; [vm_compute; reflexivity|].
  intros reaped. split; vm_compute; reflexivity.
Qed.
