(* ===== verification/Http.v ===== *)
(** * Requests and responses

    The part of an HTTP exchange the middleware and the handlers look at: the
    method, the path, the headers, the peer's address and the body of a
    request; the status, the headers and the body of a response. A header is
    a pair of a lower-case name and the bytes of its value ([http::HeaderMap]). *)
From S2P Require Import Prelude RustStr Models Errors Platform.

Abbreviation HeaderMap := (list (string * string)) (only parsing).

(** [axum::http::request::Parts]; [pt_query] is the part of the URI after the path,
    [pt_peer] the [ConnectInfo] extension. *)
Record Parts := {
  pt_method : string; pt_path : string; pt_query : string; pt_headers : HeaderMap; pt_peer : option N }.
Record Request := { rq_parts : Parts; rq_body : string }.
Record Response := { rs_status : Z; rs_headers : HeaderMap; rs_body : string }.

(** ** Header values *)

(** [headers.get(name)]: the first value under the name *)
Definition header_get (name : string) (h : HeaderMap) : option string :=
  snd <$> List.find (fun kv => fst kv =s name) h.

(** [HeaderValue::to_str]: visible ASCII and the tab *)
Definition visible_byte (b : Z) : bool := (((32 <=? b) && (b <? 127)) || (b =? 9))%Z%bool.
Definition to_str (v : string) : option string :=
  if forallb visible_byte (bytes_of v) then Some v else None.

(** [headers.get(name).and_then(|h| h.to_str().ok())] *)
Definition header_str (name : string) (h : HeaderMap) : option string :=
  match header_get name h with Some v => to_str v | None => None end.

(** [HeaderValue::from_str]: anything but the control characters *)
Definition value_byte (b : Z) : bool := (((32 <=? b) && negb (b =? 127)) || (b =? 9))%Z%bool.
Definition header_value (s : string) : option string :=
  if forallb value_byte (bytes_of s) then Some s else None.

(** [headers.insert] replaces every value of the name; [append] adds one. *)
Definition header_insert (name value : string) (h : HeaderMap) : HeaderMap :=
  List.filter (fun kv => negb (fst kv =s name)) h ++ [(name, value)].
Definition header_append (name value : string) (h : HeaderMap) : HeaderMap := h ++ [(name, value)].
Definition set_headers (h : HeaderMap) (r : Response) : Response :=
  {| rs_status := rs_status r; rs_headers := h; rs_body := rs_body r |}.

(** ** Responses *)

(** [serde] of the error envelope: an absent [details] is skipped. *)
Definition ApiErrorResponse_json (e : ApiErrorResponse) : Json :=
  JObj [("success", JBool (er_success e));
        ("error", JObj ([("code", JStr (ep_code (er_error e)));
                         ("message", JStr (ep_message (er_error e)))]
                        ++ match ep_details (er_error e) with
                           | Some d => [("details", d)] | None => [] end))].

Definition json_response {P : Platform} (status : Z) (body : Json) : Response :=
  {| rs_status := status; rs_headers := [("content-type", "application/json")];
     rs_body := json_to_string body |}.

(** [AppError::into_response] down to the bytes *)
Definition error_response {P : Platform} (e : AppError) : Response :=
  let '(status, body) := into_response e in json_response status (ApiErrorResponse_json body).

(** [StatusCode::from_u16]: 100 to 999 *)
Definition StatusCode_from_u16 (s : Z) : option Z :=
  if ((100 <=? s) && (s <=? 999))%Z%bool then Some s else None.

(** ** Lemmas *)

Lemma header_get_insert name v h : header_get name (header_insert name v h) = Some v.
Proof.
  unfold header_get, header_insert. induction h as [|[k x] h IH]; simpl.
  - by rewrite String.eqb_refl.
  - destruct (k =s name) eqn:E; simpl; [done|]. by rewrite E.
Qed.

Lemma header_get_insert_ne name n v h :
  n ≠ name → header_get n (header_insert name v h) = header_get n h.
Proof.
  intros Hn. unfold header_get, header_insert. induction h as [|[k x] h IH]; simpl.
  - by replace (name =s n) with false by (symmetry; apply String.eqb_neq; congruence).
  - destruct (k =s name) eqn:E; simpl.
    + apply String.eqb_eq in E as ->. rewrite IH.
      by replace (name =s n) with false by (symmetry; apply String.eqb_neq; congruence).
    + by destruct (k =s n).
Qed.

Lemma to_str_Some v s : to_str v = Some s → s = v.
Proof. unfold to_str. case_match; by intros [=]. Qed.
