(* ===== verification/Extractors.v ===== *)
(** * Who is calling ([middleware/auth.rs, app_context.rs, rate_limit.rs])

    The extractors that turn a request's headers into an authenticated caller,
    the authority that caller carries, the application context, the client's
    address, and the rate limiter's bucket. *)
From stdpp Require Import gmap.
From S2P Require Import Prelude RustStr Models Errors Platform World Scopes AuditTrail Auth Schema.
From S2P Require Import Crypto AuthProofs Orgs ApiKeys Jwks Http.

(** ** Credentials *)

Inductive Credential :=
| CredSession (session_id : Uuid)
| CredApiKey (key_id : Uuid) (scopes : ScopeSet)
| CredSsoRemote (issuer : option string).

Definition Credential_require_scope (c : Credential) (scope : ApiScope) : outcome unit AppError :=
  match c with
  | CredSession _ | CredSsoRemote _ => Ok tt
  | CredApiKey _ scopes =>
      if scope_contains scopes scope then Ok tt
      else Err (Forbidden ("This API key does not carry the '" +:+ ApiScope_as_str scope +:+ "' scope"))
  end.

Record AuthUser := {
  au_id : Uuid; au_email : string; au_role : string; au_email_verified : bool;
  au_credential : Credential }.
Record AdminUser := { ad_id : Uuid; ad_email : string; ad_credential : Credential }.
Record SessionUser := { sn_id : Uuid; sn_session_id : Uuid; sn_email : string; sn_role : string }.

Definition is_admin (u : AuthUser) : bool := au_role u =s "admin".
Definition session_id (u : AuthUser) : option Uuid :=
  match au_credential u with
  | CredSession sid => Some sid
  | CredApiKey _ _ | CredSsoRemote _ => None
  end.
Definition require_scope (u : AuthUser) (scope : ApiScope) : outcome unit AppError :=
  Credential_require_scope (au_credential u) scope.
Definition AdminUser_require_scope (u : AdminUser) (scope : ApiScope) : outcome unit AppError :=
  Credential_require_scope (ad_credential u) scope.

Section Extractors.
Context {P : Platform} {R : Remote}.

(** [AppState::new]: the verifier of remote tokens, when one is configured *)
Definition jwks_client (cfg : AppConfig) : option JwksClient :=
  (fun o => JwksClient_new (oidc_jwks_url o) (oidc_expected_issuer o) (oidc_expected_audience o))
    <$> oidc cfg.

Definition bearer_token (p : Parts) : outcome string AppError :=
  match header_str "authorization" (pt_headers p) with
  | None => Err (Unauthorized "Missing Authorization header")
  | Some h => match strip_prefix "Bearer " h with
              | None => Err (Unauthorized "Invalid Authorization header scheme")
              | Some t => Ok t
              end
  end.

(** The identity a layer in front of the router goes by. *)
Definition bearer_identity (headers : HeaderMap) (jwt_secret : Secret) : M (option (Uuid * Uuid)) :=
  match match header_str "authorization" headers with
        | Some h => strip_prefix "Bearer " h | None => None end with
  | None => ret None
  | Some token =>
      let! claims := attempt (verify_access_token token (expose jwt_secret)) in
      ret match claims with
          | inl claims =>
              match uuid_parse (c_sub claims), uuid_parse (c_sid claims) with
              | Some u, Some s => Some (u, s)
              | _, _ => None
              end
          | inr _ => None
          end
  end.

Definition authenticate_key (api_key : string) : M AuthUser :=
  let! r := resolve_key api_key in
  let '(user, key_record) := r in
  ret {| au_id := u_id user; au_email := u_email user; au_role := u_role user;
         au_email_verified := u_email_verified user;
         au_credential := CredApiKey (k_id key_record) (from_stored (k_scopes key_record)) |}.

Definition authenticate_session (claims : Claims) : M AuthUser :=
  let! user_id := ok_or (Unauthorized "Malformed user ID in token") (uuid_parse (c_sub claims)) in
  let! sid := ok_or (Unauthorized "Malformed session ID in token") (uuid_parse (c_sid claims)) in
  let! user := resolve_session user_id sid in
  ret {| au_id := u_id user; au_email := u_email user; au_role := u_role user;
         au_email_verified := u_email_verified user; au_credential := CredSession sid |}.

Definition authenticate_remote (client : JwksClient) (token : string) : M AuthUser :=
  let! remote_claims := verify_token client token in
  let! user_id := match uuid_parse (rc_sub remote_claims) with
                  | Some u => ret u
                  | None => new_uuid
                  end in
  ret {| au_id := user_id;
         au_email := unwrap_or (uuid_show user_id +:+ "@sso.local") (rc_email remote_claims);
         au_role := unwrap_or "member" (rc_role remote_claims);
         au_email_verified := unwrap_or true (rc_email_verified remote_claims);
         au_credential := CredSsoRemote (rc_iss remote_claims) |}.

Definition authenticate (cfg : AppConfig) (p : Parts) : M AuthUser :=
  match header_str "x-api-key" (pt_headers p) with
  | Some api_key => authenticate_key api_key
  | None =>
      let! token := lift (bearer_token p) in
      let! claims := attempt (verify_access_token token (expose (jwt_secret cfg))) in
      match claims with
      | inl claims => authenticate_session claims
      | inr local_err =>
          match jwks_client cfg with
          | Some client => authenticate_remote client token
          | None => fail local_err
          end
      end
  end.

(** ** The extractors *)

Definition AuthUser_from (cfg : AppConfig) (p : Parts) : M AuthUser := authenticate cfg p.

Definition OptionalAuthUser_from (cfg : AppConfig) (p : Parts) : M (option AuthUser) :=
  let! r := attempt (authenticate cfg p) in
  ret match r with inl u => Some u | inr _ => None end.

Definition AdminUser_from (cfg : AppConfig) (p : Parts) : M AdminUser :=
  let! auth_user := authenticate cfg p in
  do! guard (is_admin auth_user) (Forbidden "Access forbidden: admin privileges required") in
  do! lift (require_scope auth_user AdminScope) in
  ret {| ad_id := au_id auth_user; ad_email := au_email auth_user;
         ad_credential := au_credential auth_user |}.

Definition SessionUser_from (cfg : AppConfig) (p : Parts) : M SessionUser :=
  let! auth_user := authenticate cfg p in
  let! sid := ok_or (Forbidden
      "This operation requires an interactive session; API keys cannot perform it")
      (session_id auth_user) in
  ret {| sn_id := au_id auth_user; sn_session_id := sid; sn_email := au_email auth_user;
         sn_role := au_role auth_user |}.

(** The first element of [v.split(',')] *)
Definition first_element (v : string) : string :=
  match split (ascii_of_nat 44) v with x :: _ => x | [] => EmptyString end.

Definition RequestContext_from (cfg : AppConfig) (p : Parts) : RequestContext :=
  let user_agent := (fun v => of_chars (firstn 512 (chars v)))
                      <$> header_str "user-agent" (pt_headers p) in
  let forwarded :=
    if trust_proxy_headers cfg then
      or_else ((fun v => trim (first_element v)) <$> header_str "x-forwarded-for" (pt_headers p))
              (header_str "x-real-ip" (pt_headers p))
    else None in
  {| ctx_ip_address := or_else forwarded (show_ip <$> pt_peer p); ctx_user_agent := user_agent |}.

(** ** The rate limiter's bucket *)

(** [ConfiguredIpExtractor::extract]; [None] is [UnableToExtractKey]. *)
Definition rate_limit_key (trust_proxy_headers : bool) (p : Parts) : option N :=
  let forwarded :=
    if trust_proxy_headers then
      or_else
        match header_str "x-forwarded-for" (pt_headers p) with
        | Some v => parse_ip (trim (first_element v)) | None => None end
        match header_str "x-real-ip" (pt_headers p) with
        | Some v => parse_ip (trim v) | None => None end
    else None in
  match forwarded with
  | Some ip => Some ip
  | None => pt_peer p
  end.

(** [build]: the limiter itself is the governor crate's; [finish] is its builder,
    from period, burst and key extractor to a layer, if it accepts them. *)
Definition build {G} (finish : Z -> Z -> bool -> option G) (per_second burst_size : Z) (trust : bool)
  : outcome G string :=
  match finish per_second burst_size trust with
  | Some g => Ok g
  | None => Err "Invalid rate limit configuration"
  end.
Definition global_limiter {G} (finish : Z -> Z -> bool -> option G) (cfg : AppConfig) : outcome G string :=
  build finish (rate_limit_per_second cfg) (rate_limit_burst_size cfg) (trust_proxy_headers cfg).
Definition auth_limiter {G} (finish : Z -> Z -> bool -> option G) (cfg : AppConfig) : outcome G string :=
  build finish (auth_rate_limit_per_second cfg) (auth_rate_limit_burst_size cfg) (trust_proxy_headers cfg).

(** ** The application context *)

Record AppContext := {
  ax_app_id : Uuid; ax_name : string; ax_slug : string; ax_owner_id : Uuid; ax_is_owner : bool }.

(** [EXISTS(SELECT 1 FROM org_members om JOIN organizations o ON o.id = om.org_id ...)] *)
Definition q_app_member (aid uid : Uuid) (d : Db) : bool :=
  existsb (fun m => (om_user_id m =? uid)%N
                    && exists_row (fun o => (org_id o =? om_org_id m)%N && (org_app_id o =? aid)%N)%bool
                         (organizations d))%bool (org_members d).

Definition AppContext_from (cfg : AppConfig) (p : Parts) : M AppContext :=
  let! auth_user := AuthUser_from cfg p in
  let! raw_app_id := ok_or (BadRequest "Missing required 'X-Application-ID' header")
                       (header_str "x-application-id" (pt_headers p)) in
  let! app_id := ok_or (BadRequest "Malformed 'X-Application-ID' UUID") (uuid_parse raw_app_id) in
  let! app := sql (sql_read (fun _ d => q_app app_id d)) in
  let! app := ok_or (NotFound "Application not found") app in
  let is_owner := ((app_owner_id app =? au_id auth_user)%N || is_admin auth_user)%bool in
  do! (if negb is_owner then
         let! is_member := sql (sql_read (fun _ d => q_app_member app_id (au_id auth_user) d)) in
         guard is_member (Forbidden "You do not have access to this application")
       else ret tt) in
  ret {| ax_app_id := Models.app_id app; ax_name := app_name app; ax_slug := app_slug app;
         ax_owner_id := app_owner_id app; ax_is_owner := is_owner |}.
End Extractors.

(** ** Lemmas *)

Section ExtractorLemmas.
Context {P : Platform} {R : Remote}.

(** A session that resolves is usable, whatever the fault schedule. *)
Lemma resolve_session_Ok uid sid w u w' :
  resolve_session uid sid w = (Ok u, w') →
  session_usable (w_now w) (w_db w) uid sid u ∧ w_db w' = w_db w.
Proof.
  intros H. unfold resolve_session in H. do 6 ok_step H. injection H as <- <-.
  apply q_session_user_spec in Ho as (s & r & Hs & Hr & Hsid & Huid & Hrid & Hdel & ->).
  cbn [sur_user sur_revoked_at sur_session_expires_at] in *. bool_facts.
  split; [|done]. exists s, r. rewrite <- Hn. by repeat split.
Qed.

Lemma resolve_session_complete uid sid w u :
  w_faults w = [] → db_wf (w_db w) → session_usable (w_now w) (w_db w) uid sid u →
  resolve_session uid sid w = (Ok u, w).
Proof.
  intros Hf Hwf (s & r & Hs & Hsid & Huid & Hrev & Hexp & Hr & Hid & Hdel & <- & Hb).
  unfold resolve_session. hrun. erewrite (q_session_user_complete _ _ _ s r) by done. hrun.
  cbn [sur_revoked_at sur_session_expires_at sur_user]. rewrite Hrev. cbn [is_none]. hrun.
  replace (w_now w <? s_expires_at (sr_session s))%Z with true by lia. hrun. by rewrite Hb.
Qed.

Lemma verify_access_token_run tok secret w :
  verify_access_token tok secret w =
    (match jwt_decode (w_now w) tok secret with
     | Some c => Ok c
     | None => Err (Unauthorized "Invalid or expired authentication token")
     end, w).
Proof. unfold verify_access_token. hrun. by destruct (jwt_decode _ _ _). Qed.

Lemma authenticate_key_Ok key w u w' :
  authenticate_key key w = (Ok u, w') →
  ∃ usr k, key_live (w_now w) (w_db w) key usr k ∧ key_touched (w_now w) (k_id k) (w_db w) (w_db w') ∧
    u = {| au_id := u_id usr; au_email := u_email usr; au_role := u_role usr;
           au_email_verified := u_email_verified usr;
           au_credential := CredApiKey (k_id k) (from_stored (k_scopes k)) |}.
Proof.
  intros H. unfold authenticate_key in H. ok_step H. destruct a as [usr k].
  apply resolve_key_Ok in Hs as [Hk Ht]. injection H as <- <-. by exists usr, k.
Qed.

Lemma authenticate_session_Ok c w u w' :
  authenticate_session c w = (Ok u, w') →
  ∃ uid sid usr, uuid_parse (c_sub c) = Some uid ∧ uuid_parse (c_sid c) = Some sid ∧
    session_usable (w_now w) (w_db w) uid sid usr ∧ w_db w' = w_db w ∧
    u = {| au_id := u_id usr; au_email := u_email usr; au_role := u_role usr;
           au_email_verified := u_email_verified usr; au_credential := CredSession sid |}.
Proof.
  intros H. unfold authenticate_session in H. do 3 ok_step H.
  apply resolve_session_Ok in Hs as [Hu Hd]. injection H as <- <-. by exists a, a0, a1.
Qed.

Lemma authenticate_remote_Ok client tok w u w' :
  authenticate_remote client tok w = (Ok u, w') →
  ∃ claims w1, verify_token client tok w = (Ok claims, w1) ∧ w_db w' = w_db w ∧
    let id := match uuid_parse (rc_sub claims) with Some x => x | None => draw_uuid (w_draws w1) end in
    u = {| au_id := id; au_email := unwrap_or (uuid_show id +:+ "@sso.local") (rc_email claims);
           au_role := unwrap_or "member" (rc_role claims);
           au_email_verified := unwrap_or true (rc_email_verified claims);
           au_credential := CredSsoRemote (rc_iss claims) |}.
Proof.
  intros H. unfold authenticate_remote in H. ok_step H. exists a, w0. split; [done|].
  pose proof (verify_token_respects eq client tok w) as Hd. rewrite Hs in Hd. cbn [snd] in Hd.
  ok_step H. injection H as <- <-.
  destruct (uuid_parse (rc_sub a)) as [x|]; injection Hs0 as <- <-; by rewrite Hd.
Qed.
End ExtractorLemmas.

(** ** The specification

    Who a request authenticates, as a relation: the bearer of a live API key; or,
    only without one, the user of a usable local session; or, only with neither
    and only where a provider is configured, the subject of a remote token. The
    local token is evidence of nothing but a session's name: role, address and
    standing are the database's. *)
Inductive authenticated {P : Platform} {R : Remote} (cfg : AppConfig) (p : Parts) (w : World) : AuthUser -> Prop :=
| by_key key usr k :
    header_str "x-api-key" (pt_headers p) = Some key → key_live (w_now w) (w_db w) key usr k →
    authenticated cfg p w
      {| au_id := u_id usr; au_email := u_email usr; au_role := u_role usr;
         au_email_verified := u_email_verified usr;
         au_credential := CredApiKey (k_id k) (from_stored (k_scopes k)) |}
| by_session token claims uid sid usr :
    header_str "x-api-key" (pt_headers p) = None → bearer_token p = Ok token →
    jwt_decode (w_now w) token (expose (jwt_secret cfg)) = Some claims →
    uuid_parse (c_sub claims) = Some uid → uuid_parse (c_sid claims) = Some sid →
    session_usable (w_now w) (w_db w) uid sid usr →
    authenticated cfg p w
      {| au_id := u_id usr; au_email := u_email usr; au_role := u_role usr;
         au_email_verified := u_email_verified usr; au_credential := CredSession sid |}
| by_remote token client claims w1 id :
    header_str "x-api-key" (pt_headers p) = None → bearer_token p = Ok token →
    jwt_decode (w_now w) token (expose (jwt_secret cfg)) = None →
    jwks_client cfg = Some client → verify_token client token w = (Ok claims, w1) →
    id = match uuid_parse (rc_sub claims) with Some x => x | None => draw_uuid (w_draws w1) end →
    authenticated cfg p w
      {| au_id := id; au_email := unwrap_or (uuid_show id +:+ "@sso.local") (rc_email claims);
         au_role := unwrap_or "member" (rc_role claims);
         au_email_verified := unwrap_or true (rc_email_verified claims);
         au_credential := CredSsoRemote (rc_iss claims) |}.

Section Refinement.
Context {P : Platform} {R : Remote} (cfg : AppConfig).

(** The bearer branch, with the local token's verification decided. *)
Lemma authenticate_bearer p w :
  header_str "x-api-key" (pt_headers p) = None →
  authenticate cfg p w =
    match bearer_token p with
    | Ok token =>
        match jwt_decode (w_now w) token (expose (jwt_secret cfg)) with
        | Some claims => authenticate_session claims w
        | None => match jwks_client cfg with
                  | Some client => authenticate_remote client token w
                  | None => (Err (Unauthorized "Invalid or expired authentication token"), w)
                  end
        end
    | Err e => (Err e, w)
    | Panic => (Panic, w)
    end.
Proof.
  intros Hk. unfold authenticate. rewrite Hk, bind_lift. destruct (bearer_token p) as [tok|e|]; [|done..].
  rewrite bind_attempt, verify_access_token_run.
  destruct (jwt_decode _ _ _); [done|]. by destruct (jwks_client cfg).
Qed.

Lemma authenticate_Ok p w u w' :
  authenticate cfg p w = (Ok u, w') →
  authenticated cfg p w u ∧
  (w_db w' = w_db w ∨ ∃ k s, au_credential u = CredApiKey k s ∧ key_touched (w_now w) k (w_db w) (w_db w')).
Proof.
  destruct (header_str "x-api-key" (pt_headers p)) as [key|] eqn:Ek.
  - unfold authenticate. rewrite Ek. intros (usr & k & Hk & Ht & ->)%authenticate_key_Ok.
    split; [by eapply by_key | right; by eexists _, _].
  - rewrite authenticate_bearer by done. destruct (bearer_token p) as [tok|e|] eqn:Et; [|done..].
    destruct (jwt_decode _ _ _) as [c|] eqn:Ec.
    + intros (uid & sid & usr & H1 & H2 & H3 & -> & ->)%authenticate_session_Ok.
      split; [by eapply by_session | by left].
    + destruct (jwks_client cfg) as [cl|] eqn:Ecl; [|done].
      intros (claims & w1 & Hv & -> & ->)%authenticate_remote_Ok.
      split; [by eapply by_remote | by left].
Qed.

(** A caller refused leaves no trace. *)
Lemma authenticate_atomic p : atomic (authenticate cfg p).
Proof.
  unfold authenticate, authenticate_key, authenticate_session, authenticate_remote, resolve_key,
    verify_access_token, resolve_session.
  atomic_tac. intros w r w' H Hr. unfold attempt in H.
  destruct (sql (sql_touch_key (k_id a0)) w) as [[u|e|] w1] eqn:E; [| |by apply exec_no_panic in E];
    injection H as <- <-; discriminate Hr.
Qed.

Lemma authenticate_complete p w u :
  w_faults w = [] → db_wf (w_db w) → authenticated cfg p w u → ∃ w', authenticate cfg p w = (Ok u, w').
Proof.
  intros Hf Hwf [key usr k Hk Hl | tok c uid sid usr Hk Ht Hc Hu Hs Hus
                | tok cl claims w1 id Hk Ht Hc Hcl Hv ->].
  - unfold authenticate. rewrite Hk. destruct (resolve_key_complete key w usr k) as [w' Hw']; [done..|].
    exists w'. unfold authenticate_key. by erewrite bind_run_Ok by exact Hw'.
  - exists w. rewrite authenticate_bearer, Ht, Hc by done. unfold authenticate_session.
    rewrite Hu, Hs. hrun. by erewrite bind_run_Ok by (by apply resolve_session_complete).
  - rewrite authenticate_bearer, Ht, Hc, Hcl by done. unfold authenticate_remote.
    erewrite bind_run_Ok by exact Hv. destruct (uuid_parse (rc_sub claims)) as [x|]; by eexists.
Qed.
End Refinement.

(** Nobody is authenticated by a bearer token of a user who is signed out. *)
Lemma signed_out_unauthenticated {P : Platform} {R : Remote} cfg p w tok c uid u :
  header_str "x-api-key" (pt_headers p) = None → bearer_token p = Ok tok →
  jwt_decode (w_now w) tok (expose (jwt_secret cfg)) = Some c → uuid_parse (c_sub c) = Some uid →
  signed_out uid (w_db w) → ¬ authenticated cfg p w u.
Proof.
  intros Hk Ht Hc Hu Hso H. destruct H; try congruence.
  assert (token = tok) as -> by congruence. assert (claims = c) as -> by congruence.
  assert (uid0 = uid) as -> by congruence. by eapply signed_out_unusable.
Qed.

(** An administrator's key: only the literal [admin] scope is administrative. *)
Lemma admin_extracted {P : Platform} {R : Remote} cfg p w a w' :
  AdminUser_from cfg p w = (Ok a, w') →
  ∃ u, authenticated cfg p w u ∧ au_role u = "admin" ∧ ad_id a = au_id u ∧
    ad_credential a = au_credential u ∧
    match au_credential u with
    | CredApiKey _ scopes => AdminScope ∈ scopes
    | CredSession _ | CredSsoRemote _ => True
    end.
Proof.
  intros H. unfold AdminUser_from in H. ok_step H. apply authenticate_Ok in Hs as [Ha _].
  ok_step H. ok_step H. injection H as <- <-. unfold is_admin in Hg. bool_facts.
  exists a0. do 4 (split; [done|]). unfold require_scope, Credential_require_scope in Hs.
  destruct (au_credential a0) as [|kid scopes|]; [done| |done].
  destruct (scope_contains scopes AdminScope) eqn:E; [|done]. by apply scope_contains_elem.
Qed.

(** ** Properties *)

(** C2: the authenticator implements its specification. Whatever the fault schedule,
    a caller it accepts is one the specification accepts, and all it may have
    written is the time of this use as the [last_used_at] of the API key presented:
    every row is still there, in order, with every other column as it was; a
    caller it refuses leaves the database unchanged. On a healthy,
    well-formed database it accepts every caller the specification accepts. An
    unusable API key is never a reason to look at the bearer token, and a valid
    local token never one to ask the identity provider. *)
Theorem authenticate_refines {P : Platform} {R : Remote} (cfg : AppConfig) (p : Parts) (w : World) (u : AuthUser) :
  (∀ w', authenticate cfg p w = (Ok u, w') →
     authenticated cfg p w u ∧
     (w_db w' = w_db w ∨
      ∃ k s, au_credential u = CredApiKey k s ∧ key_touched (w_now w) k (w_db w) (w_db w'))) ∧
  (∀ r w', authenticate cfg p w = (r, w') → is_ok r = false → w_db w' = w_db w) ∧
  (w_faults w = [] → db_wf (w_db w) → authenticated cfg p w u →
     fst (authenticate cfg p w) = Ok u ∧
     fst (OptionalAuthUser_from cfg p w) = Ok (Some u)).
Proof.
  split; [intros w'; apply authenticate_Ok|]. split; [intros r w'; apply authenticate_atomic|]. intros Hf Hwf H.
  destruct (authenticate_complete cfg p w u Hf Hwf H) as [w' Hw'].
  unfold OptionalAuthUser_from. by rewrite bind_attempt, Hw'.
Qed.

Module CallExample.
Definition token : string :=
  @toy_jwt {| c_sub := "1"; c_sid := "3"; c_email := "stale@example.com"; c_role := "admin";
             c_exp := 1000; c_iat := 0 |}%Z "secret".
Definition parts : Parts := {|
  pt_method := "GET"; pt_path := "/api/v1/users/me"; pt_query := "";
  pt_headers := [("authorization", "Bearer " +:+ token); ("x-application-id", "7");
                 ("x-forwarded-for", "9, 8")];
  pt_peer := Some 5%N |}.
Definition key_parts : Parts := {|
  pt_method := "GET"; pt_path := "/api/v1/users/me"; pt_query := "";
  pt_headers := [("x-api-key", "ak_live_" +:+ @draw_alphanumeric toy 1 48)]; pt_peer := Some 5%N |}.
(** The session's user, taken from the database and not from the token. *)
Definition caller : AuthUser := {|
  au_id := 1; au_email := "ada@example.com"; au_role := "user"; au_email_verified := true;
  au_credential := CredSession 3 |}%N.
End CallExample.

Lemma authenticate_refines_witness :
  fst (@authenticate toy toy_remote Example.cfg CallExample.parts Example.w) = Ok CallExample.caller.
Proof.
  refine (proj1 (proj2 (proj2 (@authenticate_refines toy toy_remote Example.cfg CallExample.parts Example.w
    CallExample.caller)) eq_refl example_wf _)).
  refine (@by_session toy toy_remote Example.cfg CallExample.parts Example.w CallExample.token
    {| c_sub := "1"; c_sid := "3"; c_email := "stale@example.com"; c_role := "admin";
       c_exp := 1000; c_iat := 0 |}%Z 1%N 3%N Example.user _ _ _ _ _ _).
  1-5: vm_compute; reflexivity.
  exists (Example.session 3%N (@sha256_hex toy "refresh-3")), Example.user_row.
  split; [set_solver|]. repeat split; try (vm_compute; reflexivity). set_solver.
Defined.

(** C9: administration takes both halves. Whatever the fault schedule, a request that
    passes the administrator's gate is authenticated as a caller whose role is
    [admin]; if it came with an API key, that key's row in the database itself names the
    [admin] scope — no wildcard stands for it. *)
Theorem admin_gate {P : Platform} {R : Remote} (cfg : AppConfig) (p : Parts) (w w' : World) (a : AdminUser) :
  AdminUser_from cfg p w = (Ok a, w') →
  ∃ u, authenticated cfg p w u ∧ au_role u = "admin" ∧ ad_id a = au_id u ∧
    ad_credential a = au_credential u ∧
    ∀ key, header_str "x-api-key" (pt_headers p) = Some key →
      ∃ row entries raw, row ∈ api_keys (w_db w) ∧ kr_key_hash row = sha256_hex key ∧
        k_scopes (kr_record row) = Some (JArr entries) ∧ JStr raw ∈ entries ∧ trim raw = "admin".
Proof.
  intros (u & Hu & Hr & Hi & Hc & Hs)%admin_extracted. exists u. do 4 (split; [done|]).
  intros key Hk. destruct Hu as [key' usr k Hk' (row & r & Hrow & Hh & <- & _)| |]; [|congruence..].
  cbn [au_credential] in Hs. assert (key' = key) as -> by congruence.
  apply scope_contains_elem in Hs.
  destruct (from_stored_grants _ _ Hs) as (entries & He & [(raw & Hraw & Ht)|[_ []]]); [|done].
  by exists row, entries, raw.
Qed.

(** The keys of an administrator: one issued for administration, one with a wildcard. *)
Module AdminExample.
Definition admin_user : User := {|
  u_id := 1%N; u_name := "Ada"; u_email := "ada@example.com"; u_email_verified := true;
  u_image := None; u_role := "admin"; u_banned := false; u_created_at := 0; u_updated_at := 0 |}%Z.
Definition key (id : Uuid) (raw : string) (scope : string) : ApiKeyRow := {|
  kr_record := {| k_id := id; k_user_id := 1%N; k_org_id := None; k_name := "ops"; k_key_start := "ak";
    k_scopes := Some (JArr [JStr scope]); k_expires_at := None; k_last_used_at := None;
    k_created_at := 0%Z; k_updated_at := 0%Z |};
  kr_key_hash := @sha256_hex toy raw |}.
Definition w : World := world_of
  (set_api_keys [key 20%N "ops" "admin"; key 21%N "ci" "*"]
    (set_users [{| ur_user := admin_user; ur_failed_login_attempts := 0; ur_locked_until := None;
                   ur_deleted_at := None |}%Z] empty_db)) 1000000.
Definition parts (raw : string) : Parts := {|
  pt_method := "GET"; pt_path := "/api/v1/users"; pt_query := ""; pt_headers := [("x-api-key", raw)]; pt_peer := None |}.
End AdminExample.

Example wildcard_is_not_admin :
  fst (@AdminUser_from toy toy_remote Example.cfg (AdminExample.parts "ci") AdminExample.w)
  = Err (Forbidden "This API key does not carry the 'admin' scope").
Proof. vm_compute. reflexivity. Qed.

Lemma admin_gate_witness :
  ∃ row entries raw, row ∈ api_keys (w_db AdminExample.w) ∧ kr_key_hash row = @sha256_hex toy "ops" ∧
    k_scopes (kr_record row) = Some (JArr entries) ∧ JStr raw ∈ entries ∧ trim raw = "admin".
Proof.
  destruct (@AdminUser_from toy toy_remote Example.cfg (AdminExample.parts "ops") AdminExample.w)
    as [r w'] eqn:E.
  assert (Hok : is_ok (fst (@AdminUser_from toy toy_remote Example.cfg (AdminExample.parts "ops")
    AdminExample.w)) = true) by (vm_compute; reflexivity).
  rewrite E in Hok. destruct r as [a|e|]; [|discriminate Hok..].
  destruct (@admin_gate toy toy_remote Example.cfg (AdminExample.parts "ops") AdminExample.w w' a E)
    as (u & _ & _ & _ & _ & H).
  apply (H "ops"). vm_compute. reflexivity.
Defined.

(** ** Ending a session *)

(** The session the pair names is over: no row of it is live. *)
Definition session_ended (uid sid : Uuid) (d : Db) : Prop :=
  ∀ s, s ∈ sessions d → sr_user s = uid → sr_id s = sid → s_revoked_at (sr_session s) ≠ None.

Lemma signed_out_ended uid sid d : signed_out uid d → session_ended uid sid d.
Proof. intros H s Hs Hu _. by apply H. Qed.

Lemma ended_unusable uid sid d t u : session_ended uid sid d → ¬ session_usable t d uid sid u.
Proof. intros H (s & r & Hs & Hi & Hu & Hr & _). by eapply H. Qed.

Lemma sign_out_ends {P : Platform} uid sid ctx w msg w' :
  sign_out uid sid ctx w = (Ok msg, w') → session_ended uid sid (w_db w').
Proof.
  intros H. unfold sign_out in H. ok_step H. apply sql_Ok_inv in Hs as ([= _ Hd] & _).
  audit_step H. injection H as _ <-. audited_tables Haud. rewrite <- Hd.
  cbn [set_audit_logs set_sessions sessions]. intros s (s0 & Hs0 & ->)%elem_of_update_where Hu Hi.
  destruct (_ && _)%bool eqn:E; [done|]. intros Hn.
  unfold unrevoked_of, sr_unrevoked in E. by rewrite Hi, Hu, !N.eqb_refl, Hn in E.
Qed.

Lemma sign_out_all_ends {P : Platform} uid ctx w msg w' :
  sign_out_all uid ctx w = (Ok msg, w') → signed_out uid (w_db w').
Proof.
  intros H. unfold sign_out_all in H. ok_step H. apply sql_Ok_inv in Hs as ([= _ Hd] & _).
  audit_step H. injection H as _ <-. audited_tables Haud. rewrite <- Hd.
  apply (signed_out_revoke_all uid (w_now w) (w_db w)).
Qed.

Lemma delete_account_ends {P : Platform} uid ctx w msg w' :
  delete_account uid ctx w = (Ok msg, w') → signed_out uid (w_db w').
Proof.
  intros H. unfold delete_account in H. ok_step H.
  apply transaction_Ok_inv in Hs as (wa & wb & _ & _ & _ & Ht & Hdb & _). audit_step H.
  injection H as _ <-. audited_tables Haud. rewrite Hdb. unfold delete_account_tx in Ht.
  do 3 ok_step Ht. apply sql_Ok_inv in Hs0 as ([= _ Hd1] & _). apply sql_Ok_inv in Ht as ([= _ Hd2] & _).
  rewrite <- Hd2, <- Hd1. apply (signed_out_revoke_all uid (w_now w2) (w_db w2)).
Qed.

(** Such a request is an error, never a panic and never a caller. *)
Lemma ended_refused {P : Platform} {R : Remote} cfg p w tok c uid sid :
  header_str "x-api-key" (pt_headers p) = None → bearer_token p = Ok tok →
  jwt_decode (w_now w) tok (expose (jwt_secret cfg)) = Some c →
  uuid_parse (c_sub c) = Some uid → uuid_parse (c_sid c) = Some sid →
  session_ended uid sid (w_db w) → ∃ e w', authenticate cfg p w = (Err e, w').
Proof.
  intros Hk Ht Hc Hu Hs He. destruct (authenticate cfg p w) as [[u|e|] w'] eqn:E; [|by eauto|].
  - exfalso. apply authenticate_Ok in E as [Ha _]. destruct Ha; try congruence.
    assert (token = tok) as -> by congruence. assert (claims = c) as -> by congruence.
    assert (uid0 = uid) as -> by congruence. assert (sid0 = sid) as -> by congruence.
    by eapply ended_unusable.
  - exfalso. rewrite authenticate_bearer, Ht, Hc in E by done. unfold authenticate_session in E.
    rewrite Hu, Hs in E. autorewrite with healthy in E. unfold resolve_session in E.
    rewrite bind_assoc in E. unfold bind at 1 in E.
    destruct (sql _ _) as [[row|x|] w1] eqn:Eq; [|done|by apply exec_no_panic in Eq].
    autorewrite with healthy in E. by repeat (case_match; autorewrite with healthy in E; try done).
Qed.

(** Signing out works at once. When a sign-out, a sign-out everywhere or the
    deletion of the account has succeeded, the access token of that session is
    dead for every extractor from the next request on, although the token itself
    has not expired and still verifies, and whatever the database does then. *)
Theorem revocation_immediate {P : Platform} {R : Remote} (cfg : AppConfig) (p : Parts) (uid sid : Uuid)
    (ctx : RequestContext) (h : M string) (w w' w2 : World) (msg tok : string) (c : Claims) :
  h ∈ [sign_out uid sid ctx; sign_out_all uid ctx; delete_account uid ctx] →
  h w = (Ok msg, w') → sessions (w_db w2) = sessions (w_db w') →
  header_str "x-api-key" (pt_headers p) = None → bearer_token p = Ok tok →
  jwt_decode (w_now w2) tok (expose (jwt_secret cfg)) = Some c →
  uuid_parse (c_sub c) = Some uid → uuid_parse (c_sid c) = Some sid →
  is_ok (fst (AuthUser_from cfg p w2)) = false ∧ is_ok (fst (SessionUser_from cfg p w2)) = false ∧
  is_ok (fst (AdminUser_from cfg p w2)) = false ∧ is_ok (fst (AppContext_from cfg p w2)) = false ∧
  fst (OptionalAuthUser_from cfg p w2) = Ok None.
Proof.
  intros Hh Hrun Hsess Hk Ht Hc Hu Hs. assert (He : session_ended uid sid (w_db w2)).
  { assert (session_ended uid sid (w_db w')) as He.
    { rewrite !elem_of_cons in Hh. destruct Hh as [-> | [-> | [-> | []%not_elem_of_nil]]].
      - by eapply sign_out_ends.
      - by eapply signed_out_ended, sign_out_all_ends.
      - by eapply signed_out_ended, delete_account_ends. }
    intros s. rewrite Hsess. apply He. }
  destruct (ended_refused cfg p w2 tok c uid sid Hk Ht Hc Hu Hs He) as (e & w3 & Hr).
  unfold AuthUser_from, SessionUser_from, AdminUser_from, AppContext_from, OptionalAuthUser_from,
    AuthUser_from. rewrite bind_attempt.
  by repeat first [rewrite Hr | erewrite bind_run_Err by exact Hr].
Qed.

Lemma revocation_immediate_witness :
  is_ok (fst (@AuthUser_from toy toy_remote Example.cfg CallExample.parts
    (snd (@sign_out_all toy 1%N Example.ctx Example.w)))) = false.
Proof.
  refine (proj1 (@revocation_immediate toy toy_remote Example.cfg CallExample.parts 1%N 3%N Example.ctx
    (@sign_out_all toy 1%N Example.ctx) Example.w (snd (@sign_out_all toy 1%N Example.ctx Example.w))
    (snd (@sign_out_all toy 1%N Example.ctx Example.w)) "Revoked 2 session(s)" CallExample.token
    {| c_sub := "1"; c_sid := "3"; c_email := "stale@example.com"; c_role := "admin";
       c_exp := 1000; c_iat := 0 |}%Z _ _ eq_refl _ _ _ _ _)).
  - apply elem_of_cons. right. apply elem_of_cons. by left.
  - vm_compute. reflexivity.
  - vm_compute. reflexivity.
  - vm_compute. reflexivity.
  - vm_compute. reflexivity.
  - vm_compute. reflexivity.
  - vm_compute. reflexivity.
Defined.

(** Forwarded headers are believed only from a trusted proxy. Where they are
    not trusted, the address recorded for a request and the rate limiter's
    bucket are the peer's, whatever the headers say; where they are, a request
    without them still falls back to the peer. The recorded user agent never
    exceeds 512 characters. *)
Theorem untrusted_headers_ignored {P : Platform} (cfg : AppConfig) (p : Parts) :
  (trust_proxy_headers cfg = false ∨
   (header_str "x-forwarded-for" (pt_headers p) = None ∧ header_str "x-real-ip" (pt_headers p) = None) →
   ctx_ip_address (RequestContext_from cfg p) = (show_ip <$> pt_peer p) ∧
   rate_limit_key (trust_proxy_headers cfg) p = pt_peer p) ∧
  (∀ ua, ctx_user_agent (RequestContext_from cfg p) = Some ua → (length (chars ua) <= 512)%nat).
Proof.
  split.
  - unfold RequestContext_from, rate_limit_key. cbn [ctx_ip_address].
    intros [-> | [-> ->]]; [done|]. by destruct (trust_proxy_headers cfg).
  - intros ua. unfold RequestContext_from. cbn [ctx_user_agent].
    intros (v & _ & ->)%fmap_Some. rewrite chars_of_chars.
    + rewrite length_firstn. lia.
    + apply Forall_take, chars_scalar.
Qed.

(** The headers of [CallExample.parts] claim address 9; the peer is 5. *)
Lemma untrusted_headers_ignored_witness :
  ctx_ip_address (@RequestContext_from toy Example.cfg CallExample.parts) = Some "5" ∧
  @rate_limit_key toy true CallExample.parts = Some 9%N.
Proof.
  split; [|vm_compute; reflexivity].
  etrans; [|vm_compute; reflexivity].
  apply (proj1 (@untrusted_headers_ignored toy Example.cfg CallExample.parts)). by left.
Defined.

(** ** The application context *)

(** Who may act in an application: its owner, an administrator, or a member of one
    of its organizations. *)
Definition app_access (d : Db) (u : AuthUser) (a : App) : Prop :=
  app_owner_id a = au_id u ∨ au_role u = "admin" ∨
  ∃ m o, m ∈ org_members d ∧ o ∈ organizations d ∧ om_user_id m = au_id u ∧
    org_id o = om_org_id m ∧ org_app_id o = app_id a.

Lemma q_app_member_spec aid uid d :
  q_app_member aid uid d = true ↔
  ∃ m o, m ∈ org_members d ∧ o ∈ organizations d ∧ om_user_id m = uid ∧
    org_id o = om_org_id m ∧ org_app_id o = aid.
Proof.
  unfold q_app_member. rewrite existsb_exists. split.
  - intros (m & Hm & [Hu He]%andb_true_iff). apply exists_row_true in He as (o & Ho & Hp).
    bool_facts. exists m, o. rewrite list_elem_of_In. done.
  - intros (m & o & Hm & Ho & <- & Hi & <-). exists m. rewrite <- list_elem_of_In. split; [done|].
    rewrite N.eqb_refl. apply exists_row_true. exists o. by rewrite Hi, !N.eqb_refl.
Qed.

Lemma authenticate_steady {P : Platform} {R : Remote} cfg p : steady (authenticate cfg p).
Proof.
  unfold authenticate, authenticate_key, authenticate_session, authenticate_remote, verify_access_token,
    verify_token, resolve_key, resolve_session. steady_tac.
Qed.

(** Authentication leaves every table but [api_keys] alone. *)
Lemma authenticate_frame {P : Platform} {R : Remote} cfg p w u w' :
  authenticate cfg p w = (Ok u, w') →
  apps (w_db w') = apps (w_db w) ∧ organizations (w_db w') = organizations (w_db w) ∧
  org_members (w_db w') = org_members (w_db w).
Proof. by intros [_ [-> | (k & s & _ & ks & -> & _)]]%authenticate_Ok. Qed.

(** The context on a healthy database, the caller known. *)
Lemma app_context_run {P : Platform} {R : Remote} cfg p w u w1 :
  w_faults w = [] → authenticate cfg p w = (Ok u, w1) →
  fst (AppContext_from cfg p w) =
    match header_str "x-application-id" (pt_headers p) with
    | None => Err (BadRequest "Missing required 'X-Application-ID' header")
    | Some raw =>
        match uuid_parse raw with
        | None => Err (BadRequest "Malformed 'X-Application-ID' UUID")
        | Some aid =>
            match q_app aid (w_db w) with
            | None => Err (NotFound "Application not found")
            | Some a =>
                let own := ((app_owner_id a =? au_id u)%N || is_admin u)%bool in
                if (own || q_app_member aid (au_id u) (w_db w))%bool then
                  Ok {| ax_app_id := app_id a; ax_name := app_name a; ax_slug := app_slug a;
                        ax_owner_id := app_owner_id a; ax_is_owner := own |}
                else Err (Forbidden "You do not have access to this application")
            end
        end
    end.
Proof.
  intros Hf Ha. destruct (authenticate_frame cfg p w u w1 Ha) as (E1 & E2 & E3).
  assert (Hf1 : w_faults w1 = []).
  { pose proof (authenticate_steady cfg p w) as [_ H]. rewrite Ha in H. auto. }
  unfold AppContext_from, AuthUser_from. erewrite bind_run_Ok by exact Ha. hrun.
  destruct (header_str "x-application-id" _) as [raw|]; hrun; [|done].
  destruct (uuid_parse raw) as [aid|]; hrun; [|done].
  unfold q_app, q_app_member in *. rewrite E1, <- E2, <- E3.
  destruct (fetch_optional _ _) as [a|]; hrun; [|done].
  destruct (_ || is_admin u)%bool; cbn [negb orb]; hrun; [done|].
  by destruct (existsb _ (org_members (w_db w1))).
Qed.

(** Tenants are kept apart. On a healthy, well-formed database an authenticated
    caller obtains the context of the application its header names when the caller
    owns it, administers the system or belongs to one of its organizations, and
    otherwise does not; the ownership flag is set for the first two only. An application that exists is refused with 403, one that does
    not with 404. *)
Theorem app_context_exact {P : Platform} {R : Remote} (cfg : AppConfig) (p : Parts) (w w1 : World)
    (u : AuthUser) (raw : string) (aid : Uuid) (a : App) :
  w_faults w = [] → db_wf (w_db w) → authenticate cfg p w = (Ok u, w1) →
  header_str "x-application-id" (pt_headers p) = Some raw → uuid_parse raw = Some aid →
  app_id a = aid →
  (a ∈ apps (w_db w) → app_access (w_db w) u a →
     ∃ own, fst (AppContext_from cfg p w) = Ok {| ax_app_id := aid; ax_name := app_name a;
       ax_slug := app_slug a; ax_owner_id := app_owner_id a; ax_is_owner := own |} ∧
       (own = true ↔ app_owner_id a = au_id u ∨ au_role u = "admin")) ∧
  (a ∈ apps (w_db w) → ¬ app_access (w_db w) u a →
     fst (AppContext_from cfg p w) = Err (Forbidden "You do not have access to this application")) ∧
  ((∀ b, b ∈ apps (w_db w) → app_id b ≠ aid) →
     fst (AppContext_from cfg p w) = Err (NotFound "Application not found")).
Proof.
  intros Hf Hwf Ha Hh Hp Hid. rewrite (app_context_run cfg p w u w1 Hf Ha), Hh, Hp.
  assert (Hq : a ∈ apps (w_db w) → q_app aid (w_db w) = Some a).
  { intros Hin. unfold q_app. erewrite (fetch_pk app_id _ _ a); [done|apply Hwf|done| |].
    - by apply N.eqb_eq.
    - intros r' Hr'. apply N.eqb_eq in Hr'. congruence. }
  assert (Hacc : ((app_owner_id a =? au_id u)%N || is_admin u || q_app_member aid (au_id u) (w_db w))%bool
                 = true ↔ app_access (w_db w) u a).
  { rewrite !orb_true_iff, q_app_member_spec. unfold app_access, is_admin.
    rewrite N.eqb_eq, String.eqb_eq, Hid. tauto. }
  cbn zeta. split; [|split].
  - intros Hin Hac%Hacc. rewrite Hq, Hac, Hid by done. eexists. split; [done|].
    rewrite orb_true_iff, N.eqb_eq. unfold is_admin. by rewrite String.eqb_eq.
  - intros Hin Hn. rewrite Hq by done. rewrite <- Hacc in Hn. by apply not_true_iff_false in Hn as ->.
  - intros Hno. unfold q_app. rewrite (proj2 (fetch_optional_None _ _)); [done|].
    intros b Hb. apply N.eqb_neq. by apply Hno.
Qed.

(** Ada belongs to an organization of somebody else's application. *)
Definition app_example : World :=
  world_of (set_org_members [OrgExample.member 9%N 1%N "member"] (set_organizations [OrgExample.org]
    (set_apps [{| app_id := 7%N; app_owner_id := 2%N; app_name := "A"; app_slug := "a";
                  app_description := None; app_created_at := 0%Z; app_updated_at := 0%Z |}]
      Example.db))) 1000000.

Lemma app_example_wf : db_wf (w_db app_example).
Proof. split; unfold unique_on; apply (bool_decide_unpack _); vm_compute; exact I. Qed.

Lemma app_context_exact_witness :
  ∃ own, fst (@AppContext_from toy toy_remote Example.cfg CallExample.parts app_example)
    = Ok {| ax_app_id := 7%N; ax_name := "A"; ax_slug := "a"; ax_owner_id := 2%N; ax_is_owner := own |}.
Proof.
  destruct (@app_context_exact toy toy_remote Example.cfg CallExample.parts app_example app_example
    CallExample.caller "7" 7%N {| app_id := 7%N; app_owner_id := 2%N; app_name := "A"; app_slug := "a";
      app_description := None; app_created_at := 0%Z; app_updated_at := 0%Z |}) as [H _].
  1: reflexivity. 1: apply app_example_wf. 1-3: vm_compute; reflexivity. 1: reflexivity.
  destruct H as (own & H & _).
  - by left.
  - right. right. exists (OrgExample.member 9%N 1%N "member"), OrgExample.org.
    do 2 (split; [by left|]). vm_compute. done.
  - by exists own.
Defined.
