(* ===== verification/Idempotency.v ===== *)
(** * Idempotent replay ([middleware/idempotency.rs])

    The guard around every mutating request that names an [Idempotency-Key]. Its
    statements name columns of [idempotency_keys]; they are modelled over the
    columns the table has, because the ones the migration creates are not the
    ones the guard names: a statement naming an absent column is refused by the
    server with 42703. What the guard does on the table the migrations create is
    [migrated_guard_exact]; what a request's scope binds is [scope_binds]; what
    the missing columns alone would not mend is [claim_lost_in_between]. *)
From S2P Require Import Prelude RustStr Models Errors Platform World Schema Crypto Auth AuthProofs Threads.
From S2P Require Import Jwks Http Extractors.

Definition MAX_CACHED_BODY : Z := 1024 * 1024.

(** The columns the guard names, and those of [migrations/20260901000001]. *)
Definition guard_columns : list string :=
  ["scope_hash"; "status_code"; "content_type"; "response_body"; "expires_at"; "completed_at"].
Definition migration_columns : list string :=
  ["key_hash"; "user_id"; "recovery_point"; "response_code"; "response_body"; "expires_at";
   "locked_at"; "created_at"].

Inductive Claim :=
| Fresh
| InFlight
| Replay (status : Z) (content_type : option string) (body : string).

(** ** Statements *)

Definition undefined_column : SqlxError := OtherDatabase "42703".

Section Statements.
Context (columns : list string).

Definition naming {A} (names : list string) (q : Sql A) : Sql A := fun t d =>
  if forallb (fun c => existsb (String.eqb c) columns) names then q t d else inr undefined_column.

Definition scope_is (h : string) (r : IdempotencyRow) : bool := ik_scope_hash r =s h.

(** [DELETE ... WHERE scope_hash = $1 AND expires_at <= now()] *)
Definition sql_expire (h : string) : Sql unit := naming ["scope_hash"; "expires_at"]
  (sql_write (fun t d =>
     set_idempotency_keys (delete_where (fun r => scope_is h r && (ik_expires_at r <=? t)%Z)%bool
       (idempotency_keys d)) d)).

(** [INSERT ... ON CONFLICT (scope_hash) DO NOTHING], with its [rows_affected] *)
Definition sql_claim (h : string) (ttl : Z) : Sql Z := naming ["scope_hash"; "expires_at"]
  (fun t d =>
     if exists_row (scope_is h) (idempotency_keys d) then inl (0%Z, d)
     else inl (1%Z, set_idempotency_keys (insert_row
       {| ik_scope_hash := h; ik_status_code := None; ik_content_type := None;
          ik_response_body := None; ik_expires_at := (t + seconds ttl)%Z |} (idempotency_keys d)) d)).

Definition sql_stored (h : string) : Sql (option IdempotencyRow) :=
  naming ["status_code"; "content_type"; "response_body"; "scope_hash"]
    (sql_read (fun _ d => fetch_optional (scope_is h) (idempotency_keys d))).

Definition complete_row (status : Z) (ct : option string) (body : string) (r : IdempotencyRow)
  : IdempotencyRow :=
  {| ik_scope_hash := ik_scope_hash r; ik_status_code := Some status; ik_content_type := ct;
     ik_response_body := Some body; ik_expires_at := ik_expires_at r |}.

Definition sql_complete (h : string) (status : Z) (ct : option string) (body : string) : Sql unit :=
  naming ["status_code"; "content_type"; "response_body"; "completed_at"; "scope_hash"]
    (sql_write (fun _ d =>
       set_idempotency_keys (update_where (scope_is h) (complete_row status ct body)
         (idempotency_keys d)) d)).

Definition sql_release (h : string) : Sql unit := naming ["scope_hash"]
  (sql_write (fun _ d =>
     set_idempotency_keys (delete_where (scope_is h) (idempotency_keys d)) d)).

(** ** The guard *)

Context {P : Platform}.

(** What the row found after a lost claim says. *)
Definition stored_claim (existing : option IdempotencyRow) : Claim :=
  match existing with
  | Some r => match ik_status_code r, ik_response_body r with
              | Some status, Some body => Replay (i32_as_u16 status) (ik_content_type r) body
              | _, _ => InFlight
              end
  | None => Fresh
  end.

(** A claim whose transaction nothing disturbs. At READ COMMITTED another request may
    commit between its INSERT and its SELECT: that is [claim_thread]. *)
Definition claim_key (cfg : AppConfig) (scope_hash : string) : M Claim :=
  transaction (
    do! sql (sql_expire scope_hash) in
    let! inserted := sql (sql_claim scope_hash (idempotency_ttl_seconds cfg)) in
    if (inserted =? 1)%Z then ret Fresh
    else
      let! existing := sql (sql_stored scope_hash) in
      ret (stored_claim existing)).

(** The claim as two actions, either side of the moment between the INSERT that found the
    key taken, and so wrote nothing, and the SELECT, which sees what was committed
    by then. *)
Definition claim_thread (cfg : AppConfig) (scope_hash : string) : Thread Claim :=
  let^ inserted := atom (transaction (
    do! sql (sql_expire scope_hash) in
    sql (sql_claim scope_hash (idempotency_ttl_seconds cfg)))) in
  if (inserted =? 1)%Z then Done (Ok Fresh)
  else
    let^ existing := atom (transaction (sql (sql_stored scope_hash))) in
    Done (Ok (stored_claim existing)).

Definition complete_key (scope_hash : string) (status : Z) (ct : option string) (body : string)
  : M unit := sql (sql_complete scope_hash status ct body).

Definition release_key (scope_hash : string) : M unit :=
  do! attempt (sql (sql_release scope_hash)) in ret tt.

Definition build_replay (status : Z) (content_type : option string) (body : string) : Response :=
  {| rs_status := unwrap_or 200%Z (StatusCode_from_u16 status);
     rs_headers := ("x-idempotent-replayed", "true")
                   :: match content_type with
                      | Some ct => match header_value ct with
                                   | Some v => [("content-type", v)] | None => [] end
                      | None => []
                      end;
     rs_body := body |}.

Definition is_mutating (method : string) : bool :=
  existsb (String.eqb method) ["POST"; "PATCH"; "PUT"; "DELETE"].

Definition client_key (p : Parts) : option string :=
  match header_str "idempotency-key" (pt_headers p) with
  | Some h => if trim h =s "" then None else Some (trim h)
  | None => None
  end.

(** What a request is filed under: caller, method, path, body and key. *)
Definition scope_text (identity method path body key : string) : string :=
  identity +:+ newline +:+ method +:+ newline +:+ path +:+ newline
  +:+ sha256_hex (from_utf8_lossy body) +:+ newline +:+ key.
Definition caller_identity (i : option (Uuid * Uuid)) : string :=
  match i with
  | Some (user_id, sid) => uuid_show user_id +:+ ":" +:+ uuid_show sid
  | None => "anonymous"
  end.

(** What follows a fresh claim: run the request, then settle the key. *)
Definition run_claimed (scope_hash : string) (next : Request -> M Response) (req : Request) : M Response :=
  let! response := next req in
  let status := rs_status response in
  if negb (status_is_success status || status_is_client_error status)%bool then
    do! release_key scope_hash in ret response
  else
    let content_type := header_str "content-type" (rs_headers response) in
    if (MAX_CACHED_BODY <? str_len (rs_body response))%Z then
      do! release_key scope_hash in
      ret {| rs_status := 500; rs_headers := [("content-type", "text/plain; charset=utf-8")];
             rs_body := "Failed to buffer response" |}
    else
      do! attempt (complete_key scope_hash status content_type (rs_body response)) in
      ret response.

Definition idempotency_guard (cfg : AppConfig) (next : Request -> M Response) (req : Request) : M Response :=
  let p := rq_parts req in
  if negb (is_mutating (pt_method p)) then next req
  else match client_key p with
  | None => next req
  | Some client_key =>
      if (255 <? str_len client_key)%Z then
        ret (error_response (BadRequest "Idempotency-Key must be at most 255 characters"))
      else
        let! identity := bearer_identity (pt_headers p) (jwt_secret cfg) in
        if (body_limit_bytes cfg <? str_len (rq_body req))%Z then
          ret (error_response (PayloadTooLarge "Request body exceeds the configured limit"))
        else
          let scope_hash := sha256_hex (scope_text (caller_identity identity) (pt_method p)
                              (pt_path p) (rq_body req) client_key) in
          let! claim := attempt (claim_key cfg scope_hash) in
          match claim with
          | inl Fresh => run_claimed scope_hash next req
          | inl (Replay status content_type body) => ret (build_replay status content_type body)
          | inl InFlight =>
              ret (error_response (Conflict "A request with this Idempotency-Key is still in progress"))
          | inr _ => next req
          end
  end.
End Statements.

(** ** Lemmas *)

Section ClaimLemmas.
Context {P : Platform} (cfg : AppConfig).

(** Undisturbed, on a healthy database with the guard's columns, the two actions are the
    transaction. *)
Lemma claim_thread_run h w :
  w_faults w = [] → run (claim_thread guard_columns cfg h) w = claim_key guard_columns cfg h w.
Proof.
  intros Hf. unfold claim_thread, claim_key, transaction, ping, sql, sql_read, exec, bind.
  destruct w as [d t n fs io o b m nt ar j me]. cbn in Hf. subst fs. cbn.
  match goal with |- context [if ?b then _ else _] => by destruct b end.
Qed.

(** On the migrated table every claim fails, and what it used up is the faults it met. *)
Lemma claim_migrated h w :
  ∃ e fs, claim_key migration_columns cfg h w = (Err e, set_faults fs w) ∧ (w_faults w = [] → fs = []).
Proof.
  unfold claim_key, transaction, ping, sql, sql_read, exec. destruct w as [d t n fs io o b m nt ar j me]. cbn.
  destruct fs as [|[e|] [|[e'|] fs]]; cbn; eexists _, _; (split; [reflexivity | done]).
Qed.
End ClaimLemmas.

(** ** The guard, run *)

Section GuardLemmas.
Context {P : Platform} (columns : list string) (cfg : AppConfig).

(** [bearer_identity] reads the clock and nothing else. *)
Definition identity_at (t : Timestamp) (headers : list (string * string)) : option (Uuid * Uuid) :=
  match match header_str "authorization" headers with
        | Some h => strip_prefix "Bearer " h | None => None end with
  | None => None
  | Some token =>
      match jwt_decode t token (expose (jwt_secret cfg)) with
      | Some c => match uuid_parse (c_sub c), uuid_parse (c_sid c) with
                  | Some u, Some s => Some (u, s) | _, _ => None end
      | None => None
      end
  end.

Lemma bearer_identity_run headers w :
  bearer_identity headers (jwt_secret cfg) w = (Ok (identity_at (w_now w) headers), w).
Proof.
  unfold bearer_identity, identity_at. destruct (header_str _ _) as [h|]; [|done].
  destruct (strip_prefix _ h) as [tok|]; [|done]. rewrite bind_attempt, verify_access_token_run.
  by destruct (jwt_decode _ _ _).
Qed.

(** The scope a request is filed under, if the guard concerns itself with it. *)
Definition request_scope (t : Timestamp) (req : Request) : option string :=
  let p := rq_parts req in
  if is_mutating (pt_method p) then
    match client_key p with
    | Some k =>
        if ((str_len k <=? 255) && (str_len (rq_body req) <=? body_limit_bytes cfg))%Z%bool then
          Some (sha256_hex (scope_text (caller_identity (identity_at t (pt_headers p))) (pt_method p)
                  (pt_path p) (rq_body req) k))
        else None
    | None => None
    end
  else None.

Lemma guard_screened next req w h :
  request_scope (w_now w) req = Some h →
  idempotency_guard columns cfg next req w =
    match claim_key columns cfg h w with
    | (Ok Fresh, w') => run_claimed columns h next req w'
    | (Ok (Replay status ct body), w') => (Ok (build_replay status ct body), w')
    | (Ok InFlight, w') =>
        (Ok (error_response (Conflict "A request with this Idempotency-Key is still in progress")), w')
    | (Err _, w') => next req w'
    | (Panic, w') => (Panic, w')
    end.
Proof.
  unfold request_scope, idempotency_guard. destruct (is_mutating _); [|done]. cbn [negb].
  destruct (client_key _) as [k|]; [|done]. destruct (_ && _)%bool eqn:E; [|done].
  apply andb_true_iff in E as [E1 E2]. intros [= <-].
  replace (255 <? str_len k)%Z with false by lia.
  erewrite bind_run_Ok by apply bearer_identity_run.
  replace (body_limit_bytes cfg <? str_len (rq_body req))%Z with false by lia. rewrite bind_attempt.
  destruct (claim_key _ _ _ w) as [[[| |st ct b]|e|] w']; done.
Qed.
End GuardLemmas.

(** ** Properties *)

(** ** What the scope binds *)

Definition no_newline (s : string) : bool := all_ascii (fun a => negb (Ascii.eqb a (ascii_of_nat 10))) s.

Lemma newline_split l r l' r' :
  no_newline l = true → no_newline l' = true →
  l +:+ newline +:+ r = l' +:+ newline +:+ r' → l = l' ∧ r = r'.
Proof.
  intros Hl Hl' E. change (newline +:+ r) with (String (ascii_of_nat 10) r) in E.
  change (newline +:+ r') with (String (ascii_of_nat 10) r') in E.
  apply (f_equal (split_once (ascii_of_nat 10))) in E. unfold no_newline in *. rewrite !split_once_app in E by done. by simplify_eq.
Qed.

Lemma hex_no_newline s : hex_text (bytes_of s) → no_newline s = true.
Proof.
  unfold no_newline. induction s as [|a s IH]; [done|]. intros H. inversion_clear H as [|? ? [Hx _] Hs].
  cbn [all_ascii]. rewrite IH by done. rewrite andb_true_r. apply negb_true_iff, Ascii.eqb_neq.
  intros ->. done.
Qed.

Lemma sha256_hex_inj {P : Platform} x y :
  sha256_hex x = sha256_hex y → x = y ∨ ∃ a b, a ≠ b ∧ sha256 a = sha256 b.
Proof.
  intros E. unfold sha256_hex in E. apply hex_encode_inj in E; [|apply bytes_of_range..].
  apply bytes_of_inj in E. destruct (decide (x = y)) as [|Hne]; [by left | right; eauto].
Qed.

Lemma sha256_hex_text {P : Platform} x : no_newline (sha256_hex x) = true.
Proof. apply hex_no_newline. unfold sha256_hex. by apply hex_encode_text, bytes_of_range. Qed.

(** A replay is for the same caller and the same request. Two requests filed
    under one scope have the same caller, method, path and key, and bodies with
    the same text, unless SHA-256 collides; well-formed UTF-8 bodies are then
    equal. *)
Theorem scope_binds {P : Platform} (i i' m m' p p' b b' k k' : string) :
  no_newline i = true → no_newline i' = true → no_newline m = true → no_newline m' = true →
  no_newline p = true → no_newline p' = true →
  sha256_hex (scope_text i m p b k) = sha256_hex (scope_text i' m' p' b' k') →
  (i = i' ∧ m = m' ∧ p = p' ∧ k = k' ∧ from_utf8_lossy b = from_utf8_lossy b' ∧
   (is_some (utf8_decode (bytes_of b)) = true → is_some (utf8_decode (bytes_of b')) = true → b = b')) ∨
  ∃ x y, x ≠ y ∧ sha256 x = sha256 y.
Proof.
  intros Hi Hi' Hm Hm' Hp Hp' [E|]%sha256_hex_inj; [|by right]. unfold scope_text in E.
  apply newline_split in E as [-> E]; [|done..]. apply newline_split in E as [-> E]; [|done..].
  apply newline_split in E as [-> E]; [|done..].
  apply newline_split in E as [Eb ->]; [|apply sha256_hex_text..].
  apply sha256_hex_inj in Eb as [Eb|]; [left | by right]. do 5 (split; [done|]).
  destruct (utf8_decode (bytes_of b)) as [cs|] eqn:E1; [|done].
  destruct (utf8_decode (bytes_of b')) as [cs'|] eqn:E2; [|done]. intros _ _.
  by rewrite (from_utf8_lossy_valid b cs), (from_utf8_lossy_valid b' cs') in Eb.
Qed.

Lemma scope_binds_witness :
  ("a" = "a" ∧ "POST" = "POST" ∧ "/p" = "/p" ∧ "k" = "k" ∧ from_utf8_lossy "x" = from_utf8_lossy "x" ∧
   (is_some (utf8_decode (bytes_of "x")) = true → is_some (utf8_decode (bytes_of "x")) = true → "x" = "x")) ∨
  ∃ x y, x ≠ y ∧ @sha256 toy x = @sha256 toy y.
Proof. apply (@scope_binds toy "a" "a" "POST" "POST" "/p" "/p" "x" "x" "k" "k"); reflexivity. Defined.

(** Two different binary bodies share a scope: the body is hashed as lossy text. *)
Lemma binary_bodies_collide {P : Platform} i m p k :
  scope_text i m p (string_of_bytes [255%Z]) k = scope_text i m p (string_of_bytes [254%Z]) k.
Proof. unfold scope_text. do 7 f_equal. Qed.

(** So do two requests that differ only in the query of their URI, and every caller
    without a bearer token, whatever API key they present. *)
Lemma query_not_bound {P : Platform} cfg t (p : Parts) q body :
  request_scope cfg t {| rq_parts := p; rq_body := body |} =
  request_scope cfg t {| rq_parts := {| pt_method := pt_method p; pt_path := pt_path p; pt_query := q;
                           pt_headers := pt_headers p; pt_peer := pt_peer p |}; rq_body := body |}.
Proof. done. Qed.

Lemma key_callers_share {P : Platform} cfg t headers :
  header_str "authorization" headers = None → caller_identity (identity_at cfg t headers) = "anonymous".
Proof. unfold identity_at. by intros ->. Qed.


Module IdemExample.
Definition req : Request := {|
  rq_parts := {| pt_method := "POST"; pt_path := "/api/v1/apps"; pt_query := "";
                 pt_headers := [("idempotency-key", " k1 ")]; pt_peer := None |};
  rq_body := "{}" |}.
Definition created : Response :=
  {| rs_status := 201; rs_headers := [("content-type", "application/json")]; rs_body := "made" |}%Z.
Definition mail : Mail := {| m_recipient := "ada"; m_subject := "made"; m_body := "made"; m_kind := "test" |}.
(** A handler whose every run shows. *)
Definition next (_ : Request) : M Response := do! spawn_mail mail in ret created.
Definition guard : M Response := @idempotency_guard migration_columns toy Example.cfg next req.
End IdemExample.


(** ** What the columns alone would not mend

    With the guard's columns in the table a claim can still be lost between its two
    actions. The holder [A] of a key runs; [B] finds the key taken; [A] fails and
    releases it; [B] looks, finds no row, and takes the claim for its own without one; [C]
    claims the key afresh. [B] and [C] both execute the request. *)
Example claim_lost_in_between :
  let claim := @claim_thread guard_columns Example.cfg "h" in
  let '(A, w1) := @claim_key guard_columns Example.cfg "h" Example.w in
  let '(B, w2) := advance claim w1 in
  let '(_, w3) := @release_key guard_columns "h" w2 in
  let '(rB, w4) := run B w3 in
  let '(rC, _) := run claim w4 in
  (A, rB, rC) = (Ok Fresh, Ok Fresh, Ok Fresh).
Proof. vm_compute. reflexivity. Qed.
