(* ===== verification/Middleware.v ===== *)
(** * The layers around the routes ([lib.rs], [middleware/security_headers.rs, sunset.rs, metrics.rs])

    A layer wraps the service inside it: [next.run(req)] is a call of [next]. The
    application is the stack [create_app] builds, innermost first: the matched
    route with its metrics, the idempotency guard, the security headers, the rate
    limiter, then the layers of [tower_http], which are parameters. *)
From S2P Require Import Prelude RustStr Models Errors Platform World Http Auth Schema AuthProofs Extractors.
From S2P Require Import Idempotency.

Abbreviation Service := (Request -> M Response) (only parsing).
Abbreviation Layer := ((Request -> M Response) -> Request -> M Response) (only parsing).

(** ** Security headers *)

Definition API_CSP : string :=
  "default-src 'none'; frame-ancestors 'none'; base-uri 'none'; form-action 'none'".
Definition DOCS_CSP : string :=
  "default-src 'self'; " +:+
  "script-src 'self' 'unsafe-inline' https://cdn.jsdelivr.net; " +:+
  "style-src 'self' 'unsafe-inline' https://cdn.jsdelivr.net https://fonts.googleapis.com; " +:+
  "font-src 'self' data: https://fonts.gstatic.com; " +:+
  "img-src 'self' data: https:; " +:+
  "connect-src 'self'; " +:+
  "frame-ancestors 'none'; base-uri 'none'".

Definition security_headers (cfg : AppConfig) (next : Service) : Service := fun req =>
  let is_docs := starts_with "/docs" (pt_path (rq_parts req)) in
  let! response := next req in
  let headers := rs_headers response in
  let headers := header_insert "x-content-type-options" "nosniff" headers in
  let headers := header_insert "x-frame-options" "DENY" headers in
  let headers := header_insert "referrer-policy" "strict-origin-when-cross-origin" headers in
  let headers := header_insert "content-security-policy" (if is_docs then DOCS_CSP else API_CSP) headers in
  let headers := header_insert "permissions-policy"
    ("accelerometer=(), camera=(), geolocation=(), gyroscope=(), magnetometer=(), microphone=(), "
      +:+ "payment=(), usb=()") headers in
  let headers := header_insert "cross-origin-resource-policy" "same-origin" headers in
  let headers := header_insert "x-download-options" "noopen" headers in
  let headers := if is_production (environment cfg)
                 then header_insert "strict-transport-security"
                        "max-age=31536000; includeSubDomains; preload" headers
                 else headers in
  ret (set_headers headers response).

(** ** Deprecation *)

Record SunsetConfig := { sunset_date : option string; migration_doc_url : option string }.
Definition deprecated : SunsetConfig := {| sunset_date := None; migration_doc_url := None |}.
Definition with_sunset (d : string) (c : SunsetConfig) : SunsetConfig :=
  {| sunset_date := Some d; migration_doc_url := migration_doc_url c |}.
Definition with_doc (url : string) (c : SunsetConfig) : SunsetConfig :=
  {| sunset_date := sunset_date c; migration_doc_url := Some url |}.

Definition sunset_layer (config : SunsetConfig) (next : Service) : Service := fun req =>
  let! response := next req in
  let headers := header_insert "deprecation" "true" (rs_headers response) in
  let headers := match sunset_date config with
    | Some sunset => match header_value sunset with
        | Some val => header_insert "sunset" val headers | None => headers end
    | None => headers
    end in
  let headers := match migration_doc_url config with
    | Some doc_url => match header_value ("<" +:+ doc_url +:+ ">; rel=" +:+ dquote +:+ "sunset" +:+ dquote) with
        | Some val => header_append "link" val headers | None => headers end
    | None => headers
    end in
  ret (set_headers headers response).

(** ** Metrics *)

(** [counter!(name, labels).increment(1)] *)
Definition increment (name : string) (labels : list (string * string)) : M unit := fun w =>
  (Ok tt, set_metrics ({| sm_name := name; sm_labels := labels |} :: w_metrics w) w).

(** [matched] is the [MatchedPath] extension: the template of the route. *)
Definition track_metrics (matched : option string) (next : Service) : Service := fun req =>
  let path := unwrap_or "unmatched" matched in
  let method := pt_method (rq_parts req) in
  let! response := next req in
  do! increment "http_requests_total"
        [("method", method); ("path", path); ("status", show_Z (rs_status response))] in
  ret response.

Definition track_outcomes (next : Service) : Service := fun req =>
  let method := pt_method (rq_parts req) in
  let! response := next req in
  let status := rs_status response in
  do! (if (status_is_client_error status || status_is_server_error status)%bool
       then increment "http_rejected_total" [("method", method); ("status", show_Z status)]
       else ret tt) in
  ret response.

(** ** Cross-origin policy *)

Inductive AllowOrigin := AnyOrigin | OriginList (origins : list string).
Record CorsLayer := {
  allow_methods : list string; allow_headers : list string; expose_headers : list string;
  max_age : Z; allow_origin : AllowOrigin; allow_credentials : bool }.

Definition build_cors (cfg : AppConfig) : CorsLayer :=
  let cors origin credentials := {|
    allow_methods := ["GET"; "POST"; "PUT"; "PATCH"; "DELETE"; "OPTIONS"];
    allow_headers := ["authorization"; "accept"; "content-type"; "x-request-id"; "idempotency-key"];
    expose_headers := ["x-request-id"; "x-idempotent-replayed"];
    max_age := 3600; allow_origin := origin; allow_credentials := credentials |} in
  match cors_allowed_origins cfg with
  | [] => cors AnyOrigin false
  | origins => cors (OriginList (omap header_value origins)) true
  end.

(** ** The application *)

(** [IntoResponse] of a handler's [Result]. *)
Definition respond {P : Platform} (handler : Service) : Service := fun req w =>
  match handler req w with
  | (Err e, w') => (Ok (error_response e), w')
  | r => r
  end.

Section App.
Context {P : Platform} (columns : list string) (cfg : AppConfig).
(** The router: the template and the handler of the matched route. *)
Variable routes : Request -> option (string * Service).
(** The governor crate's limiter: the response it rejects a key with. *)
Variable govern : option N -> World -> option Response.
(** The layers of [tower_http]. *)
Variable cors_layer : CorsLayer -> Layer.
Variables body_limit_layer timeout_layer trace_layer request_id_layer : Layer.

(** [route_layer]: an unmatched request meets the router's fallback, unmeasured. *)
Definition router : Service := fun req =>
  match routes req with
  | Some (path, handler) => track_metrics (Some path) (respond handler) req
  | None => ret {| rs_status := 404; rs_headers := []; rs_body := "" |}
  end.

Definition guarded : Service := idempotency_guard columns cfg router.
Definition hardened : Service := security_headers cfg guarded.

Definition limited : Service := fun req w =>
  match govern (rate_limit_key (trust_proxy_headers cfg) (rq_parts req)) w with
  | Some rejection => (Ok rejection, w)
  | None => hardened req w
  end.

Definition create_app : Service :=
  request_id_layer (trace_layer (track_outcomes (timeout_layer (body_limit_layer
    (cors_layer (build_cors cfg) limited))))).

(** Requests served one after the other; what each answers does not matter here. *)
Fixpoint serve_all (service : Service) (reqs : list Request) (w : World) : World :=
  match reqs with
  | [] => w
  | req :: rest => serve_all service rest (snd (service req w))
  end.
End App.

(** ** Lemmas: what a layer leaves of the headers *)

(** Every value under a name. *)
Definition values (name : string) (h : list (string * string)) : list string :=
  snd <$> List.filter (fun kv => fst kv =s name) h.

Lemma values_insert name v h : values name (header_insert name v h) = [v].
Proof.
  unfold values, header_insert. rewrite List.filter_app. cbn [List.filter fst]. rewrite String.eqb_refl.
  replace (List.filter _ (List.filter _ h)) with (@nil (string * string)); [done|].
  induction h as [|[k x] h IH]; [done|]. cbn [List.filter fst].
  destruct (k =s name) eqn:E; cbn [negb List.filter fst]; rewrite ?E; done.
Qed.

Lemma values_insert_ne name n v h : n ≠ name → values n (header_insert name v h) = values n h.
Proof.
  intros Hn. unfold values, header_insert. rewrite List.filter_app. cbn [List.filter fst].
  replace (name =s n) with false by (symmetry; apply String.eqb_neq; congruence).
  rewrite app_nil_r. f_equal. induction h as [|[k x] h IH]; [done|]. cbn [List.filter fst].
  destruct (k =s name) eqn:E; cbn [negb List.filter fst].
  - apply String.eqb_eq in E as ->.
    replace (name =s n) with false by (symmetry; apply String.eqb_neq; congruence). done.
  - destruct (k =s n); [by f_equal | done].
Qed.

(** What [security_headers] pins, for a path and an environment. *)
Definition pinned (cfg : AppConfig) (path : string) : list (string * string) :=
  [("x-content-type-options", "nosniff"); ("x-frame-options", "DENY");
   ("referrer-policy", "strict-origin-when-cross-origin");
   ("content-security-policy", if starts_with "/docs" path then DOCS_CSP else API_CSP);
   ("permissions-policy", "accelerometer=(), camera=(), geolocation=(), gyroscope=(), "
      +:+ "magnetometer=(), microphone=(), payment=(), usb=()");
   ("cross-origin-resource-policy", "same-origin"); ("x-download-options", "noopen")]
  ++ (if is_production (environment cfg)
      then [("strict-transport-security", "max-age=31536000; includeSubDomains; preload")] else []).

(** The pinned headers of a response, each with exactly one value. *)
Definition carries (hs : list (string * string)) (r : Response) : Prop :=
  ∀ name v, (name, v) ∈ hs → values name (rs_headers r) = [v].

Lemma security_headers_carries cfg next req w r w' :
  security_headers cfg next req w = (Ok r, w') → carries (pinned cfg (pt_path (rq_parts req))) r.
Proof.
  intros H. unfold security_headers in H. ok_step H. injection H as <- <-.
  intros name v Hin. unfold pinned in Hin. cbn [rs_headers set_headers].
  destruct (is_production _); cbn [app] in Hin;
    repeat (apply elem_of_cons in Hin as [[= -> ->]|Hin];
      [repeat (rewrite values_insert_ne by done); by rewrite values_insert |]); by apply elem_of_nil in Hin.
Qed.

(** The same request, but for the identifier the outermost layer gives it. *)
Record same_request (q q' : Request) : Prop := {
  sq_method : pt_method (rq_parts q') = pt_method (rq_parts q);
  sq_path : pt_path (rq_parts q') = pt_path (rq_parts q);
  sq_query : pt_query (rq_parts q') = pt_query (rq_parts q);
  sq_peer : pt_peer (rq_parts q') = pt_peer (rq_parts q);
  sq_body : rq_body q' = rq_body q;
  sq_headers : ∀ name, name ≠ "x-request-id" →
    header_get name (pt_headers (rq_parts q')) = header_get name (pt_headers (rq_parts q)) }.
#[export] Instance same_request_preorder : PreOrder same_request.
Proof.
  split; [by intros q; split|]. intros q1 q2 q3 H1 H2. split.
  1-5: by destruct H1, H2; etrans.
  intros n Hn. etrans; [by apply H2 | by apply H1].
Qed.

Lemma same_request_key {P : Platform} trust q q' :
  same_request q q' → rate_limit_key trust (rq_parts q') = rate_limit_key trust (rq_parts q).
Proof. intros H. unfold rate_limit_key, header_str. by rewrite !(sq_headers _ _ H), (sq_peer _ _ H). Qed.

(** A layer that answers in place of the service inside it only when [answers] says so. Otherwise
    it hands that service the same request in the same world, and passes on the
    status and the headers [hs] of its response. *)
Class Layered (hs : list string) (answers : (Request -> M Response) -> Request -> World -> Prop)
    (L : (Request -> M Response) -> Request -> M Response) :=
  layered : ∀ next req w r w', L next req w = (Ok r, w') →
    answers next req w ∨ ∃ req1 r1 w1, same_request req req1 ∧ next req1 w = (Ok r1, w1) ∧
      rs_status r = rs_status r1 ∧ ∀ name, name ∈ hs → values name (rs_headers r) = values name (rs_headers r1).

(** A layer that never answers itself. *)
Abbreviation Passing hs := (Layered hs (fun _ _ _ => False)).

#[export] Instance passing_outcomes hs : Passing hs track_outcomes.
Proof.
  intros next req w r w' H. right. unfold track_outcomes in H. ok_step H. ok_step H. injection H as <- <-.
  by exists req, a, w0.
Qed.

(** A layer around another. *)
Lemma layered_compose hs A1 A2 L1 L2 next req w r w' :
  Layered hs A1 L1 → Layered hs A2 L2 → L1 (L2 next) req w = (Ok r, w') →
  A1 (L2 next) req w ∨ (∃ req1, same_request req req1 ∧ A2 next req1 w) ∨
  ∃ req1 r1 w1, same_request req req1 ∧ next req1 w = (Ok r1, w1) ∧
    rs_status r = rs_status r1 ∧ ∀ name, name ∈ hs → values name (rs_headers r) = values name (rs_headers r1).
Proof.
  intros H1 H2 [?|(q1 & r1 & w1 & Hq1 & H & Hs1 & Hv1)]%H1; [by left | right].
  apply H2 in H as [?|(q2 & r2 & w2 & Hq2 & H & Hs2 & Hv2)]; [left; eauto | right].
  exists q2, r2, w2. split; [by etrans|]. split; [done|]. split; [congruence|].
  intros n Hn. by rewrite Hv1, Hv2.
Qed.

#[export] Instance passing_compose hs L1 L2 :
  Passing hs L1 → Passing hs L2 → Passing hs (fun next => L1 (L2 next)).
Proof.
  intros H1 H2 next req w r w' H.
  destruct (layered_compose hs _ _ L1 L2 next req w r w' H1 H2 H) as [[]|[(? & _ & [])|?]]. by right.
Qed.

(** ** Lemmas: what a service adds to the metrics *)

(** [adds S m]: the samples [m] adds, at most one, lie in [S]; failures included. *)
Definition adds (S : Sample -> Prop) (w w' : World) : Prop :=
  w_metrics w' = w_metrics w ∨ ∃ s, w_metrics w' = s :: w_metrics w ∧ S s.
Definition unmeasured {A} (m : M A) : Prop := ∀ w, w_metrics (snd (m w)) = w_metrics w.

Lemma unmeasured_bind {A B} (m : M A) (k : A -> M B) :
  unmeasured m → (∀ a, unmeasured (k a)) → unmeasured (bind m k).
Proof.
  intros Hm Hk w. unfold bind. specialize (Hm w). destruct (m w) as [[a|e|] w1]; cbn [snd] in *; [|done..].
  by rewrite Hk.
Qed.
Lemma unmeasured_attempt {A} (m : M A) : unmeasured m → unmeasured (attempt m).
Proof. intros Hm w. unfold attempt. specialize (Hm w). by destruct (m w) as [[a|e|] w1]. Qed.
Lemma unmeasured_exec {A} f (q : Sql A) : unmeasured (exec f q).
Proof.
  intros w. unfold exec. destruct (w_faults w) as [|[e|] fs]; [|done|];
    by destruct (q _ _) as [[a d]|e].
Qed.
Lemma unmeasured_transaction {A} (m : M A) : unmeasured m → unmeasured (transaction m).
Proof.
  intros Hm w. unfold transaction. pose proof (unmeasured_exec DatabaseError (sql_read (fun _ _ => tt))) as Hp.
  change (exec DatabaseError (sql_read (fun _ _ => tt))) with ping in Hp.
  pose proof (Hp w) as H0. destruct (ping w) as [[a0|e|] w0]; cbn [snd] in *; [|done..].
  specialize (Hm w0). destruct (m w0) as [[a|e|] w1]; cbn [snd set_db w_metrics] in *; [|congruence..].
  specialize (Hp w1). destruct (ping w1) as [[a1|e|] w2]; cbn [snd set_db w_metrics] in *; congruence.
Qed.

Definition measured (S : Sample -> Prop) {A} (m : M A) : Prop := ∀ w, adds S w (snd (m w)).

Lemma measured_pre S {A B} (m : M A) (k : A -> M B) :
  unmeasured m → (∀ a, measured S (k a)) → measured S (bind m k).
Proof.
  intros Hm Hk w. unfold bind. specialize (Hm w). destruct (m w) as [[a|e|] w1]; cbn [snd] in *; [|left; exact Hm..].
  specialize (Hk a w1). unfold adds in *. by rewrite Hm in Hk.
Qed.
Lemma measured_post S {A B} (m : M A) (k : A -> M B) :
  measured S m → (∀ a, unmeasured (k a)) → measured S (bind m k).
Proof.
  intros Hm Hk w. unfold bind. specialize (Hm w). destruct (m w) as [[a|e|] w1]; cbn [snd] in *; [|done..].
  specialize (Hk a w1). unfold adds in *. rewrite Hk. exact Hm.
Qed.
Lemma unmeasured_measured S {A} (m : M A) : unmeasured m → measured S m.
Proof. intros H w. left. apply H. Qed.

Create HintDb metrics.
#[export] Hint Resolve unmeasured_bind unmeasured_attempt unmeasured_exec unmeasured_transaction
  measured_post unmeasured_measured : metrics.
#[export] Hint Extern 1 (unmeasured (ret _)) => (intros ?; reflexivity) : metrics.
#[export] Hint Extern 1 (unmeasured (sql _)) => (apply unmeasured_exec) : metrics.

Section Guard.
Context {P : Platform} (columns : list string) (cfg : AppConfig) (next : Request -> M Response) (S : Sample -> Prop).
Hypothesis next_measured : ∀ req, measured S (next req).

Lemma claim_unmeasured h : unmeasured (claim_key columns cfg h).
Proof.
  apply unmeasured_transaction. apply unmeasured_bind; [apply unmeasured_exec | intros _].
  apply unmeasured_bind; [apply unmeasured_exec | intros n]. destruct (n =? 1)%Z; [done|].
  by apply unmeasured_bind; [apply unmeasured_exec |].
Qed.

Lemma run_claimed_measured h req : measured S (run_claimed columns h next req).
Proof.
  apply measured_post; [done|]. intros r. cbv zeta. destruct (negb _).
  { unfold release_key. eauto 8 with metrics. }
  destruct (_ <? _)%Z; [unfold release_key | unfold complete_key]; eauto 8 with metrics.
Qed.

(** The guard runs the request at most once. *)
Lemma guard_measured req : measured S (idempotency_guard columns cfg next req).
Proof.
  unfold idempotency_guard. cbv zeta. destruct (negb _); [done|]. destruct (client_key _) as [k|]; [|done].
  destruct (_ <? _)%Z; [by left|]. apply measured_pre.
  { intros w. by rewrite bearer_identity_run. }
  intros i. destruct (_ <? _)%Z; [by left|]. apply measured_pre.
  { apply unmeasured_attempt, claim_unmeasured. }
  intros [[| |st ct b]|e]; [apply run_claimed_measured | by left | by left | done].
Qed.
End Guard.

Section Metered.
Context {P : Platform} (columns : list string) (cfg : AppConfig).
Variables (routes : Request -> option (string * (Request -> M Response))).
Variable templates : list string.

(** A request of the routes: counted under its method, a template, and a status. *)
Definition request_sample (s : Sample) : Prop :=
  sm_name s = "http_requests_total" ∧ ∃ method path status, path ∈ templates ∧
    sm_labels s = [("method", method); ("path", path); ("status", show_Z status)].

Hypothesis routes_known : ∀ req path h, routes req = Some (path, h) → path ∈ templates.
Hypothesis handlers_unmeasured : ∀ req path h, routes req = Some (path, h) → ∀ req', unmeasured (h req').

Lemma router_measured req : measured request_sample (router routes req).
Proof.
  unfold router. destruct (routes req) as [[path h]|] eqn:E; [|by left].
  intros w. unfold track_metrics, bind, respond. pose proof (handlers_unmeasured _ _ _ E req w) as Hh.
  pose proof (routes_known _ _ _ E) as Hp.
  destruct (h req w) as [[r|e|] w1]; cbn [snd] in *; [| |by left].
  all: right; eexists; (split; [by rewrite <- Hh | split; [done|]]); by eexists _, path, _.
Qed.

Lemma limited_measured govern req : measured request_sample (limited columns cfg routes govern req).
Proof.
  intros w. unfold limited. destruct (govern _ w) as [r|]; [by left|]. revert w. unfold hardened, security_headers.
  cbv zeta. apply measured_post; [|intros r; intros w; done].
  unfold guarded. apply guard_measured. intros q. apply router_measured.
Qed.
End Metered.

(** ** Properties *)

(** C38: the security headers cannot be lost. Whatever the routes answer — an error, a
    replayed response, a 404, a handler that set them itself — the application's
    response carries each pinned header with exactly one value (transport
    security in production only), with three exceptions, each recognised by the request
    that arrived: an OPTIONS request, which the CORS layer answers itself; one that the
    timeout layer gave up on; and one whose key the rate limiter rejects, which answers
    with the limiter's status. The layers are assumed to do what [tower_http] documents: CORS to answer
    no other method, the timeout no request that ends in time, the body limit, the
    trace and the request identifier none, and all of them to leave the pinned headers alone. *)
Theorem app_hardened {P : Platform} (columns : list string) (cfg : AppConfig)
    (routes : Request -> option (string * (Request -> M Response))) (govern : option N -> World -> option Response)
    (cors : CorsLayer -> (Request -> M Response) -> Request -> M Response)
    (body_limit timeout trace request_id : (Request -> M Response) -> Request -> M Response)
    (times_out : (Request -> M Response) -> Request -> World -> Prop)
    (req : Request) (w w' : World) (r : Response) :
  let hs := fst <$> pinned cfg (pt_path (rq_parts req)) in
  Layered hs (fun _ q _ => pt_method (rq_parts q) = "OPTIONS") (cors (build_cors cfg)) →
  Layered hs times_out timeout → Passing hs body_limit → Passing hs trace → Passing hs request_id →
  create_app columns cfg routes govern cors body_limit timeout trace request_id req w = (Ok r, w') →
  pt_method (rq_parts req) = "OPTIONS" ∨
  (∃ req1, same_request req req1 ∧
     times_out (body_limit (cors (build_cors cfg) (limited columns cfg routes govern))) req1 w) ∨
  (∃ rejection, govern (rate_limit_key (trust_proxy_headers cfg) (rq_parts req)) w = Some rejection ∧
     rs_status r = rs_status rejection) ∨
  carries (pinned cfg (pt_path (rq_parts req))) r.
Proof.
  intros hs Hcors Htime Hbody Htrace Hid H. unfold create_app in H.
  assert (Houter : Passing hs (fun next => request_id (trace (track_outcomes next)))) by exact _.
  destruct (layered_compose hs _ _ _ timeout _ req w r w' Houter Htime H)
    as [[]|[?|(q1 & r1 & w1 & Hq1 & H1 & Hs1 & Hv1)]]; [by right; left|]. clear H.
  destruct (layered_compose hs _ _ body_limit _ _ q1 w r1 w1 Hbody Hcors H1)
    as [[]|[(q & Hq & Ho)|(q2 & r2 & w2 & Hq2 & H & Hs2 & Hv2)]].
  - left. by rewrite <- Ho, (sq_method _ _ Hq), (sq_method _ _ Hq1).
  - assert (Hq : same_request req q2) by (by etrans). do 2 right. unfold limited in H.
    rewrite (same_request_key _ _ _ Hq) in H. destruct (govern _ w) as [rej|].
    + left. exists rej. injection H as <- <-. by rewrite Hs1.
    + right. apply security_headers_carries in H. rewrite (sq_path _ _ Hq) in H.
      intros n v Hin. assert (n ∈ hs) by (apply list_elem_of_fmap; by exists (n, v)).
      rewrite Hv1, Hv2 by done. by apply H.
Qed.

(** The metrics stay bounded by the routes. However many requests are served, and
    whatever paths they name, each adds at most one sample to the registry, and
    its path label is one of the route templates: no caller mints a new one. *)
Theorem metric_series_bounded {P : Platform} (columns : list string) (cfg : AppConfig)
    (routes : Request -> option (string * (Request -> M Response))) (templates : list string)
    (govern : option N -> World -> option Response) (reqs : list Request) (w : World) :
  (∀ req path h, routes req = Some (path, h) → path ∈ templates) →
  (∀ req path h, routes req = Some (path, h) → ∀ req', unmeasured (h req')) →
  ∃ added, w_metrics (serve_all (limited columns cfg routes govern) reqs w) = added ++ w_metrics w ∧
    length added <= length reqs ∧ Forall (request_sample templates) added.
Proof.
  intros Hr Hh. revert w. induction reqs as [|req reqs IH]; intros w; cbn [serve_all].
  { by exists []. }
  destruct (IH (snd (limited columns cfg routes govern req w))) as (added & Heq & Hlen & Hall).
  destruct (limited_measured columns cfg routes templates Hr Hh govern req w) as [E|(s & E & Hs)]; rewrite E in Heq.
  - exists added. split_and!; [done | cbn; lia | done].
  - exists (added ++ [s]). rewrite Heq, <- app_assoc. split_and!; [done| |].
    + rewrite length_app. cbn. lia.
    + apply Forall_app. by split; [|constructor].
Qed.

Module AppExample.
Definition req (method path : string) : Request := {|
  rq_parts := {| pt_method := method; pt_path := path; pt_query := ""; pt_headers := []; pt_peer := None |};
  rq_body := "" |}.
(** One route, whose handler tries to be framed. *)
Definition routes (r : Request) : option (string * (Request -> M Response)) :=
  if starts_with "/files/" (pt_path (rq_parts r)) then
    Some ("/files/{id}", fun _ => ret {| rs_status := 200; rs_headers := [("x-frame-options", "ALLOWALL")]; rs_body := "x" |}%Z)
  else None.
Definition govern (_ : option N) (_ : World) : option Response := None.

(** Layers that do what those of [tower_http] do. *)
Definition Service : Type := Request -> M Response.
Definition through (next : Service) : Service := next.
Definition cors (c : CorsLayer) (next : Service) : Service := fun q =>
  if pt_method (rq_parts q) =s "OPTIONS" then
    ret {| rs_status := 200; rs_headers := [("access-control-allow-methods", join "," (allow_methods c))]; rs_body := "" |}%Z
  else
    let! r := next q in
    ret (set_headers (header_append "vary" "origin" (rs_headers r)) r).
Definition timeout (next : Service) : Service := fun q w =>
  let '(o, w') := next q w in
  if (w_now w + seconds 30 <? w_now w')%Z then (Ok {| rs_status := 408; rs_headers := []; rs_body := "" |}%Z, w')
  else (o, w').
Definition too_slow (next : Service) (q : Request) (w : World) : Prop :=
  (w_now w + seconds 30 < w_now (snd (next q w)))%Z.
Definition request_id (next : Service) : Service := fun q =>
  let p := rq_parts q in
  let! r := next {| rq_body := rq_body q;
    rq_parts := {| pt_method := pt_method p; pt_path := pt_path p; pt_query := pt_query p; pt_peer := pt_peer p;
                   pt_headers := header_insert "x-request-id" "r-1" (pt_headers p) |} |} in
  ret (set_headers (header_insert "x-request-id" "r-1" (rs_headers r)) r).

Definition app : Service :=
  @create_app toy migration_columns Example.cfg routes govern cors through timeout through request_id.
(** Without the layers. *)
Definition bare : Service :=
  @create_app toy migration_columns Example.cfg routes govern (fun _ => through) through through through through.
Definition hs : list string := fst <$> pinned Example.cfg "/files/7".

Lemma not_pinned n : n ∈ hs → n = "vary" ∨ n = "x-request-id" → False.
Proof.
  assert (Hv : ¬ ("vary" ∈ hs)) by (apply (bool_decide_unpack _); vm_compute; exact I).
  assert (Hi : ¬ ("x-request-id" ∈ hs)) by (apply (bool_decide_unpack _); vm_compute; exact I).
  intros Hn [-> | ->]; contradiction.
Qed.

Lemma cors_layered : Layered hs (fun _ q _ => pt_method (rq_parts q) = "OPTIONS") (cors (build_cors Example.cfg)).
Proof.
  intros next q w r w' H. unfold cors in H. destruct (String.eqb_spec (pt_method (rq_parts q)) "OPTIONS"); [by left | right].
  ok_step H. injection H as <- <-. exists q, a, w0. do 3 (split; [done|]). intros m Hn. cbn [rs_headers set_headers].
  unfold values, header_append. rewrite List.filter_app. cbn [List.filter fst].
  replace ("vary" =s m) with false; [by rewrite app_nil_r|]. symmetry. apply String.eqb_neq. intros <-.
  eapply not_pinned; eauto.
Qed.

Lemma timeout_layered : Layered hs too_slow timeout.
Proof.
  intros next q w r w' H. unfold timeout in H. destruct (next q w) as [o w1] eqn:E.
  destruct (Z.ltb_spec (w_now w + seconds 30) (w_now w1)); [left; unfold too_slow; by rewrite E | right].
  injection H as -> ->. by exists q, r, w'.
Qed.

Lemma through_passing : Passing hs through.
Proof. intros next q w r w' H. right. by exists q, r, w'. Qed.

Lemma request_id_passing : Passing hs request_id.
Proof.
  intros next q w r w' H. right. unfold request_id in H. ok_step H. injection H as <- <-.
  eexists _, a, w0. split; [|split; [exact Hs|]]; [split; cbn; try done; intros n Hn; by apply header_get_insert_ne|].
  split; [done|]. intros n Hn. apply values_insert_ne. intros ->. eapply not_pinned; eauto.
Qed.
End AppExample.

Lemma app_hardened_witness :
  match fst (AppExample.app (AppExample.req "GET" "/files/7") Example.w) with
  | Ok r => values "x-frame-options" (rs_headers r) = ["DENY"]
  | _ => False
  end.
Proof.
  assert (Hok : is_ok (fst (AppExample.app (AppExample.req "GET" "/files/7") Example.w)) = true) by (vm_compute; reflexivity).
  destruct (AppExample.app _ _) as [[r|e|] w'] eqn:E; [|discriminate Hok..]. cbn [fst].
  destruct (@app_hardened toy migration_columns Example.cfg AppExample.routes AppExample.govern
    AppExample.cors AppExample.through AppExample.timeout AppExample.through AppExample.request_id
    AppExample.too_slow (AppExample.req "GET" "/files/7") Example.w w' r) as [H | [(q & Hq & H) | [(rj & H & _) | H]]].
  - exact AppExample.cors_layered.
  - exact AppExample.timeout_layered.
  - exact AppExample.through_passing.
  - exact AppExample.through_passing.
  - exact AppExample.request_id_passing.
  - exact E.
  - discriminate H.
  - exfalso. revert H. unfold AppExample.too_slow, AppExample.through, AppExample.cors, limited, AppExample.govern,
      hardened, guarded, security_headers, idempotency_guard, router, AppExample.routes, bind.
    rewrite (sq_method _ _ Hq), (sq_path _ _ Hq). vm_compute. discriminate.
  - discriminate H.
  - apply H. right. left.
Defined.

(** A preflight is answered outside the stack, and carries none of them. *)
Example preflight_bare :
  match fst (AppExample.app (AppExample.req "OPTIONS" "/files/7") Example.w) with
  | Ok r => rs_status r = 200%Z ∧ values "x-frame-options" (rs_headers r) = []
  | _ => False
  end.
Proof. vm_compute. by split. Qed.

Lemma metric_series_bounded_witness :
  ∃ added, w_metrics (serve_all (@limited toy migration_columns Example.cfg AppExample.routes AppExample.govern)
      [AppExample.req "GET" "/files/1"; AppExample.req "GET" "/files/2"; AppExample.req "GET" "/x"] Example.w)
    = added ++ w_metrics Example.w ∧ length added <= 3 ∧ Forall (request_sample ["/files/{id}"]) added.
Proof.
  apply (@metric_series_bounded toy migration_columns Example.cfg AppExample.routes ["/files/{id}"] AppExample.govern).
  - intros q path h. unfold AppExample.routes. destruct (starts_with _ _); [|discriminate].
    intros H. injection H as <- _. left.
  - intros q path h. unfold AppExample.routes. destruct (starts_with _ _); [|discriminate].
    intros H. injection H as _ <-. intros q' w. reflexivity.
Defined.

(** The outermost counter labels by the method as it came, and HTTP lets a client
    invent methods: every new one is a new series. *)
Lemma rejected_series_unbounded (ms : list string) (w : World) :
  Forall (λ m, is_mutating m = false) ms →
  ∀ m, m ∈ ms →
  {| sm_name := "http_rejected_total"; sm_labels := [("method", m); ("status", "404")] |}
    ∈ w_metrics (serve_all AppExample.bare ((λ m, AppExample.req m "/nowhere") <$> ms) w).
Proof.
  assert (Hstep : ∀ m w, is_mutating m = false →
    w_metrics (snd (AppExample.bare (AppExample.req m "/nowhere") w)) =
    {| sm_name := "http_rejected_total"; sm_labels := [("method", m); ("status", "404")] |} :: w_metrics w).
  { intros m w0 Hm. unfold AppExample.bare, create_app, AppExample.through, track_outcomes, bind, limited,
      AppExample.govern, hardened, security_headers, guarded, idempotency_guard. cbn [AppExample.req rq_parts pt_method].
    rewrite Hm. done. }
  assert (Hmono : ∀ ms w s, Forall (λ m, is_mutating m = false) ms → s ∈ w_metrics w →
    s ∈ w_metrics (serve_all AppExample.bare ((λ m, AppExample.req m "/nowhere") <$> ms) w)).
  { clear ms w. induction ms as [|m ms IH]; intros w s Hf Hs; [done|]. apply Forall_cons in Hf as [Hm Hf].
    cbn [fmap list_fmap serve_all]. apply IH; [done|]. rewrite Hstep by done. by right. }
  revert w. induction ms as [|m' ms IH]; intros w Hf m; [by intros ?%elem_of_nil|].
  apply Forall_cons in Hf as [Hm Hf]. cbn [fmap list_fmap serve_all]. intros [->|Hin]%elem_of_cons; [|by apply IH].
  apply Hmono; [done|]. rewrite Hstep by done. left.
Qed.
