(* ===== verification/Config.v ===== *)
(** * Configuration ([config/mod.rs])

    Reading the configuration out of the environment, with every default and
    refusal, and the [Debug] rendering that is allowed to reach a log. The
    environment is a function from variable names to their Unicode values. *)
From S2P Require Import Prelude RustStr Models Errors Platform Crypto World MailService.

Abbreviation Env := (string -> option string) (only parsing).

(** ** The result monad of the loader: [Result<T, String>] *)

Definition rbind {A B} (m : outcome A string) (k : A -> outcome B string) : outcome B string :=
  match m with Ok a => k a | Err e => Err e | Panic => Panic end.
Declare Scope r_scope.
Delimit Scope r_scope with R.
#[global] Open Scope r_scope.
Notation "'let?' x := m 'in' k" := (rbind m (fun x => k))
  (at level 10, x binder, m at level 100, k at level 200,
   format "'[v' 'let?'  x  :=  m  'in' '/' k ']'") : r_scope.
Definition refuse_if (b : bool) (msg : string) : outcome unit string := if b then Err msg else Ok tt.

(** ** Reading one variable *)

(** The [Display] of the standard library's parse errors. *)
Fixpoint digits_error (overflow : string) (lo hi : Z) (neg : bool) (s : string) (acc : Z) : string :=
  match s with
  | EmptyString => overflow
  | String a s' =>
      match digit_val a with
      | None => "invalid digit found in string"
      | Some d =>
          let acc' := (if neg then acc * 10 - d else acc * 10 + d)%Z in
          if ((acc' <? lo) || (hi <? acc'))%Z%bool then overflow
          else digits_error overflow lo hi neg s' acc'
      end
  end.
Definition int_error (lo hi : Z) (s : string) : string :=
  match s with
  | EmptyString => "cannot parse integer from empty string"
  | String a EmptyString =>
      if ((byte_val a =? 43) || (byte_val a =? 45))%Z%bool then "invalid digit found in string"
      else digits_error "number too large to fit in target type" lo hi false s 0
  | String a s' =>
      if (byte_val a =? 43)%Z then digits_error "number too large to fit in target type" lo hi false s' 0
      else if ((byte_val a =? 45) && (lo <? 0))%Z%bool then
        digits_error "number too small to fit in target type" lo hi true s' 0
      else digits_error "number too large to fit in target type" lo hi false s 0
  end.

(** The [FromStr] instances the loader uses. *)
Definition parse_to (A : Type) : Type := string -> A + string.
Definition from_str_uint (w : Z) : parse_to Z := fun s =>
  match parse_uint w s with Some z => inl z | None => inr (int_error 0 (2 ^ w - 1) s) end.
Definition from_str_int (w : Z) : parse_to Z := fun s =>
  match parse_int w s with
  | Some z => inl z
  | None => inr (int_error (- 2 ^ (w - 1)) (2 ^ (w - 1) - 1) s)
  end.
Definition from_str_bool : parse_to bool := fun s =>
  match parse_bool s with
  | Some b => inl b
  | None => inr "provided string was not `true` or `false`"
  end.

Section Load.
Context {P : Platform} (env : Env).

Definition opt_string (key : string) : option string :=
  match env key with
  | Some v => if trim v =s "" then None else Some (trim v)
  | None => None
  end.
Definition require (key : string) : outcome string string :=
  match opt_string key with
  | Some v => Ok v
  | None => Err (key +:+ " environment variable is strictly required")
  end.
Definition parse_env {A} (from_str : parse_to A) (key : string) (default : A) : outcome A string :=
  match opt_string key with
  | Some raw => match from_str raw with
                | inl a => Ok a
                | inr e => Err ("Invalid " +:+ key +:+ ": " +:+ e)
                end
  | None => Ok default
  end.

Definition oauth_provider (prefix : string) : outcome (option OAuthProviderConfig) string :=
  match opt_string (prefix +:+ "_CLIENT_ID"), opt_string (prefix +:+ "_CLIENT_SECRET"),
        opt_string (prefix +:+ "_REDIRECT_URL") with
  | Some id, Some secret, Some redirect =>
      Ok (Some {| oc_client_id := id; oc_client_secret := MkSecret secret; oc_redirect_url := redirect |})
  | None, None, None => Ok None
  | _, _, _ =>
      Err (prefix +:+ " OAuth is partially configured: set " +:+ prefix +:+ "_CLIENT_ID, " +:+ prefix
           +:+ "_CLIENT_SECRET and " +:+ prefix +:+ "_REDIRECT_URL together, or none of them")
  end.

(** ** The sections of [load_from_env] *)

Definition load_environment : outcome Environment string :=
  let v := to_ascii_lowercase (trim (unwrap_or "development" (env "APP_ENV"))) in
  if ((v =s "production") || (v =s "prod"))%bool then Ok Production
  else if ((v =s "development") || (v =s "dev") || (v =s "test") || (v =s ""))%bool then Ok Development
  else Err ("Invalid APP_ENV '" +:+ v +:+ "' (expected development|production)").

Definition load_argon2 : outcome Argon2Params string :=
  let? memory := parse_env (from_str_uint 32) "ARGON2_MEMORY_KIB" 19456%Z in
  let? iters := parse_env (from_str_uint 32) "ARGON2_ITERATIONS" 2%Z in
  let? par := parse_env (from_str_uint 32) "ARGON2_PARALLELISM" 1%Z in
  let? _ := refuse_if ((memory <? 19456) || (iters <? 2))%Z%bool
    "Argon2 parameters are below the OWASP minimum (19456 KiB, 2 iterations)" in
  Ok {| memory_kib := memory; iterations := iters; parallelism := par |}.

Definition load_encryption_key (is_prod : bool) (jwt_secret : string) : outcome string string :=
  match opt_string "ENCRYPTION_KEY" with
  | Some raw => match parse_encryption_key raw with inl k => Ok k | inr e => Err e end
  | None =>
      if is_prod then
        Err "ENCRYPTION_KEY is required in production. Generate one with: openssl rand -base64 32"
      else Ok (derive_key_from_secret jwt_secret "encryption-at-rest")
  end.

(** [raw.split(',').map(...).filter(...).collect()] *)
Definition comma_list (f : string -> string) (keep : string -> bool) (raw : string) : list string :=
  List.filter keep (List.map f (split (ascii_of_nat 44) raw)).

Definition load_cors (is_prod : bool) : outcome (list string) string :=
  let origins := match opt_string "CORS_ALLOWED_ORIGINS" with
                 | Some raw => comma_list trim (fun s => negb (s =s "") && negb (s =s "*"))%bool raw
                 | None => []
                 end in
  let? _ := refuse_if (is_prod && match origins with [] => true | _ => false end)%bool
    "CORS_ALLOWED_ORIGINS must list explicit origins in production (a wildcard policy is refused)" in
  Ok origins.

Definition load_metrics_token (is_prod : bool) : outcome (option Secret) string :=
  match opt_string "METRICS_TOKEN" with
  | Some token => Ok (Some (MkSecret token))
  | None => if is_prod then Err "METRICS_TOKEN is required in production to protect /metrics"
            else Ok None
  end.

Definition load_smtp (is_prod : bool) : outcome (option SmtpConfig) string :=
  match opt_string "SMTP_HOST" with
  | Some host =>
      let? use_tls := parse_env from_str_bool "SMTP_TLS" is_prod in
      let username := opt_string "SMTP_USERNAME" in
      let password := MkSecret <$> opt_string "SMTP_PASSWORD" in
      let? _ := refuse_if (is_prod && negb use_tls)%bool "SMTP_TLS cannot be disabled in production" in
      let? _ := refuse_if (negb (Bool.eqb (is_some username) (is_some password)))
                  "SMTP_USERNAME and SMTP_PASSWORD must be set together" in
      let? port := parse_env (from_str_uint 16) "SMTP_PORT" (if use_tls then 587 else 1025)%Z in
      Ok (Some {| smtp_host := host; smtp_port := port;
                  smtp_from := unwrap_or "noreply@localhost.local" (opt_string "SMTP_FROM");
                  smtp_username := username; smtp_password := password; smtp_use_tls := use_tls |})
  | None =>
      if is_prod then
        Err "SMTP_HOST is required in production; without it account recovery mail is silently dropped"
      else Ok None
  end.

Definition load_storage_backend : outcome StorageBackendKind string :=
  let v := to_ascii_lowercase (trim (unwrap_or "local" (opt_string "STORAGE_BACKEND"))) in
  if v =s "local" then Ok Local
  else if v =s "s3" then Ok S3
  else Err ("Invalid STORAGE_BACKEND '" +:+ v +:+ "' (expected local|s3)").

Definition load_s3 (b : StorageBackendKind) : outcome (option S3Config) string :=
  match b with
  | S3 =>
      let? bucket := require "AWS_BUCKET" in
      let? access_key_id := require "AWS_ACCESS_KEY_ID" in
      let? secret_access_key := require "AWS_SECRET_ACCESS_KEY" in
      let? region := match or_else (opt_string "AWS_REGION") (opt_string "AWS_DEFAULT_REGION") with
                     | Some r => Ok r
                     | None => Err "AWS_REGION is required when STORAGE_BACKEND=s3"
                     end in
      let? path_style := parse_env from_str_bool "AWS_USE_PATH_STYLE_ENDPOINT" true in
      Ok (Some {| s3_bucket := bucket; s3_region := region; s3_endpoint := opt_string "AWS_ENDPOINT";
                  s3_access_key_id := access_key_id; s3_secret_access_key := MkSecret secret_access_key;
                  s3_force_path_style := path_style;
                  s3_prefix := unwrap_or "" (opt_string "AWS_KEY_PREFIX") |})
  | Local => Ok None
  end.

Definition default_upload_mime : list string :=
  ["image/jpeg"; "image/png"; "image/gif"; "image/webp"; "application/pdf"; "text/plain";
   "application/json"].
Definition load_upload_mime : list string :=
  match opt_string "ALLOWED_UPLOAD_MIME" with
  | Some raw => comma_list (fun s => to_ascii_lowercase (trim s)) (fun s => negb (s =s "")) raw
  | None => default_upload_mime
  end.

Definition load_oidc : option OidcProviderConfig :=
  (fun url => {| oidc_jwks_url := url; oidc_expected_issuer := opt_string "OIDC_ISSUER";
                 oidc_expected_audience := opt_string "OIDC_AUDIENCE" |})
    <$> opt_string "OIDC_JWKS_URL".

Definition load_from_env : outcome AppConfig string :=
  let? environment := load_environment in
  let is_prod := is_production environment in
  let server_host := unwrap_or "127.0.0.1" (opt_string "SERVER_HOST") in
  let? server_port := parse_env (from_str_uint 16) "SERVER_PORT" 3000%Z in
  let public_base_url := unwrap_or ("http://" +:+ server_host +:+ ":" +:+ show_Z server_port)
                           (opt_string "PUBLIC_BASE_URL") in
  let? database_url := require "DATABASE_URL" in
  let? database_max_connections := parse_env (from_str_uint 32) "DATABASE_MAX_CONNECTIONS" 20%Z in
  let? jwt_secret := require "JWT_SECRET" in
  let? _ := refuse_if (str_len jwt_secret <? 32)%Z "JWT_SECRET must be at least 32 characters long" in
  let? access_token_ttl_minutes := parse_env (from_str_int 64) "ACCESS_TOKEN_TTL_MINUTES" 15%Z in
  let? _ := refuse_if (access_token_ttl_minutes <=? 0)%Z "ACCESS_TOKEN_TTL_MINUTES must be positive" in
  let? refresh_token_ttl_days := parse_env (from_str_int 64) "REFRESH_TOKEN_TTL_DAYS" 30%Z in
  let? argon2 := load_argon2 in
  let? encryption_key := load_encryption_key is_prod jwt_secret in
  let url_signing_key := derive_key_from_secret jwt_secret "url-signing" in
  let? rate_limit_per_second := parse_env (from_str_uint 64) "RATE_LIMIT_PER_SECOND" 20%Z in
  let? rate_limit_burst_size := parse_env (from_str_uint 32) "RATE_LIMIT_BURST_SIZE" 40%Z in
  let? auth_rate_limit_per_second := parse_env (from_str_uint 64) "AUTH_RATE_LIMIT_PER_SECOND" 1%Z in
  let? auth_rate_limit_burst_size := parse_env (from_str_uint 32) "AUTH_RATE_LIMIT_BURST_SIZE" 10%Z in
  let? _ := refuse_if ((rate_limit_burst_size =? 0) || (auth_rate_limit_burst_size =? 0))%Z%bool
    "Rate limit burst sizes must be greater than zero" in
  let? trust_proxy_headers := parse_env from_str_bool "TRUST_PROXY_HEADERS" false in
  let? cors_allowed_origins := load_cors is_prod in
  let? metrics_token := load_metrics_token is_prod in
  let? smtp := load_smtp is_prod in
  let? storage_backend := load_storage_backend in
  let? s3 := load_s3 storage_backend in
  let? google := oauth_provider "GOOGLE" in
  let? github := oauth_provider "GITHUB" in
  let? email_verify_ttl_hours := parse_env (from_str_int 64) "EMAIL_VERIFY_TTL_HOURS" 24%Z in
  let? password_reset_ttl_minutes := parse_env (from_str_int 64) "PASSWORD_RESET_TTL_MINUTES" 30%Z in
  let? lockout_threshold := parse_env (from_str_int 32) "LOCKOUT_THRESHOLD" 10%Z in
  let? lockout_minutes := parse_env (from_str_int 64) "LOCKOUT_MINUTES" 15%Z in
  let? idempotency_ttl_seconds := parse_env (from_str_int 64) "IDEMPOTENCY_TTL_SECONDS" 86400%Z in
  let? request_timeout_seconds := parse_env (from_str_uint 64) "REQUEST_TIMEOUT_SECONDS" 30%Z in
  let? body_limit_bytes := parse_env (from_str_uint 64) "BODY_LIMIT_BYTES" (10 * 1024 * 1024)%Z in
  let? max_upload_bytes := parse_env (from_str_uint 64) "MAX_UPLOAD_BYTES" (10 * 1024 * 1024)%Z in
  let? signed_url_ttl_seconds := parse_env (from_str_int 64) "SIGNED_URL_TTL_SECONDS" 900%Z in
  Ok {| environment := environment; server_host := server_host; server_port := server_port;
        public_base_url := public_base_url; database_url := MkSecret database_url;
        database_max_connections := database_max_connections; jwt_secret := MkSecret jwt_secret;
        access_token_ttl_minutes := access_token_ttl_minutes;
        refresh_token_ttl_days := refresh_token_ttl_days; argon2 := argon2;
        encryption_key := encryption_key; url_signing_key := url_signing_key;
        email_verify_ttl_hours := email_verify_ttl_hours;
        password_reset_ttl_minutes := password_reset_ttl_minutes;
        lockout_threshold := lockout_threshold; lockout_minutes := lockout_minutes;
        rate_limit_per_second := rate_limit_per_second;
        rate_limit_burst_size := rate_limit_burst_size;
        auth_rate_limit_per_second := auth_rate_limit_per_second;
        auth_rate_limit_burst_size := auth_rate_limit_burst_size;
        trust_proxy_headers := trust_proxy_headers; cors_allowed_origins := cors_allowed_origins;
        metrics_token := metrics_token; idempotency_ttl_seconds := idempotency_ttl_seconds;
        request_timeout_seconds := request_timeout_seconds; body_limit_bytes := body_limit_bytes;
        storage_backend := storage_backend; s3 := s3;
        upload_dir := unwrap_or "uploads" (opt_string "UPLOAD_DIR");
        max_upload_bytes := max_upload_bytes; allowed_upload_mime := load_upload_mime;
        signed_url_ttl_seconds := signed_url_ttl_seconds; smtp := smtp; google := google;
        github := github; oidc := load_oidc |}.
End Load.

(** [AppConfig::for_testing] *)
Definition for_testing {P : Platform} (database_url : string) : AppConfig :=
  let jwt_secret := "test-jwt-secret-key-that-is-at-least-32-chars-long" in
  {| environment := Development; server_host := "127.0.0.1"; server_port := 3000;
     public_base_url := "http://127.0.0.1:3000"; database_url := MkSecret database_url;
     database_max_connections := 5;
     encryption_key := derive_key_from_secret jwt_secret "encryption-at-rest";
     url_signing_key := derive_key_from_secret jwt_secret "url-signing";
     jwt_secret := MkSecret jwt_secret; access_token_ttl_minutes := 15; refresh_token_ttl_days := 30;
     argon2 := {| memory_kib := 19456; iterations := 2; parallelism := 1 |};
     email_verify_ttl_hours := 24; password_reset_ttl_minutes := 30; lockout_threshold := 10;
     lockout_minutes := 15; rate_limit_per_second := 1000; rate_limit_burst_size := 5000;
     auth_rate_limit_per_second := 1000; auth_rate_limit_burst_size := 5000;
     trust_proxy_headers := false; cors_allowed_origins := []; metrics_token := None;
     idempotency_ttl_seconds := 86400; request_timeout_seconds := 30;
     body_limit_bytes := 10 * 1024 * 1024; storage_backend := Local; s3 := None;
     upload_dir := "target/test_uploads"; max_upload_bytes := 10 * 1024 * 1024;
     allowed_upload_mime := default_upload_mime; signed_url_ttl_seconds := 900; smtp := None;
     google := None; github := None; oidc := None |}%Z.

(** ** What a log line shows

    The fields the [Debug] implementations hand to the formatter. *)
Inductive Dbg :=
| DStr (s : string)
| DNum (z : Z)
| DBool (b : bool)
| DText (s : string)
| DNone
| DSome (d : Dbg)
| DList (l : list string)
| DStruct (name : string) (fields : list (string * Dbg)).
Definition dbg_opt {A} (f : A -> Dbg) (o : option A) : Dbg :=
  match o with Some a => DSome (f a) | None => DNone end.
Definition Secret_dbg (s : Secret) : Dbg := DText (Secret_debug s).

Definition S3Config_debug (c : S3Config) : Dbg := DStruct "S3Config"
  [("bucket", DStr (s3_bucket c)); ("region", DStr (s3_region c));
   ("endpoint", dbg_opt DStr (s3_endpoint c)); ("access_key_id", DText "<redacted>");
   ("secret_access_key", Secret_dbg (s3_secret_access_key c));
   ("force_path_style", DBool (s3_force_path_style c)); ("prefix", DStr (s3_prefix c))].
Definition SmtpConfig_debug (c : SmtpConfig) : Dbg := DStruct "SmtpConfig"
  [("host", DStr (smtp_host c)); ("port", DNum (smtp_port c)); ("from", DStr (smtp_from c));
   ("username", dbg_opt DStr (smtp_username c)); ("password", dbg_opt Secret_dbg (smtp_password c));
   ("use_tls", DBool (smtp_use_tls c))].
Definition Argon2Params_debug (a : Argon2Params) : Dbg := DStruct "Argon2Params"
  [("memory_kib", DNum (memory_kib a)); ("iterations", DNum (iterations a));
   ("parallelism", DNum (parallelism a))].
Definition AppConfig_debug (c : AppConfig) : Dbg := DStruct "AppConfig"
  [("environment", DText (match environment c with Development => "Development" | Production => "Production" end));
   ("server_host", DStr (server_host c)); ("server_port", DNum (server_port c));
   ("public_base_url", DStr (public_base_url c)); ("database_url", DText "Secret(<redacted>)");
   ("database_max_connections", DNum (database_max_connections c));
   ("jwt_secret", Secret_dbg (jwt_secret c));
   ("access_token_ttl_minutes", DNum (access_token_ttl_minutes c));
   ("refresh_token_ttl_days", DNum (refresh_token_ttl_days c)); ("argon2", Argon2Params_debug (argon2 c));
   ("encryption_key", DText "[redacted; 32 bytes]"); ("url_signing_key", DText "[redacted; 32 bytes]");
   ("rate_limit_per_second", DNum (rate_limit_per_second c));
   ("rate_limit_burst_size", DNum (rate_limit_burst_size c));
   ("trust_proxy_headers", DBool (trust_proxy_headers c));
   ("cors_allowed_origins", DList (cors_allowed_origins c));
   ("metrics_token", dbg_opt Secret_dbg (metrics_token c));
   ("storage_backend", DText (match storage_backend c with Local => "Local" | S3 => "S3" end));
   ("s3", dbg_opt S3Config_debug (s3 c)); ("upload_dir", DStr (upload_dir c));
   ("max_upload_bytes", DNum (max_upload_bytes c)); ("smtp", dbg_opt SmtpConfig_debug (smtp c));
   ("google_configured", DBool (is_some (google c))); ("github_configured", DBool (is_some (github c)))].

(** [log_summary]: the fields of the startup line. *)
Definition log_summary (c : AppConfig) : list (string * Dbg) :=
  [("environment", DText (match environment c with Development => "Development" | Production => "Production" end));
   ("cors", DStr (match cors_allowed_origins c with [] => "any (development)" | _ => "allowlist" end));
   ("metrics_protected", DBool (is_some (metrics_token c)));
   ("proxy_headers_trusted", DBool (trust_proxy_headers c));
   ("mailer", DStr (if is_some (smtp c) then "smtp" else "log-only (development)"));
   ("storage", DText (match storage_backend c with Local => "Local" | S3 => "S3" end));
   ("google_oauth", DBool (is_some (google c))); ("github_oauth", DBool (is_some (github c)));
   ("access_token_ttl_minutes", DNum (access_token_ttl_minutes c))].

(** ** Lemmas *)

Lemma rbind_Ok_inv {A B} (m : outcome A string) (k : A -> outcome B string) b :
  rbind m k = Ok b → ∃ a, m = Ok a ∧ k a = Ok b.
Proof. destruct m; try done. by eauto. Qed.

Lemma refuse_if_Ok b msg u : refuse_if b msg = Ok u → b = false.
Proof. by destruct b. Qed.

(** Walk backwards through a load that succeeded. *)
Ltac load_step H :=
  let a := fresh "a" in let H1 := fresh "Hl" in
  apply rbind_Ok_inv in H as (a & H1 & H);
  lazymatch type of H1 with
  | refuse_if _ _ = _ => apply refuse_if_Ok in H1
  | _ => idtac
  end.

Section Ranges.
Context {P : Platform} (env : string -> option string).

Lemma opt_string_nonempty key v : opt_string env key = Some v → v ≠ "" ∧ trim v = v.
Proof.
  unfold opt_string. destruct (env key) as [x|]; [|done]. destruct (trim x =s "") eqn:E; [done|].
  intros [= <-]. apply String.eqb_neq in E. split; [done | apply trim_idemp].
Qed.

Lemma in_range_Some lo hi o z : in_range lo hi o = Some z → (lo <= z <= hi)%Z.
Proof. destruct o as [x|]; simpl; [|done]. destruct (_ && _)%bool eqn:E; [|done]. intros [= <-]. lia. Qed.

Lemma uint_range w key d z :
  parse_env env (from_str_uint w) key d = Ok z → (0 <= d <= 2 ^ w - 1)%Z → (0 <= z <= 2 ^ w - 1)%Z.
Proof.
  unfold parse_env, from_str_uint. destruct (opt_string _ _) as [s|]; [|by intros [= <-]].
  destruct (parse_uint w s) as [x|] eqn:E; [|done]. intros [= <-] _. by apply in_range_Some in E.
Qed.

Lemma int_range w key d z :
  parse_env env (from_str_int w) key d = Ok z → (- 2 ^ (w - 1) <= d <= 2 ^ (w - 1) - 1)%Z →
  (- 2 ^ (w - 1) <= z <= 2 ^ (w - 1) - 1)%Z.
Proof.
  unfold parse_env, from_str_int. destruct (opt_string _ _) as [s|]; [|by intros [= <-]].
  destruct (parse_int w s) as [x|] eqn:E; [|done]. intros [= <-] _. by apply in_range_Some in E.
Qed.
End Ranges.

(** ** What a loaded configuration satisfies *)

Definition i64 (z : Z) : Prop := (- 2 ^ 63 <= z <= 2 ^ 63 - 1)%Z.
Definition u64 (z : Z) : Prop := (0 <= z <= 2 ^ 64 - 1)%Z.
Definition u32 (z : Z) : Prop := (0 <= z <= 2 ^ 32 - 1)%Z.
Definition both_or_neither {A B} (a : option A) (b : option B) : Prop := is_some a = is_some b.

(** Every field at its width, and the checks of the loader. *)
Record config_ok (c : AppConfig) : Prop := {
  ok_port : (0 <= server_port c <= 2 ^ 16 - 1)%Z;
  ok_jwt : (32 <= str_len (expose (jwt_secret c)))%Z;
  ok_access : (0 < access_token_ttl_minutes c)%Z ∧ i64 (access_token_ttl_minutes c);
  ok_refresh : i64 (refresh_token_ttl_days c);
  ok_argon2 : (19456 <= memory_kib (argon2 c))%Z ∧ (2 <= iterations (argon2 c))%Z ∧
    u32 (memory_kib (argon2 c)) ∧ u32 (iterations (argon2 c)) ∧ u32 (parallelism (argon2 c));
  ok_bursts : (0 < rate_limit_burst_size c)%Z ∧ (0 < auth_rate_limit_burst_size c)%Z ∧
    u32 (rate_limit_burst_size c) ∧ u32 (auth_rate_limit_burst_size c);
  ok_rates : u64 (rate_limit_per_second c) ∧ u64 (auth_rate_limit_per_second c);
  ok_ttls : i64 (email_verify_ttl_hours c) ∧ i64 (password_reset_ttl_minutes c) ∧
    i64 (lockout_minutes c) ∧ i64 (idempotency_ttl_seconds c) ∧ i64 (signed_url_ttl_seconds c);
  ok_threshold : (- 2 ^ 31 <= lockout_threshold c <= 2 ^ 31 - 1)%Z;
  ok_limits : u64 (request_timeout_seconds c) ∧ u64 (body_limit_bytes c) ∧ u64 (max_upload_bytes c);
  ok_cors : ∀ o, o ∈ cors_allowed_origins c → o ≠ "" ∧ o ≠ "*";
  ok_metrics : ∀ t, metrics_token c = Some t → expose t ≠ "";
  ok_s3 : is_some (s3 c) = match storage_backend c with S3 => true | Local => false end;
  ok_smtp : ∀ s, smtp c = Some s → both_or_neither (smtp_username s) (smtp_password s) }.

Section Sections.
Context {P : Platform} (env : string -> option string).

Lemma load_argon2_Ok a : load_argon2 env = Ok a →
  (19456 <= memory_kib a)%Z ∧ (2 <= iterations a)%Z ∧ u32 (memory_kib a) ∧ u32 (iterations a) ∧
  u32 (parallelism a).
Proof.
  intros H. unfold load_argon2 in H. do 4 load_step H. injection H as <-.
  apply uint_range in Hl, Hl0, Hl1; [|done..]. unfold u32. cbn [memory_kib iterations parallelism].
  apply orb_false_iff in Hl2 as [? ?]. split_and!; lia.
Qed.

Lemma comma_list_keep f keep raw x : x ∈ comma_list f keep raw → keep x = true.
Proof. unfold comma_list. rewrite list_elem_of_In, filter_In. tauto. Qed.

Lemma load_cors_Ok is_prod l : load_cors env is_prod = Ok l →
  (is_prod = true → l ≠ []) ∧ ∀ o, o ∈ l → o ≠ "" ∧ o ≠ "*".
Proof.
  intros H. unfold load_cors in H. load_step H. injection H as <-. split.
  - intros ->. intros E. by rewrite E in Hl.
  - intros o Ho. destruct (opt_string env "CORS_ALLOWED_ORIGINS") as [raw|]; [|by apply not_elem_of_nil in Ho].
    apply comma_list_keep in Ho. apply andb_true_iff in Ho as [H1 H2].
    apply negb_true_iff, String.eqb_neq in H1. by apply negb_true_iff, String.eqb_neq in H2.
Qed.

Lemma load_metrics_token_Ok is_prod t : load_metrics_token env is_prod = Ok t →
  (is_prod = true → is_some t = true) ∧ ∀ s, t = Some s → expose s ≠ "".
Proof.
  unfold load_metrics_token. destruct (opt_string _ _) as [v|] eqn:E.
  - intros [= <-]. split; [done|]. intros s [= <-]. by apply opt_string_nonempty in E as [? _].
  - by destruct is_prod; intros [= <-].
Qed.

Lemma load_smtp_Ok is_prod s : load_smtp env is_prod = Ok s →
  (is_prod = true → ∃ c, s = Some c ∧ smtp_use_tls c = true) ∧
  ∀ c, s = Some c → both_or_neither (smtp_username c) (smtp_password c).
Proof.
  unfold load_smtp. destruct (opt_string _ "SMTP_HOST") as [h|]; [|by destruct is_prod; intros [= <-]].
  intros H. do 4 load_step H. injection H as <-. apply negb_false_iff, eqb_prop in Hl1. split.
  - intros ->. eexists. split; [done|]. by destruct a.
  - intros c [= <-]. unfold both_or_neither. cbn [smtp_username smtp_password]. done.
Qed.

Lemma load_s3_Ok b s : load_s3 env b = Ok s → is_some s = match b with S3 => true | Local => false end.
Proof.
  destruct b; cbn [load_s3]; [by intros [= <-]|]. intros H. do 5 load_step H. by injection H as <-.
Qed.

Lemma load_encryption_key_Ok secret k : load_encryption_key env true secret = Ok k →
  ∃ raw, opt_string env "ENCRYPTION_KEY" = Some raw ∧ parse_encryption_key raw = inl k.
Proof.
  unfold load_encryption_key. destruct (opt_string _ _) as [raw|]; [|done].
  destruct (parse_encryption_key raw) as [k'|e] eqn:E; [|done]. intros [= <-]. by exists raw.
Qed.
End Sections.

(** C25: what starts is configured. Whatever the environment holds, a configuration
    that loads has every number within its type, a signing secret of at least 32
    bytes, password hashing at or above the floor, limiters that let something
    through, no wildcard among its origins, object-storage credentials exactly
    when object storage is selected, and mail credentials complete or absent. *)
Theorem load_well_formed {P : Platform} (env : string -> option string) (c : AppConfig) :
  load_from_env env = Ok c → config_ok c.
Proof.
  intros H. unfold load_from_env in H. do 33 load_step H. injection H as <-.
  apply uint_range in Hl0, Hl10, Hl11, Hl12, Hl13, Hl28, Hl29, Hl30; [|lia..].
  apply int_range in Hl5, Hl7, Hl23, Hl24, Hl25, Hl26, Hl27, Hl31; [|lia..].
  apply orb_false_iff in Hl14 as [Hb1 Hb2].
  split; cbn [server_port jwt_secret expose access_token_ttl_minutes refresh_token_ttl_days argon2
    rate_limit_burst_size auth_rate_limit_burst_size rate_limit_per_second auth_rate_limit_per_second
    email_verify_ttl_hours password_reset_ttl_minutes lockout_minutes idempotency_ttl_seconds
    signed_url_ttl_seconds lockout_threshold request_timeout_seconds body_limit_bytes max_upload_bytes
    cors_allowed_origins metrics_token s3 storage_backend smtp]; unfold i64, u64, u32.
  - lia.
  - lia.
  - lia.
  - lia.
  - by apply load_argon2_Ok in Hl8.
  - lia.
  - lia.
  - lia.
  - lia.
  - lia.
  - by apply load_cors_Ok in Hl16 as [_ ?].
  - by apply load_metrics_token_Ok in Hl17 as [_ ?].
  - by apply load_s3_Ok in Hl20.
  - by apply load_smtp_Ok in Hl18 as [_ ?].
Qed.

Module ConfigExample.
Definition env_of (l : list (string * string)) (key : string) : option string :=
  snd <$> List.find (fun kv => fst kv =s key) l.
Definition dev : list (string * string) :=
  [("DATABASE_URL", "postgres://localhost/test");
   ("JWT_SECRET", "a-sufficiently-long-jwt-secret-value-here")].
Definition prod : list (string * string) :=
  dev ++ [("APP_ENV", " Production ");
          ("ENCRYPTION_KEY", "00112233445566778899aabbccddeeff00112233445566778899aabbccddeeff");
          ("CORS_ALLOWED_ORIGINS", "*, https://app.example.com ,");
          ("METRICS_TOKEN", "a-metrics-token"); ("SMTP_HOST", "smtp.example.com")].
Definition ok (l : list (string * string)) : bool := is_ok (@load_from_env toy (env_of l)).
End ConfigExample.

Lemma load_well_formed_witness :
  ∃ c, @load_from_env toy (ConfigExample.env_of ConfigExample.prod) = Ok c ∧ config_ok c.
Proof.
  assert (Hok : ConfigExample.ok ConfigExample.prod = true) by (vm_compute; reflexivity).
  unfold ConfigExample.ok in Hok.
  destruct (@load_from_env toy (ConfigExample.env_of ConfigExample.prod)) as [c|e|] eqn:E;
    [|discriminate Hok..].
  exists c. split; [reflexivity|]. exact (@load_well_formed toy _ c E).
Defined.

(** What production must not inherit from development. *)
Record hardened_config {P : Platform} (env : string -> option string) (c : AppConfig) : Prop := {
  hc_encryption_key : ∃ raw, opt_string env "ENCRYPTION_KEY" = Some raw ∧
    parse_encryption_key raw = inl (encryption_key c) ∧ String.length (encryption_key c) = 32%nat;
  hc_origins : cors_allowed_origins c ≠ [];
  hc_metrics : ∃ t, metrics_token c = Some t ∧ expose t ≠ "";
  hc_smtp : ∃ s, smtp c = Some s ∧ smtp_use_tls s = true }.

(** Production inherits no convenience. A configuration that loads as production
    has an encryption key given explicitly and 32 bytes long, a non-empty list of
    origins, a metrics token, and a mail server reached over TLS. *)
Theorem production_hardened {P : Platform} (env : string -> option string) (c : AppConfig) :
  load_from_env env = Ok c → is_production (environment c) = true → hardened_config env c.
Proof.
  intros H Hp. unfold load_from_env in H. do 33 load_step H. injection H as <-.
  cbn [environment] in Hp.
  split; cbn [encryption_key cors_allowed_origins metrics_token smtp]; rewrite Hp in *.
  - apply load_encryption_key_Ok in Hl9 as (raw & Hr & Hk). exists raw. split; [done|]. split; [done|].
    by apply parse_encryption_key_len in Hk.
  - apply load_cors_Ok in Hl16 as [Hc _]. by apply Hc.
  - apply load_metrics_token_Ok in Hl17 as [Hm Hm']. specialize (Hm eq_refl).
    destruct a17 as [t|]; [|done]. exists t. split; [done|]. by apply Hm'.
  - apply load_smtp_Ok in Hl18 as [Hs _]. destruct (Hs eq_refl) as (s & -> & ?). by exists s.
Qed.

Lemma production_hardened_witness :
  ∃ c, @load_from_env toy (ConfigExample.env_of ConfigExample.prod) = Ok c ∧
    cors_allowed_origins c ≠ [].
Proof.
  assert (Hok : ConfigExample.ok ConfigExample.prod = true) by (vm_compute; reflexivity).
  assert (Hp : match @load_from_env toy (ConfigExample.env_of ConfigExample.prod) with
               | Ok c => is_production (environment c) | _ => false end = true) by (vm_compute; reflexivity).
  unfold ConfigExample.ok in Hok.
  destruct (@load_from_env toy (ConfigExample.env_of ConfigExample.prod)) as [c|e|] eqn:E;
    [|discriminate Hok..].
  exists c. split; [reflexivity|].
  exact (hc_origins _ _ (@production_hardened toy _ c E Hp)).
Defined.

(** C24: the delivery of a mail of a production process, exactly. With a configuration that
    loads as production, it is one submission of the message built of the configured
    sender, that recipient, that subject and that body, to the configured host and
    port, over STARTTLS, with the configured credentials, and it is
    reported as delivered if and only if the relay accepted it; or nothing is
    submitted and an error is reported, and then the library refused one of the
    addresses, the message or the host's TLS parameters. (The error ends in the log of the detached
    task: the request that asked for the mail has been answered.) *)
Theorem production_mail {P : Platform} {L : Lettre} (env : string -> option string) (c : AppConfig)
    (to_email subject body : string) (r : outcome unit AppError) (sent : list (Transport * Message)) :
  load_from_env env = Ok c → is_production (environment c) = true →
  send_email c to_email subject body = (r, sent) →
  ∃ s, smtp c = Some s ∧
    let relay := {| tr_tls := StartTls; tr_host := smtp_host s; tr_port := smtp_port s;
                    tr_credentials := match smtp_username s, smtp_password s with
                                      | Some user, Some pass => Some (user, expose pass)
                                      | _, _ => None
                                      end |} in
    (∃ from to m, parse_mailbox (smtp_from s) = inl from ∧ parse_mailbox to_email = inl to ∧
       build_message from to subject body = inl m ∧ sent = [(relay, m)] ∧
       (is_ok r = true ↔ smtp_send relay m = inl tt)) ∨
    (sent = [] ∧ is_ok r = false ∧
     ((∃ e, parse_mailbox (smtp_from s) = inr e) ∨ (∃ e, parse_mailbox to_email = inr e) ∨
      (∃ from to e, parse_mailbox (smtp_from s) = inl from ∧ parse_mailbox to_email = inl to ∧
         build_message from to subject body = inr e) ∨
      ∃ e, starttls_relay (smtp_host s) = inr e)).
Proof.
  intros Hl Hp. destruct (hc_smtp _ _ (production_hardened env c Hl Hp)) as (s & Hs & Htls).
  unfold send_email. rewrite Hs. intros H. exists s. split; [done|]. cbv zeta.
  destruct (compose s to_email subject body) as [[t m]|e|] eqn:Ec; injection H as <- <-.
  - left. apply compose_Ok in Ec as (-> & from & to & Hfrom & Hto & Hm). exists from, to, m.
    unfold relay_of. rewrite Htls. do 4 (split; [done|]). by destruct (smtp_send _ m) as [[]|].
  - right. destruct (compose_not_Ok s to_email subject body) as [?|[?|[?|[_ ?]]]]; [by rewrite Ec | naive_solver..].
  - right. destruct (compose_not_Ok s to_email subject body) as [?|[?|[?|[_ ?]]]]; [by rewrite Ec | naive_solver..].
Qed.

Definition toy_lettre : Lettre := {|
  Mailbox := string;
  Message := string;
  parse_mailbox s := if contains "@" s then inl s else inr "Missing domain or user";
  build_message from to subject body := inl (join newline [from; to; subject; body]);
  starttls_relay _ := inl tt;
  smtp_send _ _ := inl tt |}.

Definition example_mail (c : AppConfig) := @send_email toy_lettre c "ada@example.com" "Verify your email" "...".

Lemma production_mail_witness :
  ∃ c s, @load_from_env toy (ConfigExample.env_of ConfigExample.prod) = Ok c ∧ smtp c = Some s ∧
    snd (example_mail c) =
      [({| tr_tls := StartTls; tr_host := "smtp.example.com"; tr_port := smtp_port s; tr_credentials := None |},
        join newline [smtp_from s; "ada@example.com"; "Verify your email"; "..."])].
Proof.
  assert (Hp : match @load_from_env toy (ConfigExample.env_of ConfigExample.prod) with
               | Ok c => is_production (environment c) && is_ok (fst (example_mail c))
               | _ => false end = true) by (vm_compute; reflexivity).
  destruct (@load_from_env toy (ConfigExample.env_of ConfigExample.prod)) as [c|e|] eqn:E; [|discriminate Hp..].
  apply andb_true_iff in Hp as [Hp Hok].
  destruct (@production_mail toy toy_lettre _ c _ _ _ _ _ E Hp (surjective_pairing (example_mail c)))
    as (s & Hs & [(from & to & m & Hf & Ht & Hm & Hsent & _) | (_ & Hno & _)]);
    [|rewrite Hok in Hno; discriminate Hno].
  exists c, s. split; [reflexivity|]. split; [exact Hs|]. rewrite Hsent.
  vm_compute in E. injection E as <-. injection Hs as <-. vm_compute in Hf. injection Hf as <-.
  vm_compute in Ht. injection Ht as <-. injection Hm as <-. reflexivity.
Defined.

(** Dropping any one of the production requirements is refused, as is plain-text
    mail; development needs the database and the secret only. *)
Example production_refusals :
  List.map (fun k => ConfigExample.ok (List.filter (fun kv => negb (fst kv =s k)) ConfigExample.prod))
    ["DATABASE_URL"; "JWT_SECRET"; "ENCRYPTION_KEY"; "CORS_ALLOWED_ORIGINS"; "METRICS_TOKEN"; "SMTP_HOST"]
  = [false; false; false; false; false; false] ∧
  ConfigExample.ok (ConfigExample.prod ++ [("SMTP_TLS", "false")]) = false ∧
  ConfigExample.ok ConfigExample.dev = true.
Proof. vm_compute. done. Qed.

(** Nothing checks the lifetimes: a session that is over before it starts, and a
    limiter with a zero period, are accepted. *)
Example lifetimes_unchecked :
  ConfigExample.ok (ConfigExample.dev ++ [("REFRESH_TOKEN_TTL_DAYS", "-1"); ("RATE_LIMIT_PER_SECOND", "0");
    ("LOCKOUT_THRESHOLD", "-5"); ("IDEMPOTENCY_TTL_SECONDS", "-1")]) = true.
Proof. vm_compute. reflexivity. Qed.

(** ** Redaction *)

(** The configuration with every secret replaced. *)
Definition scrub (k : string) (c : AppConfig) : AppConfig :=
  {| environment := environment c; server_host := server_host c; server_port := server_port c;
     public_base_url := public_base_url c; database_url := MkSecret k;
     database_max_connections := database_max_connections c; jwt_secret := MkSecret k;
     access_token_ttl_minutes := access_token_ttl_minutes c;
     refresh_token_ttl_days := refresh_token_ttl_days c; argon2 := argon2 c; encryption_key := k;
     url_signing_key := k; email_verify_ttl_hours := email_verify_ttl_hours c;
     password_reset_ttl_minutes := password_reset_ttl_minutes c;
     lockout_threshold := lockout_threshold c; lockout_minutes := lockout_minutes c;
     rate_limit_per_second := rate_limit_per_second c; rate_limit_burst_size := rate_limit_burst_size c;
     auth_rate_limit_per_second := auth_rate_limit_per_second c;
     auth_rate_limit_burst_size := auth_rate_limit_burst_size c;
     trust_proxy_headers := trust_proxy_headers c; cors_allowed_origins := cors_allowed_origins c;
     metrics_token := (fun _ => MkSecret k) <$> metrics_token c;
     idempotency_ttl_seconds := idempotency_ttl_seconds c;
     request_timeout_seconds := request_timeout_seconds c; body_limit_bytes := body_limit_bytes c;
     storage_backend := storage_backend c;
     s3 := (fun s => {| s3_bucket := s3_bucket s; s3_region := s3_region s; s3_endpoint := s3_endpoint s;
                        s3_access_key_id := k; s3_secret_access_key := MkSecret k;
                        s3_force_path_style := s3_force_path_style s; s3_prefix := s3_prefix s |}) <$> s3 c;
     upload_dir := upload_dir c; max_upload_bytes := max_upload_bytes c;
     allowed_upload_mime := allowed_upload_mime c; signed_url_ttl_seconds := signed_url_ttl_seconds c;
     smtp := (fun s => {| smtp_host := smtp_host s; smtp_port := smtp_port s; smtp_from := smtp_from s;
                          smtp_username := smtp_username s;
                          smtp_password := (fun _ => MkSecret k) <$> smtp_password s;
                          smtp_use_tls := smtp_use_tls s |}) <$> smtp c;
     google := (fun o => {| oc_client_id := k; oc_client_secret := MkSecret k; oc_redirect_url := k |}) <$> google c;
     github := (fun o => {| oc_client_id := k; oc_client_secret := MkSecret k; oc_redirect_url := k |}) <$> github c;
     oidc := oidc c |}.

(** The log shows no secret. Two configurations that differ in their secrets only
    (database address, signing and encryption keys, metrics token, mail password,
    object-storage and provider credentials) have the same [Debug] rendering and
    the same startup line. *)
Theorem debug_redacts (c c' : AppConfig) :
  (∃ k, scrub k c = scrub k c') →
  AppConfig_debug c = AppConfig_debug c' ∧ log_summary c = log_summary c'.
Proof.
  assert (Hd : ∀ k x, AppConfig_debug (scrub k x) = AppConfig_debug x).
  { intros k x. unfold AppConfig_debug. destruct x as [? ? ? ? ? ? ? ? ? ? ? ? ? ? ? ? ? ? ? ? ? ? mt ? ? ? ? s3v
      ? ? ? ? smtpv gv hv ?]; destruct mt, s3v, gv, hv; (destruct smtpv as [[? ? ? ? [] ?]|]); reflexivity. }
  assert (Hl : ∀ k x, log_summary (scrub k x) = log_summary x).
  { intros k x. unfold log_summary, scrub. cbn. by destruct (metrics_token x), (smtp x), (google x), (github x). }
  intros [k E]. by rewrite <- (Hd k c), <- (Hd k c'), <- (Hl k c), <- (Hl k c'), E.
Qed.

Lemma debug_redacts_witness :
  AppConfig_debug (@for_testing toy "postgres://user:hunter2@db/app")
  = AppConfig_debug (@for_testing toy "postgres://localhost/test").
Proof.
  apply (debug_redacts (@for_testing toy "postgres://user:hunter2@db/app")
           (@for_testing toy "postgres://localhost/test")).
  exists "". reflexivity.
Defined.
