(* ===== verification/Boot.v ===== *)
(** * Start-up ([main.rs], [AppState::new])

    [main] from the environment to the listener: the set-up of the log and every
    step that can refuse or panic, in the order of the code, with the trace of
    what it did; and the signal that ends it. What the
    process then does for ever is elsewhere: the requests ([Api], [Middleware]),
    the worker and the clean-up ([Worker]), the event listener ([Realtime]). *)
From S2P Require Import Prelude RustStr NetAddr Models Errors Platform World Disk StorageBackend Jwks.
From S2P Require Import Extractors Config.

(** ** What start-up asks of the outside *)

(** [dotenvy], the log filter, the metrics recorder, [sqlx], [reqwest], the governor crate, the
    operating system; an error is its [Display]. *)
Class Startup := {
  dotenv : (string -> option string) -> string -> option string;
  Filter : Type;
  (* [EnvFilter::try_from_default_env], on the environment; a directive as a filter *)
  filter_from_env : (string -> option string) -> option Filter;
  filter_of : string -> Filter;
  install_recorder : unit + string;
  pg_connect : Z -> string -> unit + string;
  run_migrations : unit + string;
  build_http_client : unit + string;
  Governor : Type;
  (* [GovernorConfigBuilder::finish]: the argument of [per_second], the burst, the trust in proxies *)
  governor_finish : Z -> Z -> bool -> option Governor;
  tcp_bind : SocketAddr -> unit + string;
  serve_until_shutdown : SocketAddr -> unit + string }.

(** The errors [main] returns, by where they come from. *)
Inductive BootError :=
| ConfigRefused (e : string)
| ConnectFailed (e : string)
| MigrationFailed (e : string)
| StorageNotReady (e : AppError)
| BindFailed (e : string)
| ServeFailed (e : string).

(** What the log is written as. *)
Inductive LogFormat := JsonLines | HumanReadable.
Record Tracing (F : Type) := { tr_filter : F; tr_format : LogFormat }.
Arguments tr_filter {F}. Arguments tr_format {F}.

(** What the operating system sends the process. *)
Inductive Signal := Interrupt | Terminate | OtherSignal.

Inductive Task := RealtimeListener (database_url : string) | CleanupLoop | BackgroundWorker.
Inductive Event :=
| Logging (f : LogFormat)
| Connected (max_connections : Z)
| Migrated
| StorageReady (name : string)
| Spawned (t : Task)
| Listening (addr : SocketAddr)
| Serving (addr : SocketAddr).

(** A step: it may fail or panic, changes the world, and leaves a trace. *)
Definition Boot (A : Type) : Type := World -> outcome A BootError * World * list Event.
Definition bret {A} (a : A) : Boot A := fun w => (Ok a, w, []).
Definition bbind {A B} (m : Boot A) (k : A -> Boot B) : Boot B := fun w =>
  match m w with
  | (Ok a, w1, t1) => let '(r, w2, t2) := k a w1 in (r, w2, t1 ++ t2)
  | (Err e, w1, t1) => (Err e, w1, t1)
  | (Panic, w1, t1) => (Panic, w1, t1)
  end.
Notation "'let>' x := m 'in' k" := (bbind m (fun x => k))
  (at level 10, x binder, m at level 100, k at level 200,
   format "'[v' 'let>'  x  :=  m  'in' '/' k ']'") : m_scope.
Notation "'do>' m 'in' k" := (bbind m (fun _ => k))
  (at level 10, m at level 100, k at level 200, format "'[v' 'do>'  m  'in' '/' k ']'") : m_scope.
Definition note (e : Event) : Boot unit := fun w => (Ok tt, w, [e]).
(** [?] *)
Definition try_ {A} (f : string -> BootError) (r : A + string) : Boot A := fun w =>
  (match r with inl a => Ok a | inr e => Err (f e) end, w, []).
(** [expect] *)
Definition expect {A E} (r : A + E) : Boot A := fun w =>
  (match r with inl a => Ok a | inr _ => Panic end, w, []).
Definition expect_ok {A E} (r : outcome A E) : Boot A := fun w =>
  (match r with Ok a => Ok a | _ => Panic end, w, []).

Section Boot.
Context {P : Platform} {A : S3Api} {S : Startup}.

(** ** [AppState] *)

Record AppState := {
  st_config : AppConfig; st_storage : StorageBackend; st_jwks_client : option JwksClient;
  st_realtime_capacity : nat }.

Definition AppState_new (c : AppConfig) : Boot AppState :=
  let storage := select_backend c in
  do> expect build_http_client in
  bret {| st_config := c; st_storage := storage;
          st_jwks_client := (fun o => JwksClient_new (oidc_jwks_url o) (oidc_expected_issuer o)
                                        (oidc_expected_audience o)) <$> oidc c;
          st_realtime_capacity := 1024 |}.

(** [create_app], as far as it can fail: [routes::app_router] builds the credential
    limiter, then the application its own. *)
Definition create_router (c : AppConfig) : Boot unit :=
  do> expect_ok (auth_limiter governor_finish c) in
  do> expect_ok (global_limiter governor_finish c) in
  bret tt.

(** ** Logging and signals *)

Definition init_tracing (env : string -> option string) : Tracing Filter :=
  {| tr_filter := unwrap_or (filter_of "axum_template=info,tower_http=info") (filter_from_env env);
     tr_format := if opt_eqb String.eqb (env "APP_ENV") (Some "production") then JsonLines else HumanReadable |}.

(** [shutdown_signal]: whether each handler installs, then what the process is sent.
    It ends at the first of the two signals. *)
Definition shutdown_signal (ctrl_c terminate : unit + string) (sent : list Signal) : Boot (option Signal) :=
  do> expect ctrl_c in
  do> expect terminate in
  bret (List.find (fun s => match s with Interrupt | Terminate => true | OtherSignal => false end) sent).

(** ** [main] *)

Definition check_storage (st : AppState) : Boot unit := fun w =>
  match sb_check_ready (StorageBackend := st_storage st) w with
  | (Ok _, w') => (Ok tt, w', [])
  | (Err e, w') => (Err (StorageNotReady e), w', [])
  | (Panic, w') => (Panic, w', [])
  end.

Definition server_addr (c : AppConfig) : string := server_host c +:+ ":" +:+ show_Z (server_port c).

Definition parse_addr (c : AppConfig) : SocketAddr + unit :=
  match parse_socket_addr (server_addr c) with Some a => inl a | None => inr tt end.

Definition load_config (env : string -> option string) : Boot AppConfig := fun w =>
  (match load_from_env (dotenv env) with
   | Ok c => Ok c | Err e => Err (ConfigRefused e) | Panic => Panic end, w, []).

Definition main (env : string -> option string) : Boot unit :=
  do> note (Logging (tr_format (init_tracing (dotenv env)))) in
  do> expect install_recorder in
  let> config := load_config env in
  do> try_ ConnectFailed (pg_connect (database_max_connections config) (expose (database_url config))) in
  do> note (Connected (database_max_connections config)) in
  do> try_ MigrationFailed run_migrations in
  do> note Migrated in
  let> app_state := AppState_new config in
  do> check_storage app_state in
  do> note (StorageReady (sb_name (StorageBackend := st_storage app_state))) in
  do> note (Spawned (RealtimeListener (expose (database_url config)))) in
  do> note (Spawned CleanupLoop) in
  do> note (Spawned BackgroundWorker) in
  do> create_router config in
  let> addr := expect (parse_addr config) in
  do> try_ BindFailed (tcp_bind addr) in
  do> note (Listening addr) in
  do> note (Serving addr) in
  try_ ServeFailed (serve_until_shutdown addr).
End Boot.

(** ** What must hold for the server to serve *)

Section Startable.
Context {P : Platform} {A : S3Api} {S : Startup}.

Record startable (env : string -> option string) (w : World) (c : AppConfig) (addr : SocketAddr) : Prop := {
  sta_recorder : install_recorder = inl tt;
  sta_config : load_from_env (dotenv env) = Ok c;
  sta_database : pg_connect (database_max_connections c) (expose (database_url c)) = inl tt;
  sta_migrated : run_migrations = inl tt;
  sta_client : build_http_client = inl tt;
  sta_storage : is_ok (fst (sb_check_ready (StorageBackend := select_backend c) w)) = true;
  sta_limits : is_ok (auth_limiter governor_finish c) = true ∧ is_ok (global_limiter governor_finish c) = true;
  sta_addr : parse_socket_addr (server_addr c) = Some addr;
  sta_bound : tcp_bind addr = inl tt }.

(** The trace of a start-up up to the listener, and of one that serves. *)
Definition logging (env : string -> option string) : Event := Logging (tr_format (init_tracing (dotenv env))).
Definition prepared (env : string -> option string) (c : AppConfig) : list Event :=
  [logging env; Connected (database_max_connections c); Migrated;
   StorageReady (sb_name (StorageBackend := select_backend c));
   Spawned (RealtimeListener (expose (database_url c))); Spawned CleanupLoop; Spawned BackgroundWorker].
Definition boot_order (env : string -> option string) (c : AppConfig) (addr : SocketAddr) : list Event :=
  prepared env c ++ [Listening addr; Serving addr].

(** [main], computed. *)
Lemma main_eq env w :
  main env w =
  match install_recorder with
  | inr _ => (Panic, w, [logging env])
  | inl _ =>
  match load_from_env (dotenv env) with
  | Err e => (Err (ConfigRefused e), w, [logging env])
  | Panic => (Panic, w, [logging env])
  | Ok c =>
  match pg_connect (database_max_connections c) (expose (database_url c)) with
  | inr e => (Err (ConnectFailed e), w, [logging env])
  | inl _ =>
  match run_migrations with
  | inr e => (Err (MigrationFailed e), w, take 2 (prepared env c))
  | inl _ =>
  match build_http_client with
  | inr e => (Panic, w, take 3 (prepared env c))
  | inl _ =>
  match sb_check_ready (StorageBackend := select_backend c) w with
  | (Panic, w') => (Panic, w', take 3 (prepared env c))
  | (Err e, w') => (Err (StorageNotReady e), w', take 3 (prepared env c))
  | (Ok _, w') =>
  if negb (is_ok (auth_limiter governor_finish c) && is_ok (global_limiter governor_finish c)) then
    (Panic, w', prepared env c)
  else
  match parse_socket_addr (server_addr c) with
  | None => (Panic, w', prepared env c)
  | Some addr =>
  match tcp_bind addr with
  | inr e => (Err (BindFailed e), w', prepared env c)
  | inl _ =>
      (match serve_until_shutdown addr with inl _ => Ok tt | inr e => Err (ServeFailed e) end, w', boot_order env c addr)
  end end end end end end end end.
Proof.
  unfold main, load_config, AppState_new, create_router, check_storage, parse_addr, bbind, expect, expect_ok, try_,
    note, bret.
  destruct install_recorder as [[]|]; [|done]. destruct (load_from_env _) as [c|e|]; [|done..].
  destruct (pg_connect _ _) as [[]|]; [|done]. destruct run_migrations as [[]|]; [|done].
  destruct build_http_client as [[]|]; [|done]. cbn [st_storage].
  destruct (sb_check_ready w) as [[[]|e|] w1]; [|done..].
  destruct (auth_limiter governor_finish c); [|done..]. destruct (global_limiter governor_finish c); [|done..]. cbn.
  destruct (parse_socket_addr _) as [addr|]; [|done]. destruct (tcp_bind addr) as [[]|]; [|done].
  by destruct (serve_until_shutdown addr) as [[]|].
Qed.

Lemma prepared_silent env c addr : Serving addr ∉ prepared env c.
Proof. unfold prepared, logging. rewrite !elem_of_cons, elem_of_nil. naive_solver. Qed.
Lemma logging_first env c : [logging env] `prefix_of` prepared env c.
Proof. by eexists. Qed.
End Startable.

(** Where a start-up ends early: the trace so far is the beginning of the order, and
    the condition that failed is one of those to serve. *)
Ltac stops c :=
  match goal with
  | H : (_, _, ?t) = (_, _, _), Hstop : ∀ c t, _ → _ → _ = _ → _ → _ |- _ =>
      right; injection H as _ _ <-;
      apply (Hstop c t); [done | (apply logging_first || apply prefix_take || done) | done | try by intros ? []; congruence]
  end.

(** A start-up serves with everything in place, or stops before with a trace that
    begins the order. *)
Lemma serves_or_stops {P : Platform} {A : S3Api} {S : Startup} (env : string -> option string) (w w' : World)
    (r : outcome unit BootError) (tr : list Event) :
  main env w = (r, w', tr) →
  (∃ c addr, startable env w c addr ∧ tr = boot_order env c addr) ∨
  (∀ c addr, ¬ startable env w c addr) ∧
  (tr = [logging env] ∨ ∃ c, load_from_env (dotenv env) = Ok c ∧ tr `prefix_of` prepared env c).
Proof.
  rewrite main_eq. intros H.
  assert (Hstop : ∀ c t, load_from_env (dotenv env) = Ok c → t `prefix_of` prepared env c → t = tr →
    (∀ addr, ¬ startable env w c addr) → (∀ c addr, ¬ startable env w c addr) ∧
    (tr = [logging env] ∨ ∃ c, load_from_env (dotenv env) = Ok c ∧ tr `prefix_of` prepared env c)).
  { intros c t Hc Hp <- Hno. split; [|right; by exists c]. intros c' addr Hs. pose proof (sta_config _ _ _ _ Hs) as Hc'.
    rewrite Hc in Hc'. injection Hc' as <-. by apply Hno in Hs. }
  destruct install_recorder eqn:?; [|injection H as _ _ <-; right; split; [|by left]; intros c addr []; congruence].
  destruct (load_from_env _) as [c|e|] eqn:Hc; [|injection H as _ _ <-; right; split; [|by left]; intros c addr []; congruence..].
  destruct (pg_connect _ _) eqn:?; [|stops c].
  destruct run_migrations eqn:?; [|stops c].
  destruct build_http_client eqn:?; [|stops c].
  destruct (sb_check_ready w) as [[?|e|] w1] eqn:Es.
  2,3: right; injection H as _ _ <-; apply (Hstop c (take 3 (prepared env c))); [done | apply prefix_take | done |];
    intros addr [_ Hc' _ _ _ Hs _ _ _]; by rewrite Es in Hs.
  destruct (_ && _)%bool eqn:El; cbn [negb] in H; [apply andb_true_iff in El as [El1 El2]|stops c].
  2: intros addr [_ _ _ _ _ _ [E1 E2] _ _]; by rewrite E1, E2 in El.
  destruct (parse_socket_addr _) as [addr|] eqn:Ea; [|stops c].
  destruct (tcp_bind addr) as [[]|] eqn:Eb; [|stops c].
  injection H as _ _ <-. left. exists c, addr. split; [|done].
  repeat match goal with u : unit |- _ => destruct u end. split; try done. by rewrite Es.
Qed.

(** C23: the server serves when, and only when, everything it needs is there. It
    serves an address exactly when the recorder installs, the configuration
    loads, the database is reached and migrated, the client builds, the storage
    backend is usable, both limiters are accepted, and the configured host and
    port are that address and can be bound. What it did before is always the
    beginning of one order: the log is set up first, and alone when the
    configuration is refused; no background task runs before the migrations and
    the storage check, no listener before the tasks. What it serves
    as production has an explicit encryption key, explicit origins, a metrics
    token and mail over TLS. *)
Theorem boot_exact {P : Platform} {A : S3Api} {S : Startup} (env : string -> option string) (w w' : World)
    (r : outcome unit BootError) (tr : list Event) :
  main env w = (r, w', tr) →
  (∀ addr, Serving addr ∈ tr ↔ ∃ c, startable env w c addr) ∧
  (∀ c, load_from_env (dotenv env) = Ok c → tr `prefix_of` prepared env c ∨ ∃ addr, tr = boot_order env c addr) ∧
  (is_ok (load_from_env (dotenv env)) = false → tr = [logging env]) ∧
  (∀ c addr, startable env w c addr → is_production (environment c) = true → hardened_config (dotenv env) c).
Proof.
  intros [(c & addr & Hs & ->) | [Hno Htr]]%serves_or_stops.
  - pose proof (sta_config _ _ _ _ Hs) as Hc. rewrite Hc.
    split_and!; [| intros c' [= <-]; right; by exists addr | done
      | intros c' addr' Hs'; apply production_hardened, (sta_config _ _ _ _ Hs')].
    intros a. split; intros Ha; [exists c|].
    + unfold boot_order in Ha. apply elem_of_app in Ha as [Ha|Ha]; [by apply prepared_silent in Ha|].
      rewrite !elem_of_cons, elem_of_nil in Ha. destruct Ha as [|[[= ->]|[]]]; done.
    + destruct Ha as (c' & [_ Hc' _ _ _ _ _ Ha _]). rewrite Hc in Hc'. injection Hc' as <-.
      rewrite (sta_addr _ _ _ _ Hs) in Ha. injection Ha as <-. apply elem_of_app. right. right. left.
  - split_and!; [| | | by intros c addr Hs; apply Hno in Hs].
    + intros addr. split; [|by intros (c & Hs); apply Hno in Hs].
      intros Ha. destruct Htr as [->|(c & _ & [k Hk])].
      { apply list_elem_of_singleton in Ha. discriminate Ha. }
      destruct (prepared_silent env c addr). rewrite Hk. apply elem_of_app. by left.
    + intros c Hc. left. destruct Htr as [->|(c' & Hc' & Hp)]; [apply logging_first | congruence].
    + intros Hl. destruct Htr as [->|(c & Hc & _)]; [done | by rewrite Hc in Hl].
Qed.

(** A start-up with everything in place. *)
Definition toy_startup : Startup := {|
  dotenv env := env;
  Filter := string;
  filter_from_env env := env "RUST_LOG";
  filter_of d := d;
  install_recorder := inl tt;
  pg_connect _ _ := inl tt;
  run_migrations := inl tt;
  build_http_client := inl tt;
  Governor := unit;
  governor_finish period burst _ := if ((period =? 0) || (burst =? 0))%Z then None else Some tt;
  tcp_bind _ := inl tt;
  serve_until_shutdown _ := inl tt |}.

Module BootExample.
Definition w : World := world_of empty_db 0.
Definition start (l : list (string * string)) : outcome unit BootError * World * list Event :=
  @main toy toy_s3 toy_startup (ConfigExample.env_of l) w.
Definition addr : SocketAddr := {| sa_ip := V4 [127; 0; 0; 1]%Z; sa_port := 3000 |}.
End BootExample.

Lemma boot_exact_witness : ∃ c, @startable toy toy_s3 toy_startup (ConfigExample.env_of ConfigExample.prod)
  BootExample.w c BootExample.addr.
Proof.
  refine (proj1 (proj1 (@boot_exact toy toy_s3 toy_startup (ConfigExample.env_of ConfigExample.prod) BootExample.w
    (snd (fst (BootExample.start ConfigExample.prod))) (fst (fst (BootExample.start ConfigExample.prod)))
    (snd (BootExample.start ConfigExample.prod)) _) BootExample.addr) _).
  - rewrite <- !surjective_pairing. reflexivity.
  - do 8 right. left.
Defined.

(** A host name and a zero rate are accepted by the configuration; the start-up
    panics on them, after the migrations, and with the tasks already running. *)
Example boot_panics :
  (let '(r, _, tr) := BootExample.start (ConfigExample.dev ++ [("SERVER_HOST", "localhost")]) in
   r = Panic ∧ Spawned BackgroundWorker ∈ tr) ∧
  (let '(r, _, tr) := BootExample.start (ConfigExample.dev ++ [("RATE_LIMIT_PER_SECOND", "0")]) in
   r = Panic ∧ Spawned BackgroundWorker ∈ tr).
Proof. vm_compute. split; (split; [done | do 6 right; left]). Qed.

(** The configuration takes [APP_ENV] trimmed and in any case, and [prod] for
    [production]; the log format asks for the exact word. Such a process runs as
    production and logs for people. *)
Example production_logs_readable :
  Forall (fun v => let env := ConfigExample.env_of (("APP_ENV", v) :: ConfigExample.prod) in
    load_environment env = Ok Production ∧
    tr_format (@init_tracing toy_startup env) = (if v =s "production" then JsonLines else HumanReadable))
  ["production"; "prod"; "PRODUCTION"; " production "].
Proof. repeat (apply Forall_cons_2; [vm_compute; by split|]). apply Forall_nil_2. Qed.
