(* ===== verification/Validation.v ===== *)
(** * Request validation ([models/*.rs])

    The [Validate] derivations of the request types and the hand-written rules
    they name. An error is a field with the message or code of the rule; the
    [email] and [url] rules are the validator crate's. *)
From S2P Require Import Prelude RustStr Models Errors Platform.

(** [#[validate(length(min, max))]] on a string counts characters. *)
Definition char_count (s : string) : Z := Z.of_nat (length (chars s)).
Definition rule (ok : bool) (field message : string) : list (string * string) :=
  if ok then [] else [(field, message)].
Definition length_between (lo hi : Z) (s : string) : bool :=
  ((lo <=? char_count s) && (char_count s <=? hi))%Z%bool.

(** [impl From<ValidationErrors> for AppError], applied by [payload.validate()?]. *)
Definition validated {P : Platform} (errs : list (string * string)) : outcome unit AppError :=
  match errs with
  | [] => Ok tt
  | _ => Err (ValidationError (validation_errors_show errs))
  end.

(** ** Passwords ([models/user.rs]) *)

Definition COMMON : list string :=
  ["password"; "password1"; "password12"; "password123"; "passw0rd"; "12345678"; "123456789";
   "1234567890"; "qwertyuiop"; "qwerty123"; "letmein1"; "iloveyou"; "welcome1"; "admin123";
   "changeme"; "football1"; "sunshine1"; "princess1"; "baseball1"; "trustno1"; "superman1";
   "starwars1"; "whatever1"; "monkey12"].

Definition validate_password_strength (password : string) : unit + string :=
  if (char_count password <? 10)%Z then inr "Password must be at least 10 characters"
  else if (128 <? str_len password)%Z then inr "Password must be at most 128 bytes"
  else if existsb (String.eqb (to_ascii_lowercase password)) COMMON then
    inr "That password is among the most commonly breached; choose another"
  else inl tt.
Definition password_rule (field password : string) : list (string * string) :=
  match validate_password_strength password with inl _ => [] | inr m => [(field, m)] end.

(** ** Slugs ([models/org.rs])

    [SLUG_REGEX], [^[a-z0-9]+(?:-[a-z0-9]+)*$]: non-empty runs of lower-case letters
    and digits, separated by single hyphens. *)
Definition slug_char (a : ascii) : bool :=
  let b := byte_val a in (((97 <=? b) && (b <=? 122)) || ((48 <=? b) && (b <=? 57)))%Z%bool.
Definition slug_run (s : string) : bool :=
  match s with EmptyString => false | _ => all_ascii slug_char s end.
Definition SLUG_REGEX (s : string) : bool := forallb slug_run (split (ascii_of_nat 45) s).

Section Validate.
Context {P : Platform}.

Definition name_message : string := "Name must be between 2 and 100 characters".
Definition slug_message (example : string) : string :=
  "Slug must be lowercase alphanumeric with hyphens (e.g. '" +:+ example +:+ "')".
Definition image_rules (image : option string) : list (string * string) :=
  match image with
  | Some i => rule (valid_url i) "image" "Image must be a valid URL"
              ++ rule (char_count i <=? 512)%Z "image" "length"
  | None => []
  end.

Definition SignUpEmailRequest_validate (r : SignUpEmailRequest) : outcome unit AppError := validated (
  rule (length_between 2 100 (su_name r)) "name" name_message
  ++ rule (valid_email (su_email r)) "email" "Invalid email format"
  ++ rule (char_count (su_email r) <=? 254)%Z "email" "length"
  ++ password_rule "password" (su_password r)
  ++ image_rules (su_image r)).

Definition SignInEmailRequest_validate (r : SignInEmailRequest) : outcome unit AppError :=
  validated (rule (valid_email (si_email r)) "email" "Invalid email format").
Definition ForgetPasswordRequest_validate (r : ForgetPasswordRequest) : outcome unit AppError :=
  validated (rule (valid_email (fp_email r)) "email" "Invalid email format").
Definition ResetPasswordRequest_validate (r : ResetPasswordRequest) : outcome unit AppError :=
  validated (password_rule "new_password" (rp_new_password r)).
Definition ChangePasswordRequest_validate (r : ChangePasswordRequest) : outcome unit AppError :=
  validated (password_rule "new_password" (cp_new_password r)).

Definition UpdateUserRequest_validate (r : UpdateUserRequest) : outcome unit AppError := validated (
  match uu_name r with Some n => rule (length_between 2 100 n) "name" name_message | None => [] end
  ++ image_rules (uu_image r)).

Definition slug_rules (slug example : string) : list (string * string) :=
  rule (length_between 2 50 slug) "slug" "Slug must be between 2 and 50 characters"
  ++ rule (SLUG_REGEX slug) "slug" (slug_message example).
Definition CreateAppRequest_validate (r : CreateAppRequest) : outcome unit AppError := validated (
  rule (length_between 2 100 (ca_name r)) "name" name_message ++ slug_rules (ca_slug r) "my-app-123").
Definition CreateOrgRequest_validate (r : CreateOrgRequest) : outcome unit AppError := validated (
  rule (length_between 2 100 (co_name r)) "name" name_message ++ slug_rules (co_slug r) "my-org-123").
(** No rule on either field. *)
Definition AddOrgMemberRequest_validate (r : AddOrgMemberRequest) : outcome unit AppError := validated [].

Definition CreateApiKeyRequest_validate (r : CreateApiKeyRequest) : outcome unit AppError :=
  validated (rule (length_between 2 100 (ck_name r)) "name" name_message).
Definition PresignedUploadRequest_validate (r : PresignedUploadRequest) : outcome unit AppError := validated (
  rule (length_between 1 255 (pu_filename r)) "filename" "Filename is required"
  ++ rule (length_between 3 127 (pu_content_type r)) "content_type" "MIME type is required").
Definition CreateWebhookRequest_validate (r : CreateWebhookRequest) : outcome unit AppError := validated (
  rule (valid_url (cw_target_url r)) "target_url" "target_url must be a valid HTTP/HTTPS URL"
  ++ rule (1 <=? Z.of_nat (length (cw_events r)))%Z "events" "At least one event topic is required").
End Validate.

(** ** Lemmas *)

Lemma validated_Ok {P : Platform} errs u : validated errs = Ok u → errs = [].
Proof. by destruct errs. Qed.

Lemma rule_nil ok f m l : rule ok f m ++ l = [] → ok = true ∧ l = [].
Proof. by destruct ok. Qed.

Lemma rule_nil' ok f m : rule ok f m = [] → ok = true.
Proof. by destruct ok. Qed.

Lemma password_rule_nil f p : password_rule f p = [] → validate_password_strength p = inl tt.
Proof. unfold password_rule. by destruct (validate_password_strength p) as [[]|]. Qed.

(** ** Regular expressions, as a reference for the slug rule *)

Inductive Regex := Chr (p : ascii -> bool) | Cat (r1 r2 : Regex) | Star (r : Regex).
Definition Plus (r : Regex) : Regex := Cat r (Star r).

Inductive matches : Regex -> string -> Prop :=
| m_chr p a : p a = true → matches (Chr p) (String a EmptyString)
| m_cat r1 r2 s1 s2 : matches r1 s1 → matches r2 s2 → matches (Cat r1 r2) (s1 +:+ s2)
| m_star_nil r : matches (Star r) EmptyString
| m_star_app r s1 s2 : matches r s1 → matches (Star r) s2 → matches (Star r) (s1 +:+ s2).

Lemma app_empty_r s : s +:+ EmptyString = s.
Proof. induction s as [|a s IH]; [done|]. change (String a (s +:+ EmptyString) = String a s). by rewrite IH. Qed.

Definition hyphen : ascii := ascii_of_nat 45.
(** [[a-z0-9]+(?:-[a-z0-9]+)*], anchored at both ends *)
Definition slug_re : Regex :=
  Cat (Plus (Chr slug_char)) (Star (Cat (Chr (Ascii.eqb hyphen)) (Plus (Chr slug_char)))).

Lemma matches_chr p s : matches (Chr p) s → ∃ a, s = String a EmptyString ∧ p a = true.
Proof. inversion 1; eauto. Qed.

Lemma matches_star_chr p s : matches (Star (Chr p)) s ↔ all_ascii p s = true.
Proof.
  split.
  - remember (Star (Chr p)) as r eqn:E. induction 1 as [| | |r s1 s2 H1 _ H2 IH]; try done.
    injection E as ->. apply matches_chr in H1 as (a & -> & Ha).
    change (all_ascii p (String a s2) = true). cbn [all_ascii]. by rewrite Ha, IH.
  - induction s as [|a s IH]; [constructor|]. cbn. intros [Ha Hs]%andb_true_iff.
    apply (m_star_app _ (String a EmptyString)); [by constructor | by apply IH].
Qed.

Lemma matches_run s : matches (Plus (Chr slug_char)) s ↔ slug_run s = true.
Proof.
  unfold slug_run. split.
  - inversion 1 as [|? ? s1 s2 H1 H2| |]; subst. apply matches_chr in H1 as (a & -> & Ha).
    apply matches_star_chr in H2.
    change (all_ascii slug_char (String a s2) = true). cbn [all_ascii]. by rewrite Ha, H2.
  - destruct s as [|a s]; [done|]. cbn. intros [Ha Hs]%andb_true_iff.
    apply (m_cat _ _ (String a EmptyString)); [by constructor | by apply matches_star_chr].
Qed.

Lemma run_no_hyphen s : slug_run s = true → all_ascii (fun a => negb (Ascii.eqb a hyphen)) s = true.
Proof.
  intros H. apply (all_ascii_impl slug_char); [|by destruct s].
  intros a Ha. destruct (Ascii.eqb a hyphen) eqn:E; [|done]. apply Ascii.eqb_eq in E as ->. done.
Qed.

(** What follows the first run: nothing, or a hyphen and a slug. *)
Lemma matches_tail s :
  matches (Star (Cat (Chr (Ascii.eqb hyphen)) (Plus (Chr slug_char)))) s →
  s = EmptyString ∨ ∃ t, s = String hyphen t ∧ SLUG_REGEX t = true.
Proof.
  remember (Star _) as r eqn:E. induction 1 as [| | |r s1 s2 H1 _ H2 IH]; try done; [by left|].
  injection E as ->. right. inversion H1 as [|? ? h t Hh Ht| |]; subst.
  apply matches_chr in Hh as (a & -> & Ha). apply Ascii.eqb_eq in Ha as <-.
  apply matches_run in Ht. exists (t +:+ s2). split; [reflexivity|]. unfold SLUG_REGEX.
  pose proof (run_no_hyphen t Ht) as Hn. destruct (IH eq_refl) as [-> | (u & -> & Hu)].
  - rewrite app_empty_r.
    change (ascii_of_nat 45) with hyphen. rewrite (split_word hyphen t Hn).
    cbn. by rewrite Ht.
  - change (ascii_of_nat 45) with hyphen. rewrite (split_app hyphen t u Hn).
    cbn. by rewrite Ht.
Qed.

Lemma pieces_match x l :
  forallb slug_run (x :: l) = true → matches slug_re (String.concat (String hyphen EmptyString) (x :: l)).
Proof.
  intros [Hx Hl]%andb_true_iff. unfold slug_re.
  assert (Ht : matches (Star (Cat (Chr (Ascii.eqb hyphen)) (Plus (Chr slug_char))))
    (fold_right (fun y acc => String hyphen EmptyString +:+ y +:+ acc) EmptyString l)).
  { clear Hx. induction l as [|y l IH]; [constructor|]. apply andb_true_iff in Hl as [Hy Hl]. cbn [fold_right].
    apply (m_star_app _ (String hyphen EmptyString +:+ y)); [|by apply IH].
    apply m_cat; [by constructor | by apply matches_run]. }
  assert (E : String.concat (String hyphen EmptyString) (x :: l) =
    x +:+ fold_right (fun y acc => String hyphen EmptyString +:+ y +:+ acc) EmptyString l).
  { clear. revert x. induction l as [|y l IH]; intros x.
    - cbn. by rewrite app_empty_r.
    - change (String.concat (String hyphen EmptyString) (x :: y :: l))
        with (x +:+ String hyphen EmptyString +:+ String.concat (String hyphen EmptyString) (y :: l)).
      by rewrite IH. }
  rewrite E. apply m_cat; [by apply matches_run | done].
Qed.

(** ** Properties *)

(** The slug rule is its regular expression: splitting at hyphens and checking
    the pieces accepts exactly the strings that [^[a-z0-9]+(?:-[a-z0-9]+)*$]
    matches. *)
Theorem slug_regex_exact (s : string) : SLUG_REGEX s = true ↔ matches slug_re s.
Proof.
  split.
  - intros H. rewrite <- (join_split hyphen s). unfold SLUG_REGEX in H.
    change (ascii_of_nat 45) with hyphen in H. pose proof (split_nonempty hyphen s).
    destruct (split hyphen s) as [|x l]; [done|]. by apply pieces_match.
  - inversion 1 as [|? ? s1 s2 H1 H2| |]; subst. apply matches_run in H1 as Hr.
    pose proof (run_no_hyphen s1 Hr) as Hn. unfold SLUG_REGEX. change (ascii_of_nat 45) with hyphen.
    apply matches_tail in H2 as [-> | (t & -> & Ht)].
    + rewrite app_empty_r.
      rewrite (split_word hyphen s1 Hn). cbn. by rewrite Hr.
    + rewrite (split_app hyphen s1 t Hn). cbn. by rewrite Hr.
Qed.

Example slugs :
  List.map SLUG_REGEX ["my-app-123"; "a"; ""; "-a"; "a-"; "a--b"; "A-b"; "a_b"]
  = [true; true; false; false; false; false; false; false].
Proof. vm_compute. reflexivity. Qed.

(** Twenty of the twenty-four common passwords are refused for their length before
    the list is consulted. *)
Example common_unreachable :
  List.filter (fun p => 10 <=? char_count p)%Z COMMON
  = ["password12"; "password123"; "1234567890"; "qwertyuiop"].
Proof. vm_compute. reflexivity. Qed.
