(* ===== verification/Routes.v ===== *)
(** * The routes ([routes/health.rs], [routes/v1/*.rs] but the files)

    One definition per handler: its extractors in the order of its arguments, then
    its body. A handler is a function of what its [Path], [Query] and [Json]
    extractors accept; their rejections, and the order they come in, are in [Api].
    The result is the status and the envelope of the response. *)
From stdpp Require Import gmap sorting.
From S2P Require Import Prelude RustStr Models Errors Platform World Pagination Scopes Crypto AuditTrail.
From S2P Require Import Auth Schema AuthProofs Orgs ApiKeys Jwks Oauth Webhooks Realtime Http Extractors.
From S2P Require Import Validation.

Abbreviation Reply T := (Z * ApiResponse T)%type (only parsing).
Definition ok_reply {T} (data : T) : M (Reply T) := ret (200%Z, api_success data).
Definition created_reply {T} (data : T) : M (Reply T) := ret (201%Z, api_success data).
Definition meta_reply {T} (data : T) (meta : Json) : M (Reply T) := ret (200%Z, api_with_meta data meta).

(** [serde] of the page metadata; an absent cursor is skipped. *)
Definition PageMeta_json (m : PageMeta) : Json :=
  JObj [("page", JNum (pm_page m)); ("page_size", JNum (pm_page_size m));
        ("total_pages", JNum (pm_total_pages m)); ("total_count", JNum (pm_total_count m));
        ("has_next", JBool (pm_has_next m)); ("has_previous", JBool (pm_has_previous m))].
Definition opt_field (name : string) (o : option string) : list (string * Json) :=
  match o with Some s => [(name, JStr s)] | None => [] end.
Definition CursorMeta_fields (m : CursorMeta) : list (string * Json) :=
  [("limit", JNum (cm_limit m)); ("has_next", JBool (cm_has_next m))]
  ++ opt_field "next_cursor" (cm_next_cursor m) ++ opt_field "previous_cursor" (cm_previous_cursor m).
Definition page_meta (p : PageParams) (total_count : Z) : Json :=
  PageMeta_json (PageMeta_new (page p) (page_size p) total_count).

(** ** Observability ([routes/health.rs]) *)

Record HealthResponse := {
  h_status : string; h_database : string; h_version : string; h_timestamp : Timestamp }.

Section Health.
Context {P : Platform} (cfg : AppConfig) (version : string).

Definition liveness : M HealthResponse :=
  let! t := now in
  ret {| h_status := "ok"; h_database := "not_checked"; h_version := version; h_timestamp := t |}.

Definition readiness : M (Z * HealthResponse) :=
  let! r := attempt (sql (sql_read (fun _ _ => 1%Z))) in
  let healthy := match r with inl _ => true | inr _ => false end in
  let! t := now in
  ret (if healthy then 200%Z else 503%Z,
       {| h_status := if healthy then "ok" else "degraded";
          h_database := if healthy then "healthy" else "unhealthy";
          h_version := version; h_timestamp := t |}).

Definition health_check : M (Z * HealthResponse) := readiness.

(** [rendered] is the recorder's exposition. *)
Definition prometheus_metrics (headers : list (string * string)) (rendered : string)
  : outcome Response AppError :=
  let served := {| rs_status := 200%Z; rs_headers := [("content-type", "text/plain; version=0.0.4")];
                   rs_body := rendered |} in
  match metrics_token cfg with
  | Some expected =>
      let presented := match header_str "authorization" headers with
                       | Some v => unwrap_or "" (strip_prefix "Bearer " v)
                       | None => ""
                       end in
      if constant_time_eq presented (expose expected) then Ok served
      else Err (Unauthorized "Invalid metrics token")
  | None => Ok served
  end.
End Health.

(** ** Accounts ([routes/v1/auth.rs, users.rs]) *)

Record OAuthCallbackQuery := { oq_code : string; oq_state : string }.

Section AuthRoutes.
Context {P : Platform} {R : Remote} (cfg : AppConfig) (p : Parts).

Definition sign_up_email_handler (payload : SignUpEmailRequest) : M (Reply AuthResponse) :=
  do! lift (SignUpEmailRequest_validate payload) in
  let! res := Auth.sign_up_email cfg payload (RequestContext_from cfg p) in
  created_reply res.

Definition sign_in_email_handler (payload : SignInEmailRequest) : M (Reply AuthResponse) :=
  do! lift (SignInEmailRequest_validate payload) in
  let! res := Auth.sign_in_email cfg payload (RequestContext_from cfg p) in
  ok_reply res.

Definition refresh_handler (payload : RefreshTokenRequest) : M (Reply AuthResponse) :=
  let! res := refresh_session cfg (rt_refresh_token payload) (RequestContext_from cfg p) in
  ok_reply res.

Definition sign_out_handler : M (Reply string) :=
  let! session_user := SessionUser_from cfg p in
  let! msg := sign_out (sn_id session_user) (sn_session_id session_user) (RequestContext_from cfg p) in
  ok_reply msg.

Definition sign_out_all_handler : M (Reply string) :=
  let! session_user := SessionUser_from cfg p in
  let! msg := sign_out_all (sn_id session_user) (RequestContext_from cfg p) in
  ok_reply msg.

Definition verify_email_handler (payload : VerifyEmailRequest) : M (Reply string) :=
  let! msg := verify_email payload (RequestContext_from cfg p) in ok_reply msg.

Definition forget_password_handler (payload : ForgetPasswordRequest) : M (Reply string) :=
  do! lift (ForgetPasswordRequest_validate payload) in
  let! msg := forget_password cfg payload in ok_reply msg.

Definition reset_password_handler (payload : ResetPasswordRequest) : M (Reply string) :=
  do! lift (ResetPasswordRequest_validate payload) in
  let! msg := reset_password cfg payload (RequestContext_from cfg p) in ok_reply msg.

(** [routes/v1/users.rs]: the read every profile route shares *)
Definition load_user (user_id : Uuid) : M UserResponse :=
  let! user := sql (sql_read (fun _ d => q_live_user user_id d)) in
  ok_or (NotFound "User not found") (UserResponse_from <$> user).

Definition get_session_handler : M (Reply UserResponse) :=
  let! auth_user := AuthUser_from cfg p in
  let! u := load_user (au_id auth_user) in ok_reply u.

Definition update_user_handler (payload : UpdateUserRequest) : M (Reply UserResponse) :=
  let! auth_user := AuthUser_from cfg p in
  do! lift (UpdateUserRequest_validate payload) in
  let! updated := update_profile (au_id auth_user) payload in
  ok_reply updated.

Definition change_password_handler (payload : ChangePasswordRequest) : M (Reply string) :=
  let! session_user := SessionUser_from cfg p in
  do! lift (ChangePasswordRequest_validate payload) in
  let! msg := change_password cfg (sn_id session_user) (sn_session_id session_user) payload
                (RequestContext_from cfg p) in
  ok_reply msg.

Definition delete_user_handler : M (Reply string) :=
  let! session_user := SessionUser_from cfg p in
  let! msg := delete_account (sn_id session_user) (RequestContext_from cfg p) in
  ok_reply msg.

(** [routes/v1/users.rs]: the same two operations under [/users/me] *)
Definition change_my_password_handler (payload : ChangePasswordRequest) : M (Reply string) :=
  let! session_user := SessionUser_from cfg p in
  do! lift (ChangePasswordRequest_validate payload) in
  let! msg := change_password cfg (sn_id session_user) (sn_session_id session_user) payload
                (RequestContext_from cfg p) in
  ok_reply msg.

Definition delete_me_handler : M (Reply string) :=
  let! session_user := SessionUser_from cfg p in
  let! msg := delete_account (sn_id session_user) (RequestContext_from cfg p) in
  ok_reply msg.

Definition google_auth_handler : M (Reply OAuthUrlResponse) :=
  let! u := get_google_auth_url cfg in ok_reply u.
Definition github_auth_handler : M (Reply OAuthUrlResponse) :=
  let! u := get_github_auth_url cfg in ok_reply u.
Definition google_callback_handler (query : OAuthCallbackQuery) : M (Reply AuthResponse) :=
  let! res := handle_google_callback cfg (oq_code query) (oq_state query) (RequestContext_from cfg p) in
  ok_reply res.
Definition github_callback_handler (query : OAuthCallbackQuery) : M (Reply AuthResponse) :=
  let! res := handle_github_callback cfg (oq_code query) (oq_state query) (RequestContext_from cfg p) in
  ok_reply res.

Definition get_me_handler : M (Reply UserResponse) :=
  let! auth_user := AuthUser_from cfg p in
  do! lift (require_scope auth_user UsersRead) in
  let! u := load_user (au_id auth_user) in ok_reply u.

Definition update_me_handler (payload : UpdateUserRequest) : M (Reply UserResponse) :=
  let! auth_user := AuthUser_from cfg p in
  do! lift (require_scope auth_user UsersWrite) in
  do! lift (UpdateUserRequest_validate payload) in
  let! updated := update_profile (au_id auth_user) payload in
  ok_reply updated.

Definition live_users (d : Db) : list User := List.map ur_user (select ur_live (users d)).
Definition list_users_handler (params : PageParams) : M (Reply (list UserResponse)) :=
  do! AdminUser_from cfg p in
  let! r := list_page u_created_at params live_users in
  meta_reply (List.map UserResponse_from (fst r)) (page_meta params (snd r)).
End AuthRoutes.

(** ** Applications, organizations, keys, webhooks *)

Section TenantRoutes.
Context {P : Platform} {R : Remote} (cfg : AppConfig) (p : Parts).

Definition create_app_handler (payload : CreateAppRequest) : M (Reply App) :=
  let! auth_user := AuthUser_from cfg p in
  do! lift (CreateAppRequest_validate payload) in
  do! lift (require_scope auth_user AppsWrite) in
  let! app := Orgs.create_app (au_id auth_user) payload (RequestContext_from cfg p) in
  created_reply app.

Definition list_apps_handler (params : PageParams) : M (Reply (list App)) :=
  let! auth_user := AuthUser_from cfg p in
  let! r := list_user_apps (au_id auth_user) params in
  meta_reply (fst r) (page_meta params (snd r)).

(** [fetch_one]: the row may have gone since the context was built. *)
Definition get_app_details_handler : M (Reply App) :=
  let! app_ctx := AppContext_from cfg p in
  let! app := sql (sql_read (fun _ d => q_app (ax_app_id app_ctx) d)) in
  let! app := ok_or (DatabaseError row_not_found) app in
  ok_reply app.

Definition create_org_handler (aid : Uuid) (payload : CreateOrgRequest) : M (Reply Organization) :=
  let! auth_user := AuthUser_from cfg p in
  do! lift (CreateOrgRequest_validate payload) in
  do! lift (require_scope auth_user OrgsWrite) in
  let! org := Orgs.create_org aid (au_id auth_user) payload (RequestContext_from cfg p) in
  created_reply org.

Definition list_orgs_handler (aid : Uuid) (params : PageParams) : M (Reply (list Organization)) :=
  let! auth_user := AuthUser_from cfg p in
  let! r := list_app_orgs aid (au_id auth_user) params in
  meta_reply (fst r) (page_meta params (snd r)).

Definition add_org_member_handler (oid : Uuid) (payload : AddOrgMemberRequest) : M (Reply OrgMember) :=
  let! auth_user := AuthUser_from cfg p in
  do! lift (AddOrgMemberRequest_validate payload) in
  do! lift (require_scope auth_user OrgsWrite) in
  let! member := add_member oid (au_id auth_user) payload (RequestContext_from cfg p) in
  created_reply member.

Definition create_api_key_handler (payload : CreateApiKeyRequest) : M (Reply CreateApiKeyResponse) :=
  let! session_user := SessionUser_from cfg p in
  do! lift (CreateApiKeyRequest_validate payload) in
  let! key := create_key (sn_id session_user) payload (RequestContext_from cfg p) in
  created_reply key.

Definition list_api_keys_handler (params : PageParams) : M (Reply (list ApiKeyRecord)) :=
  let! session_user := SessionUser_from cfg p in
  let! r := list_keys (sn_id session_user) params in
  meta_reply (fst r) (page_meta params (snd r)).

Definition delete_api_key_handler (key_id : Uuid) : M (Reply string) :=
  let! session_user := SessionUser_from cfg p in
  do! delete_key key_id (sn_id session_user) (RequestContext_from cfg p) in
  ok_reply "API key revoked successfully".

Definition create_webhook_handler (payload : CreateWebhookRequest) : M (Reply CreateWebhookResponse) :=
  let! auth_user := AuthUser_from cfg p in
  do! lift (CreateWebhookRequest_validate payload) in
  let! webhook := Webhooks.create_webhook (au_id auth_user) payload in
  created_reply webhook.

Definition list_webhooks_handler (aid oid : option Uuid) : M (Reply (list WebhookRecord)) :=
  let! auth_user := AuthUser_from cfg p in
  let! webhooks := Webhooks.list_webhooks (au_id auth_user) aid oid in
  ok_reply webhooks.

Definition delete_webhook_handler (id : Uuid) : M (Reply string) :=
  let! auth_user := AuthUser_from cfg p in
  do! Webhooks.delete_webhook id (au_id auth_user) in
  ok_reply "Webhook deleted successfully".

Definition list_deliveries_handler (id : Uuid) : M (Reply (list WebhookDeliveryRecord)) :=
  let! auth_user := AuthUser_from cfg p in
  let! deliveries := Webhooks.list_deliveries id (au_id auth_user) in
  ok_reply deliveries.
End TenantRoutes.

(** ** Feeds ([routes/v1/notifications.rs, audit.rs, realtime.rs]) *)

Record AuditFilter := { af_user_id : option Uuid; af_action : option string }.

(** [$1 IS NULL OR column = $1] *)
Definition unless_null {A} (eqb : A -> A -> bool) (param column : option A) : bool :=
  match param with None => true | Some _ => opt_eqb eqb column param end.

Section Feeds.
Context {P : Platform} {R : Remote} (cfg : AppConfig) (p : Parts).

(** [params.cursor.as_deref()] decoded, or a 400 *)
Definition decode_cursor (params : CursorParams) : outcome (option Cursor) AppError :=
  match cp_cursor params with
  | None => Ok None
  | Some raw => match decode raw with
                | Some c => Ok (Some c)
                | None => Err (BadRequest "Malformed cursor")
                end
  end.

Definition notification_key (n : Notification) : Cursor :=
  {| cur_created_at := n_created_at n; cur_id := n_id n |}.
Definition notification_feed (uid : Uuid) (oid : option Uuid) (n : Notification) : bool :=
  ((n_user_id n =? uid)%N && unless_null N.eqb oid (n_org_id n))%bool.

Definition list_notifications_handler (params : CursorParams) (oid : option Uuid)
  : M (Reply (list Notification)) :=
  let! auth_user := AuthUser_from cfg p in
  do! lift (require_scope auth_user NotificationsRead) in
  do! (match oid with
       | Some o => do! require_membership o (au_id auth_user) in ret tt
       | None => ret tt
       end) in
  let limit := cursor_limit params in
  let! cursor := lift (decode_cursor params) in
  let! page := sql (sql_read (fun _ d =>
    keyset_page notification_key (notification_feed (au_id auth_user) oid) cursor limit (notifications d))) in
  let! unread := sql (sql_read (fun _ d => Z.of_nat (rows_affected
    (fun n => notification_feed (au_id auth_user) oid n && negb (n_read n))%bool (notifications d)))) in
  let meta := CursorMeta_fields (from_page limit (kp_has_next page) (kp_last page)) in
  meta_reply (kp_rows page) (JObj (meta ++ [("unread_count", JNum unread)])).

Definition mark_notification_read_handler (id : Uuid) : M (Reply string) :=
  let! auth_user := AuthUser_from cfg p in
  do! lift (require_scope auth_user NotificationsWrite) in
  let! msg := mark_as_read (au_id auth_user) id in
  ok_reply msg.

Definition mark_all_notifications_read_handler : M (Reply string) :=
  let! auth_user := AuthUser_from cfg p in
  do! lift (require_scope auth_user NotificationsWrite) in
  let! msg := mark_all_as_read (au_id auth_user) in
  ok_reply msg.

Definition audit_key (l : AuditLog) : Cursor := {| cur_created_at := al_created_at l; cur_id := al_id l |}.
Definition audit_feed (f : AuditFilter) (l : AuditLog) : bool :=
  (unless_null N.eqb (af_user_id f) (al_user_id l)
   && unless_null String.eqb (af_action f) (Some (al_action l)))%bool.

Definition list_audit_logs_handler (params : CursorParams) (filter : AuditFilter)
  : M (Reply (list AuditLog)) :=
  let! admin_user := AdminUser_from cfg p in
  do! lift (AdminUser_require_scope admin_user AuditRead) in
  let limit := cursor_limit params in
  let! cursor := lift (decode_cursor params) in
  let! page := sql (sql_read (fun _ d =>
    keyset_page audit_key (audit_feed filter) cursor limit (audit_logs d))) in
  let meta := from_page limit (kp_has_next page) (kp_last page) in
  meta_reply (kp_rows page) (JObj (CursorMeta_fields meta)).

(** The stream of the caller: [items] is what the broadcast channel yields. *)
Definition sse_stream_handler (items : list (RealtimeEvent + Z)) : M (list SseEvent) :=
  let! auth_user := AuthUser_from cfg p in
  ret (sse_stream (au_id auth_user) items).
End Feeds.

(** ** What a gate lets through *)

(** A machine credential carries the scope; a person needs none. *)
Definition scope_carried (c : Credential) (s : ApiScope) : Prop :=
  match c with CredApiKey _ scopes => s ∈ scopes | CredSession _ | CredSsoRemote _ => True end.

Section GateLemmas.
Context {P : Platform} {R : Remote} (cfg : AppConfig) (p : Parts).

Lemma authenticate_respects_keys : respects only_keys (authenticate cfg p).
Proof.
  assert (Ht : ∀ kid, sql_respects only_keys (sql_touch_key kid)).
  { intros kid t d a d' H. by eapply key_touched_only, sql_touch_key_touched. }
  unfold authenticate, authenticate_key, authenticate_session, authenticate_remote, resolve_key,
    verify_access_token, resolve_session.
  repeat first [ respects_step | apply respects_exec, Ht ].
Qed.

(** Authentication comes first: it refuses, or the handler goes on with the caller. *)
Lemma auth_first {A} (k : AuthUser -> M A) w r w' :
  bind (AuthUser_from cfg p) k w = (r, w') →
  (∃ u w1, authenticated cfg p w u ∧ only_keys (w_db w) (w_db w1) ∧ k u w1 = (r, w')) ∨
  (is_ok r = false ∧ only_keys (w_db w) (w_db w')).
Proof.
  unfold AuthUser_from, bind at 1. intros H. pose proof (authenticate_respects_keys w) as Hk.
  destruct (authenticate cfg p w) as [[u|e|] w1] eqn:E; cbn [snd] in Hk.
  - left. exists u, w1. split; [by apply authenticate_Ok in E as [? _]|]. done.
  - right. by injection H as <- <-.
  - right. by injection H as <- <-.
Qed.

Lemma require_scope_Ok u s x : require_scope u s = Ok x → scope_carried (au_credential u) s.
Proof.
  unfold require_scope, Credential_require_scope, scope_carried.
  destruct (au_credential u) as [|k scopes|]; [done| |done].
  destruct (scope_contains scopes s) eqn:E; [|done]. intros _. by apply scope_contains_elem.
Qed.

(** A pure check in front of the rest. *)
Lemma lift_first {A B} (x : outcome A AppError) (k : A -> M B) w r w' :
  bind (lift x) k w = (r, w') → (∃ a, x = Ok a ∧ k a w = (r, w')) ∨ (is_ok r = false ∧ w' = w).
Proof. rewrite bind_lift. destruct x as [a|e|]; [by eauto | |]; intros [= <- <-]; by right. Qed.

Lemma scope_first {B} u s (k : unit -> M B) w r w' :
  bind (lift (require_scope u s)) k w = (r, w') →
  scope_carried (au_credential u) s ∨ (is_ok r = false ∧ w' = w).
Proof. intros [(x & Hx & _) | H]%lift_first; [left | by right]. by eapply require_scope_Ok. Qed.

Lemma session_first {A} (k : SessionUser -> M A) w r w' :
  bind (SessionUser_from cfg p) k w = (r, w') →
  (∃ u sid, authenticated cfg p w u ∧ au_credential u = CredSession sid) ∨
  (is_ok r = false ∧ only_keys (w_db w) (w_db w')).
Proof.
  unfold SessionUser_from. rewrite bind_assoc.
  intros [(u & w1 & Hu & Hk & H) | H]%auth_first; [|by right].
  rewrite bind_assoc, bind_ok_or in H. unfold session_id in H.
  destruct (au_credential u) as [sid|kid sc|i] eqn:Ec; [left; by exists u, sid | |];
    injection H as <- <-; by right.
Qed.

Lemma admin_first {A} (k : AdminUser -> M A) w r w' :
  bind (AdminUser_from cfg p) k w = (r, w') →
  (∃ u w1 a, authenticated cfg p w u ∧ only_keys (w_db w) (w_db w1) ∧ au_role u = "admin" ∧
     scope_carried (au_credential u) AdminScope ∧ ad_credential a = au_credential u ∧ k a w1 = (r, w')) ∨
  (is_ok r = false ∧ only_keys (w_db w) (w_db w')).
Proof.
  unfold AdminUser_from. rewrite bind_assoc.
  intros [(u & w1 & Hu & Hk & H) | H]%auth_first; [|by right].
  rewrite bind_assoc, bind_guard in H. unfold is_admin in H.
  destruct (au_role u =s "admin") eqn:Er; [|injection H as <- <-; by right].
  apply String.eqb_eq in Er. rewrite bind_assoc in H.
  apply lift_first in H as [(x & Hx & H) | (Hr & ->)]; [|by right].
  left. exists u, w1. eexists. split; [done|]. split; [done|]. split; [done|].
  split; [by eapply require_scope_Ok|]. split; [|exact H]. done.
Qed.
End GateLemmas.

(** ** Reading a feed to its end *)

Section Crawl.
Context {P : Platform} {R : Remote} (cfg : AppConfig) (p : Parts) (filter : AuditFilter).

(** A client of [/audit-logs]: it sends back the [next_cursor] it was given until
    there is none. *)
Fixpoint crawl (fuel : nat) (params : CursorParams) (w : World) : list (list AuditLog) :=
  match fuel with
  | O => []
  | S fuel' =>
      match list_audit_logs_handler cfg p params filter w with
      | (Ok (_, resp), w') =>
          resp_data resp ::
          match as_str (json_index (unwrap_or JNull (resp_meta resp)) "next_cursor") with
          | Some c => crawl fuel' {| cp_limit := cp_limit params; cp_cursor := Some c |} w'
          | None => []
          end
      | _ => []
      end
  end.

(** One page, for an administrator on a healthy database. *)
Lemma audit_page params c a w :
  w_faults w = [] → AdminUser_from cfg p w = (Ok a, w) → AdminUser_require_scope a AuditRead = Ok tt →
  decode_cursor params = Ok c →
  let page := keyset_page audit_key (audit_feed filter) c (cursor_limit params) (audit_logs (w_db w)) in
  list_audit_logs_handler cfg p params filter w =
    (Ok (200%Z, api_with_meta (kp_rows page)
       (JObj (CursorMeta_fields (from_page (cursor_limit params) (kp_has_next page) (kp_last page))))), w).
Proof.
  intros Hf Ha Hs Hc. unfold list_audit_logs_handler. erewrite bind_run_Ok by exact Ha.
  rewrite bind_lift, Hs, bind_lift, Hc. by rewrite bind_read.
Qed.

Lemma crawl_traverse fuel params c a w :
  w_faults w = [] → AdminUser_from cfg p w = (Ok a, w) → AdminUser_require_scope a AuditRead = Ok tt →
  (∀ l, l ∈ audit_logs (w_db w) → decode (encode (audit_key l)) = Some (audit_key l)) →
  decode_cursor params = Ok c →
  crawl fuel params w =
    traverse audit_key fuel (audit_feed filter) c (cursor_limit params) (audit_logs (w_db w)).
Proof.
  intros Hf Ha Hs Hrt. revert params c. induction fuel as [|fuel IH]; intros params c Hc; [done|].
  cbn [crawl traverse]. rewrite (audit_page params c a w) by done. cbn zeta.
  set (pg := keyset_page _ _ _ _ _). cbn [resp_data resp_meta api_with_meta unwrap_or]. f_equal.
  destruct (kp_has_next pg) eqn:En.
  - assert (Hlim : (1 <= cursor_limit params)%Z) by (unfold cursor_limit, clamp; repeat case_match; lia).
    destruct (keyset_last_in audit_key _ c _ _ Hlim En) as (x & Hx & Hlast). fold pg in Hlast.
    rewrite Hlast. cbn. rewrite <- (IH {| cp_limit := cp_limit params; cp_cursor := Some (encode (audit_key x)) |}).
    + done.
    + unfold decode_cursor. cbn [cp_cursor]. by rewrite Hrt.
  - done.
Qed.
End Crawl.

(** C37: the audit trail can be read to its end. On a healthy, well-formed database, an
    administrator who follows the cursors of [/audit-logs] gets every entry the
    filter selects exactly once, newest first, in finitely many requests, provided
    the cursors of the entries survive their encoding. *)
Theorem audit_trail_readable {P : Platform} {R : Remote} (cfg : AppConfig) (p : Parts) (filter : AuditFilter)
    (limit : option Z) (a : AdminUser) (w : World) (fuel : nat) :
  w_faults w = [] → db_wf (w_db w) →
  AdminUser_from cfg p w = (Ok a, w) → AdminUser_require_scope a AuditRead = Ok tt →
  (∀ l, l ∈ audit_logs (w_db w) → decode (encode (audit_key l)) = Some (audit_key l)) →
  (length (audit_logs (w_db w)) < fuel)%nat →
  let read := concat (crawl cfg p filter fuel {| cp_limit := limit; cp_cursor := None |} w) in
  read = merge_sort (not_before audit_key) (select (audit_feed filter) (audit_logs (w_db w))) ∧
  read ≡ₚ select (audit_feed filter) (audit_logs (w_db w)).
Proof.
  intros Hf Hwf Ha Hs Hrt Hfuel. cbn zeta.
  rewrite (crawl_traverse cfg p filter fuel _ None a w) by done. apply traverse_complete; [| |done].
  - pose proof (wf_audit_pk _ Hwf) as Hpk. unfold unique_on, pk in Hpk.
    eapply NoDup_fmap_1 with (f := cur_id). rewrite <- list_fmap_compose.
    enough (omap (λ r, Some (al_id r)) (audit_logs (w_db w)) = cur_id ∘ audit_key <$> audit_logs (w_db w)) as <- by done.
    clear. induction (audit_logs (w_db w)) as [|x l IH]; [done|]. cbn. by rewrite IH.
  - unfold cursor_limit, clamp. repeat case_match; lia.
Qed.

Module TrailExample.
Definition entry (id : Uuid) (action : string) (t : Z) : AuditLog := {|
  al_id := id; al_user_id := Some 1%N; al_action := action; al_resource := "user";
  al_resource_id := None; al_ip_address := None; al_user_agent := None; al_metadata := None;
  al_created_at := t |}.
Definition w : World := world_of
  (set_audit_logs [entry 31%N "user.signed_in" 10; entry 32%N "user.signed_up" 5; entry 33%N "user.signed_in" 20]
    (set_sessions [Example.session 3%N "h3"]
      (set_users [{| ur_user := AdminExample.admin_user; ur_failed_login_attempts := 0;
                     ur_locked_until := None; ur_deleted_at := None |}%Z] empty_db))) 1000000.
Definition filter : AuditFilter := {| af_user_id := None; af_action := Some "user.signed_in" |}.
Definition admin : AdminUser := {|
  ad_id := 1; ad_email := "ada@example.com"; ad_credential := CredSession 3 |}%N.
End TrailExample.

Lemma trail_example_wf : db_wf (w_db TrailExample.w).
Proof. split; unfold unique_on; apply (bool_decide_unpack _); vm_compute; exact I. Qed.

Lemma audit_trail_readable_witness :
  concat (@crawl toy toy_remote Example.cfg CallExample.parts TrailExample.filter 4
    {| cp_limit := Some 1%Z; cp_cursor := None |} TrailExample.w)
  = [TrailExample.entry 33%N "user.signed_in" 20; TrailExample.entry 31%N "user.signed_in" 10].
Proof.
  etrans; [refine (proj1 (@audit_trail_readable toy toy_remote Example.cfg CallExample.parts
    TrailExample.filter (Some 1%Z) TrailExample.admin TrailExample.w 4 _ _ _ _ _ _))|].
  - reflexivity.
  - apply trail_example_wf.
  - vm_compute. reflexivity.
  - reflexivity.
  - apply Forall_forall. repeat apply Forall_cons_2; [vm_compute; reflexivity..|apply Forall_nil_2].
  - vm_compute. lia.
  - vm_compute. reflexivity.
Defined.
