(* ===== verification/FileRoutes.v ===== *)
(** * The file routes ([routes/v1/files.rs])

    Upload, presigned upload, completion, signed download, download, listing and
    deletion, over any storage backend. A multipart body is the list of its
    parts, or of the errors in their place; a part's text is what [field.text()]
    returns, [None] where it fails. *)
From S2P Require Import Prelude RustStr Models Errors Platform World Pagination Scopes Crypto AuditTrail.
From S2P Require Import Auth Schema AuthProofs Orgs ApiKeys Jwks Disk StorageBackend Storage StorageProofs.
From S2P Require Import Http Extractors Validation Routes.

Record SignedAccessQuery := { sa_expires : option Z; sa_signature : option string; sa_key : option string }.

(** A part of the multipart body. *)
Record MultipartField := { mf_name : option string; mf_text : option string; mf_field : Field }.

Section FileRoutes.
Context {P : Platform} {R : Remote} {B : StorageBackend} (cfg : AppConfig) (p : Parts).

Definition json_org (o : option Uuid) : Json :=
  match o with Some o => JStr (uuid_show o) | None => JNull end.
Definition upload_metadata (r : FileRecord) : Json :=
  JObj [("mime_type", JStr (f_mime_type r)); ("size_bytes", JNum (f_size_bytes r));
        ("visibility", JStr (f_visibility r)); ("org_id", json_org (f_org_id r))].

(** The loop over the parts: the last visibility and organization read before the
    first file apply to it, and nothing after it is read. *)
Fixpoint upload_parts (auth_user : AuthUser) (ctx : RequestContext) (visibility : string)
    (org : option Uuid) (parts : list (MultipartField + string)) : M (Reply UploadResponse) :=
  match parts with
  | [] => fail (BadRequest "Missing 'file' multipart field")
  | inr e :: _ => fail (BadRequest ("Failed to parse multipart: " +:+ e))
  | inl field :: rest =>
      match mf_name field with
      | Some name =>
          if name =s "visibility" then
            upload_parts auth_user ctx (unwrap_or "private" (mf_text field)) org rest
          else if name =s "org_id" then
            let trimmed := trim (unwrap_or "" (mf_text field)) in
            if trimmed =s "" then upload_parts auth_user ctx visibility org rest
            else
              let! o := ok_or (BadRequest "org_id must be a UUID") (uuid_parse trimmed) in
              upload_parts auth_user ctx visibility (Some o) rest
          else if name =s "file" then
            let! record := save_upload_field cfg (au_id auth_user) org (mf_field field) visibility in
            do! record_best_effort (Some (au_id auth_user)) "file.uploaded" "file"
                  (Some (uuid_show (f_id record))) ctx (Some (upload_metadata record)) in
            created_reply (UploadResponse_from record)
          else upload_parts auth_user ctx visibility org rest
      | None => upload_parts auth_user ctx visibility org rest
      end
  end.

Definition upload_file_handler (multipart : list (MultipartField + string)) : M (Reply UploadResponse) :=
  let! auth_user := AuthUser_from cfg p in
  do! lift (require_scope auth_user FilesWrite) in
  upload_parts auth_user (RequestContext_from cfg p) "private" None multipart.

Definition create_presigned_url_handler (payload : PresignedUploadRequest) : M (Reply PresignedUploadResponse) :=
  let! auth_user := AuthUser_from cfg p in
  do! lift (require_scope auth_user FilesWrite) in
  do! lift (PresignedUploadRequest_validate payload) in
  let! res := generate_presigned_upload cfg (au_id auth_user) (pu_org_id payload) payload in
  ok_reply res.

Definition upload_signed_handler (signed : SignedAccessQuery) (body : string) : M (Reply string) :=
  match sa_key signed, sa_expires signed, sa_signature signed with
  | Some key, Some expires, Some signature =>
      do! accept_signed_upload cfg key expires signature body in
      ok_reply "Upload stored. Call the complete endpoint to finish."
  | _, _, _ => fail (BadRequest "key, expires and signature are all required")
  end.

Definition complete_upload_handler (id : Uuid) : M (Reply UploadResponse) :=
  let! auth_user := AuthUser_from cfg p in
  do! lift (require_scope auth_user FilesWrite) in
  let! record := complete_upload cfg id (au_id auth_user) (au_role auth_user) in
  do! record_best_effort (Some (au_id auth_user)) "file.upload_completed" "file"
        (Some (uuid_show (f_id record))) (RequestContext_from cfg p)
        (Some (JObj [("size_bytes", JNum (f_size_bytes record)); ("org_id", json_org (f_org_id record))])) in
  ok_reply (UploadResponse_from record).

Definition create_signed_download_url_handler (id : Uuid) : M (Reply SignedUrlResponse) :=
  let! auth_user := AuthUser_from cfg p in
  do! lift (require_scope auth_user FilesRead) in
  let! record := load_record id in
  do! authorize_write record (au_id auth_user) (au_role auth_user) in
  let! url := generate_signed_download_url cfg record in
  ok_reply url.

(** The headers and body of a download. *)
Definition file_response (record : FileRecord) (object : StoredObject) : Response :=
  let h := header_insert "content-type"
             (unwrap_or "application/octet-stream" (header_value (f_mime_type record))) [] in
  let h := header_insert "content-length" (show_Z (so_len object)) h in
  let h := header_insert "content-disposition"
             (unwrap_or "attachment" (header_value ("attachment; filename=" +:+ dquote
                +:+ remove_char 34 (f_original_name record) +:+ dquote))) h in
  let h := match f_checksum_sha256 record with
           | Some c => match header_value (dquote +:+ c +:+ dquote) with
                       | Some etag => header_insert "etag" etag h
                       | None => h
                       end
           | None => h
           end in
  let h := header_insert "cache-control"
             (if f_visibility record =s "public" then "public, max-age=3600" else "private, no-store") h in
  {| rs_status := 200; rs_headers := h; rs_body := so_stream object |}.

Definition get_file_handler (id : Uuid) (signed : SignedAccessQuery) : M Response :=
  let! viewer := OptionalAuthUser_from cfg p in
  let! record := load_record id in
  let! signature_ok := match sa_expires signed, sa_signature signed with
    | Some expires, Some signature => verify_url_signature cfg "GET" (uuid_show id) expires signature
    | _, _ => ret false
    end in
  do! (if negb signature_ok then
         do! (match viewer with Some v => lift (require_scope v FilesRead) | None => ret tt end) in
         authorize_read record ((fun v => (au_id v, au_role v)) <$> viewer)
       else ret tt) in
  let! object := open_file record in
  ret (file_response record object).

Definition list_org_files_handler (oid : Uuid) (params : PageParams) : M (Reply (list UploadResponse)) :=
  let! auth_user := AuthUser_from cfg p in
  do! lift (require_scope auth_user FilesRead) in
  let! r := list_org_files oid (au_id auth_user) (u64_as_i64 (limit params)) (u64_as_i64 (offset params)) in
  meta_reply (List.map UploadResponse_from (fst r)) (page_meta params (snd r)).

Definition delete_file_handler (id : Uuid) : M (Reply string) :=
  let! auth_user := AuthUser_from cfg p in
  do! lift (require_scope auth_user FilesWrite) in
  let! record := load_record id in
  do! authorize_write record (au_id auth_user) (au_role auth_user) in
  let! msg := delete_file record in
  do! record_best_effort (Some (au_id auth_user)) "file.deleted" "file" (Some (uuid_show (f_id record)))
        (RequestContext_from cfg p) None in
  ok_reply msg.
End FileRoutes.

(** ** Lemmas *)

Lemma authorize_read_Ok f viewer w u w' : authorize_read f viewer w = (Ok u, w') →
  may_read (w_db w) f viewer ∧ w_db w' = w_db w ∧ w_now w' = w_now w.
Proof.
  unfold authorize_read, may_read. destruct (f_visibility f =s "public") eqn:Ev.
  { apply String.eqb_eq in Ev. intros [= _ <-]. by split; [left|]. }
  destruct viewer as [[id role]|]; [|done].
  destruct (_ || _)%bool eqn:Eo.
  { intros [= _ <-]. split; [|done]. right. exists id, role. split; [done|].
    apply orb_true_iff in Eo as [Eo|Eo].
    - left. destruct (f_owner_id f); [|done]. apply N.eqb_eq in Eo as ->. done.
    - right. left. by apply String.eqb_eq. }
  destruct (f_org_id f) as [o|] eqn:Ef; [|done]. intros H. ok_step H.
  apply get_user_org_role_Ok in Hs as (-> & Hd & Hn).
  destruct (role_in (w_db w) o id) as [r|] eqn:Er; [|done]. injection H as _ <-.
  split; [|done]. right. exists id, role. split; [done|]. right. right. exists o, r. done.
Qed.

Lemma header_get_some_insert name v h k : k ≠ name →
  header_get k (header_insert name v h) = header_get k h.
Proof. apply header_get_insert_ne. Qed.

Section Download.
Context {P : Platform} {R : Remote} {B : StorageBackend} (cfg : AppConfig) (p : Parts).

Lemma verify_url_signature_run m key e sig w :
  verify_url_signature cfg m key e sig w =
    (Ok match chrono_from_timestamp e with
        | None => false
        | Some t => if (t <=? w_now w)%Z then false
                    else verify_signature (url_signing_key cfg) (signing_payload m key e) sig
        end, w).
Proof. done. Qed.

(** The viewer a download sees, and what finding out may have written. *)
Lemma optional_viewer w v w1 :
  OptionalAuthUser_from cfg p w = (Ok v, w1) →
  (∀ u, v = Some u → authenticated cfg p w u) ∧ only_keys (w_db w) (w_db w1) ∧ w_now w1 = w_now w.
Proof.
  unfold OptionalAuthUser_from. rewrite bind_attempt. intros H.
  pose proof (authenticate_respects_keys cfg p w) as Hk.
  pose proof (authenticate_steady cfg p w) as [Hn _].
  destruct (authenticate cfg p w) as [[u|e|] w2] eqn:E; cbn [snd] in *; [| |done]; injection H as <- <-.
  - split; [|done]. intros u' [= <-]. by apply authenticate_Ok in E as [? _].
  - by split.
Qed.

(** A grant in the query: a signature over this file, unexpired. *)
Definition granted (id : Uuid) (signed : SignedAccessQuery) (t : Timestamp) : Prop :=
  ∃ e sig x, sa_expires signed = Some e ∧ sa_signature signed = Some sig ∧
    chrono_from_timestamp e = Some x ∧ (t < x)%Z ∧
    b64url_decode sig = Some (hmac_sha256 (url_signing_key cfg) (signing_payload "GET" (uuid_show id) e)).

Lemma signature_checked id signed w ok w1 :
  match sa_expires signed, sa_signature signed with
  | Some expires, Some signature => verify_url_signature cfg "GET" (uuid_show id) expires signature
  | _, _ => ret false
  end w = (Ok ok, w1) → w1 = w ∧ (ok = true → granted id signed (w_now w)).
Proof.
  unfold granted. destruct (sa_expires signed) as [e|]; [|by intros [= <- <-]].
  destruct (sa_signature signed) as [sig|]; [|by intros [= <- <-]].
  rewrite verify_url_signature_run. intros [= <- <-]. split; [done|].
  destruct (chrono_from_timestamp e) as [x|] eqn:Ex; [|done].
  destruct (x <=? w_now w)%Z eqn:El; [done|]. intros Hv.
  exists e, sig, x. do 3 (split; [done|]). split; [lia|].
  unfold verify_signature in Hv. destruct (b64url_decode sig) as [m|]; [|done].
  apply String.eqb_eq in Hv. by rewrite Hv.
Qed.

Lemma may_read_keys d ks f v : may_read (set_api_keys ks d) f v → may_read d f v.
Proof. done. Qed.

Lemma file_response_headers rec obj :
  (∃ v, header_get "content-disposition" (rs_headers (file_response rec obj)) = Some v ∧
     starts_with "attachment" v = true) ∧
  header_get "cache-control" (rs_headers (file_response rec obj)) =
    Some (if f_visibility rec =s "public" then "public, max-age=3600" else "private, no-store") ∧
  (∀ v, header_value (f_mime_type rec) = Some v →
     header_get "content-type" (rs_headers (file_response rec obj)) = Some v).
Proof.
  unfold file_response. cbn [rs_headers]. rewrite header_get_insert.
  assert (Hetag : ∀ n h, n ≠ "etag" → header_get n (match f_checksum_sha256 rec with
      | Some c => match header_value (dquote +:+ c +:+ dquote) with
                  | Some etag => header_insert "etag" etag h | None => h end
      | None => h end) = header_get n h).
  { intros n h Hn. destruct (f_checksum_sha256 rec) as [c|]; [|done].
    destruct (header_value _); [|done]. by apply header_get_insert_ne. }
  split; [|split; [done|]].
  - rewrite header_get_insert_ne by done. rewrite Hetag by done. rewrite header_get_insert.
    eexists. split; [done|]. unfold header_value. by destruct (forallb _ _).
  - intros v Hv. rewrite header_get_insert_ne by done. rewrite Hetag by done.
    do 2 rewrite header_get_insert_ne by done. by rewrite header_get_insert, Hv.
Qed.
End Download.

(** ** Properties *)

(** C13: a file leaves only to those who may have it. When a download succeeds,
    whatever failed on the way, the file is ready and not deleted, and either the
    query carries an unexpired signature made for this very file, or the file is
    public, or the caller is authenticated (with the [files:read] scope on an API
    key) as its owner, an administrator or a member of its organization. It is
    always the stored object, served as an attachment, under its stored type, and a private file is
    never cacheable. *)
Theorem download_authorized {P : Platform} {R : Remote} {B : StorageBackend} (cfg : AppConfig) (p : Parts)
    (id : Uuid) (signed : SignedAccessQuery) (w w' : World) (resp : Response) :
  get_file_handler cfg p id signed w = (Ok resp, w') →
  ∃ rec obj w1, q_ready_file id (w_db w) = Some rec ∧
    open_file rec w1 = (Ok obj, w') ∧ resp = file_response rec obj ∧
    (granted cfg id signed (w_now w) ∨
     ∃ viewer, may_read (w_db w) rec ((fun v => (au_id v, au_role v)) <$> viewer) ∧
       ∀ u, viewer = Some u → authenticated cfg p w u ∧ scope_carried (au_credential u) FilesRead) ∧
    (∃ v, header_get "content-disposition" (rs_headers resp) = Some v ∧ starts_with "attachment" v = true) ∧
    (f_visibility rec ≠ "public" → header_get "cache-control" (rs_headers resp) = Some "private, no-store") ∧
    (∀ v, header_value (f_mime_type rec) = Some v → header_get "content-type" (rs_headers resp) = Some v).
Proof.
  intros H. unfold get_file_handler in H. ok_step H.
  apply optional_viewer in Hs as (Hv & (ks & Hks & _) & Hn). ok_step H. unfold load_record in Hs.
  do 1 ok_step Hs. apply ok_or_Ok_inv in Hs as [Hq ->]. rewrite Hks in Hq.
  ok_step H. apply signature_checked in Hs as (-> & Hsig). ok_step H. rename Hs into Hauth.
  ok_step H. injection H as <- <-. exists a0, a3, w1. do 3 (split; [done|]).
  destruct (file_response_headers a0 a3) as (Hdisp & Hc & Ht). split; [|split; [done|split; [|done]]].
  2: { intros Hp. rewrite Hc. apply String.eqb_neq in Hp. by rewrite Hp. }
  rewrite Hn0, Hn in Hsig. destruct a1; [left; by apply Hsig | right]. cbn [negb] in Hauth.
  ok_step Hauth. apply authorize_read_Ok in Hauth as (Hm & _). exists a.
  assert (Hsc : (∀ u, a = Some u → scope_carried (au_credential u) FilesRead) ∧ w_db w4 = w_db w2).
  { destruct a as [u|]; [|by injection Hs0 as _ <-]. unfold lift in Hs0. injection Hs0 as Hs0 <-. split; [|done].
    intros u' [= <-]. by eapply require_scope_Ok. }
  destruct Hsc as [Hsc Hdb]. rewrite Hdb, Hd, Hks in Hm. split; [by apply may_read_keys in Hm|].
  intros u Hu. split; [by apply Hv | by apply Hsc].
Qed.

Module DownloadExample.
Definition w : World :=
  set_disk {["uploads/20.png" := "bytes"]}
    (world_of (set_files [{| fr_record := FileExample2.file "ready"; fr_deleted_at := None |}] (w_db Example.w))
      (w_now Example.w)).
Definition unsigned : SignedAccessQuery := {| sa_key := None; sa_expires := None; sa_signature := None |}.
Definition download : outcome Response AppError * World :=
  @get_file_handler toy toy_remote FileExample.B Example.cfg CallExample.parts 20%N unsigned w.
End DownloadExample.

Lemma download_authorized_witness :
  match fst DownloadExample.download with
  | Ok resp => header_get "cache-control" (rs_headers resp) = Some "private, no-store"
  | _ => False
  end.
Proof.
  assert (Hok : is_ok (fst DownloadExample.download) = true) by (vm_compute; reflexivity).
  destruct DownloadExample.download as [[resp|e|] w'] eqn:E; [|discriminate Hok..].
  destruct (@download_authorized toy toy_remote FileExample.B Example.cfg CallExample.parts 20%N
    DownloadExample.unsigned DownloadExample.w w' resp E) as (rec & obj & w1 & Hq & _ & _ & _ & _ & Hc & _).
  vm_compute in Hq. injection Hq as <-. apply Hc. discriminate.
Defined.
