(* ===== verification/Gates.v ===== *)
(** * Which credential each route takes

    The router's handlers ([routes/v1/mod.rs]), each with the extractor that guards
    it, and the theorem that the guard holds. *)
From stdpp Require Import gmap.
From S2P Require Import Prelude RustStr Models Errors Platform World Pagination Scopes Crypto AuditTrail.
From S2P Require Import Auth Schema AuthProofs Orgs ApiKeys Jwks Oauth Webhooks Realtime Disk StorageBackend.
From S2P Require Import Storage Http Extractors Validation Routes FileRoutes.


Inductive Gate :=
| Anonymous                (* no extractor of identity *)
| AnyCaller                (* AuthUser, no scope *)
| Scoped (s : ApiScope)    (* AuthUser with a scope *)
| SessionOnly              (* SessionUser *)
| AdminOnly (s : option ApiScope).  (* AdminUser, perhaps with a scope *)

Definition void {A} (m : M A) : M unit := let! _ := m in ret tt.

Section Gates.
Context {P : Platform} {R : Remote} {B : StorageBackend} (cfg : AppConfig) (p : Parts).

(** The handlers behind the router, with the gate each stands behind. *)
Inductive route : Gate -> M unit -> Prop :=
| rt_sign_up_email x : route Anonymous (void (sign_up_email_handler cfg p x))
| rt_sign_in_email x : route Anonymous (void (sign_in_email_handler cfg p x))
| rt_refresh x : route Anonymous (void (refresh_handler cfg p x))
| rt_sign_out : route SessionOnly (void (sign_out_handler cfg p))
| rt_sign_out_all : route SessionOnly (void (sign_out_all_handler cfg p))
| rt_verify_email x : route Anonymous (void (verify_email_handler cfg p x))
| rt_forget_password x : route Anonymous (void (forget_password_handler cfg x))
| rt_reset_password x : route Anonymous (void (reset_password_handler cfg p x))
| rt_get_session : route AnyCaller (void (get_session_handler cfg p))
| rt_update_user x : route AnyCaller (void (update_user_handler cfg p x))
| rt_change_password x : route SessionOnly (void (change_password_handler cfg p x))
| rt_delete_user : route SessionOnly (void (delete_user_handler cfg p))
| rt_google_auth : route Anonymous (void (google_auth_handler cfg))
| rt_github_auth : route Anonymous (void (github_auth_handler cfg))
| rt_google_callback x : route Anonymous (void (google_callback_handler cfg p x))
| rt_github_callback x : route Anonymous (void (github_callback_handler cfg p x))
| rt_get_me : route (Scoped UsersRead) (void (get_me_handler cfg p))
| rt_update_me x : route (Scoped UsersWrite) (void (update_me_handler cfg p x))
| rt_change_my_password x : route SessionOnly (void (change_my_password_handler cfg p x))
| rt_delete_me : route SessionOnly (void (delete_me_handler cfg p))
| rt_list_users x : route (AdminOnly None) (void (list_users_handler cfg p x))
| rt_create_app x : route (Scoped AppsWrite) (void (create_app_handler cfg p x))
| rt_list_apps x : route AnyCaller (void (list_apps_handler cfg p x))
| rt_get_app_details : route AnyCaller (void (get_app_details_handler cfg p))
| rt_create_org a x : route (Scoped OrgsWrite) (void (create_org_handler cfg p a x))
| rt_list_orgs a x : route AnyCaller (void (list_orgs_handler cfg p a x))
| rt_add_org_member o x : route (Scoped OrgsWrite) (void (add_org_member_handler cfg p o x))
| rt_create_api_key x : route SessionOnly (void (create_api_key_handler cfg p x))
| rt_list_api_keys x : route SessionOnly (void (list_api_keys_handler cfg p x))
| rt_delete_api_key k : route SessionOnly (void (delete_api_key_handler cfg p k))
| rt_create_webhook x : route AnyCaller (void (create_webhook_handler cfg p x))
| rt_list_webhooks a o : route AnyCaller (void (list_webhooks_handler cfg p a o))
| rt_delete_webhook i : route AnyCaller (void (delete_webhook_handler cfg p i))
| rt_list_deliveries i : route AnyCaller (void (list_deliveries_handler cfg p i))
| rt_list_notifications x o : route (Scoped NotificationsRead) (void (list_notifications_handler cfg p x o))
| rt_mark_notification i : route (Scoped NotificationsWrite) (void (mark_notification_read_handler cfg p i))
| rt_mark_all : route (Scoped NotificationsWrite) (void (mark_all_notifications_read_handler cfg p))
| rt_list_audit_logs x f : route (AdminOnly (Some AuditRead)) (void (list_audit_logs_handler cfg p x f))
| rt_sse_stream l : route AnyCaller (void (sse_stream_handler cfg p l))
| rt_upload_file x : route (Scoped FilesWrite) (void (upload_file_handler cfg p x))
| rt_presigned_url x : route (Scoped FilesWrite) (void (create_presigned_url_handler cfg p x))
| rt_upload_signed s b : route Anonymous (void (upload_signed_handler cfg s b))
| rt_complete_upload i : route (Scoped FilesWrite) (void (complete_upload_handler cfg p i))
| rt_signed_url i : route (Scoped FilesRead) (void (create_signed_download_url_handler cfg p i))
| rt_get_file i s : route Anonymous (void (get_file_handler cfg p i s))
| rt_list_org_files o x : route (Scoped FilesRead) (void (list_org_files_handler cfg p o x))
| rt_delete_file i : route (Scoped FilesWrite) (void (delete_file_handler cfg p i)).

(** What a gate demands of the request it lets through. *)
Definition admitted (g : Gate) (w : World) : Prop :=
  match g with
  | Anonymous => True
  | AnyCaller => ∃ u, authenticated cfg p w u
  | Scoped s => ∃ u, authenticated cfg p w u ∧ scope_carried (au_credential u) s
  | SessionOnly => ∃ u sid, authenticated cfg p w u ∧ au_credential u = CredSession sid
  | AdminOnly s => ∃ u, authenticated cfg p w u ∧ au_role u = "admin" ∧
      scope_carried (au_credential u) AdminScope ∧
      match s with Some s => scope_carried (au_credential u) s | None => True end
  end.
End Gates.

(** ** Properties *)

(** Every door has its lock. Each handler either runs for a request its gate
    admits (a caller the authenticator's specification accepts, carrying the
    scope the route names; a live interactive session where one is demanded; an
    administrator, with an explicit scope on a key, where one is) or answers with
    an error and leaves the database as it was, but for an API key's
    [last_used_at], whatever fails. *)
Lemma route_gated {P : Platform} {R : Remote} {B : StorageBackend} (cfg : AppConfig) (p : Parts) (g : Gate) (h : M unit)
    (w w' : World) (r : outcome unit AppError) :
  route cfg p g h → h w = (r, w') →
  admitted cfg p g w ∨ (is_ok r = false ∧ only_keys (w_db w) (w_db w')).
Proof.
  intros Hr H. destruct Hr; unfold void in H; cbn [admitted]; try (by left).
  all: try (unfold sign_out_handler, sign_out_all_handler, change_password_handler, delete_user_handler,
      change_my_password_handler, delete_me_handler,
      create_api_key_handler, list_api_keys_handler, delete_api_key_handler in H;
    rewrite bind_assoc in H; apply session_first in H as [? | ?]; [by left | by right]).
  all: try (unfold get_session_handler, update_user_handler, list_apps_handler, list_orgs_handler,
      create_webhook_handler, list_webhooks_handler, delete_webhook_handler, list_deliveries_handler,
      sse_stream_handler, get_app_details_handler, AppContext_from in H;
    repeat rewrite bind_assoc in H; apply auth_first in H as [(u & w1 & Hu & _) | ?];
    [left; by exists u | by right]).
  all: try (unfold get_me_handler, update_me_handler, list_notifications_handler,
      mark_notification_read_handler, mark_all_notifications_read_handler, upload_file_handler,
      create_presigned_url_handler, complete_upload_handler, create_signed_download_url_handler,
      list_org_files_handler, delete_file_handler in H;
    rewrite bind_assoc in H; apply auth_first in H as [(u & w1 & Hu & Hk & H) | ?]; [|by right];
    rewrite bind_assoc in H; apply scope_first in H as [Hs | [? ->]]; [left; by exists u | by right]).
  all: try (unfold create_app_handler, create_org_handler, add_org_member_handler in H;
    rewrite bind_assoc in H; apply auth_first in H as [(u & w1 & Hu & Hk & H) | ?]; [|by right];
    rewrite bind_assoc in H; apply lift_first in H as [(y & _ & H) | [? ->]]; [|by right];
    rewrite bind_assoc in H; apply scope_first in H as [Hs | [? ->]]; [left; by exists u | by right]).
  all: unfold list_users_handler, list_audit_logs_handler in H; rewrite bind_assoc in H;
    apply admin_first in H as [(u & w1 & a & Hu & Hk & Ha & Hs & Hc & H) | ?]; [|by right].
  - left. by exists u.
  - rewrite bind_assoc in H. apply lift_first in H as [(y & Hy & _) | [? ->]]; [|by right].
    left. exists u. do 3 (split; [done|]). unfold AdminUser_require_scope in Hy. rewrite Hc in Hy.
    by apply (require_scope_Ok u AuditRead y).
Qed.

(** An administrator's key that only reads files, beside the two of [AdminExample]. *)
Definition Example_reader : World := world_of
  (set_api_keys (AdminExample.key 22%N "reader" "files:read" :: api_keys (w_db AdminExample.w))
     (w_db AdminExample.w)) 1000000.
Definition Example_rename : UpdateUserRequest := {| uu_name := Some "Mallory"; uu_image := None |}.

Definition Example_listing : M unit :=
  void (@list_users_handler toy toy_remote Example.cfg (AdminExample.parts "ops")
    {| pp_page := None; pp_page_size := None |}).

Lemma route_gated_witness :
  ∃ u, @authenticated toy toy_remote Example.cfg (AdminExample.parts "ops") AdminExample.w u ∧
    au_role u = "admin" ∧ scope_carried (au_credential u) AdminScope.
Proof.
  assert (Hok : is_ok (fst (Example_listing AdminExample.w)) = true) by (vm_compute; reflexivity).
  destruct (@route_gated toy toy_remote (LocalBackend "uploads") Example.cfg (AdminExample.parts "ops") (AdminOnly None)
    Example_listing AdminExample.w (snd (Example_listing AdminExample.w))
    (fst (Example_listing AdminExample.w))) as [(u & H1 & H2 & H3 & _) | [H _]].
  - apply rt_list_users.
  - apply surjective_pairing.
  - exists u. split; [exact H1 | split; [exact H2 | exact H3]].
  - rewrite H in Hok. discriminate Hok.
Defined.

(** The alias of the profile route asks for no scope: the key that may only read
    files renames its owner through [/auth/update-user], and not through
    [/users/me]. *)
Example update_user_unscoped :
  fst (@update_me_handler toy toy_remote Example.cfg (AdminExample.parts "reader") Example_rename Example_reader)
    = Err (Forbidden "This API key does not carry the 'users:write' scope") ∧
  u_name <$> q_live_user 1%N (w_db (snd (@update_user_handler toy toy_remote Example.cfg
    (AdminExample.parts "reader") Example_rename Example_reader))) = Some "Mallory".
Proof. split; vm_compute; reflexivity. Qed.

