(* ===== verification/Api.v ===== *)
(** * The application's routes ([routes/mod.rs, routes/v1/mod.rs], the [router()] of each module)

    The route table as the code builds it by nesting, the endpoint behind each
    method and path, and the handler run for a request: its extractors in the
    order of its arguments, then its body, then the rendering. The matching of
    paths (axum), the derived (de)serializers (serde) and the other extractors'
    rejections are parameters. *)
From stdpp Require Import gmap.
From S2P Require Import Prelude RustStr Models Errors Platform World Pagination Scopes Crypto AuditTrail.
From S2P Require Import Auth Schema AuthProofs Orgs ApiKeys Jwks Oauth Webhooks Realtime Disk StorageBackend.
From S2P Require Import Storage Http Extractors Idempotency Middleware Validation Routes FileRoutes Gates.

(** ** The route table *)

Inductive Endpoint :=
| EpHealthCheck | EpLiveness | EpReadiness | EpPrometheusMetrics
| EpCreateApiKey | EpListApiKeys | EpDeleteApiKey
| EpCreateApp | EpListApps | EpGetAppDetails | EpCreateOrg | EpListOrgs | EpAddOrgMember
| EpSignUpEmail | EpSignInEmail | EpRefresh | EpSignOut | EpSignOutAll | EpVerifyEmail | EpForgetPassword
| EpResetPassword | EpGetSession | EpUpdateUser | EpChangePassword | EpDeleteUser | EpGoogleAuth | EpGoogleCallback
| EpGithubAuth | EpGithubCallback
| EpGetMe | EpUpdateMe | EpChangeMyPassword | EpDeleteMe | EpListUsers
| EpUploadFile | EpCreatePresignedUrl | EpUploadSigned | EpCompleteUpload | EpCreateSignedDownloadUrl
| EpGetFile | EpListOrgFiles | EpDeleteFile
| EpListNotifications | EpMarkNotificationRead | EpMarkAllNotificationsRead
| EpSseStream | EpListAuditLogs
| EpCreateWebhook | EpListWebhooks | EpDeleteWebhook | EpListDeliveries
| EpScalarDocs.

#[export] Instance Endpoint_eq_dec : EqDecision Endpoint.
Proof. solve_decision. Defined.

Record Route := { ro_method : string; ro_path : string; ro_endpoint : Endpoint }.
Definition route_to (m p : string) (e : Endpoint) : Route := {| ro_method := m; ro_path := p; ro_endpoint := e |}.
Definition nest (prefix : string) (l : list Route) : list Route :=
  List.map (fun r => route_to (ro_method r) (prefix +:+ ro_path r) (ro_endpoint r)) l.

Definition create_api_key_route : Route := route_to "POST" "/create" EpCreateApiKey.
Definition list_api_keys_route : Route := route_to "GET" "/list" EpListApiKeys.
Definition delete_api_key_route : Route := route_to "DELETE" "/{id}" EpDeleteApiKey.
Definition api_key_router : list Route :=
  [create_api_key_route; list_api_keys_route; delete_api_key_route].

Definition create_app_route : Route := route_to "POST" "" EpCreateApp.
Definition list_apps_route : Route := route_to "GET" "" EpListApps.
Definition get_app_details_route : Route := route_to "GET" "/{app_id}" EpGetAppDetails.
Definition create_org_route : Route := route_to "POST" "/{app_id}/orgs" EpCreateOrg.
Definition list_orgs_route : Route := route_to "GET" "/{app_id}/orgs" EpListOrgs.
Definition add_org_member_route : Route := route_to "POST" "/orgs/{org_id}/members" EpAddOrgMember.
Definition apps_router : list Route :=
  [create_app_route; list_apps_route; get_app_details_route; create_org_route; list_orgs_route;
   add_org_member_route].

Definition sign_up_email_route : Route := route_to "POST" "/sign-up/email" EpSignUpEmail.
Definition sign_in_email_route : Route := route_to "POST" "/sign-in/email" EpSignInEmail.
Definition refresh_route : Route := route_to "POST" "/refresh" EpRefresh.
Definition sign_out_route : Route := route_to "POST" "/sign-out" EpSignOut.
Definition sign_out_all_route : Route := route_to "POST" "/sign-out-all" EpSignOutAll.
Definition verify_email_route : Route := route_to "POST" "/verify-email" EpVerifyEmail.
Definition forget_password_route : Route := route_to "POST" "/forget-password" EpForgetPassword.
Definition reset_password_route : Route := route_to "POST" "/reset-password" EpResetPassword.
Definition get_session_route : Route := route_to "GET" "/get-session" EpGetSession.
Definition update_user_route : Route := route_to "POST" "/update-user" EpUpdateUser.
Definition change_password_route : Route := route_to "POST" "/change-password" EpChangePassword.
Definition delete_user_route : Route := route_to "POST" "/delete-user" EpDeleteUser.
Definition google_auth_route : Route := route_to "GET" "/sign-in/social/google" EpGoogleAuth.
Definition google_callback_route : Route := route_to "GET" "/callback/google" EpGoogleCallback.
Definition github_auth_route : Route := route_to "GET" "/sign-in/social/github" EpGithubAuth.
Definition github_callback_route : Route := route_to "GET" "/callback/github" EpGithubCallback.
Definition auth_router : list Route :=
  [sign_up_email_route; sign_in_email_route; refresh_route; sign_out_route; sign_out_all_route;
   verify_email_route; forget_password_route; reset_password_route; get_session_route; update_user_route;
   change_password_route; delete_user_route; google_auth_route; google_callback_route; github_auth_route;
   github_callback_route].

Definition get_me_route : Route := route_to "GET" "/me" EpGetMe.
Definition update_me_route : Route := route_to "PATCH" "/me" EpUpdateMe.
Definition change_my_password_route : Route := route_to "PATCH" "/me/password" EpChangeMyPassword.
Definition delete_me_route : Route := route_to "DELETE" "/me" EpDeleteMe.
Definition list_users_route : Route := route_to "GET" "" EpListUsers.
Definition users_router : list Route :=
  [get_me_route; update_me_route; change_my_password_route; delete_me_route; list_users_route].

Definition upload_file_route : Route := route_to "POST" "/upload" EpUploadFile.
Definition create_presigned_url_route : Route := route_to "POST" "/presigned-url" EpCreatePresignedUrl.
Definition upload_signed_route : Route := route_to "PUT" "/upload-signed" EpUploadSigned.
Definition complete_upload_route : Route := route_to "POST" "/{id}/complete" EpCompleteUpload.
Definition create_signed_download_url_route : Route := route_to "GET" "/{id}/signed-url" EpCreateSignedDownloadUrl.
Definition list_org_files_route : Route := route_to "GET" "/org/{org_id}" EpListOrgFiles.
Definition get_file_route : Route := route_to "GET" "/{id}" EpGetFile.
Definition delete_file_route : Route := route_to "DELETE" "/{id}" EpDeleteFile.
Definition files_router : list Route :=
  [upload_file_route; create_presigned_url_route; upload_signed_route; complete_upload_route;
   create_signed_download_url_route; list_org_files_route; get_file_route; delete_file_route].

Definition list_notifications_route : Route := route_to "GET" "" EpListNotifications.
Definition mark_notification_read_route : Route := route_to "PATCH" "/{id}/read" EpMarkNotificationRead.
Definition mark_all_notifications_read_route : Route := route_to "PATCH" "/read-all" EpMarkAllNotificationsRead.
Definition notifications_router : list Route :=
  [list_notifications_route; mark_notification_read_route; mark_all_notifications_read_route].

Definition sse_stream_route : Route := route_to "GET" "/stream" EpSseStream.
Definition realtime_router : list Route :=
  [sse_stream_route].

Definition list_audit_logs_route : Route := route_to "GET" "" EpListAuditLogs.
Definition audit_router : list Route :=
  [list_audit_logs_route].

Definition create_webhook_route : Route := route_to "POST" "" EpCreateWebhook.
Definition list_webhooks_route : Route := route_to "GET" "" EpListWebhooks.
Definition delete_webhook_route : Route := route_to "DELETE" "/{id}" EpDeleteWebhook.
Definition list_deliveries_route : Route := route_to "GET" "/{id}/deliveries" EpListDeliveries.
Definition webhooks_router : list Route :=
  [create_webhook_route; list_webhooks_route; delete_webhook_route; list_deliveries_route].

(** [v1::router] *)
Definition v1_router : list Route :=
  nest "/api-keys" api_key_router ++ nest "/auth/api-key" api_key_router ++ nest "/apps" apps_router
  ++ nest "/auth" auth_router ++ nest "/users" users_router ++ nest "/files" files_router
  ++ nest "/notifications" notifications_router ++ nest "/realtime" realtime_router
  ++ nest "/audit-logs" audit_router ++ nest "/webhooks" webhooks_router.

Definition health_check_route : Route := route_to "GET" "/health" EpHealthCheck.
Definition liveness_route : Route := route_to "GET" "/health/live" EpLiveness.
Definition readiness_route : Route := route_to "GET" "/health/ready" EpReadiness.
Definition prometheus_metrics_route : Route := route_to "GET" "/metrics" EpPrometheusMetrics.
Definition app_router : list Route :=
  [health_check_route; liveness_route; readiness_route; prometheus_metrics_route] ++ nest "/api/v1" v1_router.

(** With the documentation page [create_app] merges in. *)
Definition app_table : list Route := app_router ++ [route_to "GET" "/docs" EpScalarDocs].
Definition templates : list string := List.map ro_path app_table.

(** The templates behind the credential limiter: [auth::router().layer(auth_limiter)]. *)
Definition auth_templates : list string := List.map ro_path (nest "/api/v1" (nest "/auth" auth_router)).
Definition auth_limited (template : string) : bool := existsb (String.eqb template) auth_templates.

(** What the method router of a template runs; [HEAD] is answered by [GET]. *)
Definition endpoint_at (template method : string) : option Endpoint :=
  ro_endpoint <$> List.find (fun r => (ro_path r =s template)
    && ((ro_method r =s method) || ((method =s "HEAD") && (ro_method r =s "GET"))))%bool app_table.

(** ** Extraction and rendering *)

(** The types read from bodies and from query strings. *)
Inductive Payload :=
| PSignUp | PSignIn | PRefresh | PVerify | PForget | PReset | PUpdateUser | PChangePassword | PCreateApp
| PCreateOrg | PAddMember | PCreateKey | PCreateWebhook | PPresigned.
Definition payload (c : Payload) : Type :=
  match c with
  | PSignUp => SignUpEmailRequest | PSignIn => SignInEmailRequest | PRefresh => RefreshTokenRequest
  | PVerify => VerifyEmailRequest | PForget => ForgetPasswordRequest | PReset => ResetPasswordRequest
  | PUpdateUser => UpdateUserRequest | PChangePassword => ChangePasswordRequest | PCreateApp => CreateAppRequest
  | PCreateOrg => CreateOrgRequest | PAddMember => AddOrgMemberRequest | PCreateKey => CreateApiKeyRequest
  | PCreateWebhook => CreateWebhookRequest | PPresigned => PresignedUploadRequest
  end.
Record ListWebhookQuery := { lw_app_id : option Uuid; lw_org_id : option Uuid }.
Record NotificationFilter := { nf_org_id : option Uuid }.
Inductive QueryType := QPage | QCursor | QAudit | QNotification | QWebhook | QOAuth | QSigned.
Definition query_type (c : QueryType) : Type :=
  match c with
  | QPage => PageParams | QCursor => CursorParams | QAudit => AuditFilter | QNotification => NotificationFilter
  | QWebhook => ListWebhookQuery | QOAuth => OAuthCallbackQuery | QSigned => SignedAccessQuery
  end.

(** axum's extractors with serde behind them, an error being the rejection's
    response; the derived serializers; the pages and streams of other crates. *)
Class Wire := {
  match_path : list string -> string -> option (string * list string);
  json_body : forall c, Request -> payload c + Response;
  query : forall c, string -> query_type c + Response;
  path_uuid : list string -> Uuid + Response;
  multipart_body : Request -> list (MultipartField + string) + Response;
  bytes_body : Request -> string + Response;
  serialize : forall {T : Type}, T -> Json;
  sse_response : list SseEvent -> Response;
  broadcast : list (RealtimeEvent + Z);
  render_metrics : list Sample -> string;
  docs_page : Response;
  crate_version : string }.

Section Api.
Context {P : Platform} {R : Remote} {B : StorageBackend} {W : Wire} (cfg : AppConfig).

(** [Serialize] of the success envelope; an absent [meta] is skipped. *)
Definition ApiResponse_json {T} (r : ApiResponse T) : Json :=
  JObj ([("success", JBool (resp_success r)); ("data", serialize (resp_data r))]
        ++ match resp_meta r with Some m => [("meta", m)] | None => [] end).
Definition reply_response {T} (r : Reply T) : Response := json_response (fst r) (ApiResponse_json (snd r)).

Definition replying {T} (h : M (Reply T)) : M Response := let! r := h in ret (reply_response r).

(** The extractor before it ran; its own rejection, or on. *)
Definition extract {X} (before : M unit) (r : X + Response) (k : X -> M Response) : M Response :=
  match r with
  | inl x => k x
  | inr rejection => do! before in ret rejection
  end.

Definition health_response (h : M (Z * HealthResponse)) : M Response :=
  let! r := h in ret (json_response (fst r) (serialize (snd r))).

Section Run.
Context (params : list string) (req : Request).
Let p : Parts := rq_parts req.
Let authed : M unit := void (AuthUser_from cfg p).
Let in_session : M unit := void (SessionUser_from cfg p).
Let as_admin : M unit := void (AdminUser_from cfg p).
Let nothing : M unit := ret tt.
Let body {c} (before : M unit) (k : payload c -> M Response) : M Response := extract before (json_body c req) k.
Let ask {c} (before : M unit) (k : query_type c -> M Response) : M Response :=
  extract before (query c (pt_query p)) k.
Let path_id (before : M unit) (k : Uuid -> M Response) : M Response := extract before (path_uuid params) k.
Let may_authenticate : M unit := void (OptionalAuthUser_from cfg p).

Definition endpoint (e : Endpoint) : M Response :=
  match e with
  (* routes/health.rs *)
  | EpHealthCheck => health_response (health_check crate_version)
  | EpLiveness => let! h := liveness crate_version in ret (json_response 200 (serialize h))
  | EpReadiness => health_response (readiness crate_version)
  | EpPrometheusMetrics => fun w => (prometheus_metrics cfg (pt_headers p) (render_metrics (w_metrics w)), w)
  (* routes/v1/api_key.rs *)
  | EpCreateApiKey => body (c := PCreateKey) in_session (fun x => replying (create_api_key_handler cfg p x))
  | EpListApiKeys => ask (c := QPage) in_session (fun q => replying (list_api_keys_handler cfg p q))
  | EpDeleteApiKey => path_id nothing (fun i => replying (delete_api_key_handler cfg p i))
  (* routes/v1/apps.rs *)
  | EpCreateApp => body (c := PCreateApp) authed (fun x => replying (create_app_handler cfg p x))
  | EpListApps => ask (c := QPage) authed (fun q => replying (list_apps_handler cfg p q))
  | EpGetAppDetails => replying (get_app_details_handler cfg p)
  | EpCreateOrg => path_id nothing (fun i => body (c := PCreateOrg) authed (fun x =>
      replying (create_org_handler cfg p i x)))
  | EpListOrgs => path_id nothing (fun i => ask (c := QPage) authed (fun q => replying (list_orgs_handler cfg p i q)))
  | EpAddOrgMember => path_id nothing (fun i => body (c := PAddMember) authed (fun x =>
      replying (add_org_member_handler cfg p i x)))
  (* routes/v1/auth.rs *)
  | EpSignUpEmail => body (c := PSignUp) nothing (fun x => replying (sign_up_email_handler cfg p x))
  | EpSignInEmail => body (c := PSignIn) nothing (fun x => replying (sign_in_email_handler cfg p x))
  | EpRefresh => body (c := PRefresh) nothing (fun x => replying (refresh_handler cfg p x))
  | EpSignOut => replying (sign_out_handler cfg p)
  | EpSignOutAll => replying (sign_out_all_handler cfg p)
  | EpVerifyEmail => body (c := PVerify) nothing (fun x => replying (verify_email_handler cfg p x))
  | EpForgetPassword => body (c := PForget) nothing (fun x => replying (forget_password_handler cfg x))
  | EpResetPassword => body (c := PReset) nothing (fun x => replying (reset_password_handler cfg p x))
  | EpGetSession => replying (get_session_handler cfg p)
  | EpUpdateUser => body (c := PUpdateUser) authed (fun x => replying (update_user_handler cfg p x))
  | EpChangePassword => body (c := PChangePassword) in_session (fun x => replying (change_password_handler cfg p x))
  | EpDeleteUser => replying (delete_user_handler cfg p)
  | EpGoogleAuth => replying (google_auth_handler cfg)
  | EpGoogleCallback => ask (c := QOAuth) nothing (fun q => replying (google_callback_handler cfg p q))
  | EpGithubAuth => replying (github_auth_handler cfg)
  | EpGithubCallback => ask (c := QOAuth) nothing (fun q => replying (github_callback_handler cfg p q))
  (* routes/v1/users.rs *)
  | EpGetMe => replying (get_me_handler cfg p)
  | EpUpdateMe => body (c := PUpdateUser) authed (fun x => replying (update_me_handler cfg p x))
  | EpChangeMyPassword => body (c := PChangePassword) in_session (fun x =>
      replying (change_my_password_handler cfg p x))
  | EpDeleteMe => replying (delete_me_handler cfg p)
  | EpListUsers => ask (c := QPage) as_admin (fun q => replying (list_users_handler cfg p q))
  (* routes/v1/files.rs *)
  | EpUploadFile => extract authed (multipart_body req) (fun parts => replying (upload_file_handler cfg p parts))
  | EpCreatePresignedUrl => body (c := PPresigned) authed (fun x => replying (create_presigned_url_handler cfg p x))
  | EpUploadSigned => ask (c := QSigned) nothing (fun q => extract nothing (bytes_body req) (fun bytes =>
      replying (upload_signed_handler cfg q bytes)))
  | EpCompleteUpload => path_id authed (fun i => replying (complete_upload_handler cfg p i))
  | EpCreateSignedDownloadUrl => path_id authed (fun i => replying (create_signed_download_url_handler cfg p i))
  | EpGetFile => path_id may_authenticate (fun i => ask (c := QSigned) may_authenticate (fun q =>
      get_file_handler cfg p i q))
  | EpListOrgFiles => path_id authed (fun i => ask (c := QPage) authed (fun q =>
      replying (list_org_files_handler cfg p i q)))
  | EpDeleteFile => path_id authed (fun i => replying (delete_file_handler cfg p i))
  (* routes/v1/notifications.rs, realtime.rs, audit.rs *)
  | EpListNotifications => ask (c := QCursor) authed (fun q => ask (c := QNotification) authed (fun f =>
      replying (list_notifications_handler cfg p q (nf_org_id f))))
  | EpMarkNotificationRead => path_id authed (fun i => replying (mark_notification_read_handler cfg p i))
  | EpMarkAllNotificationsRead => replying (mark_all_notifications_read_handler cfg p)
  | EpSseStream => let! events := sse_stream_handler cfg p broadcast in ret (sse_response events)
  | EpListAuditLogs => ask (c := QCursor) as_admin (fun q => ask (c := QAudit) as_admin (fun f =>
      replying (list_audit_logs_handler cfg p q f)))
  (* routes/v1/webhooks.rs *)
  | EpCreateWebhook => body (c := PCreateWebhook) authed (fun x => replying (create_webhook_handler cfg p x))
  | EpListWebhooks => ask (c := QWebhook) authed (fun q =>
      replying (list_webhooks_handler cfg p (lw_app_id q) (lw_org_id q)))
  | EpDeleteWebhook => path_id authed (fun i => replying (delete_webhook_handler cfg p i))
  | EpListDeliveries => path_id authed (fun i => replying (list_deliveries_handler cfg p i))
  | EpScalarDocs => ret docs_page
  end.
End Run.

Definition method_not_allowed : Response := {| rs_status := 405; rs_headers := []; rs_body := "" |}.

(** The body of an answer to [HEAD] is dropped. *)
Definition head_of (req : Request) (r : Response) : Response :=
  if pt_method (rq_parts req) =s "HEAD" then
    {| rs_status := rs_status r; rs_headers := rs_headers r; rs_body := "" |} else r.

(** The method router of a template, behind the credential limiter where it is
    mounted so; [auth_govern] is that limiter's rejection of a key. *)
Definition method_router (template : string) (params : list string) : Request -> M Response := fun req =>
  match endpoint_at template (pt_method (rq_parts req)) with
  | Some e => let! r := respond (fun req => endpoint params req e) req in ret (head_of req r)
  | None => ret method_not_allowed
  end.
Definition mounted (auth_govern : option N -> World -> option Response) (template : string) (params : list string)
  : Request -> M Response := fun req w =>
  match (if auth_limited template then auth_govern (rate_limit_key (trust_proxy_headers cfg) (rq_parts req)) w
         else None) with
  | Some rejection => (Ok rejection, w)
  | None => method_router template params req w
  end.

(** The matched template, and the service behind it. *)
Definition app_routes (auth_govern : option N -> World -> option Response) (req : Request)
  : option (string * (Request -> M Response)) :=
  match match_path templates (pt_path (rq_parts req)) with
  | Some (template, params) => Some (template, mounted auth_govern template params)
  | None => None
  end.
End Api.

(** ** Which credential each endpoint takes *)

Definition gate_of (e : Endpoint) : Gate :=
  match e with
  | EpHealthCheck | EpLiveness | EpReadiness | EpPrometheusMetrics | EpScalarDocs => Anonymous
  | EpSignUpEmail | EpSignInEmail | EpRefresh | EpVerifyEmail | EpForgetPassword | EpResetPassword
  | EpGoogleAuth | EpGoogleCallback | EpGithubAuth | EpGithubCallback => Anonymous
  | EpUploadSigned | EpGetFile => Anonymous
  | EpSignOut | EpSignOutAll | EpChangePassword | EpDeleteUser | EpChangeMyPassword | EpDeleteMe => SessionOnly
  | EpCreateApiKey | EpListApiKeys | EpDeleteApiKey => SessionOnly
  | EpGetSession | EpUpdateUser | EpListApps | EpGetAppDetails | EpListOrgs | EpSseStream => AnyCaller
  | EpCreateWebhook | EpListWebhooks | EpDeleteWebhook | EpListDeliveries => AnyCaller
  | EpGetMe => Scoped UsersRead
  | EpUpdateMe => Scoped UsersWrite
  | EpCreateApp => Scoped AppsWrite
  | EpCreateOrg | EpAddOrgMember => Scoped OrgsWrite
  | EpListNotifications => Scoped NotificationsRead
  | EpMarkNotificationRead | EpMarkAllNotificationsRead => Scoped NotificationsWrite
  | EpUploadFile | EpCreatePresignedUrl | EpCompleteUpload | EpDeleteFile => Scoped FilesWrite
  | EpCreateSignedDownloadUrl | EpListOrgFiles => Scoped FilesRead
  | EpListUsers => AdminOnly None
  | EpListAuditLogs => AdminOnly (Some AuditRead)
  end.

(** The extractors' own rejections are client errors. *)
Record lawful_rejections {W : Wire} : Prop := {
  lr_json : ∀ c req x, json_body c req = inr x → (400 <= rs_status x)%Z;
  lr_query : ∀ c q x, query c q = inr x → (400 <= rs_status x)%Z;
  lr_path : ∀ ps x, path_uuid ps = inr x → (400 <= rs_status x)%Z;
  lr_multipart : ∀ req x, multipart_body req = inr x → (400 <= rs_status x)%Z;
  lr_bytes : ∀ req x, bytes_body req = inr x → (400 <= rs_status x)%Z }.

Section Gated.
Context {P : Platform} {R : Remote} {B : StorageBackend} {W : Wire} (cfg : AppConfig) (Hlaw : lawful_rejections).

(** An error: a 4xx or 5xx, or no answer at all. *)
Definition refused (r : outcome Response AppError) : Prop :=
  match r with Ok x => (400 <= rs_status x)%Z | _ => True end.

Definition gated (p : Parts) (g : Gate) (m : M Response) : Prop := ∀ w r w',
  m w = (r, w') → admitted cfg p g w ∨ (refused r ∧ only_keys (w_db w) (w_db w')).

Lemma gated_anonymous p m : gated p Anonymous m.
Proof. intros w r w' _. by left. Qed.

Lemma gated_pure {X} p g (h : M X) (f : X -> Response) :
  Gates.route cfg p g (void h) → gated p g (let! x := h in ret (f x)).
Proof.
  intros Hr w r w' H. unfold bind in H.
  destruct (h w) as [o w1] eqn:E.
  assert (Hv : void h w = (match o with Ok _ => Ok tt | Err e => Err e | Panic => Panic end, w1)).
  { unfold void, bind. rewrite E. by destruct o. }
  destruct (Gates.route_gated cfg p g (void h) w w1 _ Hr Hv) as [Ha | [Hn Hk]]; [by left | right].
  destruct o as [x|e|]; [done | |]; injection H as <- <-; done.
Qed.

Lemma gated_replying {T} p g (h : M (Reply T)) : Gates.route cfg p g (void h) → gated p g (replying h).
Proof. apply gated_pure. Qed.

Lemma gated_extract {X} p g before (x : X + Response) k :
  respects only_keys before → (∀ rej, x = inr rej → (400 <= rs_status rej)%Z) →
  (∀ a, gated p g (k a)) → gated p g (extract before x k).
Proof.
  intros Hb Hrej Hk. unfold extract. destruct x as [a|rej]; [apply Hk|]. intros w r w' H. right.
  specialize (Hb w). unfold bind in H. destruct (before w) as [[u|e|] w1]; injection H as <- <-; (split; [|done]); [|done..].
  by apply Hrej.
Qed.

Lemma authed_keys p : respects only_keys (void (AuthUser_from cfg p)).
Proof. unfold void. respects_step; [apply authenticate_respects_keys | respects_tac]. Qed.
Lemma in_session_keys p : respects only_keys (void (SessionUser_from cfg p)).
Proof. unfold void, SessionUser_from. respects_tac. apply authenticate_respects_keys. Qed.
Lemma as_admin_keys p : respects only_keys (void (AdminUser_from cfg p)).
Proof.
  unfold void, AdminUser_from. respects_tac. apply authenticate_respects_keys.
Qed.
Lemma nothing_keys : respects only_keys (ret tt).
Proof. respects_tac. Qed.

(** Every endpoint stands behind its gate. *)
Lemma endpoint_gated params req e : gated (rq_parts req) (gate_of e) (endpoint cfg params req e).
Proof.
  destruct Hlaw as [Hj Hq Hp Hm Hb]. destruct e; cbn [gate_of endpoint]; try apply gated_anonymous;
    repeat (apply gated_extract; [first [apply authed_keys | apply in_session_keys | apply as_admin_keys | apply nothing_keys]
      | eauto | intros ?]);
    apply gated_pure; constructor.
Qed.
End Gated.

Section Served.
Context {P : Platform} {R : Remote} {B : StorageBackend} {W : Wire} (cfg : AppConfig) (Hlaw : lawful_rejections).

(** The endpoint the request reaches. *)
Definition reaches (req : Request) (e : Endpoint) : Prop :=
  ∃ template params, match_path templates (pt_path (rq_parts req)) = Some (template, params) ∧
    endpoint_at template (pt_method (rq_parts req)) = Some e.

Lemma error_response_refused e : (400 <= rs_status (error_response e))%Z.
Proof.
  unfold error_response, into_response. destruct e as [| | | | | | | | |x|]; cbn; try lia.
  destruct (is_unique_violation x); cbn; lia.
Qed.

Lemma router_gated auth_govern req w r w' :
  (∀ key w x, auth_govern key w = Some x → (400 <= rs_status x)%Z) →
  router (app_routes cfg auth_govern) req w = (r, w') →
  (∃ e, reaches req e ∧ admitted cfg (rq_parts req) (gate_of e) w) ∨
  (refused r ∧ only_keys (w_db w) (w_db w')).
Proof.
  intros Hg. unfold router, app_routes, reaches. destruct (match_path _ _) as [[template params]|] eqn:Em.
  2: { intros [= <- <-]. right. split; [cbn; lia | by apply only_keys_eq]. }
  unfold track_metrics, respond, mounted, method_router, bind.
  destruct (if auth_limited template then _ else None) as [rej|] eqn:Ea.
  { intros [= <- <-]. right. split; [|by apply only_keys_eq]. destruct (auth_limited template); [|done].
    by eapply Hg. }
  clear Ea. destruct (endpoint_at _ _) as [e|] eqn:Ee.
  2: { intros [= <- <-]. right. split; [cbn; lia | by apply only_keys_eq]. }
  unfold respond. destruct (endpoint cfg params req e w) as [o w1] eqn:E. intros H.
  destruct (endpoint_gated cfg Hlaw params req e w o w1 E) as [Ha | [Hr Hk]].
  - left. exists e. split; [by exists template, params | done].
  - right. assert (Hs : ∀ x, rs_status (head_of req x) = rs_status x) by (intros x; unfold head_of; by destruct (_ =s _)).
    destruct o as [x|er|]; cbn in H; injection H as <- <-; cbn; rewrite ?Hs; (split; [|done]);
      [done | apply error_response_refused | done].
Qed.

(** The guard over the migrated table: a refusal of its own, or the request runs. *)
Lemma migrated_guard next req w r w' :
  idempotency_guard migration_columns cfg next req w = (r, w') →
  ∃ w1, w_db w1 = w_db w ∧ w_now w1 = w_now w ∧ (next req w1 = (r, w') ∨ refused r ∧ w_db w' = w_db w).
Proof.
  unfold idempotency_guard. destruct (is_mutating _); cbn [negb]; [|by exists w; auto].
  destruct (client_key _) as [k|]; [|by exists w; auto].
  assert (Href : ∀ e, (Ok (error_response e), w) = (r, w') → refused r ∧ w_db w' = w_db w).
  { intros e [= <- <-]. split; [apply error_response_refused | done]. }
  destruct (_ <? _)%Z; [intros H; exists w; eauto 6|].
  erewrite bind_run_Ok by apply bearer_identity_run.
  destruct (_ <? _)%Z; [intros H; exists w; eauto 6|].
  match goal with |- context [claim_key ?c cfg ?h] => destruct (claim_migrated cfg h w) as (er & fs & E & _) end.
  unfold bind, attempt. rewrite E. intros H. exists (set_faults fs w). auto.
Qed.
End Served.

Section Whole.
Context {P : Platform} {R : Remote} {B : StorageBackend} {W : Wire} (cfg : AppConfig).
Context (govern auth_govern : option N -> World -> option Response).

(** A limiter, an extractor, the guard and the routes refuse with an error. *)
Definition lawful_limits : Prop :=
  ∀ key w x, govern key w = Some x ∨ auth_govern key w = Some x → (400 <= rs_status x)%Z.

(** Through the outer layers: a refusal on the way, or the routes answer. *)
Lemma through_layers req w r w' : lawful_limits →
  limited migration_columns cfg (app_routes cfg auth_govern) govern req w = (r, w') →
  (refused r ∧ w_db w' = w_db w) ∨
  ∃ o w1, w_db w1 = w_db w ∧ w_now w1 = w_now w ∧ router (app_routes cfg auth_govern) req w1 = (o, w') ∧
    (refused o → refused r).
Proof.
  intros Hg. unfold limited. destruct (govern _ w) as [x|] eqn:Eg.
  { intros [= <- <-]. left. split; [by eapply Hg; left | done]. }
  unfold hardened, security_headers, guarded. intros H.
  destruct (idempotency_guard migration_columns cfg (router (app_routes cfg auth_govern)) req w) as [o w2] eqn:E.
  assert (Hr : w' = w2 ∧ (refused o → refused r)).
  { unfold bind in H. rewrite E in H. destruct o as [y|er|]; injection H as <- <-; done. }
  destruct Hr as [-> Hr]. destruct (migrated_guard cfg _ req w o w2 E) as (w1 & Hd & Hn & [H1 | [Ho Hd2]]).
  - right. by exists o, w1.
  - left. auto.
Qed.
End Whole.

(** C3: every door has its lock, from the request to the response. Whatever request
    arrives at the application over the migrated schema, either the endpoint that
    its method and path reach admits it (a caller the authenticator's specification
    accepts, carrying the scope the endpoint names; a live interactive session where
    one is demanded; an administrator, with an explicit scope on a key, where one is),
    or it is answered with an error, whether by a limiter, the guard, an extractor or
    the handler, and leaves the database as it was, but for an API key's
    [last_used_at], whatever fails. *)
Theorem request_gated {P : Platform} {R : Remote} {B : StorageBackend} {W : Wire} (cfg : AppConfig)
    (govern auth_govern : option N -> World -> option Response) (req : Request) (w w' : World)
    (r : outcome Response AppError) :
  lawful_rejections →
  lawful_limits govern auth_govern →
  limited migration_columns cfg (app_routes cfg auth_govern) govern req w = (r, w') →
  (∃ e w1, reaches req e ∧ w_db w1 = w_db w ∧ w_now w1 = w_now w ∧ admitted cfg (rq_parts req) (gate_of e) w1) ∨
  (refused r ∧ only_keys (w_db w) (w_db w')).
Proof.
  intros Hlaw Hg [[Hr Hd] | (o & w1 & Hd & Hn & H & Hr)]%through_layers; [| |done].
  - right. split; [done | by apply only_keys_eq].
  - destruct (router_gated cfg Hlaw auth_govern req w1 o w' (fun k w x H => Hg k w x (or_intror H)) H)
      as [(e & He & Ha) | [Ho Hk]].
    + left. by exists e, w1.
    + right. rewrite <- Hd. auto.
Qed.

(** ** Which endpoint a request reaches *)

Definition segments (path : string) : list string := split (ascii_of_nat 47) path.
Definition is_param (s : string) : bool := starts_with "{" s.

(** A template's segments over a path's: what its parameters take. *)
Fixpoint tmatch (t p : list string) : option (list string) :=
  match t, p with
  | [], [] => Some []
  | s :: t, x :: p =>
      if is_param s then
        if x =s "" then None else (fun ps => x :: ps) <$> tmatch t p
      else if s =s x then tmatch t p else None
  | _, _ => None
  end.

(** A literal segment is preferred to a parameter, at the first difference. *)
Fixpoint beats (t t' : list string) : bool :=
  match t, t' with
  | s :: t, s' :: t' =>
      if s =s s' then beats t t' else (negb (is_param s) && is_param s')%bool
  | _, _ => false
  end.

(** [t] is the template for the path. *)
Definition best (path t : string) : bool :=
  (is_some (tmatch (segments t) (segments path))
   && forallb (fun t' => (t' =s t) || negb (is_some (tmatch (segments t') (segments path)))
                         || beats (segments t) (segments t')) templates)%bool.

(** What axum documents of its matching, for the templates of the application. *)
Record lawful_match {W : Wire} : Prop := {
  lm_some : ∀ path t ps, match_path templates path = Some (t, ps) →
    t ∈ templates ∧ tmatch (segments t) (segments path) = Some ps ∧
    ∀ t', t' ∈ templates → is_some (tmatch (segments t') (segments path)) = true →
      t' = t ∨ beats (segments t) (segments t') = true;
  lm_none : ∀ path, match_path templates path = None →
    ∀ t, t ∈ templates → tmatch (segments t) (segments path) = None }.

Lemma beats_asym t t' : beats t t' = true → beats t' t = false.
Proof.
  revert t'. induction t as [|s t IH]; intros [|s' t']; cbn; try done.
  destruct (s =s s') eqn:E.
  - rewrite String.eqb_sym, E. apply IH.
  - rewrite String.eqb_sym, E. by destruct (is_param s), (is_param s').
Qed.

Section Dispatch.
Context {W : Wire} (Hlaw : lawful_match).

Lemma best_iff path t : t ∈ templates → best path t = true ↔
  is_some (tmatch (segments t) (segments path)) = true ∧
  ∀ t', t' ∈ templates → is_some (tmatch (segments t') (segments path)) = true →
    t' = t ∨ beats (segments t) (segments t') = true.
Proof.
  intros Ht. unfold best. rewrite andb_true_iff, forallb_forall. split; intros [H1 H2]; (split; [done|]).
  - intros t' Hin Hm. apply list_elem_of_In in Hin. specialize (H2 t' Hin).
    rewrite Hm, orb_false_r in H2. apply orb_true_iff in H2 as [H2|H2]; [|by right].
    left. by apply String.eqb_eq.
  - intros t' Hin. apply list_elem_of_In in Hin.
    destruct (is_some (tmatch (segments t') (segments path))) eqn:Em; [|by rewrite orb_true_r].
    destruct (H2 t' Hin Em) as [-> | ->]; [by rewrite String.eqb_refl | by rewrite orb_true_r].
Qed.

Lemma match_best path t : t ∈ templates →
  (∃ ps, match_path templates path = Some (t, ps)) ↔ best path t = true.
Proof.
  intros Ht. rewrite best_iff by done. split.
  - intros (ps & Hm). apply (lm_some Hlaw) in Hm as (_ & Hm & Hb). by rewrite Hm.
  - intros [Hm Hb]. destruct (match_path templates path) as [[t0 ps]|] eqn:E.
    + exists ps. apply (lm_some Hlaw) in E as (Ht0 & Hm0 & Hb0). f_equal. f_equal.
      destruct (Hb t0 Ht0) as [->|H1]; [by rewrite Hm0 | congruence |].
      destruct (Hb0 t Ht Hm) as [->|H2]; [congruence|]. apply beats_asym in H1. congruence.
    + by rewrite (lm_none Hlaw path E t Ht) in Hm.
Qed.

Lemma match_nothing path : forallb (fun t => negb (is_some (tmatch (segments t) (segments path)))) templates = true →
  match_path templates path = None.
Proof.
  intros H. destruct (match_path templates path) as [[t ps]|] eqn:E; [|done].
  apply (lm_some Hlaw) in E as (Ht & Hm & _). rewrite forallb_forall in H.
  apply list_elem_of_In in Ht. specialize (H t Ht). by rewrite Hm in H.
Qed.
End Dispatch.

(** A template's segments with its parameters filled in. *)
Fixpoint fill (t ps : list string) : option (list string) :=
  match t with
  | [] => match ps with [] => Some [] | _ => None end
  | s :: t =>
      if is_param s then match ps with x :: ps => (fun p => x :: p) <$> fill t ps | [] => None end
      else (fun p => s :: p) <$> fill t ps
  end.

(** A parameter such as an id: not empty, of one segment, no word of the table. *)
Definition words : list string := List.concat (List.map segments templates).
Definition argument (x : string) : bool :=
  (negb (x =s "") && without (ascii_of_nat 47) x && negb (existsb (String.eqb x) words))%bool.

(** Two templates first differ in the names of a parameter: axum refuses them. *)
Fixpoint clash (t t' : list string) : bool :=
  match t, t' with
  | s :: t, s' :: t' => if s =s s' then clash t t' else (is_param s && is_param s')%bool
  | _, _ => false
  end.

Lemma tmatch_fill t ps p : tmatch t p = Some ps → fill t ps = Some p.
Proof.
  revert p ps. induction t as [|s t IH]; intros [|x p] ps; cbn; try done; [by intros [= <-]|].
  destruct (is_param s).
  - destruct (x =s ""); [done|]. intros (ps' & H & ->)%fmap_Some. by rewrite (IH _ _ H).
  - destruct (s =s x) eqn:E; [|done]. apply String.eqb_eq in E as ->. intros H. by rewrite (IH _ _ H).
Qed.

Lemma fill_tmatch t ps p : Forall (λ x, x ≠ "") ps → fill t ps = Some p → tmatch t p = Some ps.
Proof.
  revert p ps. induction t as [|s t IH]; intros p ps Hps; cbn; [by destruct ps; [intros [= <-]|]|].
  destruct (is_param s) eqn:Es.
  - destruct ps as [|x ps]; [done|]. inversion Hps; subst. intros (p' & H & ->)%fmap_Some.
    apply String.eqb_neq in H1 as ->. by rewrite (IH p' ps).
  - intros (p' & H & ->)%fmap_Some. rewrite String.eqb_refl. by apply IH.
Qed.

(** A template filled with such arguments is preferred to any other that matches. *)
Lemma fill_beats t ps p t' : fill t ps = Some p → Forall (λ x, x ∉ t') ps → clash t t' = false →
  is_some (tmatch t' p) = true → t' = t ∨ beats t t' = true.
Proof.
  revert ps p t'. induction t as [|s t IH]; intros ps p t'; cbn.
  { destruct ps; [|done]. intros [= <-] _ _. destruct t'; [by left | done]. }
  intros Hf Hps Hc Hm. destruct t' as [|s' t'].
  { destruct p; [|done]. destruct (is_param s); [destruct ps|]; try done; by apply fmap_Some in Hf as (? & ? & ?). }
  destruct (s =s s') eqn:Ess.
  - apply String.eqb_eq in Ess as <-.
    enough (Ht : t' = t ∨ beats t t' = true) by (destruct Ht as [->|?]; [by left | by right]).
    destruct (is_param s) eqn:Es.
    + destruct ps as [|x ps]; [done|]. apply fmap_Some in Hf as (p' & Hf & ->). inversion Hps; subst.
      apply (IH ps p'); [done | | done |].
      * eapply Forall_impl; [done|]. intros y Hy Hin. apply Hy. by right.
      * cbn in Hm. rewrite Es in Hm. destruct (x =s ""); [done|]. by destruct (tmatch t' p').
    + apply fmap_Some in Hf as (p' & Hf & ->). apply (IH ps p'); [done | | done |].
      * eapply Forall_impl; [done|]. intros y Hy Hin. apply Hy. by right.
      * cbn in Hm. rewrite Es, String.eqb_refl in Hm. done.
  - right. destruct (is_param s) eqn:Es; cbn [negb andb].
    + cbn [andb] in Hc. destruct ps as [|x ps]; [done|]. apply fmap_Some in Hf as (p' & Hf & ->).
      cbn in Hm. rewrite Hc in Hm. destruct (s' =s x) eqn:E; [|done]. apply String.eqb_eq in E as ->.
      inversion Hps as [|? ? Hx]; subst. destruct Hx. by left.
    + apply fmap_Some in Hf as (p' & Hf & ->). cbn in Hm. destruct (is_param s'); [done|].
      rewrite String.eqb_sym, Ess in Hm. done.
Qed.

Lemma fill_without t ps p : Forall (without (ascii_of_nat 47)) t → Forall (without (ascii_of_nat 47)) ps →
  fill t ps = Some p → Forall (without (ascii_of_nat 47)) p.
Proof.
  intros Ht. revert ps p. induction Ht as [|s t Hs Ht IH]; intros ps p Hps; cbn.
  - destruct ps; [by intros [= <-] | done].
  - destruct (is_param s).
    + destruct ps as [|x ps]; [done|]. inversion Hps; subst. intros (p' & H & ->)%fmap_Some. constructor; eauto.
    + intros (p' & H & ->)%fmap_Some. constructor; eauto.
Qed.

(** What of the table is computed: no clash, and every row is found under its
    template and method. *)
Lemma table_consistent :
  forallb (fun t => forallb (fun t' => negb (clash (segments t) (segments t'))) templates) templates = true ∧
  forallb (fun r => match endpoint_at (ro_path r) (ro_method r) with
                    | Some e => bool_decide (e = ro_endpoint r) | None => false end) app_table = true.
Proof. vm_compute. by split. Qed.

Lemma endpoint_at_row r : r ∈ app_table → endpoint_at (ro_path r) (ro_method r) = Some (ro_endpoint r).
Proof.
  intros Hr%list_elem_of_In. destruct table_consistent as [_ H]. rewrite forallb_forall in H. specialize (H r Hr).
  destruct (endpoint_at _ _) as [e|]; [|done]. by apply bool_decide_eq_true in H as ->.
Qed.

Lemma endpoint_at_inv t m e : endpoint_at t m = Some e →
  ∃ r, r ∈ app_table ∧ ro_endpoint r = e ∧ ro_path r = t ∧ (ro_method r = m ∨ m = "HEAD" ∧ ro_method r = "GET").
Proof.
  unfold endpoint_at. intros (r & H & ->)%fmap_Some. apply find_some in H as [Hin H].
  exists r. apply list_elem_of_In in Hin. apply andb_true_iff in H as [Hp Hm]. apply String.eqb_eq in Hp.
  split_and!; [done..|]. apply orb_true_iff in Hm as [Hm|Hm]; [left | right]; bool_facts; by subst.
Qed.

(** A path that fills in a template of the table belongs to that template. *)
Lemma match_filled {W : Wire} t ps p : lawful_match → t ∈ templates → Forall argument ps →
  fill (segments t) ps = Some p → match_path templates (join "/" p) = Some (t, ps).
Proof.
  intros Hlaw Ht Hps Hf.
  assert (Hargs : Forall (λ x, x ≠ "" ∧ without (ascii_of_nat 47) x ∧ x ∉ words) ps).
  { eapply Forall_impl; [done|]. intros x Hx%Is_true_true. unfold argument in Hx. bool_facts. split_and!.
    - done.
    - by apply Is_true_true.
    - intros Hin%list_elem_of_In. assert (existsb (String.eqb x) words = true) by
        (apply existsb_exists; exists x; by rewrite String.eqb_refl). congruence. }
  assert (Hp : segments (join "/" p) = p).
  { apply split_join.
    - intros ->. unfold segments in Hf. pose proof (split_nonempty (ascii_of_nat 47) t). destruct (split _ t) as [|s l]; [done|].
      cbn in Hf. destruct (is_param s); [destruct ps|]; try done; by apply fmap_Some in Hf as (? & ? & ?).
    - eapply fill_without; [apply split_without | | done]. eapply Forall_impl; [done|]. naive_solver. }
  assert (Hm : tmatch (segments t) p = Some ps).
  { apply fill_tmatch; [|done]. eapply Forall_impl; [done|]. naive_solver. }
  destruct (match_best Hlaw (join "/" p) t Ht) as [_ [ps' E]].
  - apply best_iff; [done|]. rewrite Hp. split; [by rewrite Hm|]. intros t' Ht' Hm'.
    destruct (fill_beats (segments t) ps p (segments t') Hf) as [E|E]; [| | done | | by right].
    + eapply Forall_impl; [done|]. intros x (_ & _ & Hx) Hin. apply Hx. apply list_elem_of_In, in_concat.
      exists (segments t'). split; [apply in_map|]; by apply list_elem_of_In.
    + destruct table_consistent as [H _]. rewrite forallb_forall in H. apply list_elem_of_In in Ht, Ht'.
      specialize (H t Ht). rewrite forallb_forall in H. specialize (H t' Ht'). by apply negb_true_iff in H.
    + left. unfold segments in E. rewrite <- (join_split (ascii_of_nat 47) t), <- E. symmetry. apply join_split.
  - rewrite E. f_equal. f_equal. apply (lm_some Hlaw) in E as (_ & E & _). rewrite Hp, Hm in E. congruence.
Qed.

(** Every route is served, and nothing else is. A row of the table runs for every
    request under its method whose path fills in its template, whatever the ids:
    no other row takes the path away, and the handler gets those ids. Whatever
    endpoint a request reaches is that of a row with the request's method ([GET] for
    [HEAD]) and with a template its path fills in. *)
Theorem routes_served {W : Wire} (req : Request) :
  lawful_match →
  (∀ r ps p, r ∈ app_table → Forall argument ps → fill (segments (ro_path r)) ps = Some p →
     pt_path (rq_parts req) = join "/" p → pt_method (rq_parts req) = ro_method r →
     match_path templates (pt_path (rq_parts req)) = Some (ro_path r, ps) ∧
     ∀ e, reaches req e ↔ e = ro_endpoint r) ∧
  (∀ e, reaches req e → ∃ r ps, r ∈ app_table ∧ ro_endpoint r = e ∧
     fill (segments (ro_path r)) ps = Some (segments (pt_path (rq_parts req))) ∧
     (ro_method r = pt_method (rq_parts req) ∨ pt_method (rq_parts req) = "HEAD" ∧ ro_method r = "GET")).
Proof.
  intros Hlaw. split.
  - intros r ps p Hr Hps Hf Hp Hm. rewrite Hp.
    assert (Ht : ro_path r ∈ templates) by (apply list_elem_of_In, in_map; by apply list_elem_of_In).
    pose proof (match_filled _ _ _ Hlaw Ht Hps Hf) as E. split; [done|]. unfold reaches. rewrite Hp, E, Hm.
    intros e. split; [intros (t & qs & [= <- <-] & He) | intros ->; exists (ro_path r), ps; split; [done|]];
      rewrite endpoint_at_row in *; congruence.
  - intros e (t & ps & Hm & He). apply endpoint_at_inv in He as (r & Hr & <- & <- & Hmeth).
    exists r, ps. apply (lm_some Hlaw) in Hm as (_ & Hm & _). split_and!; [done..| by apply tmatch_fill | done].
Qed.

(** ** A concrete wire

    Paths matched by the first template, most literal first; no body or query
    understood but the empty query of a listing. *)
Fixpoint insert_template (t : string) (l : list string) : list string :=
  match l with
  | [] => [t]
  | t' :: r => if beats (segments t) (segments t') then t :: l else t' :: insert_template t r
  end.
Definition by_literals (l : list string) : list string := fold_right insert_template [] l.

Fixpoint first_match (l : list string) (path : string) : option (string * list string) :=
  match l with
  | [] => None
  | t :: r => match tmatch (segments t) (segments path) with
              | Some ps => Some (t, ps)
              | None => first_match r path
              end
  end.

(** Two templates that some path matches both. *)
Fixpoint overlap (t t' : list string) : bool :=
  match t, t' with
  | [], [] => true
  | s :: t, s' :: t' => ((is_param s || is_param s' || (s =s s')) && overlap t t')%bool
  | _, _ => false
  end.

Fixpoint prioritized (l : list string) : bool :=
  match l with
  | [] => true
  | t :: r => (forallb (fun t' => (t' =s t) || negb (overlap (segments t) (segments t'))
                                  || beats (segments t) (segments t')) r && prioritized r)%bool
  end.

Lemma tmatch_overlap t t' p ps ps' : tmatch t p = Some ps → tmatch t' p = Some ps' → overlap t t' = true.
Proof.
  revert t' ps ps' p. induction t as [|s t IH]; intros [|s' t'] ps ps' [|x p]; cbn; try done.
  destruct (is_param s) eqn:E1, (is_param s') eqn:E2; cbn [orb].
  - destruct (x =s ""); [done|]. intros (? & H & _)%fmap_Some (? & H' & _)%fmap_Some. by eapply IH.
  - destruct (x =s ""); [done|]. destruct (s' =s x); [|done]. intros (? & H & _)%fmap_Some H'. by eapply IH.
  - destruct (x =s ""); [done|]. destruct (s =s x); [|done]. intros H (? & H' & _)%fmap_Some. by eapply IH.
  - destruct (s =s x) eqn:Es, (s' =s x) eqn:Es'; try done. apply String.eqb_eq in Es as ->.
    apply String.eqb_eq in Es' as ->. rewrite String.eqb_refl. cbn [andb]. by apply IH.
Qed.

Lemma first_match_lawful l path : prioritized l = true →
  match first_match l path with
  | Some (t, ps) => t ∈ l ∧ tmatch (segments t) (segments path) = Some ps ∧
      ∀ t', t' ∈ l → is_some (tmatch (segments t') (segments path)) = true →
        t' = t ∨ beats (segments t) (segments t') = true
  | None => ∀ t, t ∈ l → tmatch (segments t) (segments path) = None
  end.
Proof.
  induction l as [|t r IH]; cbn [prioritized first_match]; [by intros _ t H%elem_of_nil|].
  rewrite andb_true_iff, forallb_forall. intros [Hp Hr]. specialize (IH Hr).
  destruct (tmatch (segments t) (segments path)) as [ps|] eqn:Et.
  - split_and!; [by left | done |]. intros t' [->|Hin]%elem_of_cons Hm; [by left|].
    destruct (tmatch (segments t') (segments path)) as [ps'|] eqn:Et'; [|done].
    apply list_elem_of_In in Hin. specialize (Hp t' Hin). rewrite (tmatch_overlap _ _ _ _ _ Et Et') in Hp.
    rewrite orb_false_r in Hp. apply orb_true_iff in Hp as [Hp|Hp]; [left; by apply String.eqb_eq | by right].
  - destruct (first_match r path) as [[t0 ps]|].
    + destruct IH as (Hin & Hm & Hb). split_and!; [by right | done |]. intros t' [->|Hin']%elem_of_cons Hm'; [by rewrite Et in Hm'|].
      by apply Hb.
    + intros t' [->|Hin]%elem_of_cons; [done | by apply IH].
Qed.

Definition not_understood : Response := {| rs_status := 422; rs_headers := []; rs_body := "" |}.
Definition toy_query (c : QueryType) (q : string) : query_type c + Response :=
  match c with
  | QPage => inl {| pp_page := None; pp_page_size := None |}
  | QCursor => inl {| cp_limit := None; cp_cursor := None |}
  | QAudit => inl {| af_user_id := None; af_action := None |}
  | _ => inr not_understood
  end.
Definition toy_wire : Wire := {|
  match_path ts := first_match (by_literals ts);
  json_body _ _ := inr not_understood;
  query := toy_query;
  path_uuid ps := match ps with
                  | [s] => match toy_parse_uuid s with Some u => inl u | None => inr not_understood end
                  | _ => inr not_understood
                  end;
  multipart_body _ := inr not_understood;
  bytes_body r := inl (rq_body r);
  serialize _ _ := JNull;
  sse_response _ := {| rs_status := 200; rs_headers := []; rs_body := "" |};
  broadcast := [];
  render_metrics _ := "";
  docs_page := {| rs_status := 200; rs_headers := []; rs_body := "" |};
  crate_version := "1.0.0" |}.

Lemma toy_wire_matches : @lawful_match toy_wire.
Proof.
  assert (Hin : ∀ t, t ∈ by_literals templates ↔ t ∈ templates).
  { intros t. rewrite !list_elem_of_In. split; intros H.
    - assert (Hall : forallb (fun t => existsb (String.eqb t) templates) (by_literals templates) = true)
        by (vm_compute; reflexivity).
      rewrite forallb_forall in Hall. specialize (Hall t H). apply existsb_exists in Hall as (x & Hx & E).
      apply String.eqb_eq in E as ->. done.
    - assert (Hall : forallb (fun t => existsb (String.eqb t) (by_literals templates)) templates = true)
        by (vm_compute; reflexivity).
      rewrite forallb_forall in Hall. specialize (Hall t H). apply existsb_exists in Hall as (x & Hx & E).
      apply String.eqb_eq in E as ->. done. }
  assert (Hp : prioritized (by_literals templates) = true) by (vm_compute; reflexivity).
  split; intros path; pose proof (first_match_lawful _ path Hp) as H; cbn [match_path toy_wire].
  - intros t ps E. rewrite E in H. destruct H as (H1 & H2 & H3). split_and!; [by apply Hin | done |].
    intros t' Ht'. apply H3. by apply Hin.
  - intros E t Ht. rewrite E in H. apply H. by apply Hin.
Qed.

Lemma toy_wire_rejects : @lawful_rejections toy_wire.
Proof.
  split; cbn [json_body query path_uuid multipart_body bytes_body toy_wire].
  - intros c req x [= <-]. cbn. lia.
  - intros [] q x; cbn [toy_query]; intros [= <-]; cbn; lia.
  - intros [|s [|s' ps]] x; [intros [= <-]; cbn; lia | | intros [= <-]; cbn; lia].
    destruct (toy_parse_uuid s); intros [= <-]. cbn. lia.
  - intros req x [= <-]. cbn. lia.
  - intros req x [=].
Qed.

Module ApiExample.
Definition req (method path key : string) : Request :=
  {| rq_parts := {| pt_method := method; pt_path := path; pt_query := "";
                    pt_headers := pt_headers (AdminExample.parts key); pt_peer := None |}; rq_body := "" |}.
Definition run (r : Request) : outcome Response AppError * World :=
  @limited toy migration_columns Example.cfg
    (@app_routes toy toy_remote (LocalBackend "uploads") toy_wire Example.cfg (fun _ _ => None)) (fun _ _ => None) r AdminExample.w.
Definition status (r : Request) : Z := match fst (run r) with Ok x => rs_status x | _ => 0 end.
End ApiExample.

(** The listing of users: an administrator's key, a key without the admin scope, no
    key; a wrong method, an unknown path, a path served twice. *)
Example api_statuses :
  List.map ApiExample.status
    [ApiExample.req "GET" "/api/v1/users" "ops"; ApiExample.req "GET" "/api/v1/users" "ci";
     ApiExample.req "GET" "/api/v1/users" "nobody"; ApiExample.req "POST" "/api/v1/users" "ops";
     ApiExample.req "GET" "/api/v1/user" "ops"; ApiExample.req "DELETE" "/api/v1/auth/api-key/7" "ops"]
  = [200; 403; 401; 405; 404; 403]%Z.
Proof. vm_compute. reflexivity. Qed.

Lemma request_gated_witness :
  ∃ e w1, @reaches toy_wire (ApiExample.req "GET" "/api/v1/users" "ops") e ∧ w_db w1 = w_db AdminExample.w ∧
    w_now w1 = w_now AdminExample.w ∧
    @admitted toy toy_remote Example.cfg (rq_parts (ApiExample.req "GET" "/api/v1/users" "ops")) (gate_of e) w1.
Proof.
  assert (Hs : ApiExample.status (ApiExample.req "GET" "/api/v1/users" "ops") = 200%Z) by (vm_compute; reflexivity).
  unfold ApiExample.status in Hs. unfold ApiExample.run in Hs.
  destruct (@request_gated toy toy_remote (LocalBackend "uploads") toy_wire Example.cfg (fun _ _ => None) (fun _ _ => None)
    (ApiExample.req "GET" "/api/v1/users" "ops") AdminExample.w
    (snd (ApiExample.run (ApiExample.req "GET" "/api/v1/users" "ops")))
    (fst (ApiExample.run (ApiExample.req "GET" "/api/v1/users" "ops")))) as [H | [Hr _]].
  - apply toy_wire_rejects.
  - intros key w x [H|H]; discriminate H.
  - apply surjective_pairing.
  - exact H.
  - exfalso. unfold ApiExample.run in Hr. destruct (fst _) as [x|e|]; cbn in Hr, Hs; [|discriminate Hs..].
    rewrite Hs in Hr. lia.
Defined.

Lemma routes_served_witness :
  @reaches toy_wire (ApiExample.req "GET" "/api/v1/files/org/7" "") EpListOrgFiles.
Proof.
  assert (Hin : route_to "GET" "/api/v1/files/org/{org_id}" EpListOrgFiles ∈ app_table)
    by (apply list_elem_of_In; vm_compute; tauto).
  apply (proj2 (proj1 (@routes_served toy_wire (ApiExample.req "GET" "/api/v1/files/org/7" "") toy_wire_matches)
    _ ["7"] [""; "api"; "v1"; "files"; "org"; "7"] Hin ltac:(by repeat constructor) eq_refl eq_refl eq_refl)).
  reflexivity.
Defined.

(** No two routes share a method and a template. *)
Example table_distinct :
  NoDup (List.map (fun r => (ro_method r, ro_path r)) app_table) ∧ length app_table = 55.
Proof. split; [apply (bool_decide_unpack _)|]; vm_compute; done. Qed.

(** The link in a verification mail is followed with [GET], under which nothing is
    registered: whatever its token, it is answered with 405 (or refused by the
    limiter) and verifies nothing. *)
Lemma verification_link_refused {P : Platform} {R : Remote} {B : StorageBackend} {W : Wire} (cfg : AppConfig)
    (auth_govern : option N -> World -> option Response) (req : Request) (w : World) :
  lawful_match → pt_method (rq_parts req) = "GET" → pt_path (rq_parts req) = "/api/v1/auth/verify-email" →
  ∃ r w', router (app_routes cfg auth_govern) req w = (Ok r, w') ∧ w_db w' = w_db w ∧
    (r = method_not_allowed ∨ ∃ key, auth_govern key w = Some r).
Proof.
  intros Hlaw Hm Hp. unfold router, app_routes. rewrite Hp.
  assert (Ht : "/api/v1/auth/verify-email" ∈ templates) by (apply list_elem_of_In; vm_compute; tauto).
  destruct (match_best Hlaw "/api/v1/auth/verify-email" _ Ht) as [_ [ps ->]]; [vm_compute; reflexivity|].
  unfold track_metrics, respond, mounted, method_router, bind. rewrite Hm.
  assert (endpoint_at "/api/v1/auth/verify-email" "GET" = None) as -> by (vm_compute; reflexivity).
  assert (auth_limited "/api/v1/auth/verify-email" = true) as -> by (vm_compute; reflexivity).
  destruct (auth_govern _ w) as [rej|] eqn:E; eexists _, _; (split; [reflexivity|]); (split; [done|]); eauto.
Qed.

(** The alias under [/users/me] that compares the current password is not behind the
    credential limiter. *)
Example password_alias_unlimited :
  auth_limited "/api/v1/auth/change-password" = true ∧ auth_limited "/api/v1/users/me/password" = false.
Proof. vm_compute. by split. Qed.
