(* ===== verification/OpenApi.v ===== *)
(** * The published description ([lib.rs: ApiDoc], the [utoipa::path] attributes, [bin/export_openapi.rs])

    The OpenAPI document as the code declares it: one operation per handler, read
    off the attribute above it, the document's own header, the modifier that adds
    the security scheme, the paths collected by the same nesting as the routes,
    and the binary that writes it to a file. That the description is true of the
    program is proved in [Documented]. *)
From stdpp Require Import gmap.
From S2P Require Import Prelude RustStr Models Errors Platform World Oauth Extractors Routes Config Api.

(** ** Descriptions *)

(** Names of data types, and the types they name. *)
Inductive Schema :=
| SString | SHealthResponse | SCreateApiKeyResponse | SApiKeyRecord | SApp | SOrganization | SOrgMember | SAuthResponse
| SUserResponse | SOAuthUrlResponse | SUploadResponse | SPresignedUploadResponse | SSignedUrlResponse
| SNotification | SAuditLog | SCreateWebhookResponse | SWebhookRecord | SWebhookDeliveryRecord
| SVec (s : Schema).
Fixpoint schema_type (s : Schema) : Type :=
  match s with
  | SString => string
  | SHealthResponse => HealthResponse
  | SCreateApiKeyResponse => CreateApiKeyResponse
  | SApiKeyRecord => ApiKeyRecord
  | SApp => App
  | SOrganization => Organization
  | SOrgMember => OrgMember
  | SAuthResponse => AuthResponse
  | SUserResponse => UserResponse
  | SOAuthUrlResponse => OAuthUrlResponse
  | SUploadResponse => UploadResponse
  | SPresignedUploadResponse => PresignedUploadResponse
  | SSignedUrlResponse => SignedUrlResponse
  | SNotification => Notification
  | SAuditLog => AuditLog
  | SCreateWebhookResponse => CreateWebhookResponse
  | SWebhookRecord => WebhookRecord
  | SWebhookDeliveryRecord => WebhookDeliveryRecord
  | SVec s => list (schema_type s)
  end.

Inductive Body :=
| Envelope (s : Schema)       (* [ApiResponse<S>] *)
| Bare (s : Schema)
| ErrorBody                   (* [ApiErrorResponse] *)
| Raw (content_type : string)
| NoBody.
Record ResponseDoc := { rd_status : Z; rd_description : string; rd_body : Body }.
Definition respond_with (status : Z) (description : string) (body : Body) : ResponseDoc :=
  {| rd_status := status; rd_description := description; rd_body := body |}.
Inductive ParamDoc :=
| PathParam (name description : string)
| QueryParam (name description : string)
| QueryStruct (c : QueryType).   (* [IntoParams] of a struct *)
Inductive RequestDoc := JsonRequest (c : Payload) | RawRequest (content_type : string).
Record Operation := {
  op_id : string; op_tag : string; op_security : list string; op_params : list ParamDoc;
  op_request : option RequestDoc; op_responses : list ResponseDoc }.

Inductive SecurityScheme := HttpBearer (bearer_format : string).
Record Components := {
  co_schemas : list string; co_security_schemes : list (string * SecurityScheme) }.
Record DocumentedPath := { dp_path : string; dp_method : string; dp_operation : Operation }.
Record OpenApi := {
  oa_title : string; oa_version : string; oa_description : string; oa_components : option Components;
  oa_tags : list (string * string); oa_paths : list DocumentedPath }.

(** ** Observability ([routes/health.rs]) *)

Definition liveness_op : Operation := {|
  op_id := "liveness"; op_tag := "Observability"; op_security := [];
  op_params := [];
  op_request := None;
  op_responses :=
    [respond_with 200 "Process is alive" (Bare SHealthResponse)] |}.

Definition readiness_op : Operation := {|
  op_id := "readiness"; op_tag := "Observability"; op_security := [];
  op_params := [];
  op_request := None;
  op_responses :=
    [respond_with 200 "Ready to serve" (Bare SHealthResponse);
     respond_with 503 "Dependencies unavailable" (Bare SHealthResponse)] |}.

Definition health_check_op : Operation := {|
  op_id := "health_check"; op_tag := "Observability"; op_security := [];
  op_params := [];
  op_request := None;
  op_responses :=
    [respond_with 200 "System health" (Bare SHealthResponse);
     respond_with 503 "Service unavailable" (Bare SHealthResponse)] |}.

Definition prometheus_metrics_op : Operation := {|
  op_id := "prometheus_metrics"; op_tag := "Observability"; op_security := ["bearer_auth"];
  op_params := [];
  op_request := None;
  op_responses :=
    [respond_with 200 "Prometheus exposition format" (Raw "text/plain");
     respond_with 401 "Missing or invalid metrics token" NoBody] |}.

(** ** API keys ([routes/v1/api_key.rs]) *)

Definition create_api_key_op : Operation := {|
  op_id := "create_api_key"; op_tag := "API Keys"; op_security := ["bearer_auth"];
  op_params := [];
  op_request := Some (JsonRequest PCreateKey);
  op_responses :=
    [respond_with 201 "API key created successfully" (Envelope SCreateApiKeyResponse);
     respond_with 400 "Validation error" ErrorBody;
     respond_with 401 "Unauthorized" ErrorBody] |}.

Definition list_api_keys_op : Operation := {|
  op_id := "list_api_keys"; op_tag := "API Keys"; op_security := ["bearer_auth"];
  op_params := [QueryStruct QPage];
  op_request := None;
  op_responses :=
    [respond_with 200 "List of API keys for the current user" (Envelope (SVec SApiKeyRecord));
     respond_with 401 "Unauthorized" ErrorBody] |}.

Definition delete_api_key_op : Operation := {|
  op_id := "delete_api_key"; op_tag := "API Keys"; op_security := ["bearer_auth"];
  op_params := [PathParam "id" "API Key ID to revoke"];
  op_request := None;
  op_responses :=
    [respond_with 200 "API key revoked successfully" (Envelope SString);
     respond_with 404 "API key not found" ErrorBody;
     respond_with 401 "Unauthorized" ErrorBody] |}.

(** ** Applications and organizations ([routes/v1/apps.rs]) *)

Definition create_app_op : Operation := {|
  op_id := "create_app"; op_tag := "Applications"; op_security := ["bearer_auth"];
  op_params := [];
  op_request := Some (JsonRequest PCreateApp);
  op_responses :=
    [respond_with 201 "Application created successfully" (Envelope SApp);
     respond_with 400 "Validation error" ErrorBody;
     respond_with 409 "App slug already exists" ErrorBody;
     respond_with 401 "Unauthorized" ErrorBody] |}.

Definition list_apps_op : Operation := {|
  op_id := "list_apps"; op_tag := "Applications"; op_security := ["bearer_auth"];
  op_params := [QueryStruct QPage];
  op_request := None;
  op_responses :=
    [respond_with 200 "List of applications owned by current user" (Envelope (SVec SApp));
     respond_with 401 "Unauthorized" ErrorBody] |}.

Definition get_app_details_op : Operation := {|
  op_id := "get_app_details"; op_tag := "Applications"; op_security := ["bearer_auth"];
  op_params := [PathParam "app_id" "Application ID"];
  op_request := None;
  op_responses :=
    [respond_with 200 "Application details" (Envelope SApp);
     respond_with 401 "Unauthorized" ErrorBody;
     respond_with 403 "Forbidden: Caller does not have access to this app" ErrorBody;
     respond_with 404 "Application not found" ErrorBody] |}.

Definition create_org_op : Operation := {|
  op_id := "create_org"; op_tag := "Organizations"; op_security := ["bearer_auth"];
  op_params := [PathParam "app_id" "Target Application ID"];
  op_request := Some (JsonRequest PCreateOrg);
  op_responses :=
    [respond_with 201 "Organization created successfully" (Envelope SOrganization);
     respond_with 400 "Validation error" ErrorBody;
     respond_with 404 "App not found or not owned by user" ErrorBody;
     respond_with 409 "Org slug already exists in this app" ErrorBody;
     respond_with 401 "Unauthorized" ErrorBody] |}.

Definition list_orgs_op : Operation := {|
  op_id := "list_orgs"; op_tag := "Organizations"; op_security := ["bearer_auth"];
  op_params := [PathParam "app_id" "Target Application ID";
                QueryStruct QPage];
  op_request := None;
  op_responses :=
    [respond_with 200 "List of organizations under this app (Owner only)" (Envelope (SVec SOrganization));
     respond_with 404 "App not found or not owned by user" ErrorBody;
     respond_with 401 "Unauthorized" ErrorBody] |}.

Definition add_org_member_op : Operation := {|
  op_id := "add_org_member"; op_tag := "Organizations"; op_security := ["bearer_auth"];
  op_params := [PathParam "org_id" "Target Organization ID"];
  op_request := Some (JsonRequest PAddMember);
  op_responses :=
    [respond_with 201 "Member added to organization" (Envelope SOrgMember);
     respond_with 400 "Validation error" ErrorBody;
     respond_with 403 "Forbidden: Caller must be Org Admin or Owner" ErrorBody;
     respond_with 404 "Organization not found or caller not a member" ErrorBody;
     respond_with 409 "User is already an org member" ErrorBody;
     respond_with 401 "Unauthorized" ErrorBody] |}.

(** ** Accounts ([routes/v1/auth.rs]) *)

Definition sign_up_email_op : Operation := {|
  op_id := "sign_up_email"; op_tag := "Authentication"; op_security := [];
  op_params := [];
  op_request := Some (JsonRequest PSignUp);
  op_responses :=
    [respond_with 201 "User registered" (Envelope SAuthResponse);
     respond_with 409 "User already exists" ErrorBody;
     respond_with 422 "Validation error" ErrorBody] |}.

Definition sign_in_email_op : Operation := {|
  op_id := "sign_in_email"; op_tag := "Authentication"; op_security := [];
  op_params := [];
  op_request := Some (JsonRequest PSignIn);
  op_responses :=
    [respond_with 200 "Signed in" (Envelope SAuthResponse);
     respond_with 401 "Invalid credentials" ErrorBody;
     respond_with 429 "Account temporarily locked" ErrorBody] |}.

Definition refresh_op : Operation := {|
  op_id := "refresh"; op_tag := "Authentication"; op_security := [];
  op_params := [];
  op_request := Some (JsonRequest PRefresh);
  op_responses :=
    [respond_with 200 "New access and refresh token pair" (Envelope SAuthResponse);
     respond_with 401 "Invalid, expired, or replayed refresh token" ErrorBody] |}.

Definition sign_out_op : Operation := {|
  op_id := "sign_out"; op_tag := "Authentication"; op_security := ["bearer_auth"];
  op_params := [];
  op_request := None;
  op_responses :=
    [respond_with 200 "Current session revoked" (Envelope SString)] |}.

Definition sign_out_all_op : Operation := {|
  op_id := "sign_out_all"; op_tag := "Authentication"; op_security := ["bearer_auth"];
  op_params := [];
  op_request := None;
  op_responses :=
    [respond_with 200 "All sessions revoked" (Envelope SString)] |}.

Definition verify_email_op : Operation := {|
  op_id := "verify_email"; op_tag := "Authentication"; op_security := [];
  op_params := [];
  op_request := Some (JsonRequest PVerify);
  op_responses :=
    [respond_with 200 "Email verified" (Envelope SString);
     respond_with 400 "Invalid or expired token" ErrorBody] |}.

Definition forget_password_op : Operation := {|
  op_id := "forget_password"; op_tag := "Authentication"; op_security := [];
  op_params := [];
  op_request := Some (JsonRequest PForget);
  op_responses :=
    [respond_with 200 "Reset initiated if the address is registered" (Envelope SString)] |}.

Definition reset_password_op : Operation := {|
  op_id := "reset_password"; op_tag := "Authentication"; op_security := [];
  op_params := [];
  op_request := Some (JsonRequest PReset);
  op_responses :=
    [respond_with 200 "Password reset; all sessions revoked" (Envelope SString);
     respond_with 400 "Invalid or expired token" ErrorBody] |}.

Definition get_session_op : Operation := {|
  op_id := "get_session"; op_tag := "Authentication"; op_security := ["bearer_auth"];
  op_params := [];
  op_request := None;
  op_responses :=
    [respond_with 200 "Current authenticated user" (Envelope SUserResponse);
     respond_with 401 "Unauthorized" ErrorBody] |}.

Definition update_user_op : Operation := {|
  op_id := "auth_update_user"; op_tag := "Authentication"; op_security := ["bearer_auth"];
  op_params := [];
  op_request := Some (JsonRequest PUpdateUser);
  op_responses :=
    [respond_with 200 "Profile updated" (Envelope SUserResponse)] |}.

Definition change_password_op : Operation := {|
  op_id := "auth_change_password"; op_tag := "Authentication"; op_security := ["bearer_auth"];
  op_params := [];
  op_request := Some (JsonRequest PChangePassword);
  op_responses :=
    [respond_with 200 "Password changed" (Envelope SString)] |}.

Definition delete_user_op : Operation := {|
  op_id := "auth_delete_user"; op_tag := "Authentication"; op_security := ["bearer_auth"];
  op_params := [];
  op_request := None;
  op_responses :=
    [respond_with 200 "Account deleted" (Envelope SString)] |}.

Definition google_auth_op : Operation := {|
  op_id := "google_auth"; op_tag := "Authentication"; op_security := [];
  op_params := [];
  op_request := None;
  op_responses :=
    [respond_with 200 "Google authorization URL" (Envelope SOAuthUrlResponse)] |}.

Definition google_callback_op : Operation := {|
  op_id := "google_callback"; op_tag := "Authentication"; op_security := [];
  op_params := [QueryParam "code" "Authorization code";
                QueryParam "state" "CSRF state issued by /sign-in/social/google"];
  op_request := None;
  op_responses :=
    [respond_with 200 "Signed in with Google" (Envelope SAuthResponse);
     respond_with 401 "Invalid state or failed exchange" ErrorBody] |}.

Definition github_auth_op : Operation := {|
  op_id := "github_auth"; op_tag := "Authentication"; op_security := [];
  op_params := [];
  op_request := None;
  op_responses :=
    [respond_with 200 "GitHub authorization URL" (Envelope SOAuthUrlResponse)] |}.

Definition github_callback_op : Operation := {|
  op_id := "github_callback"; op_tag := "Authentication"; op_security := [];
  op_params := [QueryParam "code" "Authorization code";
                QueryParam "state" "CSRF state issued by /sign-in/social/github"];
  op_request := None;
  op_responses :=
    [respond_with 200 "Signed in with GitHub" (Envelope SAuthResponse);
     respond_with 401 "Invalid state or failed exchange" ErrorBody] |}.

(** ** Users ([routes/v1/users.rs]) *)

Definition get_me_op : Operation := {|
  op_id := "get_me"; op_tag := "Users"; op_security := ["bearer_auth"];
  op_params := [];
  op_request := None;
  op_responses :=
    [respond_with 200 "Current authenticated user" (Envelope SUserResponse);
     respond_with 401 "Unauthorized" ErrorBody] |}.

Definition update_me_op : Operation := {|
  op_id := "update_me"; op_tag := "Users"; op_security := ["bearer_auth"];
  op_params := [];
  op_request := Some (JsonRequest PUpdateUser);
  op_responses :=
    [respond_with 200 "Profile updated" (Envelope SUserResponse);
     respond_with 422 "Validation error" ErrorBody] |}.

Definition change_my_password_op : Operation := {|
  op_id := "change_password"; op_tag := "Users"; op_security := ["bearer_auth"];
  op_params := [];
  op_request := Some (JsonRequest PChangePassword);
  op_responses :=
    [respond_with 200 "Password changed; other sessions revoked" (Envelope SString);
     respond_with 401 "Incorrect current password" ErrorBody] |}.

Definition delete_me_op : Operation := {|
  op_id := "delete_me"; op_tag := "Users"; op_security := ["bearer_auth"];
  op_params := [];
  op_request := None;
  op_responses :=
    [respond_with 200 "Account deleted" (Envelope SString)] |}.

Definition list_users_op : Operation := {|
  op_id := "list_users"; op_tag := "Users"; op_security := ["bearer_auth"];
  op_params := [QueryStruct QPage];
  op_request := None;
  op_responses :=
    [respond_with 200 "Paginated users (admin only)" (Envelope (SVec SUserResponse));
     respond_with 403 "Admin privileges required" ErrorBody] |}.

(** ** Files ([routes/v1/files.rs]) *)

Definition upload_file_op : Operation := {|
  op_id := "upload_file"; op_tag := "Storage"; op_security := ["bearer_auth"];
  op_params := [];
  op_request := None;
  op_responses :=
    [respond_with 201 "File uploaded" (Envelope SUploadResponse);
     respond_with 400 "Missing or unacceptable file" ErrorBody;
     respond_with 413 "File exceeds the size limit" ErrorBody] |}.

Definition create_presigned_url_op : Operation := {|
  op_id := "create_presigned_url"; op_tag := "Storage"; op_security := ["bearer_auth"];
  op_params := [];
  op_request := Some (JsonRequest PPresigned);
  op_responses :=
    [respond_with 200 "Signed, expiring upload grant" (Envelope SPresignedUploadResponse);
     respond_with 400 "Unacceptable content type" ErrorBody] |}.

Definition upload_signed_op : Operation := {|
  op_id := "upload_signed"; op_tag := "Storage"; op_security := [];
  op_params := [QueryStruct QSigned];
  op_request := Some (RawRequest "application/octet-stream");
  op_responses :=
    [respond_with 200 "Bytes stored against the reservation" (Envelope SString);
     respond_with 403 "Invalid or expired signature" ErrorBody;
     respond_with 404 "No pending upload for this key" ErrorBody;
     respond_with 413 "Upload exceeds the size limit" ErrorBody] |}.

Definition complete_upload_op : Operation := {|
  op_id := "complete_upload"; op_tag := "Storage"; op_security := ["bearer_auth"];
  op_params := [PathParam "id" "File ID from the presigned response"];
  op_request := None;
  op_responses :=
    [respond_with 200 "Upload confirmed and now readable" (Envelope SUploadResponse);
     respond_with 400 "No uploaded object found for this reservation" ErrorBody;
     respond_with 404 "Reservation not found or not yours" ErrorBody;
     respond_with 413 "Uploaded object is over the size limit" ErrorBody] |}.

Definition create_signed_download_url_op : Operation := {|
  op_id := "create_signed_download_url"; op_tag := "Storage"; op_security := ["bearer_auth"];
  op_params := [PathParam "id" "File ID"];
  op_request := None;
  op_responses :=
    [respond_with 200 "Signed, expiring download URL" (Envelope SSignedUrlResponse);
     respond_with 404 "File not found" ErrorBody] |}.

Definition get_file_op : Operation := {|
  op_id := "get_file"; op_tag := "Storage"; op_security := [];
  op_params := [PathParam "id" "File ID";
                QueryStruct QSigned];
  op_request := None;
  op_responses :=
    [respond_with 200 "File contents" (Raw "application/octet-stream");
     respond_with 404 "File not found" ErrorBody] |}.

Definition list_org_files_op : Operation := {|
  op_id := "list_org_files"; op_tag := "Storage"; op_security := ["bearer_auth"];
  op_params := [PathParam "org_id" "Organization ID";
                QueryStruct QPage];
  op_request := None;
  op_responses :=
    [respond_with 200 "Files owned by the organization" (Envelope (SVec SUploadResponse));
     respond_with 404 "Organization not found or caller is not a member" ErrorBody] |}.

Definition delete_file_op : Operation := {|
  op_id := "delete_file"; op_tag := "Storage"; op_security := ["bearer_auth"];
  op_params := [PathParam "id" "File ID"];
  op_request := None;
  op_responses :=
    [respond_with 200 "File deleted" (Envelope SString);
     respond_with 404 "File not found or not yours" ErrorBody] |}.

(** ** Notifications ([routes/v1/notifications.rs]) *)

Definition list_notifications_op : Operation := {|
  op_id := "list_notifications"; op_tag := "Notifications"; op_security := ["bearer_auth"];
  op_params := [QueryStruct QCursor;
                QueryStruct QNotification];
  op_request := None;
  op_responses :=
    [respond_with 200 "Notification page for the current user" (Envelope (SVec SNotification));
     respond_with 401 "Unauthorized" ErrorBody] |}.

Definition mark_notification_read_op : Operation := {|
  op_id := "mark_notification_read"; op_tag := "Notifications"; op_security := ["bearer_auth"];
  op_params := [PathParam "id" "Notification ID"];
  op_request := None;
  op_responses :=
    [respond_with 200 "Marked as read" (Envelope SString);
     respond_with 404 "Not found" ErrorBody] |}.

Definition mark_all_notifications_read_op : Operation := {|
  op_id := "mark_all_notifications_read"; op_tag := "Notifications"; op_security := ["bearer_auth"];
  op_params := [];
  op_request := None;
  op_responses :=
    [respond_with 200 "All marked as read" (Envelope SString)] |}.

(** ** Events ([routes/v1/realtime.rs]) *)

Definition sse_stream_op : Operation := {|
  op_id := "sse_stream"; op_tag := "Realtime"; op_security := ["bearer_auth"];
  op_params := [];
  op_request := None;
  op_responses :=
    [respond_with 200 "SSE stream for the current user" (Raw "text/event-stream")] |}.

(** ** Audit ([routes/v1/audit.rs]) *)

Definition list_audit_logs_op : Operation := {|
  op_id := "list_audit_logs"; op_tag := "Audit"; op_security := ["bearer_auth"];
  op_params := [QueryStruct QCursor;
                QueryStruct QAudit];
  op_request := None;
  op_responses :=
    [respond_with 200 "Audit log page (admin only)" (Envelope (SVec SAuditLog));
     respond_with 403 "Admin privileges required" ErrorBody] |}.

(** ** Webhooks ([routes/v1/webhooks.rs]) *)

Definition create_webhook_op : Operation := {|
  op_id := "create_webhook"; op_tag := "Webhooks"; op_security := ["bearer_auth"];
  op_params := [];
  op_request := Some (JsonRequest PCreateWebhook);
  op_responses :=
    [respond_with 201 "Webhook registered successfully" (Envelope SCreateWebhookResponse);
     respond_with 400 "Validation error" ErrorBody;
     respond_with 401 "Unauthorized" ErrorBody] |}.

Definition list_webhooks_op : Operation := {|
  op_id := "list_webhooks"; op_tag := "Webhooks"; op_security := ["bearer_auth"];
  op_params := [QueryStruct QWebhook];
  op_request := None;
  op_responses :=
    [respond_with 200 "List registered webhooks" (Envelope (SVec SWebhookRecord));
     respond_with 401 "Unauthorized" ErrorBody] |}.

Definition delete_webhook_op : Operation := {|
  op_id := "delete_webhook"; op_tag := "Webhooks"; op_security := ["bearer_auth"];
  op_params := [PathParam "id" "Webhook ID to delete"];
  op_request := None;
  op_responses :=
    [respond_with 200 "Webhook deleted successfully" (Envelope SString);
     respond_with 404 "Webhook not found" ErrorBody;
     respond_with 401 "Unauthorized" ErrorBody] |}.

Definition list_deliveries_op : Operation := {|
  op_id := "list_webhook_deliveries"; op_tag := "Webhooks"; op_security := ["bearer_auth"];
  op_params := [PathParam "id" "Webhook ID to inspect deliveries"];
  op_request := None;
  op_responses :=
    [respond_with 200 "List webhook delivery attempts" (Envelope (SVec SWebhookDeliveryRecord));
     respond_with 404 "Webhook not found" ErrorBody;
     respond_with 401 "Unauthorized" ErrorBody] |}.

(** ** The document *)

(** The attribute of the handler behind an endpoint; the page that shows the
    document has none. *)
Definition operation (e : Endpoint) : option Operation :=
  match e with
  | EpLiveness => Some liveness_op
  | EpReadiness => Some readiness_op
  | EpHealthCheck => Some health_check_op
  | EpPrometheusMetrics => Some prometheus_metrics_op
  | EpCreateApiKey => Some create_api_key_op
  | EpListApiKeys => Some list_api_keys_op
  | EpDeleteApiKey => Some delete_api_key_op
  | EpCreateApp => Some create_app_op
  | EpListApps => Some list_apps_op
  | EpGetAppDetails => Some get_app_details_op
  | EpCreateOrg => Some create_org_op
  | EpListOrgs => Some list_orgs_op
  | EpAddOrgMember => Some add_org_member_op
  | EpSignUpEmail => Some sign_up_email_op
  | EpSignInEmail => Some sign_in_email_op
  | EpRefresh => Some refresh_op
  | EpSignOut => Some sign_out_op
  | EpSignOutAll => Some sign_out_all_op
  | EpVerifyEmail => Some verify_email_op
  | EpForgetPassword => Some forget_password_op
  | EpResetPassword => Some reset_password_op
  | EpGetSession => Some get_session_op
  | EpUpdateUser => Some update_user_op
  | EpChangePassword => Some change_password_op
  | EpDeleteUser => Some delete_user_op
  | EpGoogleAuth => Some google_auth_op
  | EpGoogleCallback => Some google_callback_op
  | EpGithubAuth => Some github_auth_op
  | EpGithubCallback => Some github_callback_op
  | EpGetMe => Some get_me_op
  | EpUpdateMe => Some update_me_op
  | EpChangeMyPassword => Some change_my_password_op
  | EpDeleteMe => Some delete_me_op
  | EpListUsers => Some list_users_op
  | EpUploadFile => Some upload_file_op
  | EpCreatePresignedUrl => Some create_presigned_url_op
  | EpUploadSigned => Some upload_signed_op
  | EpCompleteUpload => Some complete_upload_op
  | EpCreateSignedDownloadUrl => Some create_signed_download_url_op
  | EpGetFile => Some get_file_op
  | EpListOrgFiles => Some list_org_files_op
  | EpDeleteFile => Some delete_file_op
  | EpListNotifications => Some list_notifications_op
  | EpMarkNotificationRead => Some mark_notification_read_op
  | EpMarkAllNotificationsRead => Some mark_all_notifications_read_op
  | EpSseStream => Some sse_stream_op
  | EpListAuditLogs => Some list_audit_logs_op
  | EpCreateWebhook => Some create_webhook_op
  | EpListWebhooks => Some list_webhooks_op
  | EpDeleteWebhook => Some delete_webhook_op
  | EpListDeliveries => Some list_deliveries_op
  | EpScalarDocs => None
  end.

(** [#[derive(OpenApi)] struct ApiDoc] *)
Definition ApiDoc : OpenApi := {|
  oa_title := "Axum Production API";
  oa_version := "1.0.0";
  oa_description :=
    "Production-ready Axum API scaffold: session-backed auth, M2M API keys, RBAC, "
    +:+ "apps, organizations, owned storage with signed URLs, rate limiting, idempotency, metrics, "
    +:+ "cross-replica realtime, notifications, and an append-only audit log";
  oa_components := Some {|
    co_schemas :=
      ["HealthResponse"; "ApiErrorResponse"; "ApiErrorPayload"; "ApiResponse<App>"; "ApiResponse<Vec<App>>";
       "ApiResponse<Organization>"; "ApiResponse<Vec<Organization>>"; "ApiResponse<OrgMember>";
       "ApiResponse<CreateApiKeyResponse>"; "ApiResponse<Vec<ApiKeyRecord>>"; "ApiResponse<AuthResponse>";
       "ApiResponse<UserResponse>"; "ApiResponse<Vec<UserResponse>>"; "ApiResponse<Vec<Notification>>";
       "ApiResponse<Vec<AuditLog>>"; "ApiResponse<OAuthUrlResponse>"; "ApiResponse<UploadResponse>";
       "ApiResponse<PresignedUploadResponse>"; "ApiResponse<SignedUrlResponse>"; "ApiResponse<String>";
       "CreateAppRequest"; "CreateOrgRequest"; "AddOrgMemberRequest"; "CreateApiKeyRequest"; "CreateApiKeyResponse";
       "ApiKeyRecord"; "App"; "Organization"; "OrgMember"; "SignUpEmailRequest"; "SignInEmailRequest";
       "RefreshTokenRequest"; "VerifyEmailRequest"; "ForgetPasswordRequest"; "ResetPasswordRequest";
       "UpdateUserRequest"; "ChangePasswordRequest"; "PresignedUploadRequest"; "PresignedUploadResponse";
       "SignedUrlResponse"; "UploadResponse"; "FileRecord"; "PageParams"; "PageMeta"; "CursorParams"; "CursorMeta";
       "AuthResponse"; "UserResponse"; "Notification"; "AuditLog"; "RealtimeEvent"; "OAuthCallbackQuery";
       "OAuthUrlResponse"];
    co_security_schemes := [] |};
  oa_tags :=
    [("Observability", "Liveness, readiness and Prometheus metrics");
     ("Authentication", "Registration, sign-in, sessions and recovery");
     ("API Keys", "Machine-to-Machine (M2M) API keys management");
     ("Applications", "Multi-app platform registry");
     ("Organizations", "B2B tenant management and org memberships");
     ("Users", "Profile management and admin user queries");
     ("Notifications", "In-app notifications feed");
     ("Realtime", "Server-Sent Events stream");
     ("Audit", "Append-only compliance audit log");
     ("Storage", "Owned file storage with signed URLs");
     ("Webhooks", "Transactional outbox event webhooks")];
  oa_paths := [] |}.

(** [SecurityAddon::modify] *)
Definition SecurityAddon_modify (openapi : OpenApi) : OpenApi :=
  match oa_components openapi with
  | Some components => {|
      oa_title := oa_title openapi; oa_version := oa_version openapi; oa_description := oa_description openapi;
      oa_components := Some {|
        co_schemas := co_schemas components;
        co_security_schemes := co_security_schemes components ++ [("bearer_auth", HttpBearer "JWT")] |};
      oa_tags := oa_tags openapi; oa_paths := oa_paths openapi |}
  | None => openapi
  end.

(** The paths [OpenApiRouter] collects while it nests and merges the routers. *)
Definition documented_route (r : Route) : option DocumentedPath :=
  (fun op => {| dp_path := ro_path r; dp_method := ro_method r; dp_operation := op |}) <$> operation (ro_endpoint r).
Definition with_paths (openapi : OpenApi) (routes : list Route) : OpenApi := {|
  oa_title := oa_title openapi; oa_version := oa_version openapi; oa_description := oa_description openapi;
  oa_components := oa_components openapi; oa_tags := oa_tags openapi;
  oa_paths := oa_paths openapi ++ omap documented_route routes |}.

(** What [split_for_parts] returns: shown under [/docs] by [create_app]. *)
Definition api_document : OpenApi := with_paths (SecurityAddon_modify ApiDoc) app_router.

(** [bin/export_openapi.rs]: the files written, unless it panics. [finish] is the
    governor's builder, met while the routers are built. *)
Definition export_openapi {P : Platform} {G} (finish : Z -> Z -> bool -> option G)
    (to_pretty_json : OpenApi -> string + string) (write : string -> string -> unit + string)
  : outcome (list (string * string)) string :=
  match auth_limiter finish (for_testing "postgres://localhost/openapi-export") with
  | Ok _ =>
      match to_pretty_json api_document with
      | inl spec =>
          match write "openapi.json" spec with
          | inl _ => Ok [("openapi.json", spec)]
          | inr _ => Panic
          end
      | inr _ => Panic
      end
  | _ => Panic
  end.
