(* ===== verification/Documented.v ===== *)
(** * The published description is true

    The document of [OpenApi] against the application of [Api]: what it lists is
    what is served, a success is answered as documented, and what it marks as
    secured is not to be had without credentials. *)
From stdpp Require Import gmap.
From S2P Require Import Prelude RustStr Models Errors Platform World Pagination Crypto ApiKeys Extractors Oauth Disk StorageBackend.
From S2P Require Import Http AuthProofs Idempotency Middleware Validation Routes FileRoutes Gates Api OpenApi.

(** ** What a handler returns, when it returns *)

Definition returns {A} (Q : A -> Prop) (m : M A) : Prop := ∀ w a w', m w = (Ok a, w') → Q a.

Lemma returns_ret {A} (Q : A -> Prop) a : Q a → returns Q (ret a).
Proof. by intros Hq w a' w' [= <- _]. Qed.
Lemma returns_fail {A} (Q : A -> Prop) e : returns Q (fail e).
Proof. intros w a w' [=]. Qed.
Lemma returns_bind {A B} (Q : B -> Prop) (m : M A) k : (∀ a, returns Q (k a)) → returns Q (bind m k).
Proof. intros Hk w b w' (a & w1 & _ & H)%bind_Ok_inv. by eapply Hk. Qed.
Lemma returns_bind_post {A B} (P : A -> Prop) (Q : B -> Prop) (m : M A) k :
  returns P m → (∀ a, P a → returns Q (k a)) → returns Q (bind m k).
Proof. intros Hm Hk w b w' (a & w1 & H1 & H)%bind_Ok_inv. eapply Hk; [by eapply Hm | done]. Qed.
Lemma returns_impl {A} (P Q : A -> Prop) m : (∀ a, P a → Q a) → returns P m → returns Q m.
Proof. intros HPQ Hm w a w' H. by eapply HPQ, Hm. Qed.

Ltac returns_step :=
  first [ apply returns_ret; done
        | apply returns_fail
        | apply returns_bind; intros ?
        | match goal with
          | |- returns _ (match ?x with _ => _ end) => destruct x
          | |- returns _ (let '_ := ?x in _) => destruct x
          | |- returns _ ?m => let h := head_of m in unfold h; cbv beta zeta
          end ].
Ltac returns_tac := repeat returns_step.

(** The one status of a handler that succeeds, with a success envelope. *)
Definition replies {T} (status : Z) : M (Reply T) -> Prop :=
  returns (fun r => fst r = status ∧ resp_success (snd r) = true).

(** ** The documented answer *)

Section Answers.
Context {P : Platform} {R : Remote} {B : StorageBackend} {W : Wire} (cfg : AppConfig).

(** A body as described; nothing is claimed of raw bytes. *)
Definition shown (b : Body) (r : Response) : Prop :=
  match b with
  | Envelope s => ∃ (x : schema_type s) meta,
      r = json_response (rs_status r) (ApiResponse_json {| resp_success := true; resp_data := x; resp_meta := meta |})
  | Bare s => ∃ x : schema_type s, r = json_response (rs_status r) (serialize x)
  | ErrorBody => ∃ e, r = json_response (rs_status r) (ApiErrorResponse_json e)
  | Raw _ | NoBody => True
  end.
Definition as_documented (op : Operation) (r : Response) : Prop :=
  ∃ d, d ∈ op_responses op ∧ rd_status d = rs_status r ∧ shown (rd_body d) r.

(** A success as documented; a rejection of an extractor is an error. *)
Definition documents (op : Operation) (m : M Response) : Prop :=
  returns (fun r => (rs_status r < 400)%Z → as_documented op r) m.

Lemma documents_extract {X} op before (x : X + Response) k :
  (∀ rej, x = inr rej → (400 <= rs_status rej)%Z) → (∀ a, documents op (k a)) → documents op (extract before x k).
Proof.
  intros Hrej Hk. destruct x as [a|rej]; [apply Hk|]. apply returns_bind. intros _. apply returns_ret.
  specialize (Hrej rej eq_refl). lia.
Qed.

Lemma documents_reply op status description s (h : M (Reply (schema_type s))) :
  respond_with status description (Envelope s) ∈ op_responses op → replies status h → documents op (replying h).
Proof.
  intros Hd Hh. refine (returns_bind_post _ _ _ _ Hh _). intros [st [ok x meta]] [Hst Hok].
  apply returns_ret. intros _. cbn in Hst, Hok. subst. by exists (respond_with status description (Envelope s)); split_and!; [| |exists x, meta].
Qed.

Lemma documents_raw op status description content_type (h : M Response) :
  respond_with status description (Raw content_type) ∈ op_responses op →
  returns (fun r => rs_status r = status) h → documents op h.
Proof. intros Hd. apply returns_impl. intros r <- _. by eexists. Qed.

Lemma upload_parts_replies u ctx v o parts : replies 201 (upload_parts cfg u ctx v o parts).
Proof.
  revert v o. induction parts as [|[f|e] parts IH]; intros v o; cbn [upload_parts]; [apply returns_fail| |apply returns_fail].
  destruct (mf_name f) as [name|]; [|apply IH]. destruct (name =s "visibility"); [apply IH|].
  destruct (name =s "org_id").
  - cbv zeta. destruct (trim _ =s ""); [apply IH|]. apply returns_bind. intros ?. apply IH.
  - destruct (name =s "file"); [|apply IH]. returns_tac.
Qed.

(** The description of the success, found in the operation. *)
Ltac by_description :=
  lazymatch goal with
  | |- documents ?op _ =>
      let l := eval cbv [op_responses op] in (op_responses op) in
      lazymatch l with
      | context [respond_with ?status ?text (Envelope ?s)] =>
          apply (documents_reply op status text s); [by repeat constructor|]
      | context [respond_with ?status ?text (Raw ?ct)] =>
          apply (documents_raw op status text ct); [by repeat constructor|]
      end
  end.

Lemma documents_health op description (h : M (Z * HealthResponse)) :
  respond_with 200 description (Bare SHealthResponse) ∈ op_responses op →
  returns (fun r => fst r = 200%Z ∨ (400 <= fst r)%Z) h → documents op (health_response h).
Proof.
  intros Hd Hh. refine (returns_bind_post _ _ _ _ Hh _). intros [st x] Hst. apply returns_ret. cbn in *.
  intros Hlt. destruct Hst as [->|]; [|lia]. eexists. split; [exact Hd|]. split; [done | by exists x].
Qed.
Lemma readiness_status version : returns (fun r => fst r = 200%Z ∨ (400 <= fst r)%Z) (readiness version).
Proof.
  unfold readiness. apply returns_bind. intros [?|?]; cbv zeta; (apply returns_bind; intros ?); apply returns_ret; [by left | by right].
Qed.

(** [Sse] answers with 200. *)
Definition sse_answers : Prop := ∀ l, rs_status (sse_response l) = 200%Z.

Lemma endpoint_documents params req e op : lawful_rejections → sse_answers → operation e = Some op →
  documents op (endpoint cfg params req e).
Proof.
  intros [Hj Hq Hp Hm Hb] Hsse Hop. destruct e; try done; injection Hop as <-; cbn [endpoint];
    repeat (apply documents_extract; [eauto | intros ?]).
  1,3: eapply documents_health; [left | apply readiness_status].
  1: apply returns_bind; intros h; apply returns_ret; intros _; eexists; split; [left | split; [done | by exists h]].
  all: by_description; unfold replies.
  all: try (repeat first [apply upload_parts_replies | returns_step]; done).
  intros w r w' [= H _]. unfold prometheus_metrics in H.
    destruct (metrics_token cfg); [destruct (constant_time_eq _ _)|]; by simplify_eq.
Qed.
End Answers.

(** ** The checks on the document *)

Definition path_params (op : Operation) : list string :=
  omap (fun p => match p with PathParam name _ => Some name | _ => None end) (op_params op).
(** The names between braces in a template. *)
Definition template_params (path : string) : list string :=
  omap (fun s => if is_param s then Some (string_of_bytes (removelast (tail (bytes_of s)))) else None) (segments path).
Definition schemes (d : OpenApi) : list string :=
  match oa_components d with Some c => List.map fst (co_security_schemes c) | None => [] end.

(** A path whose parameters, tag and security are all declared. *)
Record declared (d : OpenApi) (x : DocumentedPath) : Prop := {
  de_params : path_params (dp_operation x) = template_params (dp_path x);
  de_tag : op_tag (dp_operation x) ∈ List.map fst (oa_tags d);
  de_security : ∀ s, s ∈ op_security (dp_operation x) → s ∈ schemes d }.

Definition declared_b (d : OpenApi) (x : DocumentedPath) : bool :=
  bool_decide (path_params (dp_operation x) = template_params (dp_path x))
  && bool_decide (op_tag (dp_operation x) ∈ List.map fst (oa_tags d))
  && forallb (fun s => bool_decide (s ∈ schemes d)) (op_security (dp_operation x)).
Lemma declared_b_sound d x : declared_b d x = true → declared d x.
Proof.
  unfold declared_b. rewrite !andb_true_iff, forallb_forall. intros [[H1 H2] H3].
  apply bool_decide_eq_true in H1, H2. split; [done | done|]. intros s Hs%list_elem_of_In.
  specialize (H3 s Hs). by apply bool_decide_eq_true in H3.
Qed.

Lemma document_declared x : x ∈ oa_paths api_document → declared api_document x.
Proof.
  assert (H : forallb (declared_b api_document) (oa_paths api_document) = true) by (vm_compute; reflexivity).
  rewrite forallb_forall in H. intros Hx%list_elem_of_In. apply declared_b_sound. by apply H.
Qed.

(** A documented path is a row of the table with its operation, and a row other than
    the documentation page is documented. *)
Lemma document_rows x : x ∈ oa_paths api_document ↔
  ∃ r, r ∈ app_router ∧ operation (ro_endpoint r) = Some (dp_operation x) ∧
    dp_path x = ro_path r ∧ dp_method x = ro_method r.
Proof.
  change (oa_paths api_document) with (omap documented_route app_router). rewrite list_elem_of_omap.
  unfold documented_route. split.
  - intros (r & Hr & (op & Hop & ->)%fmap_Some). by exists r.
  - destruct x as [path method op]. cbn. intros (r & Hr & Hop & -> & ->). exists r. split; [done|]. by rewrite Hop.
Qed.
Lemma table_rows r : r ∈ app_table → r ∈ app_router ∨ ro_endpoint r = EpScalarDocs.
Proof. unfold app_table. intros [H | ->%list_elem_of_singleton]%elem_of_app; [by left | by right]. Qed.
Lemma undocumented e : operation e = None → e = EpScalarDocs.
Proof. by destruct e. Qed.

(** The operations described without security are those without a gate; the metrics
    check a token of their own. *)
Lemma security_is_gate e op : operation e = Some op → e ≠ EpPrometheusMetrics →
  op_security op = [] ↔ gate_of e = Anonymous.
Proof. destruct e; try done; intros [= <-] ?; cbn; done. Qed.

Lemma anonymous_unauthenticated {P : Platform} {R : Remote} cfg p g w :
  header_str "x-api-key" (pt_headers p) = None → header_str "authorization" (pt_headers p) = None →
  g ≠ Anonymous → ¬ admitted cfg p g w.
Proof.
  intros Hk Ha Hg. assert (Hn : ∀ u, ¬ authenticated cfg p w u).
  { intros u Hu. destruct Hu as [key ? ? H|token ? ? ? ? ? H|token ? ? ? ? ? H]; [congruence|..];
      unfold bearer_token in H; rewrite Ha in H; done. }
  destruct g; cbn; [done | naive_solver..].
Qed.

(** ** Properties *)

(** C4: The published document is the application. Every operation it lists is served:
    a request under its method whose path fills in its template reaches the handler
    described, whatever the ids. Whatever handler a request reaches is listed at a
    path it fills in, but for the page that shows the document. And each entry
    names the parameters of its path, and a tag and a security scheme the document
    declares. *)
Theorem documented_served {W : Wire} (req : Request) :
  lawful_match →
  (∀ x ps p, x ∈ oa_paths api_document → Forall argument ps → fill (segments (dp_path x)) ps = Some p →
     pt_path (rq_parts req) = join "/" p → pt_method (rq_parts req) = dp_method x →
     ∃ e, operation e = Some (dp_operation x) ∧ ∀ e', reaches req e' ↔ e' = e) ∧
  (∀ e, reaches req e → e = EpScalarDocs ∨ ∃ x ps, x ∈ oa_paths api_document ∧
     operation e = Some (dp_operation x) ∧ fill (segments (dp_path x)) ps = Some (segments (pt_path (rq_parts req))) ∧
     (dp_method x = pt_method (rq_parts req) ∨ pt_method (rq_parts req) = "HEAD" ∧ dp_method x = "GET")) ∧
  (∀ x, x ∈ oa_paths api_document → declared api_document x).
Proof.
  intros Hlaw. destruct (routes_served req Hlaw) as [Hserved Hlisted]. split_and!; [| |apply document_declared].
  - intros x ps p (r & Hr & Hop & Hpath & Hmeth)%document_rows Hps Hf Hp Hm. exists (ro_endpoint r). split; [done|].
    rewrite Hpath in Hf. rewrite Hmeth in Hm. apply (Hserved r ps p); try done. apply elem_of_app. by left.
  - intros e (r & ps & Hr & <- & Hf & Hm)%Hlisted. destruct (operation (ro_endpoint r)) as [op|] eqn:Hop.
    + right. exists {| dp_path := ro_path r; dp_method := ro_method r; dp_operation := op |}, ps.
      apply table_rows in Hr as [Hr|Hr]; [|by rewrite Hr in Hop]. split_and!; try done.
      apply document_rows. by exists r.
    + left. by apply undocumented.
Qed.

(** C39: A success is answered as documented. Whatever the router answers with a status
    below 400, to any method but [HEAD], has the status of one of the responses
    documented for the handler the request reaches, and where that one has a JSON
    body, the response is the JSON of a value of the documented type, in the success
    envelope where one is documented. *)
Theorem success_documented {P : Platform} {R : Remote} {B : StorageBackend} {W : Wire} (cfg : AppConfig)
    (auth_govern : option N -> World -> option Response) (req : Request) (w w' : World) (r : Response) :
  lawful_rejections → sse_answers → (∀ key w x, auth_govern key w = Some x → (400 <= rs_status x)%Z) →
  router (app_routes cfg auth_govern) req w = (Ok r, w') →
  (rs_status r < 400)%Z → pt_method (rq_parts req) ≠ "HEAD" →
  ∃ e, reaches req e ∧ ∀ op, operation e = Some op → as_documented op r.
Proof.
  intros Hlaw Hsse Hg. unfold router, app_routes, reaches.
  destruct (match_path _ _) as [[template params]|] eqn:Em; [|by intros [= <- _]].
  unfold track_metrics, respond, mounted, method_router, bind.
  destruct (if auth_limited template then _ else None) as [rej|] eqn:Ea.
  { intros [= <- _] Hlt. destruct (auth_limited template); [|done]. apply Hg in Ea. lia. }
  destruct (endpoint_at _ _) as [e|] eqn:Ee; [|by intros [= <- _]].
  unfold respond. destruct (endpoint cfg params req e w) as [o w1] eqn:E. intros H Hlt Hm.
  apply String.eqb_neq in Hm. exists e. split; [by exists template, params|]. intros op Hop.
  destruct o as [x|er|]; cbn in H; unfold head_of in H; rewrite ?Hm in H; [|pose proof (error_response_refused er)|done];
    injection H as <- _; [|lia].
  by eapply (endpoint_documents cfg params req e op Hlaw Hsse Hop).
Qed.

(** C40: What is documented as secured is secured, the metrics apart: they are documented with
    a bearer token and answer anyone when no METRICS_TOKEN is set. Of the other
    operations, those described without security are exactly those open to anyone; and
    a request without an [authorization] and an [x-api-key] header that reaches one
    described with it is refused by the application with an error, and changes nothing
    but the [last_used_at] of API keys ([only_keys]), whatever fails. *)
Theorem security_documented {P : Platform} {R : Remote} {B : StorageBackend} {W : Wire} (cfg : AppConfig)
    (govern auth_govern : option N -> World -> option Response) (req : Request) (e : Endpoint) (op : Operation) :
  lawful_rejections → lawful_limits govern auth_govern →
  reaches req e → operation e = Some op → e ≠ EpPrometheusMetrics →
  (op_security op = [] ↔ gate_of e = Anonymous) ∧
  (op_security op ≠ [] → header_str "x-api-key" (pt_headers (rq_parts req)) = None →
   header_str "authorization" (pt_headers (rq_parts req)) = None →
   ∀ w r w', limited migration_columns cfg (app_routes cfg auth_govern) govern req w = (r, w') →
     refused r ∧ only_keys (w_db w) (w_db w')).
Proof.
  intros Hlaw Hg He Hop Hmet. split; [by apply security_is_gate|].
  intros Hs Hk Ha w r w' [[Hr Hd] | (o & w1 & Hd & Hn & H & Hr)]%through_layers; [| |done].
  - split; [done | by apply only_keys_eq].
  - destruct (router_gated cfg Hlaw auth_govern req w1 o w' (fun k w x H => Hg k w x (or_intror H)) H)
      as [(e' & He' & Had) | [Ho Hkeys]]; [exfalso | rewrite <- Hd; auto].
    assert (e' = e) as ->. { destruct He as (t & ps & Hm & He), He' as (t' & ps' & Hm' & He'). congruence. }
    revert Had. apply anonymous_unauthenticated; [done..|]. intros Hanon. apply Hs.
    by apply (security_is_gate e op Hop Hmet).
Qed.

(** ** Witnesses *)

Lemma documented_served_witness : ∃ e, operation e = Some list_org_files_op ∧
  ∀ e', @reaches toy_wire (ApiExample.req "GET" "/api/v1/files/org/7" "") e' ↔ e' = e.
Proof.
  assert (Hin : In {| dp_path := "/api/v1/files/org/{org_id}"; dp_method := "GET"; dp_operation := list_org_files_op |}
    (oa_paths api_document)) by (vm_compute; tauto).
  apply list_elem_of_In in Hin.
  exact (proj1 (@documented_served toy_wire (ApiExample.req "GET" "/api/v1/files/org/7" "") toy_wire_matches)
    _ ["7"] [""; "api"; "v1"; "files"; "org"; "7"] Hin ltac:(by repeat constructor) eq_refl eq_refl eq_refl).
Defined.

Module DocumentedExample.
Definition listing : Request := ApiExample.req "GET" "/api/v1/users" "ops".
Definition answer : outcome Response AppError * World :=
  @router toy (@app_routes toy toy_remote (LocalBackend "uploads") toy_wire Example.cfg (fun _ _ => None)) listing
    AdminExample.w.
(** The same without a key. *)
Definition anonymous : Request :=
  {| rq_parts := {| pt_method := "GET"; pt_path := "/api/v1/users"; pt_query := ""; pt_headers := []; pt_peer := None |};
     rq_body := "" |}.
Definition refusal : outcome Response AppError * World :=
  @limited toy migration_columns Example.cfg
    (@app_routes toy toy_remote (LocalBackend "uploads") toy_wire Example.cfg (fun _ _ => None)) (fun _ _ => None)
    anonymous AdminExample.w.
End DocumentedExample.

Lemma success_documented_witness : ∃ r w', DocumentedExample.answer = (Ok r, w') ∧
  ∃ e, @reaches toy_wire DocumentedExample.listing e ∧
    ∀ op, operation e = Some op → @as_documented toy toy_wire op r.
Proof.
  assert (Hok : match fst DocumentedExample.answer with Ok r => (rs_status r <? 400)%Z | _ => false end = true)
    by (vm_compute; reflexivity).
  destruct DocumentedExample.answer as [[r|e|] w'] eqn:E; cbn [fst] in Hok; [|discriminate Hok..].
  exists r, w'. split; [reflexivity|].
  apply (@success_documented toy toy_remote (LocalBackend "uploads") toy_wire Example.cfg (fun _ _ => None)
    DocumentedExample.listing AdminExample.w w' r toy_wire_rejects).
  - intros l. reflexivity.
  - intros key w x H. discriminate H.
  - exact E.
  - by apply Z.ltb_lt.
  - discriminate.
Defined.

Lemma security_documented_witness :
  refused (fst DocumentedExample.refusal) ∧ only_keys (w_db AdminExample.w) (w_db (snd DocumentedExample.refusal)).
Proof.
  refine (proj2 (@security_documented toy toy_remote (LocalBackend "uploads") toy_wire Example.cfg (fun _ _ => None)
    (fun _ _ => None) DocumentedExample.anonymous EpListUsers list_users_op toy_wire_rejects _ _ eq_refl _)
    _ eq_refl eq_refl AdminExample.w _ _ (surjective_pairing DocumentedExample.refusal)).
  - intros key w x [Hx|Hx]; discriminate Hx.
  - eexists _, _. split; vm_compute; reflexivity.
  - discriminate.
  - discriminate.
Defined.

(** ** What the document gets wrong *)

(** Validation fails with 422; these operations validate their body and document 400
    instead. *)
Example validation_status_undocumented :
  fst (error_parts (ValidationError "")) = (422%Z, "VALIDATION_ERROR") ∧
  Forall (fun op => 400%Z ∈ List.map rd_status (op_responses op) ∧ 422%Z ∉ List.map rd_status (op_responses op))
    [create_app_op; create_org_op; add_org_member_op; create_api_key_op; create_webhook_op; reset_password_op;
     create_presigned_url_op].
Proof. split; [reflexivity|]. repeat constructor; vm_compute; set_solver. Qed.

(** The operations of the API keys are listed under two paths with one identifier
    each; every other identifier is unique. *)
Example operation_ids_repeated :
  let ids := List.map (fun x => op_id (dp_operation x)) (oa_paths api_document) in
  let repeated := List.filter (fun i => 1 <? length (List.filter (String.eqb i) ids)) ids in
  remove_dups repeated = ["create_api_key"; "list_api_keys"; "delete_api_key"].
Proof. vm_compute. reflexivity. Qed.

(** The credential of machines is in no security scheme. *)
Example api_key_scheme_missing : schemes api_document = ["bearer_auth"].
Proof. reflexivity. Qed.

(** What is exported is what the server shows. *)
Lemma export_is_served {P : Platform} {G} finish to_pretty_json write files :
  export_openapi (G := G) finish to_pretty_json write = Ok files →
  ∃ spec, to_pretty_json api_document = inl spec ∧ files = [("openapi.json", spec)].
Proof.
  unfold export_openapi. destruct (auth_limiter _ _); [|done..].
  destruct (to_pretty_json api_document) as [spec|] eqn:E; [|done]. destruct (write _ _); [|done].
  intros [= <-]. by exists spec.
Qed.
