(* ===== verification/Invariants.v ===== *)
(** * What no request can break

    The schema's keys and references ([Schema.db_wf], [Schema.db_refs]), the
    append-only audit trail and the standing of every account (role, ban,
    deletion), as one relation between the database before and after: every
    statement of the services satisfies it, hence every handler and every
    background pass, whatever fails. *)
From stdpp Require Import gmap.
From S2P Require Import Prelude RustStr Models Errors Platform World Pagination Scopes Crypto AuditTrail.
From S2P Require Import MailService Auth Schema AuthProofs Orgs ApiKeys Jwks Oauth Disk StorageBackend.
From S2P Require Import BackendLaws Storage JobQueue Webhooks Realtime Worker Http Extractors Idempotency.
From S2P Require Import Middleware Routes FileRoutes Gates Api.

(** What no request changes of an account: role and ban, and that it is deleted. *)
Record same_standing (r r' : UserRow) : Prop := {
  ss_id : ur_id r' = ur_id r;
  ss_role : u_role (ur_user r') = u_role (ur_user r);
  ss_banned : u_banned (ur_user r') = u_banned (ur_user r);
  ss_deleted : ur_deleted_at r ≠ None → ur_deleted_at r' ≠ None }.
Definition ordinary (r : UserRow) : Prop := u_role (ur_user r) = "user" ∧ u_banned (ur_user r) = false.

(** Every account is still there; every account is an earlier one or an ordinary one. *)
Record standing (t t' : list UserRow) : Prop := {
  st_kept : ∀ r, r ∈ t → ∃ r', r' ∈ t' ∧ same_standing r r';
  st_from : ∀ r', r' ∈ t' → (∃ r, r ∈ t ∧ same_standing r r') ∨ ordinary r' }.

#[export] Instance same_standing_preorder : PreOrder same_standing.
Proof.
  split; [by intros r; split|]. intros r1 r2 r3 [I1 R1 B1 D1] [I2 R2 B2 D2]. split; [congruence.. | auto].
Qed.

#[export] Instance standing_preorder : PreOrder standing.
Proof.
  split; [intros t; split; intros r Hr; [|left]; by exists r|].
  intros t1 t2 t3 [K1 F1] [K2 F2]. split.
  - intros r (r2 & H2 & S2)%K1. destruct (K2 r2 H2) as (r3 & H3 & S3). exists r3. split; [done | by etrans].
  - intros r3 [(r2 & H2 & S3)|Ho]%F2; [|by right]. destruct (F1 r2 H2) as [(r1 & H1 & S2)|[Hr Hb]].
    + left. exists r1. split; [done | by etrans].
    + right. unfold ordinary. destruct S3 as [_ -> -> _]. by split.
Qed.

Lemma standing_update p f t : (∀ r, same_standing r (f r)) → standing t (update_where p f t).
Proof.
  intros Hf. assert (Hs : ∀ r, same_standing r (if p r then f r else r)) by (intros r; by destruct (p r)).
  split.
  - intros r Hr. exists (if p r then f r else r). split; [|apply Hs]. apply list_elem_of_fmap. by exists r.
  - intros r' (r & -> & Hr)%list_elem_of_fmap. left. exists r. split; [done | apply Hs].
Qed.

Lemma standing_insert r t : ordinary r → standing t (insert_row r t).
Proof.
  intros Ho. split.
  - intros r0 Hr. exists r0. split; [|done]. apply elem_of_app. by left.
  - intros r' [Hr| ->%list_elem_of_singleton]%elem_of_app; [left; by exists r' | by right].
Qed.

(** The database after may hold anything the schema allows, the trail it had, and
    its accounts in their standing. *)
Record evolves (d d' : Db) : Prop := {
  ev_wf : db_wf d → db_wf d';
  ev_refs : db_refs d → db_refs d';
  ev_trail : audit_logs d `prefix_of` audit_logs d';
  ev_standing : standing (users d) (users d') }.

#[export] Instance evolves_preorder : PreOrder evolves.
Proof.
  split; [by intros d; split|]. intros d1 d2 d3 [W1 F1 T1 S1] [W2 F2 T2 S2]. split; [by auto.. | by etrans | by etrans].
Qed.

(** Sessions. A request may open some and end some; it removes none and reopens
    none. The clean-up only removes some. *)
Record same_session (s s' : SessionRow) : Prop := {
  sse_id : sr_id s' = sr_id s;
  sse_revoked : s_revoked_at (sr_session s) ≠ None → s_revoked_at (sr_session s') ≠ None }.
Definition sessions_go (cleanup : bool) (t t' : list SessionRow) : Prop :=
  if cleanup then ∀ s', s' ∈ t' → s' ∈ t else ∀ s, s ∈ t → ∃ s', s' ∈ t' ∧ same_session s s'.

#[export] Instance same_session_preorder : PreOrder same_session.
Proof. split; [by intros s; split|]. intros s1 s2 s3 [I1 R1] [I2 R2]. split; [congruence | auto]. Qed.
#[export] Instance sessions_go_preorder k : PreOrder (sessions_go k).
Proof.
  destruct k; (split; [intros t s Hs | intros t1 t2 t3 H1 H2 s Hs]); cbn in *; [done | auto | by exists s |].
  destruct (H1 s Hs) as (s2 & Hs2 & S2). destruct (H2 s2 Hs2) as (s3 & Hs3 & S3). exists s3. split; [done | by etrans].
Qed.

Lemma sessions_update p f t : (∀ s, same_session s (f s)) → sessions_go false t (update_where p f t).
Proof.
  intros Hf s Hs. exists (if p s then f s else s). split; [apply list_elem_of_fmap; by exists s|].
  by destruct (p s).
Qed.
Lemma sessions_insert s t : sessions_go false t (insert_row s t).
Proof. intros s0 Hs. exists s0. split; [apply elem_of_app; by left | done]. Qed.
Lemma sessions_delete p t : sessions_go true t (delete_where p t).
Proof. intros s' Hs'. apply list_elem_of_In, filter_In in Hs' as [Hs' _]. by apply list_elem_of_In. Qed.

Arguments sessions_go : simpl never.

(** The two together. *)
Definition moves (cleanup : bool) (d d' : Db) : Prop :=
  evolves d d' ∧ sessions_go cleanup (sessions d) (sessions d').
#[export] Instance moves_preorder k : PreOrder (moves k).
Proof. split; [by intros d; split|]. intros d1 d2 d3 [E1 S1] [E2 S2]. split; by etrans. Qed.

(** ** Statements *)

Lemma exists_row_live_email (u : User) d : q_email_exists (u_email u) d = false →
  unique_on live_email_key (users d) →
  unique_on live_email_key (insert_row {| ur_user := u; ur_failed_login_attempts := 0;
    ur_locked_until := None; ur_deleted_at := None |} (users d)).
Proof.
  intros He Hu. apply unique_on_insert; [done|]. intros k r' Hk Hr' Hk'.
  unfold live_email_key in *. cbn in Hk. injection Hk as <-.
  unfold q_email_exists in He. rewrite exists_row_false in He. specialize (He _ Hr').
  unfold live_email in He. destruct (ur_live r'); [|done]. injection Hk' as Hk'.
  rewrite Hk', String.eqb_refl in He. done.
Qed.

Ltac key_check :=
  intros ? ?; unfold ur_id, kr_id, fr_id, job_is, scope_is in *; cbn in *; simplify_eq;
  repeat match goal with H : _ = _ |- _ => rewrite H end;
  rewrite ?N.eqb_refl, ?String.eqb_refl; done.
Ltac key_kept :=
  intros ? _ _; unfold pk, live_email_key, ur_live; done.
Ltac keep_key :=
  first
  [ assumption
  | apply unique_on_update; [key_kept | assumption]
  | apply unique_on_delete; assumption
  | apply exists_row_live_email; assumption
  | apply unique_on_update_drop; [intros ? _ _; by right | assumption]
  | match goal with H : exists_row ?p _ = false |- _ =>
      apply (unique_on_insert_checked _ p); [key_check | exact H | assumption] end ].

(** The server's check of a reference, as a row of the parent table. *)
Lemma exists_ref {B} (id : B -> Uuid) (k : Uuid) t : exists_row (fun r => id r =? k)%N t = true → ∃ b, b ∈ t ∧ id b = k.
Proof. intros (b & Hb & E)%exists_row_true. apply N.eqb_eq in E. by exists b. Qed.
Ltac ref_check :=
  let k := fresh "k" in let Hk := fresh "Hk" in
  intros k Hk; unfold pk in Hk;
  repeat match goal with H : negb _ = false |- _ => apply negb_false_iff in H; cbn in H end; cbn in Hk;
  repeat match goal with H : (_ && _)%bool = true |- _ => apply andb_true_iff in H as [? ?] end;
  try (injection Hk as Hk; subst k);
  repeat match goal with H : context [match ?x with Some _ => _ | None => true end], E : ?x = Some _ |- _ => rewrite E in H; cbv beta iota in H end;
  match goal with H : exists_row _ _ = true |- _ => exact (exists_ref _ _ _ H) end.
Ltac keep_ref :=
  first
  [ assumption
  | apply refs_update_child; [intros ?; done | assumption]
  | apply refs_update_parent; [intros ?; done | assumption]
  | apply refs_delete_child; assumption
  | apply refs_insert_parent; assumption
  | apply refs_insert_child; [ref_check | assumption] ].
Ltac keep_standing :=
  first
  [ reflexivity
  | apply standing_update; intros ?; split; done
  | apply standing_insert; split; reflexivity ].
Ltac keep_sessions :=
  first
  [ reflexivity
  | apply sessions_update; intros ?; by split
  | apply sessions_insert
  | apply sessions_delete ].
Ltac evolve_sql :=
  let t := fresh "t" in let d := fresh "d" in let a := fresh "a" in let d' := fresh "d'" in
  let H := fresh "H" in
  intros t d a d' H; sql_branches H; try reflexivity;
  unfold fk_user_opt, fk_app_opt, fk_org_opt, Orgs.fk_org_opt, fk_org_ref, user_exists, app_exists, org_exists,
    job_is, ur_id, kr_id, fr_id in *;
  (split; [split; [ intros []; split; cbn; keep_key | intros []; split; cbn; keep_ref
          | cbn; first [reflexivity | by eexists]
          | cbn; keep_standing ] | cbn; keep_sessions ]).

(** A new key given to the one row with an identifier, checked against the others. *)
Lemma unique_on_rekey {A K L} (key : A -> K) (id : A -> L) (i : L) (k : K) (p : A -> bool) (f : A -> A) t :
  (∀ r, p r = true ↔ id r = i) → (∀ r, key (f r) = k) →
  (∀ r, r ∈ t → id r ≠ i → key r ≠ k) →
  unique_on (pk id) t → unique_on (pk key) t → unique_on (pk key) (update_where p f t).
Proof.
  intros Hp Hf. unfold unique_on, pk, update_where.
  induction t as [|r t IH]; intros Hk Hi Hu; [constructor|]. csimpl in *.
  apply NoDup_cons in Hi as [Hi0 Hi]. apply NoDup_cons in Hu as [Hu0 Hu].
  apply NoDup_cons. split; [|apply IH; [intros; apply Hk; [by right | done] | done..]].
  rewrite list_elem_of_omap. intros (r' & Hr' & [= Heq]). apply list_elem_of_fmap in Hr' as (r0 & -> & Hr0).
  destruct (p r) eqn:E; destruct (p r0) eqn:E0; rewrite ?Hf in Heq.
  - apply Hi0, list_elem_of_omap. exists r0. split; [done|]. f_equal. apply Hp in E, E0. congruence.
  - apply (Hk r0); [by right | intros H; apply Hp in H; congruence | done].
  - apply (Hk r); [by left | intros H; apply Hp in H; congruence | done].
  - apply Hu0, list_elem_of_omap. by exists r0; rewrite Heq.
Qed.

Lemma ev_rotate_session sid h e ctx : sql_respects (moves false) (sql_rotate_session sid h e ctx).
Proof.
  intros t d a d' H. sql_branches H. split; [|cbn; keep_sessions].
  split; [| intros []; split; cbn; keep_ref | reflexivity..].
  intros []. split; cbn; try keep_key. apply (unique_on_rekey _ sr_id sid h); try done.
  - intros r. apply N.eqb_eq.
  - intros r Hr Hne. rewrite exists_row_false in Heqb. specialize (Heqb r Hr).
    apply N.eqb_neq in Hne. rewrite Hne, andb_true_r in Heqb. by apply String.eqb_neq.
Qed.
Lemma ev_insert_user u : u_role u = "user" → u_banned u = false → sql_respects (moves false) (sql_insert_user u).
Proof.
  intros Hr Hb t d a d' H. unfold sql_insert_user in H. sql_branches H. unfold user_exists, ur_id in *.
  split; [|reflexivity]. split; [intros []; split; cbn; keep_key | intros []; split; cbn; keep_ref | reflexivity |].
  by apply standing_insert.
Qed.
Lemma ev_soft_delete {P : Platform} uid : sql_respects (moves false) (sql_soft_delete uid).
Proof. evolve_sql. Qed.
Lemma ev_delete_webhook i o : sql_respects (moves false) (sql_delete_webhook i o).
Proof.
  intros t d a d' H. unfold sql_delete_webhook in H. cbv zeta in H. injection H as _ <-.
  split; [|by destruct (Nat.eqb _ _)]. split; [intros []; destruct (Nat.eqb _ _); split; cbn; keep_key | | by destruct (Nat.eqb _ _)..].
  assert (Hc : refs (pk wd_webhook_id) wh_id (webhook_deliveries d) (webhooks d) →
    refs (pk wd_webhook_id) wh_id (delete_where (fun x => wd_webhook_id x =? i)%N (webhook_deliveries d))
      (delete_where (owned_webhook i o) (webhooks d))).
  { apply refs_cascade. intros x b [= ->] Hb. unfold owned_webhook in Hb. by apply andb_true_iff in Hb as [? _]. }
  destruct (Nat.eqb (rows_affected (owned_webhook i o) (webhooks d)) 0) eqn:En.
  - apply Nat.eqb_eq, delete_where_none in En. rewrite En. intros []; split; cbn; keep_ref.
  - intros []; split; cbn; first [keep_ref | by apply Hc].
Qed.
Lemma ev_enqueue a b c d e f : sql_respects (moves false) (sql_enqueue a b c d e f).
Proof. evolve_sql. Qed.

#[export] Hint Resolve ev_rotate_session ev_delete_webhook : respects.
#[export] Hint Extern 4 (sql_respects (moves _) _) => solve [evolve_sql] : respects.

(** ** Operations *)

(** Down the definitions of a handler to its statements. *)
Ltac evolve_step :=
  first [ respects_step
        | match goal with
          | |- respects _ (let '_ := ?x in _) => destruct x
          | |- respects _ ?m => let h := head_of m in unfold h; cbv beta zeta
          end ].
Ltac evolve := repeat evolve_step.

#[export] Hint Extern 2 (respects _ (sb_put_file _ _ _)) => apply bl_frame; exact _ : respects.
#[export] Hint Extern 2 (respects _ (sb_put_bytes _ _ _)) => apply bl_frame; exact _ : respects.
#[export] Hint Extern 2 (respects _ (sb_open _)) => apply bl_frame; exact _ : respects.
#[export] Hint Extern 2 (respects _ (sb_head _)) => apply bl_frame; exact _ : respects.
#[export] Hint Extern 2 (respects _ (sb_delete _)) => apply bl_frame; exact _ : respects.
#[export] Hint Extern 2 (respects _ (sb_presign_get _ _)) => apply bl_frame; exact _ : respects.
#[export] Hint Extern 2 (respects _ (sb_presign_put _ _ _)) => apply bl_frame; exact _ : respects.

Section Operations.
Context {P : Platform} {R : Remote} {B : StorageBackend} (cfg : AppConfig) (p : Parts).
Context {L : BackendLaws (upload_dir cfg) B}.

Lemma ev_authenticate : respects (moves false) (authenticate cfg p).
Proof. evolve. Qed.
Lemma ev_record_best_effort a b c d e f : respects (moves false) (record_best_effort a b c d e f).
Proof. evolve. Qed.
Hint Resolve ev_authenticate ev_record_best_effort : respects.

Lemma ev_stream_chunks temp : ∀ chunks total head hashed,
  respects (moves false) (stream_chunks cfg temp chunks total head hashed).
Proof.
  induction chunks as [|[c|e] chunks IH]; intros total head hashed; cbn [stream_chunks]; evolve.
Qed.
Hint Resolve ev_stream_chunks : respects.

Lemma ev_save_upload_field a b c d : respects (moves false) (save_upload_field cfg a b c d).
Proof. evolve. Qed.
Hint Resolve ev_save_upload_field : respects.

Lemma ev_upload_parts u ctx : ∀ parts v org, respects (moves false) (upload_parts cfg u ctx v org parts).
Proof. induction parts as [|[f|e] parts IH]; intros v org; cbn [upload_parts]; evolve. Qed.
Hint Resolve ev_upload_parts : respects.

Lemma ev_process_job j : respects (moves false) (process_job j).
Proof. evolve. Qed.
Hint Resolve ev_process_job : respects.

Lemma worker_evolves locked worker : respects (moves false) (worker_iteration locked worker).
Proof. evolve. Qed.

Lemma ev_cleanup_statement t f : f ∈ cleanup_statements t → ∀ d, moves true d (f d).
Proof.
  unfold cleanup_statements. intros Hf d.
  repeat (apply elem_of_cons in Hf as [->|Hf]); [..|by apply elem_of_nil in Hf];
    (split; [split; [intros []; split; cbn; keep_key | intros []; split; cbn; keep_ref | reflexivity..] | cbn; keep_sessions]).
Qed.

Lemma ev_run_statements l : (∀ f, f ∈ l → ∀ d, moves true d (f d)) → respects (moves true) (run_statements l).
Proof.
  induction l as [|f l IH]; intros H; cbn [run_statements]; [evolve|].
  apply respects_bind; [exact _ | | intros _; apply IH; intros g Hg; apply H; by right].
  apply respects_attempt, respects_exec; [exact _|]. apply sql_respects_write. intros _ d. apply H. by left.
Qed.

Lemma ev_reap_each l : respects (moves true) (reap_each l).
Proof. induction l as [|[i k] l IH]; cbn [reap_each]; evolve. Qed.
Hint Resolve ev_reap_each : respects.

Lemma cleanup_evolves : respects (moves true) (cleanup_pass cfg).
Proof.
  unfold cleanup_pass. apply respects_bind; [exact _ | apply respects_now; exact _ | intros t].
  apply respects_bind; [exact _ | apply ev_run_statements, ev_cleanup_statement | intros _]. evolve.
Qed.

Lemma guard_evolves columns next req :
  (∀ q, respects (moves false) (next q)) → respects (moves false) (idempotency_guard columns cfg next req).
Proof.
  intros Hn. unfold idempotency_guard. cbv zeta. evolve.
Qed.

Lemma route_evolves g h : Gates.route cfg p g h → respects (moves false) h.
Proof. intros []; evolve. Qed.

Lemma served_evolves {X} g (h : M X) : Gates.route cfg p g (void h) → respects (moves false) h.
Proof. intros Hr w. specialize (route_evolves g (void h) Hr w). unfold void, bind. by destruct (h w) as [[x|e|] w1]. Qed.

(** Rendering a reply changes nothing. *)
Lemma rendering_evolves {X} g (h : M X) (f : X -> Response) :
  Gates.route cfg p g (void h) → respects (moves false) (let! x := h in ret (f x)).
Proof. intros Hr. apply respects_bind; [exact _ | by apply (served_evolves g) | intros x; evolve]. Qed.

Lemma extract_evolves {X} before (x : X + Response) k :
  respects (moves false) before → (∀ a, respects (moves false) (k a)) → respects (moves false) (extract before x k).
Proof. intros Hb Hk. unfold extract. destruct x as [a|rej]; [apply Hk | evolve]. Qed.
End Operations.

Section Requests.
Context {P : Platform} {R : Remote} {B : StorageBackend} {W : Wire} (cfg : AppConfig).
Context {L : BackendLaws (upload_dir cfg) B}.

Lemma endpoint_evolves params req e : respects (moves false) (endpoint cfg params req e).
Proof.
  assert (Ha : ∀ p, respects (moves false) (authenticate cfg p)) by (intros p; apply ev_authenticate).
  destruct e; cbn [endpoint];
    repeat (apply extract_evolves; [evolve | intros ?]);
    try (unfold replying; eapply (rendering_evolves cfg (rq_parts req)); constructor);
    try (eapply (served_evolves cfg (rq_parts req)); constructor);
    try (evolve; done).
Qed.

Lemma respond_evolves handler req : respects (moves false) (handler req) → respects (moves false) (respond handler req).
Proof. intros H w. specialize (H w). unfold respond. by destruct (handler req w) as [[x|e|] w1]. Qed.

Lemma increment_evolves name labels : respects (moves false) (increment name labels).
Proof. intros w. reflexivity. Qed.

Lemma router_evolves auth_govern req : respects (moves false) (router (app_routes cfg auth_govern) req).
Proof.
  unfold router, app_routes. destruct (match_path _ _) as [[template params]|]; [|evolve].
  unfold track_metrics. apply respects_bind; [exact _ | apply respond_evolves | intros r].
  - intros w. unfold mounted. destruct (if auth_limited template then auth_govern _ w else None); [reflexivity|]. revert w.
    change (respects (moves false) (method_router cfg template params req)). unfold method_router.
    destruct (endpoint_at _ _) as [e|]; [|evolve].
    apply respects_bind; [exact _ | apply respond_evolves, endpoint_evolves | intros r; evolve].
  - apply respects_bind; [exact _ | apply increment_evolves | intros _; evolve].
Qed.

Lemma limited_evolves columns govern auth_govern req :
  respects (moves false) (limited columns cfg (app_routes cfg auth_govern) govern req).
Proof.
  intros w. unfold limited. destruct (govern _ w); [reflexivity|]. revert w.
  change (respects (moves false) (hardened columns cfg (app_routes cfg auth_govern) req)). unfold hardened, security_headers.
  apply respects_bind; [exact _ | apply guard_evolves, router_evolves | intros r; evolve].
Qed.
End Requests.

(** ** The service as a whole *)

Section Service.
Context {P : Platform} {R : Remote} {B : StorageBackend} {W : Wire} (cfg : AppConfig).

(** One thing that happens to a running replica set: a request to the application,
    whatever it is and whoever sends it; an iteration of a worker; a clean-up pass;
    time going by and failures arriving. [columns] are those of the idempotency
    table, migrated or as the guard expects them. *)
Inductive service_step : World -> World -> Prop :=
| ss_request columns govern auth_govern req w :
    service_step w (snd (limited columns cfg (app_routes cfg auth_govern) govern req w))
| ss_worker locked worker w : service_step w (snd (worker_iteration locked worker w))
| ss_cleanup w : service_step w (snd (cleanup_pass cfg w))
| ss_environment t faults io_faults w : (w_now w <= t)%Z →
    service_step w (set_now t (set_faults faults (set_io_faults io_faults w))).

Lemma service_step_moves {L : BackendLaws (upload_dir cfg) B} w w' :
  service_step w w' → ∃ k, moves k (w_db w) (w_db w').
Proof.
  intros [columns govern auth_govern req w0 | locked worker w0 | w0 | t f io w0 _].
  - exists false. exact (limited_evolves cfg columns govern auth_govern req w0).
  - exists false. apply worker_evolves.
  - exists true. apply (cleanup_evolves cfg).
  - exists false. reflexivity.
Qed.

Lemma service_evolves {L : BackendLaws (upload_dir cfg) B} w w' :
  rtc service_step w w' → evolves (w_db w) (w_db w').
Proof.
  intros H. induction H as [w|w1 w2 w3 Hs _ IH]; [reflexivity|].
  destruct (service_step_moves _ _ Hs) as (k & Hm & _). by etrans.
Qed.
End Service.

(** ** Properties *)

(** C5: no run of the service breaks its schema or rewrites its history. Whatever
    requests arrive at the application, from whom and in whatever order, whatever
    the workers and the clean-up do in between and whatever fails, a database
    whose keys are unique keeps them so, one whose references all lead to a row
    keeps them so, in every table, and every audit entry stays where it is,
    unchanged: the trail only grows at its end. *)
Theorem service_invariant {P : Platform} {R : Remote} {B : StorageBackend} {W : Wire} (cfg : AppConfig)
    (L : BackendLaws (upload_dir cfg) B) (w w' : World) :
  rtc (service_step cfg) w w' →
  (db_wf (w_db w) → db_wf (w_db w')) ∧ (db_refs (w_db w) → db_refs (w_db w')) ∧
  audit_logs (w_db w) `prefix_of` audit_logs (w_db w').
Proof.
  intros H. enough (evolves (w_db w) (w_db w')) as [? ? ? ?] by done. by eapply service_evolves.
Qed.

(** Whoever authenticates has a live account, unless the identity provider vouches. *)
Lemma authenticated_account {P : Platform} {R : Remote} cfg p w u : authenticated cfg p w u →
  (∃ iss, au_credential u = CredSsoRemote iss) ∨
  ∃ r, r ∈ users (w_db w) ∧ ur_id r = au_id u ∧ au_role u = u_role (ur_user r) ∧ ur_deleted_at r = None ∧
    u_banned (ur_user r) = false.
Proof.
  intros [key usr k _ (row & r & _ & _ & _ & _ & Hr & <- & _ & Hd & Hb)
         | token claims uid sid usr _ _ _ _ _ (s & r & _ & _ & _ & _ & _ & Hr & _ & Hd & <- & Hb)
         | token client claims w1 id _ _ _ _ _ _]; [right; by exists r..|left; by eexists].
Qed.

(** C6: No run of the service raises anyone. Whatever requests arrive, from whom and in
    whatever order, whatever runs in the background and whatever fails: who is let
    in as an administrator afterwards was an administrator before, and a banned or
    deleted account never authenticates again, by no key, session or header. The
    identity provider's own tokens, which carry their role, are the exception. *)
Theorem standing_kept {P : Platform} {R : Remote} {B : StorageBackend} {W : Wire} (cfg : AppConfig)
    (L : BackendLaws (upload_dir cfg) B) (w w' : World) :
  db_wf (w_db w) → rtc (service_step cfg) w w' →
  (∀ p a w'', AdminUser_from cfg p w' = (Ok a, w'') → (∃ iss, ad_credential a = CredSsoRemote iss) ∨
     ∃ r, r ∈ users (w_db w) ∧ ur_id r = ad_id a ∧ u_role (ur_user r) = "admin") ∧
  (∀ r p u w'', r ∈ users (w_db w) → u_banned (ur_user r) = true ∨ ur_deleted_at r ≠ None →
     AuthUser_from cfg p w' = (Ok u, w'') → au_id u = ur_id r → ∃ iss, au_credential u = CredSsoRemote iss).
Proof.
  intros Hwf Hrun. destruct (service_evolves cfg w w' Hrun) as [Hwf' _ _ [Hkept Hfrom]]. specialize (Hwf' Hwf). split.
  - intros p a w'' (u & Hu & Hr & -> & -> & _)%admin_extracted.
    apply authenticated_account in Hu as [Hsso | (r & Hin & Hi & Hrole & _)]; [by left | right].
    rewrite Hr in Hrole. destruct (Hfrom r Hin) as [(r0 & Hin0 & [Hid Hro _ _]) | [Ho _]].
    + exists r0. split; [done|]. split; congruence.
    + rewrite Ho in Hrole. done.
  - intros r p u w'' Hr Hout Ha Hi. apply authenticate_Ok in Ha as [Ha _].
    apply authenticated_account in Ha as [Hsso | (r1 & Hr1 & Hi1 & _ & Hd1 & Hb1)]; [done|].
    destruct (Hkept r Hr) as (r2 & Hr2 & [Hid _ Hb Hd]).
    assert (r2 = r1) as -> by (eapply (pk_inj ur_id); eauto; [apply (wf_users_pk _ Hwf') | congruence]).
    destruct Hout as [Hout|Hout]; [congruence | by apply Hd in Hout].
Qed.

(** A session nobody can use: revoked, or gone. *)
Definition issued (sid : Uuid) (d : Db) : Prop := ∃ s, s ∈ sessions d ∧ sr_id s = sid.
Definition ended (sid : Uuid) (d : Db) : Prop :=
  ∀ s, s ∈ sessions d → sr_id s = sid → s_revoked_at (sr_session s) ≠ None.

Lemma moves_ended k sid d d' : moves k d d' → db_wf d' → (issued sid d' → issued sid d) → ended sid d → ended sid d'.
Proof.
  intros [_ Hs] Hwf Hi He s' Hs' Hid. destruct k; cbv [sessions_go] in Hs; [by apply He; [apply Hs|]|].
  destruct Hi as (s & Hin & Hsid); [by exists s'|]. destruct (Hs s Hin) as (s2 & Hin2 & [Hid2 Hr2]).
  assert (s2 = s') as -> by (eapply (pk_inj sr_id); eauto; [apply (wf_sessions_pk _ Hwf) | congruence]).
  by apply Hr2, He.
Qed.

(** C7: Signing out is final. Once a session is revoked no run of the service brings it
    back: whatever requests arrive, whatever runs in the background (the clean-up
    that removes the row included) and whatever fails, as long as its identifier
    is not drawn again, no request ever authenticates by it, and no refresh token
    renews it. *)
Theorem revocation_final {P : Platform} {R : Remote} {B : StorageBackend} {W : Wire} (cfg : AppConfig)
    (L : BackendLaws (upload_dir cfg) B) (sid : Uuid) (w w' : World) :
  db_wf (w_db w) → ended sid (w_db w) →
  rtc (fun a b => service_step cfg a b ∧ (issued sid (w_db b) → issued sid (w_db a))) w w' →
  (∀ p u w'', AuthUser_from cfg p w' = (Ok u, w'') → au_credential u ≠ CredSession sid) ∧
  (∀ tok ctx resp w'', w_faults w' = [] → refresh_session cfg tok ctx w' = (Ok resp, w'') →
     ar_session_id resp ≠ sid).
Proof.
  intros Hwf He Hrun. enough (Hend : ended sid (w_db w')).
  { split.
    - intros p u w'' Ha Hc. apply authenticate_Ok in Ha as [Ha _]. destruct Ha; cbn in Hc; try done.
      injection Hc as ->. match goal with H : session_usable _ _ _ _ _ |- _ => destruct H as (s & r & Hs & Hid & _ & Hr & _) end.
      by apply (Hend s).
    - intros tok ctx resp w'' Hf Hr Hid. apply refresh_session_Ok in Hr as (s & u & Hs & _ & Hu & Hsid & _); [|done].
      destruct Hu as (s' & r & Hs' & Hid' & _ & Hr & _). apply (Hend s'); [done | congruence | done]. }
  induction Hrun as [w|w1 w2 w3 [Hs Hi] _ IH]; [done|].
  destruct (service_step_moves cfg w1 w2 Hs) as [k Hm]. pose proof (ev_wf _ _ (proj1 Hm) Hwf) as Hwf2.
  apply IH; [done|]. by eapply moves_ended.
Qed.

Module ServiceExample.
Definition B : StorageBackend := LocalBackend (upload_dir Example.cfg).
(** A wire that understands one registration. *)
Definition wire : Wire := {|
  match_path := match_path (Wire := toy_wire);
  json_body c _ := match c return payload c + Response with
                   | PSignUp => inl Example_sign_up
                   | _ => inr not_understood
                   end;
  query := toy_query;
  path_uuid := path_uuid (Wire := toy_wire);
  multipart_body := multipart_body (Wire := toy_wire);
  bytes_body := bytes_body (Wire := toy_wire);
  serialize _ _ := JNull;
  sse_response := sse_response (Wire := toy_wire);
  broadcast := [];
  render_metrics _ := "";
  docs_page := docs_page (Wire := toy_wire);
  crate_version := "1.0.0" |}.
Definition request : Request := ApiExample.req "POST" "/api/v1/auth/sign-up/email" "".
Definition served : outcome Response AppError * World :=
  @limited toy migration_columns Example.cfg (@app_routes toy toy_remote B wire Example.cfg (fun _ _ => None))
    (fun _ _ => None)
    request Example.w.
(** Someone registers, and the clean-up runs a month later. *)
Definition registered : World := snd served.
Definition month : World :=
  snd (@cleanup_pass B Example.cfg (set_now (days 31) (set_faults [] (set_io_faults [] registered)))).
End ServiceExample.

Example sign_up_is_served : match fst ServiceExample.served with Ok r => rs_status r | _ => 0%Z end = 201%Z
  ∧ length (users (w_db ServiceExample.registered)) = 2.
Proof. vm_compute. by split. Qed.

Lemma example_refs : db_refs (w_db Example.w).
Proof.
  split; intros a k Ha; try (by apply elem_of_nil in Ha);
    repeat (apply elem_of_cons in Ha as [->|Ha]; [intros [= <-]; exists Example.user_row; split; [left | reflexivity]|]);
    by apply elem_of_nil in Ha.
Qed.

Lemma service_invariant_witness :
  db_wf (w_db ServiceExample.month) ∧ db_refs (w_db ServiceExample.month) ∧
  audit_logs (w_db Example.w) `prefix_of` audit_logs (w_db ServiceExample.month).
Proof.
  destruct (@service_invariant toy toy_remote ServiceExample.B ServiceExample.wire Example.cfg
    (LocalLaws (upload_dir Example.cfg)) Example.w ServiceExample.month) as [Hwf [Hrefs Htrail]].
  - apply (rtc_l _ _ ServiceExample.registered).
    { exact (ss_request Example.cfg migration_columns (fun _ _ => None) (fun _ _ => None) ServiceExample.request Example.w). }
    apply (rtc_l _ _ (set_now (days 31) (set_faults [] (set_io_faults [] ServiceExample.registered)))).
    { apply ss_environment. vm_compute. discriminate. }
    apply rtc_once. exact (ss_cleanup Example.cfg _).
  - split; [exact (Hwf example_wf) | split; [exact (Hrefs example_refs) | exact Htrail]].
Defined.

(** Two administrators of whom one is banned; the other's listing is served, then a
    day passes. *)
Module StandingExample.
Definition banned : UserRow := {|
  ur_user := {| u_id := 2%N; u_name := "Eve"; u_email := "eve@example.com"; u_email_verified := true;
    u_image := None; u_role := "admin"; u_banned := true; u_created_at := 0; u_updated_at := 0 |}%Z;
  ur_failed_login_attempts := 0; ur_locked_until := None; ur_deleted_at := None |}.
Definition w : World := world_of (set_users (banned :: users (w_db AdminExample.w)) (w_db AdminExample.w)) 1000000.
Definition listed : World :=
  snd (@limited toy migration_columns Example.cfg
    (@app_routes toy toy_remote ServiceExample.B toy_wire Example.cfg (fun _ _ => None)) (fun _ _ => None)
    (ApiExample.req "GET" "/api/v1/users" "ops") w).
Definition later : World := set_now (days 31) (set_faults [] (set_io_faults [] listed)).
Definition admitted : outcome AdminUser AppError * World :=
  @AdminUser_from toy toy_remote Example.cfg (AdminExample.parts "ops") later.
End StandingExample.

Lemma standing_kept_witness :
  is_ok (fst StandingExample.admitted) = true ∧
  ∀ a, fst StandingExample.admitted = Ok a → (∃ iss, ad_credential a = CredSsoRemote iss) ∨
    ∃ r, r ∈ users (w_db StandingExample.w) ∧ ur_id r = ad_id a ∧ u_role (ur_user r) = "admin".
Proof.
  split; [vm_compute; reflexivity|]. intros a Ha.
  refine (proj1 (@standing_kept toy toy_remote ServiceExample.B toy_wire Example.cfg (LocalLaws (upload_dir Example.cfg))
    StandingExample.w StandingExample.later _ _) (AdminExample.parts "ops") a (snd StandingExample.admitted) _).
  - split; unfold unique_on; apply (bool_decide_unpack _); vm_compute; exact I.
  - apply (rtc_l _ _ StandingExample.listed).
    { exact (ss_request Example.cfg migration_columns (fun _ _ => None) (fun _ _ => None)
        (ApiExample.req "GET" "/api/v1/users" "ops") StandingExample.w). }
    apply rtc_once, ss_environment. vm_compute. discriminate.
  - rewrite <- Ha. exact (surjective_pairing _).
Defined.

(** Ada's session is revoked, a registration is served, the clean-up runs: the token
    that was good before is refused. *)
Module SignOutExample.
Definition w : World := world_of (set_sessions
  (List.map (fun s => if (sr_id s =? 3)%N then revoke_session 500000 s else s) (sessions Example.db)) Example.db) 1000000.
Definition served : World :=
  snd (@limited toy migration_columns Example.cfg
    (@app_routes toy toy_remote ServiceExample.B ServiceExample.wire Example.cfg (fun _ _ => None)) (fun _ _ => None)
    ServiceExample.request w).
Definition cleaned : World := snd (@cleanup_pass ServiceExample.B Example.cfg served).
Definition caller (w : World) : outcome AuthUser AppError * World :=
  @AuthUser_from toy toy_remote Example.cfg CallExample.parts w.
End SignOutExample.

Lemma revocation_final_witness :
  (∃ u, fst (SignOutExample.caller Example.w) = Ok u ∧ au_credential u = CredSession 3%N) ∧
  ∀ u, fst (SignOutExample.caller SignOutExample.cleaned) = Ok u → au_credential u ≠ CredSession 3%N.
Proof.
  split; [eexists; split; vm_compute; reflexivity|]. intros u Hu.
  refine (proj1 (@revocation_final toy toy_remote ServiceExample.B ServiceExample.wire Example.cfg
    (LocalLaws (upload_dir Example.cfg)) 3%N SignOutExample.w SignOutExample.cleaned _ _ _) CallExample.parts u
    (snd (SignOutExample.caller SignOutExample.cleaned)) _).
  - split; unfold unique_on; apply (bool_decide_unpack _); vm_compute; exact I.
  - assert (He : forallb (fun s => negb (sr_id s =? 3)%N || is_some (s_revoked_at (sr_session s)))%bool
      (sessions (w_db SignOutExample.w)) = true) by (vm_compute; reflexivity).
    intros s Hs Hid Hr. rewrite forallb_forall in He. apply list_elem_of_In in Hs. specialize (He s Hs).
    rewrite Hid, Hr in He. discriminate He.
  - apply (rtc_l _ _ SignOutExample.served).
    { split; [exact (ss_request Example.cfg migration_columns (fun _ _ => None) (fun _ _ => None)
        ServiceExample.request SignOutExample.w) | intros _; apply exists_ref; vm_compute; reflexivity]. }
    apply rtc_once. split; [exact (ss_cleanup Example.cfg _)|]. intros _. apply exists_ref. vm_compute. reflexivity.
  - rewrite <- Hu. exact (surjective_pairing _).
Defined.
