(* ===== verification/OneShot.v ===== *)
(** * What works once, in parallel

    Three credentials are good for one use: a recovery token, a refresh token, the
    state of a social sign-in. Each is spent by one action (a single [UPDATE], or a
    transaction whose first read locks the row) among the others of its request.
    Proved here for requests that overlap in any way ([Threads]): of any number
    that present one credential, at most one succeeds. The argument is one
    logic of threads ([shot]), with a rule for what a handler is built of. *)
From stdpp Require Import relations.
From S2P Require Import Prelude RustStr Models Errors Platform World Crypto.
From S2P Require Import AuditTrail MailService Auth Schema AuthProofs Threads Oauth Invariants.

(** ** Threads that spend at most once *)

Section Shot.
Context (good spent : World -> Prop).

(** An action that keeps what is good, and what is spent. *)
Definition safe {A} (m : M A) : Prop :=
  ∀ w, good w → good (snd (m w)) ∧ (spent w → spent (snd (m w))).

(** [b]: the thread has spent the credential. An action is safe, or it finds the
    credential unspent, spends it, and the thread goes on as one that has. *)
Fixpoint shot {A} (Q : bool -> outcome A AppError -> Prop) (b : bool) (t : Thread A) : Prop :=
  match t with
  | Done r => Q b r
  | Atom m k => ∀ w, good w →
      good (snd (m w)) ∧
      ((shot Q b (k (fst (m w))) ∧ (spent w → spent (snd (m w)))) ∨
       (b = false ∧ ¬ spent w ∧ spent (snd (m w)) ∧ shot Q true (k (fst (m w)))))
  end.

(** Only a thread that has spent the credential succeeds. *)
Definition winner {A} (b : bool) (r : outcome A AppError) : Prop := is_ok r = true → b = true.

(** What follows a result, in the source's [?]. *)
Definition and_then {A B} (Q : bool -> outcome B AppError -> Prop) (f : A -> Thread B) (b : bool)
    (r : outcome A AppError) : Prop :=
  match r with Ok a => shot Q b (f a) | Err e => Q b (Err e) | Panic => Q b Panic end.

Lemma shot_bind {A B} (t : Thread A) (f : A -> Thread B) Q b :
  shot (and_then Q f) b t → shot Q b (tbind t f).
Proof.
  revert b. induction t as [r|X m k IH]; intros b H; [by destruct r|].
  intros w Hw. destruct (H w Hw) as [Hg [[Hk Hs] | (-> & Hn & Hs & Hk)]]; (split; [done|]).
  - left. split; [by apply IH | done].
  - right. split; [done|]. split; [done|]. split; [done | by apply IH].
Qed.

Lemma shot_atom {A} (m : M A) Q b : safe m → (∀ r, Q b r) → shot Q b (atom m).
Proof. intros Hm HQ w Hw. destruct (Hm w Hw). split; [done|]. left. split; [apply HQ | done]. Qed.

Lemma shot_mono {A} (t : Thread A) (Q Q' : bool -> outcome A AppError -> Prop) b :
  (∀ b r, Q b r → Q' b r) → shot Q b t → shot Q' b t.
Proof.
  intros HQ. revert b. induction t as [r|X m k IH]; intros b H; [by apply HQ|].
  intros w Hw. destruct (H w Hw) as [Hg [[Hk Hs] | (-> & Hn & Hs & Hk)]]; (split; [done|]).
  - left. split; [by apply IH | done].
  - right. split; [done|]. split; [done|]. split; [done | by apply IH].
Qed.

(** The action that spends. *)
Lemma shot_spend {A} (m : M A) (Q : bool -> outcome A AppError -> Prop) :
  (∀ w, good w → good (snd (m w))) →
  (∀ w, good w → spent w → spent (snd (m w))) →
  (∀ w a w', good w → m w = (Ok a, w') → (¬ spent w ∧ spent w' ∧ Q true (Ok a)) ∨ Q false (Ok a)) →
  (∀ e, Q false (Err e)) → Q false Panic → shot Q false (atom m).
Proof.
  intros Hg Hs Hok He Hp w Hw. split; [by apply Hg|].
  specialize (Hok w). specialize (Hs w Hw). destruct (m w) as [[a|e|] w']; cbn in *; [|by left..].
  destruct (Hok a w' Hw eq_refl) as [(? & ? & ?) | ?]; [by right | by left].
Qed.

(** Once spent, nothing is left to show but that actions are safe. *)
Lemma winner_and_then {A B} (f : A -> Thread B) (r : outcome A AppError) b :
  (∀ a, shot winner b (f a)) → and_then winner f b r.
Proof. intros Hf. destruct r; [apply Hf | done..]. Qed.

(** ** Several of them *)

Definition wins (b : bool) : nat := if b then 1 else 0.

(** [bs] tells who has won: nobody, or one and the credential is spent. *)
Definition settled {A} (w : World) (ts : list (Thread A)) (bs : list bool) : Prop :=
  good w ∧ Forall2 (fun t b => shot winner b t) ts bs ∧
  (total_weight wins bs = 0 ∨ total_weight wins bs = 1 ∧ spent w).

Lemma settled_advance {A} w (ts : list (Thread A)) bs i t :
  settled w ts bs → ts !! i = Some t →
  ∃ bs', settled (snd (advance t w)) (<[i := fst (advance t w)]> ts) bs'.
Proof.
  intros (Hg & Hf & Hs) Hi. destruct (Forall2_lookup_l _ _ _ _ _ Hf Hi) as (b & Hb & Hat).
  destruct t as [r|X m k]; [exists bs; cbn; by rewrite list_insert_id|].
  destruct (Hat w Hg) as [Hg' Hcase]. cbn [advance]. destruct (m w) as [r w']. cbn [fst snd] in *.
  destruct Hcase as [[Hk Hsp] | (-> & Hn & Hsp & Hk)].
  - exists bs. split; [done|]. split; [|naive_solver].
    rewrite <- (list_insert_id bs i b Hb). by apply Forall2_insert.
  - exists (<[i := true]> bs). split; [done|]. split; [by apply Forall2_insert|].
    pose proof (total_weight_insert wins bs i false true Hb). cbn [wins] in *.
    destruct Hs as [Hs | [_ Hs]]; [|done]. right. split; [lia | done].
Qed.

Lemma settled_bound {A} w (ts : list (Thread A)) bs : settled w ts bs → total_weight succeeded ts <= 1.
Proof.
  intros (_ & Hf & Hs). enough (total_weight succeeded ts <= total_weight wins bs) by lia. clear Hs.
  induction Hf as [|t b ts1 bs1 Ht Hf IH]; cbn; [lia|].
  enough (succeeded t <= wins b) by lia. destruct t as [[a|e|]|]; cbn; try lia. by rewrite (Ht eq_refl).
Qed.

(** Of threads that have not spent it yet, at most one succeeds, and none once it is spent. *)
Section Run.
Context {A : Type} (env : World -> World -> Prop).
Hypothesis env_safe : ∀ w1 w2, env w1 w2 → good w1 → good w2 ∧ (spent w1 → spent w2).
Let step := @sys_step A (fun _ => False) env.

Lemma one_wins w w' ts ts' :
  good w → (∀ t, t ∈ ts → shot winner false t) → rtc step (w, ts) (w', ts') → total_weight succeeded ts' <= 1.
Proof.
  intros Hg Hts Hrun. pose (inv := fun s : System A => ∃ bs, settled (fst s) (snd s) bs).
  enough (Hinv : inv (w', ts')) by (destruct Hinv as (bs & H); by eapply settled_bound).
  refine (rtc_preserved _ inv _ _ _ Hrun _).
  - intros s1 s2 Hs (bs & Hset). destruct Hs as [i t w1 ts1 Hi | | w1 w2 ts1 He]; cbn [fst snd] in *; [|done|].
    + by destruct (settled_advance _ _ _ _ _ Hset Hi) as (bs' & H'); exists bs'.
    + destruct Hset as (Hg1 & Hf & H0). destruct (env_safe _ _ He Hg1) as [Hg2 Hsp].
      exists bs. split; [done|]. split; [done|]. naive_solver.
  - exists (replicate (length ts) false). split; [done|]. split.
    + apply Forall2_same_length_lookup_2; [by rewrite length_replicate|]. intros i t b Ht Hb.
      apply lookup_replicate in Hb as [-> _]. apply Hts. by eapply list_elem_of_lookup_2.
    + left. apply total_weight_0. intros b Hb. by apply elem_of_replicate in Hb as [-> _].
Qed.

Lemma none_wins w w' ts ts' :
  good w → spent w → (∀ t, t ∈ ts → shot winner false t) → rtc step (w, ts) (w', ts') →
  total_weight succeeded ts' = 0.
Proof.
  intros Hg Hsp Hts Hrun.
  pose (inv := fun s : System A => good (fst s) ∧ spent (fst s) ∧ ∀ t, t ∈ snd s → shot winner false t).
  enough (Hinv : inv (w', ts')).
  { destruct Hinv as (_ & _ & H). apply total_weight_0. intros t Ht. specialize (H t Ht).
    destruct t as [[a|e|]|]; [by discriminate (H eq_refl) | done..]. }
  refine (rtc_preserved _ inv _ _ _ Hrun _); [|by split_and!].
  intros s1 s2 Hs (Hg1 & Hs1 & Ht1). destruct Hs as [i t w1 ts1 Hi | | w1 w2 ts1 He]; cbn [fst snd] in *; [|done|].
  - assert (Ht : shot winner false t) by (apply Ht1; by eapply list_elem_of_lookup_2).
    destruct t as [r|X m k]; cbn [advance]; [by rewrite list_insert_id|].
    destruct (Ht w1 Hg1) as [Hg2 [[Hk Hs2] | (_ & Hn & _)]]; [|done].
    destruct (m w1) as [r w2]. cbn [fst snd] in *. split; [done|]. split; [by apply Hs2|].
    intros x (j & Hx)%list_elem_of_lookup. apply list_lookup_insert_Some in Hx as [(_ & <- & _) | [_ Hx]];
      [done | apply Ht1; by eapply list_elem_of_lookup_2].
  - destruct (env_safe _ _ He Hg1) as [Hg2 Hs2]. split; [done|]. split; [by apply Hs2 | done].
Qed.
End Run.
End Shot.

(** ** Recovery tokens *)

Section Recovery.
Context {P : Platform} (cfg : AppConfig) (tok : string) (purpose : TokenPurpose).
Let h : string := sha256_hex tok.

(** No row can be redeemed with the token, now or later. *)
Definition spent_token (w : World) : Prop :=
  ∀ v, v ∈ verifications (w_db w) → v_token_hash v = h → v_purpose v = TokenPurpose_as_str purpose →
    is_none (v_consumed_at v) = false ∨ (v_expires_at v <= w_now w)%Z.

(** Everything else that may happen meanwhile: anything that does not issue the same
    token anew or give a spent one back. *)
Definition not_reissued (w w' : World) : Prop :=
  (w_now w <= w_now w')%Z ∧
  ∀ v, v ∈ verifications (w_db w') → v_token_hash v = h → ∃ v0, v0 ∈ verifications (w_db w) ∧
    v_token_hash v0 = h ∧ v_purpose v0 = v_purpose v ∧ v_expires_at v0 = v_expires_at v ∧
    (is_none (v_consumed_at v0) = false → is_none (v_consumed_at v) = false).

Lemma spent_token_elsewhere w w' : not_reissued w w' → spent_token w → spent_token w'.
Proof.
  intros [Hn Hv] Hs v Hin H1 H2. destruct (Hv v Hin H1) as (v0 & Hin0 & H01 & H02 & H03 & Hc).
  destruct (Hs v0 Hin0 H01) as [|He]; [congruence | by left; apply Hc | right; lia].
Qed.

Lemma spent_token_same w w' :
  w_now w' = w_now w → verifications (w_db w') = verifications (w_db w) → spent_token w → spent_token w'.
Proof. intros Hn Hv Hs v. rewrite Hn, Hv. apply Hs. Qed.

(** An action that leaves the table of the tokens and the clock alone. *)
Lemma safe_token {A} (m : M A) :
  respects (same verifications) m → steady m → safe (fun _ => True) spent_token m.
Proof. intros Hr Hs w _. split; [done|]. apply spent_token_same; [apply Hs | apply Hr]. Qed.

Lemma redeemable_inv pr t v : redeemable h pr t v = true ↔
  v_token_hash v = h ∧ v_purpose v = pr ∧ is_none (v_consumed_at v) = true ∧ (t < v_expires_at v)%Z.
Proof. unfold redeemable. rewrite !andb_true_iff, !String.eqb_eq, Z.ltb_lt. naive_solver. Qed.

(** Consuming succeeds only with a live token, and spends it. *)
Lemma consume_spends w i w' :
  consume_verification_token tok purpose w = (Ok i, w') → ¬ spent_token w ∧ spent_token w'.
Proof.
  unfold consume_verification_token. intros H. ok_step H. apply ok_or_Ok_inv in H as [-> ->].
  apply sql_Ok_inv in Hs as ([= Hf Hv] & Hn & _).
  apply fmap_Some in Hf as (v & (Hr & Hin)%fetch_optional_Some & _).
  apply redeemable_inv in Hr as (H1 & H2 & H3 & H4). split.
  - intros Hs. destruct (Hs v Hin H1 H2); [congruence | lia].
  - intros x. rewrite <- Hv, Hn. wsimpl. intros (v1 & Hv1 & ->)%elem_of_update_where.
    destruct (redeemable _ _ _ v1) eqn:Er; [by left|]. intros Hx1 Hx2.
    destruct (is_none (v_consumed_at v1)) eqn:Ec; [right | by left].
    destruct (Z.leb_spec (v_expires_at v1) (w_now w)); [done|].
    change (redeemable h (TokenPurpose_as_str purpose) (w_now w) v1 = false) in Er.
    by rewrite (proj2 (redeemable_inv _ _ v1)) in Er.
Qed.

(** So does a transaction that begins with it. *)
Lemma transaction_spends {A} (k : string -> M A) w a w' :
  (∀ i, respects (same verifications) (k i)) → (∀ i, steady (k i)) →
  transaction (bind (consume_verification_token tok purpose) k) w = (Ok a, w') → ¬ spent_token w ∧ spent_token w'.
Proof.
  intros Hk Hsk (w0 & w1 & Hd0 & Hn0 & _ & H & Hd & Hn)%transaction_Ok_inv.
  apply bind_Ok_inv in H as (i & w2 & [H1 H2]%consume_spends & H).
  pose proof (Hk i w2) as Hr. pose proof (proj1 (Hsk i w2)) as Hst. rewrite H in Hr, Hst. cbn in Hr, Hst. split.
  - intros Hs. apply H1. apply (spent_token_same w); [done | by rewrite Hd0 | done].
  - apply (spent_token_same w2); [congruence | by rewrite Hd, Hr | done].
Qed.

Lemma shot_consuming {A} (k : string -> M A) (Q : bool -> outcome A AppError -> Prop) :
  (∀ i, respects (same verifications) (k i)) → (∀ i, steady (k i)) →
  (∀ a, Q true (Ok a)) → (∀ e, Q false (Err e)) → Q false Panic →
  shot (fun _ => True) spent_token Q false (atom (transaction (bind (consume_verification_token tok purpose) k))).
Proof.
  intros Hk Hsk Ha He Hp.
  assert (Ht : steady (bind (consume_verification_token tok purpose) k))
    by (apply steady_bind; [unfold consume_verification_token; steady_tac | done]).
  apply shot_spend; [done | | | done..].
  - intros w _ Hs. pose proof (steady_transaction _ Ht w) as [Hn _].
    destruct (transaction _ w) as [[a|e|] w'] eqn:E; cbn [snd] in *;
      [by apply transaction_spends in E as [? _] | |];
      by apply (spent_token_same w); [| rewrite (transaction_atomic _ _ _ _ E) |].
  - intros w a w' _ E. left. apply transaction_spends in E as [? ?]; [|done..]. by split_and!.
Qed.
End Recovery.

Lemma shot_reset {P : Platform} cfg tok pw ctx :
  shot (fun _ => True) (spent_token tok PasswordReset) winner false
    (reset_thread cfg {| rp_token := tok; rp_new_password := pw |} ctx).
Proof.
  apply shot_bind, shot_atom.
  { apply safe_token; unfold hash_password, argon2_of; [respects_tac | steady_tac]. }
  intros [hash|e|]; [|done..]. cbn [and_then rp_token]. apply shot_bind.
  apply shot_consuming; [intros i; respects_tac | intros i; steady_tac | | done..].
  intros u. apply shot_bind, shot_atom; [apply safe_token; [respects_tac | steady_tac]|]. intros r. by apply winner_and_then.
Qed.

Lemma shot_verify_email {P : Platform} tok ctx :
  shot (fun _ => True) (spent_token tok EmailVerify) winner false
    (verify_email_thread {| ve_token := tok |} ctx).
Proof.
  apply shot_bind. cbn [ve_token].
  apply shot_consuming; [intros i; respects_tac | intros i; steady_tac | | done..].
  intros u. apply shot_bind, shot_atom; [apply safe_token; [respects_tac | steady_tac]|]. intros r. by apply winner_and_then.
Qed.

(** ** Refresh tokens *)

(** The random source never runs backwards. *)
Definition draws_on {A} (m : M A) : Prop := ∀ w, w_draws w <= w_draws (snd (m w)).

Lemma draws_on_bind {A B} (m : M A) (k : A -> M B) :
  draws_on m → (∀ a, draws_on (k a)) → draws_on (bind m k).
Proof.
  intros Hm Hk w. unfold bind. specialize (Hm w). destruct (m w) as [[a|e|] w1]; [|cbn in *; lia..].
  specialize (Hk a w1). cbn in *. lia.
Qed.
Lemma draws_on_sql {A} (q : Sql A) : draws_on (sql q).
Proof.
  intros w. unfold sql, exec. destruct (w_faults w) as [|[e|] fs]; [|cbn; lia|];
    destruct (q (w_now w) (w_db w)) as [[a d]|e]; cbn; lia.
Qed.
Lemma draws_on_fresh {A} (f : nat -> A) : draws_on (fresh f).
Proof. intros w. cbn. lia. Qed.
Lemma draws_on_ok_or {A} e (o : option A) : draws_on (ok_or e o).
Proof. intros w. destruct o; cbn; lia. Qed.
Lemma draws_on_guard b e : draws_on (guard b e).
Proof. intros w. destruct b; cbn; lia. Qed.
Lemma draws_on_transaction {A} (m : M A) : draws_on m → draws_on (transaction m).
Proof.
  intros Hm w. unfold transaction. pose proof (draws_on_sql _ : draws_on ping) as Hp.
  pose proof (Hp w) as H0. destruct (ping w) as [[u|e|] w0]; [|cbn in *; lia..]. specialize (Hm w0).
  destruct (m w0) as [[a|e|] w1]; cbn in *; [|lia..].
  pose proof (Hp w1) as H1. destruct (ping w1) as [[u1|e|] w2]; cbn in *; lia.
Qed.
Ltac draws_step :=
  lazymatch goal with
  | |- draws_on (bind _ _) => apply draws_on_bind; [| intros ?]
  | |- draws_on (transaction _) => apply draws_on_transaction
  | |- draws_on (sql _) => apply draws_on_sql
  | |- draws_on (ok_or _ _) => apply draws_on_ok_or
  | |- draws_on (guard _ _) => apply draws_on_guard
  | |- draws_on (random_token _) => apply draws_on_fresh
  | |- draws_on (match ?x with _ => _ end) => destruct x
  | |- draws_on _ => intros ?; cbn; lia
  end.

Section Refreshing.
Context {P : Platform} (cfg : AppConfig) (tok : string).
Let h : string := sha256_hex tok.

(** No session is live under the token. *)
Definition spent_refresh (w : World) : Prop :=
  ∀ s, s ∈ sessions (w_db w) → sr_refresh_token_hash s ≠ h.

(** The keys are unique, and the token is not drawn again. *)
Definition refreshable (w : World) : Prop :=
  db_wf (w_db w) ∧ ∀ n, w_draws w <= n → sha256_hex (draw_alphanumeric n 48) ≠ h.

(** Everything else that may happen meanwhile: no session becomes live under the token. *)
Definition not_reopened (w w' : World) : Prop :=
  w_draws w <= w_draws w' ∧ (db_wf (w_db w) → db_wf (w_db w')) ∧
  ∀ s, s ∈ sessions (w_db w') → sr_refresh_token_hash s = h →
    ∃ s0, s0 ∈ sessions (w_db w) ∧ sr_refresh_token_hash s0 = h.

Lemma not_reopened_keeps w w' : not_reopened w w' → refreshable w →
  refreshable w' ∧ (spent_refresh w → spent_refresh w').
Proof.
  intros (Hd & Hwf & Hs) [Hg Hn]. split; [split; [auto | intros n Hle; apply Hn; lia]|].
  intros Hsp s Hin Hh. destruct (Hs s Hin Hh) as (s0 & Hin0 & H0). by apply (Hsp s0).
Qed.

Lemma refresh_tx_draws ctx : draws_on (refresh_tx cfg h ctx).
Proof. unfold refresh_tx. repeat draws_step. Qed.

Lemma refresh_tx_moves ctx : respects (moves false) (refresh_tx cfg h ctx).
Proof. evolve. Qed.

(** A rotation found the token live, and it is not any more. *)
Lemma refresh_tx_spends ctx w s u new w' : refreshable w →
  transaction (refresh_tx cfg h ctx) w = (Ok (Rotated s u new), w') → ¬ spent_refresh w ∧ spent_refresh w'.
Proof.
  intros [Hwf Hfresh] (w0 & w1 & Hd0 & _ & Hw0 & H & Hd & _)%transaction_Ok_inv.
  unfold refresh_tx in H. ok_step H. apply bind_Ok_inv in H as (rep & w3 & Hrep & H).
  destruct rep as [c|]; [by ok_step H|]. ok_step H.
  rewrite Ho in Hrep. injection Hrep as <-. do 9 ok_step H. injection H as <- <- <- <-.
  apply sql_Ok_inv in Hs as (Hq & _). unfold sql_rotate_session in Hq. sql_branches Hq.
  wsimpl. match goal with E : set_sessions _ _ = w_db w4 |- _ => rename E into Hd4 end.
  apply fmap_Some in Ho as (r & (Hp & Hin)%fetch_optional_Some & ->). apply String.eqb_eq in Hp. rewrite Hd0 in Hin.
  split; [intros Hs; by apply (Hs r)|].
  intros x. rewrite Hd, <- Hd4, Hd2, Hd1, Hd0. wsimpl. intros (y & Hy & ->)%elem_of_update_where.
  destruct (_ =? _)%N eqn:E; cbn; [apply Hfresh; lia|]. intros Hh. apply N.eqb_neq in E. apply E.
  unfold sr_id. do 2 f_equal. eapply (pk_inj sr_refresh_token_hash); [apply Hwf | done.. | congruence].
Qed.

(** A replay detected makes no token live. *)
Lemma refresh_tx_replayed ctx w c w' :
  transaction (refresh_tx cfg h ctx) w = (Ok (Replayed c), w') → spent_refresh w → spent_refresh w'.
Proof.
  intros (w0 & w1 & Hd0 & _ & _ & H & Hd & _)%transaction_Ok_inv Hsp.
  unfold refresh_tx in H. ok_step H. apply bind_Ok_inv in H as (rep & w3 & Hrep & H).
  assert (Hd3 : w_db w3 = w_db w2).
  { destruct (is_none _); [by apply read_Ok_inv in Hrep as (_ & ? & _) | by injection Hrep as _ <-]. }
  destruct rep as [c'|]; [|by do 10 ok_step H]. ok_step H. injection H as _ <-.
  apply sql_Ok_inv in Hs as (Hq & _). injection Hq as _ Hd4.
  intros x. rewrite Hd, <- Hd4, Hd3, Hd1, Hd0. unfold revoke_all. wsimpl.
  intros (y & Hy & ->)%elem_of_update_where. destruct (unrevoked_of _ _); cbn; by apply Hsp.
Qed.

Lemma safe_refresh {A} (m : M A) : respects (moves false) m → respects (same sessions) m → draws_on m →
  safe refreshable spent_refresh m.
Proof.
  intros Hm Hs Hd w [Hg Hn]. specialize (Hs w). specialize (Hd w). specialize (Hm w). split.
  - split; [by apply Hm | intros n Hle; apply Hn; lia].
  - intros Hsp s. rewrite Hs. apply Hsp.
Qed.

Lemma shot_refresh ctx : shot refreshable spent_refresh winner false (refresh_thread cfg tok ctx).
Proof.
  apply shot_bind. apply shot_spend; [| | | done..].
  - intros w [Hwf Hn]. pose proof (respects_transaction _ _ (refresh_tx_moves ctx) w) as Hm.
    pose proof (draws_on_transaction _ (refresh_tx_draws ctx) w) as Hd.
    split; [by apply Hm | intros n Hle; apply Hn; subst h; lia].
  - intros w Hg Hs. destruct (transaction _ w) as [[[c|s u new]|e|] w'] eqn:E; cbn [snd].
    + by eapply refresh_tx_replayed.
    + by destruct (refresh_tx_spends _ _ _ _ _ _ Hg E).
    + intros s. rewrite (transaction_atomic _ _ _ _ E) by done. apply Hs.
    + intros s. rewrite (transaction_atomic _ _ _ _ E) by done. apply Hs.
  - intros w [c|s u new] w' Hg E; [by right | left].
    destruct (refresh_tx_spends _ _ _ _ _ _ Hg E). split; [done|]. split; [done|].
    apply shot_bind, shot_atom.
    + apply safe_refresh; [evolve | unfold generate_access_token; respects_tac | unfold generate_access_token; repeat draws_step].
    + intros r. by apply winner_and_then.
Qed.
End Refreshing.

(** ** The state of a social sign-in *)

Section Callbacks.
Context {P : Platform} {R : Remote} (cfg : AppConfig) (st : string).
Let h : string := sha256_hex st.

Definition upsert_thread (email name : string) (image : option string) (provider_id account_id : string)
    (access_token : option string) (ctx : RequestContext) : Thread AuthResponse :=
  let email := to_ascii_lowercase (trim email) in
  let^ r := atom (transaction (upsert_tx cfg email name image provider_id account_id access_token ctx)) in
  let '(user, session_id, refresh_token) := r in
  do^ atom (record_best_effort (Some (u_id user)) "user.signed_in_social" "session"
              (Some (uuid_show session_id)) ctx (Some (JObj [("provider", JStr provider_id)]))) in
  let^ access_token := atom (generate_access_token cfg user session_id) in
  Done (Ok (auth_response cfg access_token refresh_token session_id user)).

Definition google_thread (code csrf_state : string) (ctx : RequestContext) : Thread AuthResponse :=
  let^ verifier := atom (consume_auth_request "google" csrf_state) in
  let^ client := atom (lift (get_google_client cfg)) in
  let^ access_token := atom (exchange client code verifier) in
  let^ user_info := atom (fetch_json "Google user info" "Google" (google_userinfo access_token)) in
  do^ check (g_verified_email user_info)
        (BadRequest "Your Google email address is not verified. Verify it with Google, then try again.") in
  upsert_thread (g_email user_info) (unwrap_or "Google User" (g_name user_info))
    (g_picture user_info) "google" (g_id user_info) (Some access_token) ctx.

Definition github_thread (code csrf_state : string) (ctx : RequestContext) : Thread AuthResponse :=
  let^ verifier := atom (consume_auth_request "github" csrf_state) in
  let^ client := atom (lift (get_github_client cfg)) in
  let^ access_token := atom (exchange client code verifier) in
  let^ user_info := atom (fetch_json "GitHub user info" "GitHub" (github_user access_token)) in
  let^ emails := atom (fetch_json "GitHub emails" "GitHub" (github_emails access_token)) in
  let^ email := atom (ok_or (BadRequest "No verified primary email found on your GitHub account")
    (ge_email <$> List.find (fun e => ge_primary e && ge_verified e)%bool emails)) in
  let display_name := unwrap_or (gh_login user_info) (gh_name user_info) in
  upsert_thread email display_name (gh_avatar_url user_info) "github"
    (show_Z (gh_id user_info)) (Some access_token) ctx.

Ltac same_run := rewrite ?run_tbind; apply bind_ext; [by rewrite ?run_atom, ?run_check | intros ? ?].

Lemma upsert_thread_run email name image pid aid tok ctx w :
  run (upsert_thread email name image pid aid tok ctx) w = upsert_oauth_user cfg email name image pid aid tok ctx w.
Proof. unfold upsert_thread. cbv zeta. same_run. destruct a as [[u sid] rt]. by repeat same_run. Qed.
Lemma google_thread_run code ctx w : run (google_thread code st ctx) w = handle_google_callback cfg code st ctx w.
Proof. unfold google_thread. do 5 same_run. apply upsert_thread_run. Qed.
Lemma github_thread_run code ctx w : run (github_thread code st ctx) w = handle_github_callback cfg code st ctx w.
Proof. unfold github_thread. do 6 same_run. apply upsert_thread_run. Qed.

(** The keys are unique; every flow stored under the state is over. *)
Definition states_unique (d : Db) : Prop := unique_on (pk oa_state_hash) (oauth_auth_requests d).
Definition spent_state (d : Db) : Prop :=
  ∀ r, r ∈ oauth_auth_requests d → oa_state_hash r = h → oa_consumed_at r ≠ None.

(** Everything else that may happen meanwhile: nobody stores the same state anew. *)
Definition not_restarted (w w' : World) : Prop :=
  (states_unique (w_db w) → states_unique (w_db w')) ∧
  ∀ r, r ∈ oauth_auth_requests (w_db w') → oa_state_hash r = h → ∃ r0, r0 ∈ oauth_auth_requests (w_db w) ∧
    oa_state_hash r0 = h ∧ (oa_consumed_at r0 ≠ None → oa_consumed_at r ≠ None).

Abbreviation safe_here := (safe (fun w => states_unique (w_db w)) (fun w => spent_state (w_db w))).
Abbreviation shot_here := (shot (fun w => states_unique (w_db w)) (fun w => spent_state (w_db w)) winner).

Lemma safe_state {A} (m : M A) : respects (same oauth_auth_requests) m → safe_here m.
Proof. intros Hr w Hg. specialize (Hr w). unfold states_unique, spent_state. rewrite Hr. by split. Qed.

Lemma consume_keeps provider I : (I = states_unique ∨ I = spent_state) →
  respects (keeps I) (consume_auth_request provider st).
Proof.
  intros HI. unfold consume_auth_request. apply respects_bind; [exact _ | | intros a; apply respects_ok_or; exact _]. apply respects_exec; [exact _|].
  intros t d a d' [= _ <-] H. destruct HI as [-> | ->].
  - apply unique_on_update; [by intros r _ _ | exact H].
  - intros r. cbn. intros (y & Hy & ->)%elem_of_update_where. destruct (pending_request _ _ _ y); [done | by apply H].
Qed.

Lemma shot_consume_state provider (Q : bool -> outcome string AppError -> Prop) :
  (∀ v, Q true (Ok v)) → (∀ e, Q false (Err e)) → Q false Panic →
  shot (fun w => states_unique (w_db w)) (fun w => spent_state (w_db w)) Q false
    (atom (consume_auth_request provider st)).
Proof.
  intros Hv He Hp. apply shot_spend; [| | | done..].
  - intros w Hg. apply (consume_keeps provider states_unique); [by left | done].
  - intros w _ Hs. apply (consume_keeps provider spent_state); [by right | done].
  - intros w v w' Hg H. left. apply consume_auth_request_Ok in H as ((r & Hr & Hh & _ & Hc & _) & _ & Hsp).
    split; [intros Hs; by destruct (Hs r) | split; [exact (Hsp Hg) | done]].
Qed.

Lemma shot_upsert email name image pid aid tok ctx : shot_here true (upsert_thread email name image pid aid tok ctx).
Proof.
  apply shot_bind, shot_atom.
  { apply safe_state. unfold upsert_tx, encrypt, create_oauth_session, create_session. respects_tac. }
  intros r. apply winner_and_then. intros [[u sid] rt].
  apply shot_bind, shot_atom; [apply safe_state; respects_tac|]. intros r1. apply winner_and_then. intros _.
  apply shot_bind, shot_atom; [apply safe_state; unfold generate_access_token; respects_tac|].
  intros r2. by apply winner_and_then.
Qed.

Lemma not_restarted_keeps w w' : not_restarted w w' → states_unique (w_db w) →
  states_unique (w_db w') ∧ (spent_state (w_db w) → spent_state (w_db w')).
Proof.
  intros [Hu Hr] Hg. split; [by apply Hu|]. intros Hs r Hin Hh.
  destruct (Hr r Hin Hh) as (r0 & Hin0 & H0 & Hc). by apply Hc, Hs.
Qed.

Ltac shot_pure :=
  apply shot_bind, shot_atom; [apply safe_state; unfold exchange, fetch_json; respects_tac|];
  intros ?; apply winner_and_then; intros ?.

Lemma shot_google code ctx : shot_here false (google_thread code st ctx).
Proof.
  apply shot_bind, shot_consume_state; [intros v | done..]. unfold and_then. do 3 shot_pure.
  apply shot_bind. cbn. destruct (g_verified_email _); [apply shot_upsert | done].
Qed.
Lemma shot_github code ctx : shot_here false (github_thread code st ctx).
Proof.
  apply shot_bind, shot_consume_state; [intros v | done..]. unfold and_then. do 5 shot_pure. apply shot_upsert.
Qed.
End Callbacks.

(** ** Properties *)

(** The requests that present a credential, not started. *)
Definition recovery_attempt {P : Platform} (cfg : AppConfig) (tok : string) (purpose : TokenPurpose)
    (t : Thread string) : Prop :=
  match purpose with
  | PasswordReset => ∃ pw ctx, t = reset_thread cfg {| rp_token := tok; rp_new_password := pw |} ctx
  | EmailVerify => ∃ ctx, t = verify_email_thread {| ve_token := tok |} ctx
  end.
Definition refresh_attempt {P : Platform} (cfg : AppConfig) (tok : string) (t : Thread AuthResponse) : Prop :=
  ∃ ctx, t = refresh_thread cfg tok ctx.
Definition callback_attempt {P : Platform} {R : Remote} (cfg : AppConfig) (st : string) (t : Thread AuthResponse)
  : Prop :=
  ∃ code ctx, t = google_thread cfg code st ctx ∨ t = github_thread cfg code st ctx.

(** C12: A recovery token works once, in parallel too. Any number of requests that present
    it, to reset a password or to verify an address, may overlap in any way, the
    database may fail at any statement, and anything but issuing the same token
    anew may happen in between: at most one of them succeeds, and none when the
    token was used or expired before. *)
Theorem recovery_wins_once {P : Platform} (cfg : AppConfig) (tok : string) (purpose : TokenPurpose) (w w' : World)
    (ts ts' : list (Thread string)) :
  (∀ t, t ∈ ts → recovery_attempt cfg tok purpose t) →
  rtc (sys_step (fun _ => False) (not_reissued tok)) (w, ts) (w', ts') →
  total_weight succeeded ts' <= 1 ∧ (spent_token tok purpose w → total_weight succeeded ts' = 0).
Proof.
  intros Hts Hrun.
  assert (Hshot : ∀ t, t ∈ ts → shot (fun _ => True) (spent_token tok purpose) winner false t).
  { intros t Ht%Hts. destruct purpose; [destruct Ht as (ctx & ->) | destruct Ht as (pw & ctx & ->)];
      [apply shot_verify_email | apply shot_reset]. }
  assert (Henv : ∀ w1 w2, not_reissued tok w1 w2 → True → True ∧ (spent_token tok purpose w1 → spent_token tok purpose w2)).
  { intros w1 w2 He _. split; [done | by apply spent_token_elsewhere]. }
  split; [exact (one_wins _ _ _ Henv _ _ _ _ I Hshot Hrun) |
    intros Hs; exact (none_wins _ _ _ Henv _ _ _ _ I Hs Hshot Hrun)].
Qed.

(** C31: A refresh token works once, in parallel too. Any number of requests that present
    it may overlap in any way, whatever fails and whatever else happens, as long
    as no other session becomes live under the same token: at most one of them
    succeeds, and none when no session was live under it. *)
Theorem refresh_wins_once {P : Platform} (cfg : AppConfig) (tok : string) (w w' : World)
    (ts ts' : list (Thread AuthResponse)) :
  refreshable tok w → (∀ t, t ∈ ts → refresh_attempt cfg tok t) →
  rtc (sys_step (fun _ => False) (not_reopened tok)) (w, ts) (w', ts') →
  total_weight succeeded ts' <= 1 ∧ (spent_refresh tok w → total_weight succeeded ts' = 0).
Proof.
  intros Hg Hts Hrun.
  assert (Hshot : ∀ t, t ∈ ts → shot (refreshable tok) (spent_refresh tok) winner false t).
  { intros t (ctx & ->)%Hts. apply shot_refresh. }
  pose proof (not_reopened_keeps tok) as Henv.
  split; [exact (one_wins _ _ _ Henv _ _ _ _ Hg Hshot Hrun) |
    intros Hs; exact (none_wins _ _ _ Henv _ _ _ _ Hg Hs Hshot Hrun)].
Qed.


(** ** Runs *)

Definition results {A} (s : System A) : list (option (outcome A AppError)) :=
  map (fun t => match t with Done r => Some r | _ => None end) (snd s).

(** Turn by turn. *)
Definition turns {A} (l : list nat) (s : System A) : System A := follow (map (fun i => (i, None)) l) s.

Lemma turns_steps {A} env l (s : System A) : rtc (sys_step (fun _ => False) env) s (turns l s).
Proof. apply follow_steps, Forall_forall. by intros cmd (i & -> & _)%list_elem_of_fmap t [=]. Qed.

(** Two resets with one token overlap: the second to commit is refused. *)
Module ResetExample.
Definition token : string := @draw_alphanumeric toy 0 48.
Definition attempt (pw : string) : Thread string :=
  @reset_thread toy Example.cfg {| rp_token := token; rp_new_password := pw |} Example.ctx.
Definition start : System string := (snd Example_token, [attempt "mine"; attempt "yours"]).
Definition finish : System string := turns [0; 1; 1; 0; 0; 1; 0; 1] start.
End ResetExample.

Example resets_in_parallel :
  results ResetExample.finish
  = [Some (Err (BadRequest "Invalid, expired, or already-used token"));
     Some (Ok "Password has been reset successfully. All sessions were signed out.")].
Proof. vm_compute. reflexivity. Qed.

Lemma recovery_wins_once_witness : total_weight succeeded (snd ResetExample.finish) <= 1.
Proof.
  apply (@recovery_wins_once toy Example.cfg ResetExample.token PasswordReset (fst ResetExample.start)
    (fst ResetExample.finish) (snd ResetExample.start) (snd ResetExample.finish)).
  - intros t H. repeat (apply elem_of_cons in H as [->|H]; [by eexists _, _|]). by apply not_elem_of_nil in H.
  - rewrite <- !surjective_pairing. apply turns_steps.
Defined.

(** Two refreshes with one token overlap: the second to commit is taken for a
    replay, and what the first was given is revoked with the rest. *)
Module RefreshExample.
Definition attempt : Thread AuthResponse := @refresh_thread toy Example.cfg "refresh-3" Example.ctx.
Definition start : System AuthResponse := (Example.w, [attempt; attempt]).
Definition finish : System AuthResponse := turns [1; 0; 1; 0] start.
End RefreshExample.

Example refreshes_in_parallel :
  match snd RefreshExample.finish with
  | [Done (Err (Unauthorized _)); Done (Ok r)] =>
      is_ok (fst (resolve_session 1%N (ar_session_id r) (fst RefreshExample.finish))) = false
  | _ => False
  end.
Proof. vm_compute. reflexivity. Qed.

Lemma toy_draw_fresh n : @sha256_hex toy (@draw_alphanumeric toy n 48) ≠ @sha256_hex toy "refresh-3".
Proof. intros H. apply (f_equal (String.get 1)) in H. cbn in H. discriminate H. Qed.

Lemma refresh_wins_once_witness : total_weight succeeded (snd RefreshExample.finish) <= 1.
Proof.
  apply (@refresh_wins_once toy Example.cfg "refresh-3" (fst RefreshExample.start) (fst RefreshExample.finish)
    (snd RefreshExample.start) (snd RefreshExample.finish)).
  - split; [apply example_wf | intros n _; apply toy_draw_fresh].
  - intros t H. repeat (apply elem_of_cons in H as [->|H]; [by eexists|]). by apply not_elem_of_nil in H.
  - rewrite <- !surjective_pairing. apply turns_steps.
Defined.

(** Two callbacks with one state, Google's and GitHub's. *)
Module CallbackExample.
Definition start : System AuthResponse :=
  (Example_started, [@google_thread toy toy_remote Example_config "a" "csrf1" Example.ctx;
                     @github_thread toy toy_remote Example_config "b" "csrf1" Example.ctx;
                     @google_thread toy toy_remote Example_config "c" "csrf1" Example.ctx]).
Definition finish : System AuthResponse := turns (concat (replicate 8 [1; 0; 2])) start.
End CallbackExample.

Example callbacks_in_parallel : map (fun o => is_some_and is_ok o) (results CallbackExample.finish) = [true; false; false].
Proof. vm_compute. reflexivity. Qed.


(** A sign-in with the old password overlaps a reset: it compared before the reset
    committed and opens its session afterwards. The session outlives the reset
    that signed everybody out. *)
Module RaceExample.
Definition sign_in : Thread (AuthResponse + string) :=
  tbind (@sign_in_thread toy Example.cfg {| si_email := "ada@example.com"; si_password := "right" |} Example.ctx)
    (fun r => Done (Ok (inl r))).
Definition reset : Thread (AuthResponse + string) :=
  tbind (ResetExample.attempt "new") (fun r => Done (Ok (inr r))).
Definition finish : System (AuthResponse + string) :=
  turns [0; 0; 0; 1; 1; 1; 0; 0; 0] (snd Example_token, [sign_in; reset]).
End RaceExample.

Example session_survives_reset :
  match snd RaceExample.finish with
  | [Done (Ok (inl r)); Done (Ok (inr m))] =>
      m = "Password has been reset successfully. All sessions were signed out." ∧
      is_ok (fst (resolve_session 1%N (ar_session_id r) (fst RaceExample.finish))) = true
  | _ => False
  end.
Proof. vm_compute. by split. Qed.
