(* ===== verification/Transfers.v ===== *)
(** * Presigned uploads that overlap ([services/storage.rs])

    The two requests of a presigned upload as threads: the bytes sent against a
    signed grant, and the completion. Each looks at the row in one statement and
    acts on it in a later one; the runs here show what comes between. *)
From stdpp Require Import gmap.
From S2P Require Import Prelude RustStr Models Errors Platform World Crypto Disk StorageBackend BackendLaws.
From S2P Require Import Auth Schema AuthProofs Threads Orgs Storage StorageProofs OneShot.

Section Handlers.
Context {P : Platform} {B : StorageBackend} (cfg : AppConfig).

Definition accept_thread (storage_key : string) (expires : Z) (signature body : string) : Thread unit :=
  let^ ok := atom (verify_url_signature cfg "PUT" storage_key expires signature) in
  do^ check ok (Forbidden "Invalid or expired upload signature") in
  do^ check (str_len body <=? max_upload_bytes cfg)%Z
        (PayloadTooLarge ("Upload exceeds the " +:+ show_Z (max_upload_bytes cfg) +:+ " byte limit")) in
  let^ mime := atom (sql (sql_read (fun _ d => q_pending_mime storage_key d))) in
  let^ mime := atom (ok_or (NotFound "No pending upload for this key") mime) in
  atom (sb_put_bytes storage_key body mime).

Definition adopt_thread (file_id : Uuid) (record : FileRecord) (meta : ObjectMeta + AppError) : Thread FileRecord :=
  match meta with
  | inr _ => Done (Err (BadRequest "No uploaded object found for this reservation. Upload the bytes first."))
  | inl meta =>
      do^ check (negb (om_len meta =? 0)%Z) (BadRequest "Uploaded object is empty") in
      if (max_upload_bytes cfg <? om_len meta)%Z then
        do^ atom (attempt (sb_delete (f_storage_key record))) in
        do^ atom (sql (sql_delete_file file_id)) in
        Done (Err (PayloadTooLarge ("Uploaded object is " +:+ show_Z (om_len meta) +:+ " bytes, over the "
               +:+ show_Z (max_upload_bytes cfg) +:+ " byte limit")))
      else
        let^ updated := atom (sql (sql_mark_ready file_id (om_len meta))) in
        Done (Ok (unwrap_or record updated))
  end.

Definition complete_thread (file_id actor_id : Uuid) (role : string) : Thread FileRecord :=
  let^ record := atom (sql (sql_read (fun _ d => q_file file_id d))) in
  let^ record := atom (ok_or (NotFound "File not found") record) in
  do^ atom (authorize_write record actor_id role) in
  if f_status record =s "ready" then Done (Ok record)
  else
    let^ meta := atom (attempt (sb_head (f_storage_key record))) in
    adopt_thread file_id record meta.

Ltac same_run := rewrite ?run_tbind; apply bind_ext; [by rewrite ?run_atom, ?run_check | intros ? ?].

Lemma accept_thread_run key expires signature body w :
  run (accept_thread key expires signature body) w = accept_signed_upload cfg key expires signature body w.
Proof. unfold accept_thread. do 5 same_run. apply run_atom. Qed.

Lemma complete_thread_run fid actor role w :
  run (complete_thread fid actor role) w = complete_upload cfg fid actor role w.
Proof.
  unfold complete_thread. do 3 same_run. destruct (_ =s _); [done|]. same_run. unfold adopt_thread.
  match goal with |- context [match ?x with inl _ => _ | inr _ => _ end] => destruct x as [meta|e] end; [|done].
  same_run. destruct (_ <? _)%Z; by repeat same_run.
Qed.
End Handlers.

(** ** Runs *)

Module TransferExample.
Definition B : StorageBackend := LocalBackend "uploads".
Definition grant : string := @sign toy (url_signing_key Example.cfg) (signing_payload "PUT" "20.png" 2).
Definition upload (body : string) : Thread (unit + FileRecord) :=
  tbind (@accept_thread toy B Example.cfg "20.png" 2 grant body) (fun r => Done (Ok (inl r))).
Definition complete : Thread (unit + FileRecord) :=
  tbind (@complete_thread B Example.cfg 20%N 1%N "user") (fun r => Done (Ok (inr r))).
(** The reservation, with five bytes stored under its key. *)
Definition w : World := FileExample2.w "pending" {["uploads/20.png" := "12345"]}.
(** The upload has checked that the reservation is pending when it is completed. *)
Definition overwritten : System (unit + FileRecord) :=
  turns [0; 0; 0; 1; 1; 1; 1; 1; 0] (w, [upload "replaced"; complete]).
(** Two completions, one statement behind the other. *)
Definition twice : System (unit + FileRecord) := turns (concat (replicate 5 [0; 1])) (w, [complete; complete]).
End TransferExample.

(** A ready file's bytes are not final: an upload under way while the reservation is
    completed replaces them, and the size recorded and answered is not theirs. *)
Example bytes_replaced_after_completion :
  match snd TransferExample.overwritten with
  | [Done (Ok (inl tt)); Done (Ok (inr f))] =>
      f_status f = "ready" ∧ f_size_bytes f = 5%Z ∧
      w_disk (fst TransferExample.overwritten) !! "uploads/20.png" = Some "replaced" ∧
      q_ready_file 20%N (w_db (fst TransferExample.overwritten)) = Some f
  | _ => False
  end.
Proof. vm_compute. by split_and!. Qed.

(** Of two completions that overlap, the second is answered with the record as it
    was before either: still pending, and empty. *)
Example second_completion_stale :
  match snd TransferExample.twice with
  | [Done (Ok (inr f)); Done (Ok (inr g))] =>
      f_status f = "ready" ∧ f_size_bytes f = 5%Z ∧ f_status g = "pending" ∧ f_size_bytes g = 0%Z
  | _ => False
  end.
Proof. vm_compute. by split_and!. Qed.
